(* ===== verification/_CoqProject ===== *)
-Q . S2P
Prelude.v
Domain.v
Tx.v
Database.v
Sql.v
Workers.v
Counting.v
GoStrings.v
GoFloat.v
GoNet.v
GoHttp.v
Mediagate.v
Netguard.v
Monitor.v
Catalog.v
Paging.v
TaskRouting.v
Callbacks.v
Queue.v
Stages.v
Artifacts.v
Remote.v
Tasks.v
Official.v
Delivery.v
Nodes.v
Config.v
NodeAPI.v
ArtifactService.v
Normalize.v
Router.v
InputSpool.v
Gradio.v
LegacyWorker.v
StageInputs.v
Orchestrator.v
Settings.v
Cleanup.v
Lifecycle.v
RemoteInputs.v
TK2SD.v
RemoteWorker.v
ResultAccess.v
InputObjects.v
Reachable.v
StageHistory.v
OrchestratorSafety.v
RemoteSafety.v
CallbackWorker.v
LegacySafety.v
OfficialWorker.v
OfficialSafety.v
Runtime.v
Registry.v
Inventory.v
ClientAPI.v
ClientCreate.v
ClientSafety.v
ClientAccess.v
DeliveryWorker.v
CleanupWorker.v
Samples.v
Witnesses.v
WorkerWitnesses.v
NodeWitnesses.v
ClientWitnesses.v
