(* ===== verification/Prelude.v ===== *)
(** * MiniMax-H3-Proxy: the task store, its routing and its workers, verified

    The proxy accepts video generation requests over HTTP, keeps them as tasks
    in one SQLite database and has background workers run them on upstream
    nodes of four protocols.  The workers share nothing but the database: what
    keeps a task from being lost, run twice, over-admitted or run on the wrong
    node is decided by the transactions of internal/store/sqlite, together with
    the validation of requests (internal/protocol), the capability language
    (internal/domain) and the choice of a route (internal/routing).  This
    library models those parts, statement by statement, and the workers that
    drive them, call by call, and proves what they promise to each other, to
    the services they talk to and to the clients.

    ** The model

    A database ([Database.DB]) is a record of tables; a table is the list of its
    rows, a row a record of the columns the statements use, a nullable column an
    option.  A text column with a closed vocabulary is an inductive type, a JSON
    column is what decoding it yields ([json_text]).  An operation of the store
    is a body in the monad of [Tx] between BEGIN IMMEDIATE and COMMIT or
    ROLLBACK: [immediate] rolls back to the database it started from on every
    error; [immediate_shadowed] is the same for the functions whose error result
    is not named, where the deferred completeTransaction does not see an error
    held in a shadowing variable and commits; [statement] is one statement
    outside a transaction.  [Sql] gives UPDATE, INSERT, DELETE and the
    constraints, unique indexes and triggers of migrations/*.sql: a statement
    that would break one raises [ErrConstraint].  Time, identifiers, SHA-256,
    json.Valid and the parsing of URLs come from [Sql.Env] or a section
    variable, so every theorem holds for all of them.

    A pass of a worker is a tree of interactions ([Workers.Prog]): operations of
    the store, calls of a client, readings of the clock and of the context.
    [Workers.steps] interleaves any number of passes with each other and with
    any other operations of the store, lets a pass stop anywhere, an operation
    fail without effect and a client answer anything; [Workers.wp] is a
    rely-guarantee logic for one pass and [adequacy] lifts it to all of them.
    [plays] and [run] are one pass alone, with any answers or with given ones.

    ** Files

    - Prelude: record update, SQL idioms (NULLIF, COALESCE, count, update,
      delete, ORDER BY, joins), 64-bit wrap-around, shared list lemmas;
    - Domain: internal/domain/{task,model_routing,generation_request}.go,
      internal/protocol/registry.go: statuses, capabilities, the registry;
    - Tx: store.go [immediate], [completeTransaction]; relations preserved
      along a body;
    - Database, Sql: the tables, their constraints and triggers, statements;
    - Workers, Counting: programs over the store, their logic, and calls counted
      along them;
    - GoStrings, GoFloat: UTF-8, the string functions of Go the code calls, and
      float64;
    - GoNet, Netguard: net/netip, and internal/netguard/url.go, the guard of
      outgoing requests;
    - GoHttp: requests, responses and decoded JSON values;
    - Monitor: internal/monitor/cache.go, the states of nodes kept in memory;
    - Mediagate: internal/mediagate, the check of what a node claims of a video;
    - Catalog: model_catalog_store.go, model_route_store.go;
    - Paging: the keyset paging loops shared by the two claim scans;
    - TaskRouting: task_routing_store.go (prepareTaskRouting,
      taskEligibleForNode, nextEligibleTask);
    - Callbacks: callback_store.go, the outbox of notifications;
    - Queue: reads, listings, public status and rebalance of store.go,
      task_status.go, input_spool_store.go;
    - Stages: stage_store.go, dispatch_barrier.go;
    - Artifacts: artifact_store.go, artifact_location_store.go,
      deletion_store.go, task_purge_store.go;
    - Remote: remote_task_store.go, runs of the TK2SD protocol;
    - Tasks: store.go, creation, legacy claims and transitions, cancellation,
      deletion, retention;
    - Official: official_task_store.go;
    - Delivery: the upload jobs of result_delivery_store.go;
    - Nodes: model_node.go;
    - Config: internal/config, the configuration and the normalization of nodes;
    - NodeAPI: internal/upstream/nodeapi, the client of an H3 node;
    - ArtifactService: internal/artifact, downloads and migration of artifacts;
    - Normalize: internal/protocol/{h3,tk2sd,registry}.go;
    - Router: internal/routing/service.go over an interface ([RouteStore]) the
      store implements, and BindLegacyTaskRoute;
    - InputSpool: internal/inputspool, data URIs to files and back;
    - Gradio, LegacyWorker, LegacySafety: internal/upstream/gradio, the client of
      legacy nodes, internal/worker, their worker, and how often it submits;
    - StageInputs, Orchestrator: internal/orchestrator, the worker of H3 nodes;
    - Settings: object storage configuration, external API keys with
      internal/authkey, request profiles;
    - Cleanup: cleanup_store.go, previews and jobs of artifact cleanup;
    - Lifecycle: [step], one operation by anybody, and what no sequence of
      steps can do to a task and its run;
    - Reachable: the invariant of every database a history leads to, over an
      interface ([TableWf]) each table discharges;
    - StageHistory, OrchestratorSafety: what no operation does to a stage, an
      attempt and a barrier, and what all orchestrators together ask of nodes;
    - RemoteInputs, RemoteWorker, RemoteSafety: internal/remote, the worker of
      TK2SD nodes, and what all such workers together ask of a service;
    - OfficialWorker, OfficialSafety: internal/official, internal/domain/
      official_error.go, likewise for the official service;
    - CallbackWorker: internal/callback, delivery of notifications;
    - ResultAccess: internal/remote/result_access.go, results of TK2SD nodes asked
      for again when a client wants them;
    - InputObjects: internal/inputobject, media uploaded before a task is created;
    - ClientAPI, ClientCreate, ClientSafety, ClientAccess: internal/httpapi/v2, the
      handlers of the clients, and what they answer to whom;
    - DeliveryWorker: internal/resultdelivery, tk2sd/download.go, results to the
      object storage;
    - CleanupWorker: internal/cleanup, copies deleted on nodes;
    - Samples, Witnesses, WorkerWitnesses, NodeWitnesses, ClientWitnesses: runs from
      the empty database and the theorems applied at them.

    ** What is proved

    Histories (Lifecycle, Reachable): tasks are never lost or rewritten, a
    remote submission is never repeated under another identity, results and
    routes are written once, the schema and the queue order hold in every
    reachable database, which discharges the [tbl_valid] hypotheses of the
    other theorems.  Admission and the queue (Tasks, Queue, TaskRouting, Stages,
    Paging): limits, idempotent creation, exact queue protection, and the paged
    scans return, within the fuel given, exactly what one scan of the whole
    queue returns, so that claims are first come first served.  Claims and
    leases (Stages, Remote, Official, Delivery, Callbacks): capacity, exclusion
    while a lease lasts, completion at most once, bounded attempts, barriers
    after a cancellation.  Configuration and routes (Catalog, Nodes, Router,
    Normalize, Domain): discovery enables nothing, a node in use keeps its
    connection, a node with work is not deleted, a routing decision is justified
    and the store accepts it, validation is sound and idempotent.  Keys
    (Settings): a token is accepted exactly while its key is stored and
    enabled.  Workers: over all interleavings and crashes a remote task is
    submitted under one identity and only after its intent is recorded
    (RemoteSafety), an execution is asked of a node only as a recorded attempt has
    it (OrchestratorSafety), an official task is submitted at most once over all passes
    (OfficialSafety), a legacy task once and at most once more (LegacySafety), a result is downloaded at most as often as its upload job
    has attempts (DeliveryWorker), a cleanup removes what was previewed, once
    (Cleanup), and its worker's pass ends (CleanupWorker), every notification
    whose target opens is settled after finitely many passes with an exact, capped backoff (CallbackWorker), and a
    guarded client connects to public addresses only, follows finitely many
    redirects and reads bounded bodies (Netguard).  Downloads of artifacts are
    for their owners, within the limits, and leak no slot (ArtifactService); the
    media gate passes only what was asked for (Mediagate); a configuration that
    loads is complete (Config); every medium of a request reaches its own argument
    of a legacy node, and its event streams are read as written (Gradio).  Clients (ClientSafety, ClientAccess,
    ResultAccess): a request without a key in force does nothing, the tasks of
    another owner do not exist, a task that is announced is stored for the caller, a
    request sent again under its key gets the task it made although it is normalized
    anew, files go to who may have them, and a result URL handed out is good.
    Errors: some theorems prove behaviour the code does not mean to have.

    ** Fuel and bounds

    The paging loops run with [S (length tasks)] rounds, or one round more than
    the number of pairs of a stage and a task: every page but the last has 100
    rows, so this is always enough ([nextEligibleTask_refines],
    [nextEligibleStage_refines]).  Integers are unbounded except where the code
    can overflow: page offsets are Go's 64-bit int ([wrap64]).  Durations are
    nanoseconds, divided as Go divides; delays are 64-bit ([backoff_exact]).
    A polling loop takes the number of waits after which its context ends, and
    the theorems hold for every number; redirects have one round more than the
    limit, which is enough ([Do_terminates]).  Durations of media are float64
    of the Standard Library's SpecFloat.

    ** Not modelled

    Faults of SQLite and of the driver other than constraints and triggers, and
    the CHECKs that a column holds valid JSON; foreign keys, except for the
    DELETE of tasks; one operation reads the clock once.  Marshalling and
    unmarshalling a value is the identity, and nil and empty slices are the
    same.  A sealed secret is its fingerprint or ciphertext text.  url.Parse,
    url.ParseQuery, strings.EqualFold, HMAC, ciphers, the Unicode script tables
    and the text of JSON bodies are variables of the code that calls them.  The
    clock counts milliseconds.  Timers, log records and the goroutines that only
    repeat a pass are left out.  Opening and migrating the database
    (DDL and data migration), the administrator's handlers, the other upstream
    clients and the dashboards, which decode JSON and pass it on, are not modelled. *)

From stdpp Require Export base numbers list list_numbers strings option sorting sets.
From Stdlib Require Export ZArith.

#[global] Open Scope Z_scope.
#[global] Open Scope list_scope.

(** ** Functional record update

    Go code and SQL statements change a few columns of wide rows.  A record
    type with an [Eta] instance gets [r <| p := v |>] for each projection [p];
    the setter is computed from the eta-expansion by the hint below. *)

Class Eta (R : Type) := eta : R → R.
Class Setter {R T : Type} (proj : R → T) := over : (T → T) → R → R.
Arguments over {R T} proj {_} _ _.
#[global] Hint Mode Eta ! : typeclass_instances.

Ltac make_setter proj :=
  lazymatch goal with
  | |- @Setter ?R ?T _ =>
    let e := constr:(_ : Eta R) in
    let e := eval unfold eta in (@eta R e) in
    let e := eval red in e in
    let s := eval pattern proj in e in
    lazymatch s with
    | ?F _ =>
      let r := eval cbv beta in (λ f : T → T, F (λ r : R, f (proj r))) in
      exact r
    end
  end.
#[export] Hint Extern 0 (Setter ?p) => make_setter p : typeclass_instances.

Declare Scope store_scope.
Delimit Scope store_scope with store.
Notation "r <| p := v |>" := (over p (λ _, v) r)
  (at level 1, left associativity, format "r  <| p  :=  v |>") : store_scope.
Notation "x ≟ y" := (bool_decide (x = y))
  (at level 70, no associativity) : store_scope.
Notation "x ∈? l" := (bool_decide (x ∈ l))
  (at level 70, no associativity) : store_scope.
#[global] Open Scope store_scope.

(** ** SQL idioms used by the statements of the store *)

(** [NULLIF(?,'')] and [COALESCE(col,'')]. *)
Definition nullif_str (s : string) : option string :=
  if s ≟ "" then None else Some s.
Definition coalesce_str (o : option string) : string := default "" o.

(** [NULLIF(?,0)] and [COALESCE(col,0)]. *)
Definition nullif_int (z : Z) : option Z := if z ≟ 0 then None else Some z.
Definition coalesce_int (o : option Z) : Z := default 0 o.

(** [COALESCE(col,?)]: keep a value that is present. *)
Definition coalesce {A} (o : option A) (x : A) : option A :=
  Some (default x o).

(** A comparison with NULL is not true. *)
Definition sql_le (o : option Z) (z : Z) : bool :=
  match o with Some x => x <=? z | None => false end.
Definition sql_gt (o : option Z) (z : Z) : bool :=
  match o with Some x => z <? x | None => false end.
(** [col IS NULL OR col<=?] *)
Definition null_or_le (o : option Z) (z : Z) : bool :=
  match o with Some x => x <=? z | None => true end.

Definition is_null {A} (o : option A) : bool :=
  match o with Some _ => false | None => true end.

Section sql.
Context {A : Type}.
Implicit Types (p q : A → bool) (f : A → A) (l : list A).

(** [SELECT COUNT( * ) FROM l WHERE p] *)
Definition count_where p l : Z := Z.of_nat (length (List.filter p l)).

(** [UPDATE l SET f WHERE p] *)
Definition update_where p f l : list A := map (λ x, if p x then f x else x) l.

(** [DELETE FROM l WHERE p] *)
Definition delete_where p l : list A := List.filter (λ x, negb (p x)) l.

(** [EXISTS(SELECT 1 FROM l WHERE p)] *)
Definition exists_where p l : bool := existsb p l.
End sql.

(** [ORDER BY key], keys compared as integers. *)
Definition order_by {A} (key : A → Z) : list A → list A :=
  @merge_sort A (λ x y, key x ≤ key y) (λ x y, Z_le_dec (key x) (key y)).

(** [ORDER BY created_at,id]: an integer, then text in byte order. *)
Definition key_le (x y : Z * string) : Prop :=
  x.1 < y.1 ∨ (x.1 = y.1 ∧ String.leb x.2 y.2 = true).
#[export] Instance key_le_dec x y : Decision (key_le x y).
Proof. unfold key_le. apply _. Defined.
Definition order_by_key {A} (key : A → Z * string) : list A → list A :=
  @merge_sort A (λ x y, key_le (key x) (key y)) (λ x y, key_le_dec (key x) (key y)).

(** [ORDER BY a,b]: two texts in byte order. *)
Definition text2_le (x y : string * string) : Prop :=
  String.ltb x.1 y.1 = true ∨ (x.1 = y.1 ∧ String.leb x.2 y.2 = true).
#[export] Instance text2_le_dec x y : Decision (text2_le x y).
Proof. unfold text2_le. apply _. Defined.
Definition order_by_text {A} (key : A → string * string) : list A → list A :=
  @merge_sort A (λ x y, text2_le (key x) (key y)) (λ x y, text2_le_dec (key x) (key y)).

(** [ORDER BY a,b,c]: three texts. *)
Definition text3_le (x y : string * string * string) : Prop :=
  String.ltb x.1.1 y.1.1 = true ∨ (x.1.1 = y.1.1 ∧ text2_le (x.1.2, x.2) (y.1.2, y.2)).
#[export] Instance text3_le_dec x y : Decision (text3_le x y).
Proof. unfold text3_le. apply _. Defined.
Definition order_by_text3 {A} (key : A → string * string * string) : list A → list A :=
  @merge_sort A (λ x y, text3_le (key x) (key y)) (λ x y, text3_le_dec (key x) (key y)).

(** [l1 JOIN l2 ON p] *)
Definition join_on {A B} (p : A → B → bool) (l1 : list A) (l2 : list B) : list (A * B) :=
  flat_map (λ a, map (λ b, (a, b)) (List.filter (p a) l2)) l1.

(** ** Machine integers: Go's int64 *)
Definition max_int64 : Z := 2 ^ 63 - 1.
Definition wrap64 (z : Z) : Z := (z + 2 ^ 63) mod 2 ^ 64 - 2 ^ 63.

Lemma wrap64_id z : - 2 ^ 63 ≤ z ≤ max_int64 → wrap64 z = z.
Proof. unfold wrap64, max_int64. intros H. rewrite Z.mod_small; lia. Qed.

(** ** time.Duration, in nanoseconds *)
Definition Millisecond : Z := 1000000.
Definition Second : Z := 1000 * Millisecond.
Definition Minute : Z := 60 * Second.

(** ** Lemmas on the SQL idioms *)

Create HintDb store.

Section sql_lemmas.
Context {A : Type}.
Implicit Types (p q : A → bool) (f g : A → A) (l : list A) (x y : A).

Lemma elem_of_filter_bool p l x : x ∈ List.filter p l ↔ p x = true ∧ x ∈ l.
Proof. rewrite !list_elem_of_In, filter_In. tauto. Qed.

Lemma elem_of_update_where p f l y :
  y ∈ update_where p f l ↔
  ∃ x, x ∈ l ∧ y = (if p x then f x else x).
Proof.
  unfold update_where. rewrite list_elem_of_In, in_map_iff.
  setoid_rewrite list_elem_of_In. naive_solver.
Qed.

Lemma elem_of_delete_where p l x : x ∈ delete_where p l ↔ p x = false ∧ x ∈ l.
Proof.
  unfold delete_where. rewrite elem_of_filter_bool, negb_true_iff. done.
Qed.

Lemma count_where_nonneg p l : 0 ≤ count_where p l.
Proof. unfold count_where. lia. Qed.

Lemma count_where_nil p : count_where p [] = 0.
Proof. done. Qed.

Lemma count_where_cons p x l :
  count_where p (x :: l) = (if p x then 1 else 0) + count_where p l.
Proof. unfold count_where. simpl. destruct (p x); simpl; lia. Qed.

Lemma count_where_app p l1 l2 :
  count_where p (l1 ++ l2) = count_where p l1 + count_where p l2.
Proof. unfold count_where. rewrite List.filter_app, length_app. lia. Qed.

Lemma count_where_ext p q l :
  (∀ x, x ∈ l → p x = q x) → count_where p l = count_where q l.
Proof.
  intros H. unfold count_where. f_equal. f_equal.
  apply filter_ext_in. intros x Hx. apply H. by apply list_elem_of_In.
Qed.

Lemma count_where_zero p l :
  count_where p l = 0 ↔ ∀ x, x ∈ l → p x = false.
Proof.
  induction l as [|x l IH].
  { split; [intros _ x Hx; by apply elem_of_nil in Hx | done]. }
  rewrite count_where_cons. pose proof (count_where_nonneg p l). split.
  - intros Heq y Hy. destruct (p x) eqn:E; [lia|].
    apply elem_of_cons in Hy as [->|Hy]; [done|]. by apply IH; [lia|].
  - intros Hall. rewrite (Hall x) by by left.
    rewrite (proj2 IH); [done|]. intros y Hy. apply Hall. by right.
Qed.

Lemma count_where_pos p l x : x ∈ l → p x = true → 1 ≤ count_where p l.
Proof.
  intros Hx Hp. pose proof (count_where_nonneg p l).
  destruct (decide (count_where p l = 0)) as [E|]; [|lia].
  rewrite count_where_zero in E. rewrite E in Hp; done.
Qed.

Lemma count_update_where p q f l :
  count_where q (update_where p f l) =
  count_where (λ x, if p x then q (f x) else q x) l.
Proof.
  unfold update_where. induction l as [|x l IH]; [done|].
  simpl. rewrite !count_where_cons, IH. by destruct (p x).
Qed.

Lemma update_where_length p f l : length (update_where p f l) = length l.
Proof. apply length_map. Qed.

Lemma update_where_id p f l :
  (∀ x, x ∈ l → p x = false) → update_where p f l = l.
Proof.
  unfold update_where. induction l as [|x l IH]; intros H; [done|]. simpl.
  rewrite (H x) by by left. f_equal. apply IH. intros y Hy. apply H. by right.
Qed.

(** A statement that changed one row. *)
Lemma count_where_one p l :
  count_where p l = 1 →
  ∃ l1 x l2, l = l1 ++ x :: l2 ∧ p x = true ∧
    (∀ y, y ∈ l1 → p y = false) ∧ (∀ y, y ∈ l2 → p y = false).
Proof.
  induction l as [|x l IH]; [done|]. rewrite count_where_cons.
  pose proof (count_where_nonneg p l). destruct (p x) eqn:E; intros Hc.
  - assert (count_where p l = 0) as Hz by lia. rewrite count_where_zero in Hz.
    exists [], x, l. split_and!; [done..| |done]. intros y Hy. by apply elem_of_nil in Hy.
  - destruct IH as (l1 & y & l2 & -> & Hy & H1 & H2); [lia|].
    exists (x :: l1), y, l2. split_and!; [done..| |done].
    intros z [->|Hz]%elem_of_cons; auto.
Qed.

Lemma one_row p l : (count_where p l ≟ 1) = true → ∃ x, x ∈ l ∧ p x = true.
Proof.
  intros (l1 & x & l2 & -> & Hx & _)%(bool_decide_eq_true_1 _)%count_where_one.
  exists x. set_solver.
Qed.

Lemma update_where_app p f l1 l2 :
  update_where p f (l1 ++ l2) = update_where p f l1 ++ update_where p f l2.
Proof. apply map_app. Qed.

Lemma update_where_one p f l :
  count_where p l = 1 →
  ∃ l1 x l2, l = l1 ++ x :: l2 ∧ p x = true ∧
    (∀ y, y ∈ l1 ++ l2 → p y = false) ∧ update_where p f l = l1 ++ f x :: l2.
Proof.
  intros (l1 & x & l2 & -> & Hx & H1 & H2)%count_where_one. exists l1, x, l2.
  split_and!; [done..| |].
  - intros y [?|?]%elem_of_app; auto.
  - rewrite update_where_app. simpl. rewrite Hx. by rewrite !update_where_id.
Qed.

(** What such a statement does to a count. *)
Lemma count_update_one p q f l x :
  count_where p l = 1 → x ∈ l → p x = true →
  count_where q (update_where p f l) =
  count_where q l + (if q (f x) then 1 else 0) - (if q x then 1 else 0).
Proof.
  intros (l1 & y & l2 & -> & Hy & Hn & ->)%(update_where_one p f) Hx Hp.
  assert (x = y) as <-.
  { apply elem_of_app in Hx as [Hx|[?|Hx]%elem_of_cons]; [|done|];
      rewrite Hn in Hp; set_solver. }
  rewrite !count_where_app, !count_where_cons. lia.
Qed.

Lemma count_where_le p q l :
  (∀ x, x ∈ l → p x = true → q x = true) → count_where p l ≤ count_where q l.
Proof.
  induction l as [|x l IH]; intros H; [done|]. rewrite !count_where_cons.
  assert (count_where p l ≤ count_where q l) by (apply IH; set_solver).
  specialize (H x (list_elem_of_here _ _)). destruct (p x), (q x); lia || naive_solver.
Qed.

Lemma map_update_where {B} (g : A → B) p f l :
  (∀ x, g (f x) = g x) → map g (update_where p f l) = map g l.
Proof.
  intros H. unfold update_where. rewrite map_map. apply map_ext.
  intros x. by destruct (p x).
Qed.

Lemma find_elem_of p l x : List.find p l = Some x → x ∈ l ∧ p x = true.
Proof. intros H%find_some. by rewrite list_elem_of_In. Qed.

Lemma find_none_iff p l : List.find p l = None ↔ ∀ x, x ∈ l → p x = false.
Proof.
  split.
  - intros H x Hx. apply (find_none _ _ H). by apply list_elem_of_In.
  - intros H. destruct (List.find p l) as [x|] eqn:E; [|done].
    apply find_elem_of in E as [Hin Hp]. by rewrite H in Hp.
Qed.
End sql_lemmas.

(** Rows with distinct keys. *)
Lemma NoDup_map_inj {A B} (f : A → B) l x y :
  NoDup (map f l) → x ∈ l → y ∈ l → f x = f y → x = y.
Proof.
  induction l as [|z l IH]; [intros _ H; by apply elem_of_nil in H|]. simpl.
  intros [Hz Hl]%NoDup_cons Hx Hy E.
  assert (∀ w, w ∈ l → f w ∈ map f l) as Hmap
    by (intros w Hw; apply list_elem_of_In, in_map; by apply list_elem_of_In).
  apply elem_of_cons in Hx as [->|Hx], Hy as [->|Hy]; [done|..|by apply IH].
  - destruct Hz. rewrite E. by apply Hmap.
  - destruct Hz. rewrite <-E. by apply Hmap.
Qed.

Lemma Forall2_elem_of_r {A B} (P : A → B → Prop) l k y :
  Forall2 P l k → y ∈ k → ∃ x, x ∈ l ∧ P x y.
Proof.
  intros HF (i & Hi)%list_elem_of_lookup_1.
  destruct (Forall2_lookup_r _ _ _ _ _ HF Hi) as (x & Hx & ?).
  exists x. split; [by eapply list_elem_of_lookup_2|done].
Qed.

Lemma Forall2_update_where {A} (P : A → A → Prop) (p : A → bool) f l :
  (∀ x, P x (if p x then f x else x)) → Forall2 P l (update_where p f l).
Proof. intros H. induction l; simpl; by constructor. Qed.

Lemma count_where_Forall2 {A B} (p : A → bool) (q : B → bool) l l' :
  Forall2 (λ x y, p x = q y) l l' → count_where p l = count_where q l'.
Proof.
  induction 1 as [|x y l l' Hxy _ IH]; [done|]. by rewrite !count_where_cons, Hxy, IH.
Qed.

(** A column an UPDATE does not set. *)
Lemma proj_if {A B} (g : A → B) (b : bool) x y : g x = g y → g (if b then x else y) = g y.
Proof. by destruct b. Qed.

Lemma update_where_ext {A} (p q : A → bool) (f g : A → A) l :
  (∀ x, x ∈ l → p x = q x) → (∀ x, x ∈ l → q x = true → f x = g x) →
  update_where p f l = update_where q g l.
Proof.
  intros Hp Hf. unfold update_where. apply map_ext_in. intros x Hx%list_elem_of_In.
  rewrite Hp by done. destruct (q x) eqn:E; [by apply Hf|done].
Qed.

Lemma find_unique {A B} (key : A → B) (p : A → bool) l x :
  NoDup (map key l) → x ∈ l → p x = true → (∀ y, p y = true → key y = key x) →
  List.find p l = Some x.
Proof.
  intros Hnd Hx Hp Hkey. destruct (List.find p l) as [y|] eqn:E.
  - apply find_elem_of in E as [Hy Hpy]. f_equal. by apply (NoDup_map_inj key l); auto.
  - rewrite find_none_iff in E. by rewrite E in Hp.
Qed.

(** Rows selected after an UPDATE, by what they were before. *)
Lemma filter_update_where {A B} (key : A → B) (p q r : A → bool) f l :
  (∀ x, x ∈ l → p (if q x then f x else x) = r x) → (∀ x, key (f x) = key x) →
  map key (List.filter p (update_where q f l)) = map key (List.filter r l).
Proof.
  intros Hp Hk. induction l as [|x l IH]; [done|]. simpl. rewrite (Hp x) by by left.
  assert (map key (List.filter p (update_where q f l)) = map key (List.filter r l)) as IH'
    by (apply IH; set_solver).
  destruct (r x); [|done]. simpl. f_equal; [by apply proj_if|done].
Qed.

Lemma delete_update_where {A} (p q r : A → bool) f l :
  (∀ x, x ∈ l → p (if q x then f x else x) = r x) → (∀ x, x ∈ l → r x = false → q x = false) →
  delete_where p (update_where q f l) = delete_where r l.
Proof.
  intros Hp Hq. induction l as [|x l IH]; [done|]. unfold delete_where in *. simpl.
  rewrite (Hp x) by by left.
  assert (List.filter (λ x, negb (p x)) (update_where q f l)
    = List.filter (λ x, negb (r x)) l) as IH' by (apply IH; set_solver).
  destruct (r x) eqn:E; [done|]. simpl. f_equal; [|done]. by rewrite Hq by (by left || done).
Qed.

Lemma filter_key_unique {A B} `{EqDecision B} (key : A → B) l x :
  NoDup (map key l) → x ∈ l → List.filter (λ y, key y ≟ key x) l = [x].
Proof.
  intros Hnd Hx. apply list_elem_of_split in Hx as (l1 & l2 & ->).
  rewrite map_app in Hnd. simpl in Hnd. apply NoDup_app in Hnd as (_ & H1 & [H2 _]%NoDup_cons).
  assert (∀ l, key x ∉ map key l → List.filter (λ y, key y ≟ key x) l = []) as Hl.
  { intros l Hl. induction l as [|y l IH]; [done|]. simpl in *.
    rewrite bool_decide_eq_false_2 by set_solver. apply IH. set_solver. }
  rewrite List.filter_app. simpl. rewrite bool_decide_eq_true_2 by done.
  rewrite !Hl; [done|done|]. intros Hin. apply (H1 _ Hin). by left.
Qed.

(** An UPDATE whose condition picks the row [x], by a unique key and guards. *)
Lemma update_by_key {A B} `{EqDecision B} (key : A → B) (p : A → bool) f l x :
  NoDup (map key l) → x ∈ l → p x = true → (∀ y, p y = true → key y = key x) →
  update_where p f l = update_where (λ y, key y ≟ key x) (λ _, f x) l.
Proof.
  intros Hnd Hx Hp Hkey.
  assert (∀ y, y ∈ l → key y = key x → y = x) as Huniq
    by (intros y Hy E; by apply (NoDup_map_inj key l)).
  apply update_where_ext.
  - intros y Hy. destruct (decide (key y = key x)) as [E|E].
    + rewrite (bool_decide_eq_true_2 _ E), (Huniq y Hy E). done.
    + rewrite (bool_decide_eq_false_2 _ E). destruct (p y) eqn:Ep; [|done]. by apply Hkey in Ep.
  - intros y Hy E%bool_decide_eq_true. by rewrite (Huniq y Hy E).
Qed.

Lemma count_by_key {A B} `{EqDecision B} (key : A → B) (p : A → bool) l x :
  NoDup (map key l) → x ∈ l → p x = true → (∀ y, p y = true → key y = key x) → count_where p l = 1.
Proof.
  intros Hnd Hx Hp Hkey. rewrite (count_where_ext p (λ y, key y ≟ key x)).
  - unfold count_where. by rewrite (filter_key_unique key).
  - intros y Hy. destruct (decide (key y = key x)) as [E|E].
    + assert (y = x) as -> by (by apply (NoDup_map_inj key l)). by rewrite bool_decide_eq_true_2.
    + rewrite (bool_decide_eq_false_2 _ E). destruct (p y) eqn:Ep; [|done]. by apply Hkey in Ep.
Qed.

(** Reading that row back by its key. *)
Lemma update_reread {A B} `{EqDecision B} (key : A → B) (p : A → bool) f l x y :
  NoDup (map key l) → x ∈ l → p x = true → (∀ z, p z = true → key z = key x) →
  (∀ z, key (f z) = key z) →
  List.find (λ z, key z ≟ key x) (update_where p f l) = Some y → y = f x.
Proof.
  intros Hnd Hx Hp Hkey Hf Hfind.
  rewrite (find_unique key _ _ (f x)) in Hfind; [congruence|..].
  - by rewrite map_update_where.
  - apply elem_of_update_where. exists x. by rewrite Hp.
  - by rewrite Hf, bool_decide_eq_true_2.
  - intros z Hz%bool_decide_eq_true. by rewrite Hf.
Qed.

(** A sum over the rows when the row [x] is replaced by [x']. *)
Lemma sum_update_key {A B} `{EqDecision B} (key : A → B) (g : A → nat) l x x' :
  NoDup (map key l) → x ∈ l →
  (sum_list_with g (update_where (λ y, key y ≟ key x) (λ _, x') l) + g x = sum_list_with g l + g x')%nat.
Proof.
  intros Hnd Hx. apply list_elem_of_split in Hx as (l1 & l2 & ->).
  rewrite map_app in Hnd. simpl in Hnd. apply NoDup_app in Hnd as (_ & H1 & [H2 _]%NoDup_cons).
  assert (∀ l, key x ∉ map key l → update_where (λ y, key y ≟ key x) (λ _, x') l = l) as Hid.
  { intros l Hl. apply update_where_id. intros y Hy. apply bool_decide_eq_false. intros Ey.
    apply Hl. rewrite <-Ey. apply list_elem_of_In, in_map, list_elem_of_In. done. }
  rewrite update_where_app, (Hid l1) by (intros Hin; apply (H1 _ Hin); left).
  change (x :: l2) with ([x] ++ l2) at 1. rewrite update_where_app, (Hid l2) by done.
  rewrite !sum_list_with_app. simpl. rewrite bool_decide_eq_true_2 by done. lia.
Qed.

Lemma NoDup_of_map {A B} (f : A → B) l : NoDup (map f l) → NoDup l.
Proof. apply (NoDup_fmap_1 f). Qed.

Lemma NoDup_filter_bool {A} (p : A → bool) l : NoDup l → NoDup (List.filter p l).
Proof. rewrite !NoDup_ListNoDup. apply List.NoDup_filter. Qed.

Lemma NoDup_map_filter {A B} (f : A → B) (p : A → bool) l :
  NoDup (map f l) → NoDup (map f (List.filter p l)).
Proof.
  induction l as [|x l IH]; simpl; [done|]. intros [Hx Hl]%NoDup_cons. specialize (IH Hl).
  destruct (p x); [|done]. simpl. apply NoDup_cons. split; [|done].
  intros Hin. apply Hx. apply list_elem_of_In, in_map_iff in Hin as (y & Ey & Hy).
  apply filter_In in Hy as [Hy _]. rewrite <-Ey. by apply list_elem_of_In, in_map.
Qed.

Lemma elem_of_join_on {A B} (p : A → B → bool) l1 l2 a b :
  (a, b) ∈ join_on p l1 l2 ↔ a ∈ l1 ∧ b ∈ l2 ∧ p a b = true.
Proof.
  unfold join_on. rewrite list_elem_of_In, in_flat_map. split.
  - intros (x & Hx & Hin). apply in_map_iff in Hin as (y & [= -> ->] & Hy).
    apply filter_In in Hy as [Hy Hp]. by rewrite !list_elem_of_In.
  - rewrite !list_elem_of_In. intros (Ha & Hb & Hp). exists a. split; [done|].
    apply in_map_iff. exists b. split; [done|]. by apply filter_In.
Qed.

Lemma order_by_text_elem {A} (key : A → string * string) l x :
  x ∈ order_by_text key l ↔ x ∈ l.
Proof. unfold order_by_text. by rewrite merge_sort_Permutation. Qed.

Lemma order_by_text3_elem {A} (key : A → string * string * string) l x :
  x ∈ order_by_text3 key l ↔ x ∈ l.
Proof. unfold order_by_text3. by rewrite merge_sort_Permutation. Qed.

Lemma order_by_key_elem {A} (key : A → Z * string) l x :
  x ∈ order_by_key key l ↔ x ∈ l.
Proof. unfold order_by_key. by rewrite merge_sort_Permutation. Qed.

Lemma StronglySorted_app_iff {A} (R : relation A) l1 l2 :
  StronglySorted R (l1 ++ l2) ↔
  StronglySorted R l1 ∧ StronglySorted R l2 ∧ ∀ x y, x ∈ l1 → y ∈ l2 → R x y.
Proof.
  induction l1 as [|z l1 IH]; simpl.
  - split; [intros ?; split_and!; [constructor|done|]|tauto].
    intros x y Hx. by apply elem_of_nil in Hx.
  - split.
    + intros Hs. apply StronglySorted_inv in Hs as [Hs Hz].
      rewrite Forall_forall in Hz. apply IH in Hs as (H1 & H2 & H12). split_and!; [|done|].
      * constructor; [done|]. apply Forall_forall. set_solver.
      * intros x y [->|Hx]%elem_of_cons Hy; [|by apply H12]. set_solver.
    + intros (H1 & H2 & H12). apply StronglySorted_inv in H1 as [H1 Hz].
      rewrite Forall_forall in Hz.
      constructor; [|apply Forall_forall; set_solver].
      apply IH. split_and!; [done..|set_solver].
Qed.

Section order_lemmas.
Context {A : Type} (key : A → Z).

#[local] Instance key_total : Total (λ x y, key x ≤ key y).
Proof. intros x y. lia. Qed.
#[local] Instance key_trans : Transitive (λ x y, key x ≤ key y).
Proof. intros x y z. lia. Qed.

Lemma order_by_perm l : order_by key l ≡ₚ l.
Proof. apply merge_sort_Permutation. Qed.

Lemma order_by_elem l x : x ∈ order_by key l ↔ x ∈ l.
Proof. by rewrite order_by_perm. Qed.

Lemma order_by_NoDup l : NoDup l → NoDup (order_by key l).
Proof. by rewrite order_by_perm. Qed.

(** With distinct keys there is one order. *)
Lemma order_by_unique l l' :
  NoDup (map key l') → StronglySorted (λ x y, key x ≤ key y) l → l ≡ₚ l' →
  order_by key l' = l.
Proof.
  intros Hnd Hs Hp. apply (StronglySorted_unique_strong (λ x y, key x ≤ key y)).
  - intros x y Hx Hy ??. rewrite order_by_perm in Hx. rewrite Hp in Hy.
    apply (NoDup_map_inj key l'); [done..|lia].
  - apply StronglySorted_merge_sort; apply _.
  - done.
  - by rewrite order_by_perm.
Qed.

Lemma order_by_sorted l : StronglySorted (λ x y, key x ≤ key y) (order_by key l).
Proof. apply StronglySorted_merge_sort; apply _. Qed.
End order_lemmas.
