(* ===== verification/Domain.v ===== *)
(** * Domain types (internal/domain, internal/protocol/registry.go)

    The status vocabulary of a task, the capability language that matches a
    request with a model, and the registry of node protocols. *)

From S2P Require Import Prelude.

(** ** Task status (internal/domain/task.go) *)

Inductive InternalStatus :=
  | StatusQueuedOpen
  | StatusQueuedLocked
  | StatusDispatching
  | StatusRunning
  | StatusReconciling
  | StatusCancelling
  | StatusSucceeded
  | StatusFailed
  | StatusCancelled.

#[export] Instance InternalStatus_eq_dec : EqDecision InternalStatus.
Proof. solve_decision. Defined.

Inductive V2Status := V2Queued | V2Running | V2Succeeded | V2Failed | V2Cancelled.

#[export] Instance V2Status_eq_dec : EqDecision V2Status.
Proof. solve_decision. Defined.

Definition V2 (s : InternalStatus) : V2Status :=
  match s with
  | StatusQueuedOpen | StatusQueuedLocked => V2Queued
  | StatusDispatching | StatusRunning | StatusReconciling | StatusCancelling =>
      V2Running
  | StatusSucceeded => V2Succeeded
  | StatusFailed => V2Failed
  | StatusCancelled => V2Cancelled
  end.

Definition CanCancel (s : InternalStatus) : bool := s ≟ StatusQueuedOpen.

Definition AdminCanCancel (s : InternalStatus) : bool :=
  match s with
  | StatusQueuedOpen | StatusQueuedLocked | StatusDispatching | StatusRunning
  | StatusReconciling => true
  | _ => false
  end.

Definition AdminCanDelete (s : InternalStatus) : bool :=
  (s ≟ StatusSucceeded) || (s ≟ StatusFailed) || (s ≟ StatusCancelled).

Definition AllInternalStatuses : list InternalStatus :=
  [StatusQueuedOpen; StatusQueuedLocked; StatusDispatching; StatusRunning;
   StatusReconciling; StatusCancelling; StatusSucceeded; StatusFailed;
   StatusCancelled].

(** [internalStatuses] of store.go: the inverse image of [V2]. *)
Definition internalStatuses (s : V2Status) : list InternalStatus :=
  match s with
  | V2Queued => [StatusQueuedOpen; StatusQueuedLocked]
  | V2Running =>
      [StatusDispatching; StatusRunning; StatusReconciling; StatusCancelling]
  | V2Succeeded => [StatusSucceeded]
  | V2Failed => [StatusFailed]
  | V2Cancelled => [StatusCancelled]
  end.

(** The status sets the SQL text of the store repeats. *)
Definition queued_statuses : list InternalStatus :=
  [StatusQueuedOpen; StatusQueuedLocked].
Definition active_statuses : list InternalStatus :=
  [StatusDispatching; StatusRunning; StatusReconciling; StatusCancelling].
Definition unfinished_statuses : list InternalStatus :=
  queued_statuses ++ active_statuses.

Inductive Action := ActionCancelled | ActionDeleted.

Lemma internalStatuses_V2 s v : s ∈ internalStatuses v ↔ V2 s = v.
Proof. destruct s, v; simpl; set_solver. Qed.

Lemma AdminCanDelete_bool s : AdminCanDelete s = negb (s ∈? unfinished_statuses).
Proof. by destruct s. Qed.

Lemma AdminCanDelete_terminal s :
  AdminCanDelete s = true ↔ s ∉ unfinished_statuses.
Proof. by rewrite AdminCanDelete_bool, negb_true_iff, bool_decide_eq_false. Qed.

(** ** Requests (internal/domain/generation_request.go) *)

Record GenerationContent := mkContent {
  gc_Type : string;
  gc_Text : string;
  gc_ImageURL : option string;
  gc_VideoURL : option string;
  gc_AudioURL : option string;
  gc_Role : string
}.
#[export] Instance GenerationContent_eta : Eta GenerationContent := λ r,
  mkContent (gc_Type r) (gc_Text r) (gc_ImageURL r) (gc_VideoURL r)
    (gc_AudioURL r) (gc_Role r).
#[export] Instance GenerationContent_eq_dec : EqDecision GenerationContent.
Proof. solve_decision. Defined.

Record GenerationRequest := mkRequest {
  gr_Model : string;
  gr_Content : list GenerationContent;
  gr_Resolution : string;
  gr_Duration : Z;
  gr_Ratio : string;
  gr_CallbackURL : option string;
  gr_AIGCWatermark : option bool;
  gr_DurationPresent : bool
}.
#[export] Instance GenerationRequest_eta : Eta GenerationRequest := λ r,
  mkRequest (gr_Model r) (gr_Content r) (gr_Resolution r) (gr_Duration r)
    (gr_Ratio r) (gr_CallbackURL r) (gr_AIGCWatermark r) (gr_DurationPresent r).
#[export] Instance GenerationRequest_eq_dec : EqDecision GenerationRequest.
Proof. solve_decision. Defined.

(** A [*MediaURL] is the URL it holds, or nil. *)
Definition Media (c : GenerationContent) : option string :=
  if gc_Type c ≟ "image_url" then gc_ImageURL c
  else if gc_Type c ≟ "video_url" then gc_VideoURL c
  else if gc_Type c ≟ "audio_url" then gc_AudioURL c
  else None.

(** ** Model capabilities (internal/domain/model_routing.go) *)

Definition ProtocolH3 : string := "h3-node-v1".
Definition ProtocolOfficial : string := "minimax-v2".
Definition ProtocolTK2SD : string := "tk2sd-v1".
Definition ProtocolLegacy : string := "legacy-gradio-v1".

Record ModeCapability := mkMode {
  mc_Scenario : string;
  mc_Durations : list Z;
  mc_Roles : list string
}.
#[export] Instance ModeCapability_eq_dec : EqDecision ModeCapability.
Proof. solve_decision. Defined.

Record ModelCapability := mkCapability {
  cap_SchemaVersion : Z;
  cap_Modes : list ModeCapability;
  cap_InputSources : list string;
  cap_ResolutionPolicy : string;
  cap_Resolutions : list string;
  cap_MaxMedia : Z
}.
#[export] Instance ModelCapability_eq_dec : EqDecision ModelCapability.
Proof. solve_decision. Defined.

Record TaskRequirements := mkRequirements {
  rq_Scenario : string;
  rq_Duration : Z;
  rq_Resolution : string;
  rq_Roles : list string;
  rq_InputSources : list string;
  rq_MediaCount : Z
}.
#[export] Instance TaskRequirements_eq_dec : EqDecision TaskRequirements.
Proof. solve_decision. Defined.

Definition Supports (c : ModelCapability) (scenario : string) (duration : Z) : bool :=
  existsb (λ m, (mc_Scenario m ≟ scenario) && (duration ∈? mc_Durations m))
    (cap_Modes c).

Definition HasMode (c : ModelCapability) (scenario : string) : bool :=
  existsb (λ m, mc_Scenario m ≟ scenario) (cap_Modes c).

(** The last loop of [Accepts]: the first mode with the scenario and the
    duration decides, whatever the later modes say. *)
Fixpoint accepts_modes (r : TaskRequirements) (ms : list ModeCapability) : bool :=
  match ms with
  | [] => false
  | m :: ms =>
      if negb (mc_Scenario m ≟ rq_Scenario r)
         || negb (rq_Duration r ∈? mc_Durations m)
      then accepts_modes r ms
      else forallb (λ role, (mc_Roles m ≟ []) || (role ∈? mc_Roles m)) (rq_Roles r)
  end.

Definition Accepts (c : ModelCapability) (r : TaskRequirements) : bool :=
  if negb (Supports c (rq_Scenario r) (rq_Duration r))
     || ((0 <? cap_MaxMedia c) && (cap_MaxMedia c <? rq_MediaCount r))
  then false
  else if negb (cap_Resolutions c ≟ []) && negb (rq_Resolution r ∈? cap_Resolutions c)
  then false
  else if existsb (λ s, negb (cap_InputSources c ≟ []) && negb (s ∈? cap_InputSources c))
            (rq_InputSources r)
  then false
  else accepts_modes r (cap_Modes c).

Record RouteSnapshot := mkSnapshot {
  rs_SchemaVersion : Z;
  rs_Model : string;
  rs_ProtocolVersion : string;
  rs_RouteVersion : Z;
  rs_RoutingRevision : Z;
  rs_SelectionMode : string;
  rs_ParameterPlan : string;
  rs_NormalizerVersion : string;
  rs_Requirements : TaskRequirements
}.
#[export] Instance RouteSnapshot_eq_dec : EqDecision RouteSnapshot.
Proof. solve_decision. Defined.

(** A node lists an item of its catalogue for a model. *)
Record NodeModel := mkNodeModel {
  nmd_ModelID : string;
  nmd_Enabled : bool;
  nmd_Present : bool;
  nmd_Verified : bool;
  nmd_Capabilities : ModelCapability
}.
#[export] Instance NodeModel_eta : Eta NodeModel := λ r,
  mkNodeModel (nmd_ModelID r) (nmd_Enabled r) (nmd_Present r) (nmd_Verified r)
    (nmd_Capabilities r).
#[export] Instance NodeModel_eq_dec : EqDecision NodeModel.
Proof. solve_decision. Defined.

(** ** Protocol registry (internal/protocol/registry.go) *)

Record Definition_ := mkDefinition {
  pd_ID : string;
  pd_ModelSource : string;
  pd_ParameterPlan : string;
  pd_Creatable : bool
}.

Definition Definitions : list Definition_ :=
  [mkDefinition ProtocolH3 "builtin" "h3_profile" true;
   mkDefinition ProtocolOfficial "manual" "direct" true;
   mkDefinition ProtocolTK2SD "discovered" "direct" true;
   mkDefinition ProtocolLegacy "builtin" "h3_profile" false].

Definition Lookup (id : string) : option Definition_ :=
  List.find (λ d, pd_ID d ≟ id) Definitions.

Definition BuiltinCapability (id : string) : ModelCapability :=
  let d := [4; 5; 6; 7; 8; 9; 10; 11; 12; 13; 14; 15] in
  mkCapability 1
    [mkMode "t2va" d [];
     mkMode "i2va" d ["first_frame"; "last_frame"];
     mkMode "r2va" d ["reference_image"; "reference_video"; "reference_audio"]]
    (["http"; "https"; "data"]
      ++ (if id ≟ ProtocolOfficial then ["mm_file"] else []))
    "required"
    (if id ≟ ProtocolOfficial then ["768P"; "2K"] else [])
    15.

(** ** Properties of the capability language *)

(** What a mode that decides a request promises. *)
Definition mode_admits (r : TaskRequirements) (m : ModeCapability) : Prop :=
  mc_Scenario m = rq_Scenario r ∧ rq_Duration r ∈ mc_Durations m ∧
  (mc_Roles m = [] ∨ ∀ role, role ∈ rq_Roles r → role ∈ mc_Roles m).

Lemma accepts_modes_sound r ms :
  accepts_modes r ms = true → ∃ m, m ∈ ms ∧ mode_admits r m.
Proof.
  induction ms as [|m ms IH]; [done|]. simpl.
  destruct (negb _ || negb _) eqn:E.
  - intros (m' & Hin & Hm)%IH. exists m'. split; [by right|done].
  - intros Hall. exists m. split; [by left|].
    rewrite orb_false_iff, !negb_false_iff, !bool_decide_eq_true in E.
    destruct E as [Hs Hd]. split_and!; [done..|].
    destruct (decide (mc_Roles m = [])) as [|Hne]; [by left|]. right.
    intros role Hrole. rewrite forallb_forall in Hall.
    apply list_elem_of_In in Hrole. specialize (Hall _ Hrole).
    rewrite orb_true_iff, !bool_decide_eq_true in Hall. tauto.
Qed.

(** What an accepted request may rely on.  If a capability accepts the
    requirements of a request, one of its modes has the scenario, the duration
    and, unless the mode lists no roles, every role of the request; the
    resolution and every input source are listed, unless the list is empty;
    and the number of media is within the limit, if there is one. *)
Theorem Accepts_sound c r :
  Accepts c r = true →
  (∃ m, m ∈ cap_Modes c ∧ mode_admits r m) ∧
  (cap_Resolutions c = [] ∨ rq_Resolution r ∈ cap_Resolutions c) ∧
  (cap_InputSources c = [] ∨ ∀ s, s ∈ rq_InputSources r → s ∈ cap_InputSources c) ∧
  (0 < cap_MaxMedia c → rq_MediaCount r ≤ cap_MaxMedia c).
Proof.
  unfold Accepts. destruct (_ || _) eqn:E1; [done|].
  destruct (negb (cap_Resolutions c ≟ []) && _) eqn:E2; [done|].
  destruct (existsb _ _) eqn:E3; [done|]. intros Hm%accepts_modes_sound.
  apply orb_false_iff in E1 as [_ E1]. split_and!; [done|..].
  - destruct (decide (cap_Resolutions c = [])) as [|H]; [by left|]. right.
    rewrite (bool_decide_eq_false_2 _ H) in E2. simpl in E2.
    by apply negb_false_iff, bool_decide_eq_true in E2.
  - destruct (decide (cap_InputSources c = [])) as [|H]; [by left|]. right.
    intros s Hs%list_elem_of_In. rewrite <-not_true_iff_false, existsb_exists in E3.
    destruct (decide (s ∈ cap_InputSources c)) as [|Hn]; [done|]. destruct E3. exists s.
    by rewrite (bool_decide_eq_false_2 _ H), (bool_decide_eq_false_2 _ Hn).
  - intros Hpos. apply andb_false_iff in E1 as [E1|E1]; [apply Z.ltb_ge in E1|apply Z.ltb_ge in E1]; lia.
Qed.
