(* ===== verification/Tx.v ===== *)
(** * Transactions

    The store runs its operations on one SQLite connection between
    [BEGIN IMMEDIATE] and [COMMIT] or [ROLLBACK]
    (internal/store/sqlite/store.go, [immediate] and [completeTransaction]).
    [tx S E A] is the body of such an operation: it reads and writes the
    database [S], returns an [A], or stops with an error [E] at an
    intermediate database.  [immediate] is the whole operation: the deferred
    [completeTransaction] rolls an error back to the database it started
    from. *)

From S2P Require Import Prelude.

Inductive outcome (E S A : Type) :=
  | Done (a : A) (s : S)
  | Raise (e : E) (s : S).
Arguments Done {E S A} _ _.
Arguments Raise {E S A} _ _.

Definition tx (S E A : Type) : Type := S → outcome E S A.

#[export] Instance tx_ret {S E} : MRet (tx S E) := λ A a s, Done a s.
#[export] Instance tx_bind {S E} : MBind (tx S E) := λ A B k m s,
  match m s with
  | Done a s' => k a s'
  | Raise e s' => Raise e s'
  end.

(** A query computes a result or an error from the database it reads. *)
#[export] Instance sum_ret {E} : MRet (sum E) := λ A, inr.
#[export] Instance sum_bind {E} : MBind (sum E) := λ A B k m,
  match m with
  | inr a => k a
  | inl e => inl e
  end.

(** The results of a loop over rows, up to the first error. *)
Fixpoint collect {E A B} (f : A → E + B) (l : list A) : E + list B :=
  match l with
  | [] => inr []
  | x :: l => b ← f x; bs ← collect f l; mret (b :: bs)
  end.

Section ops.
Context {S E : Type}.

Definition throw {A} (e : E) : tx S E A := λ s, Raise e s.
Definition ask {A} (f : S → A) : tx S E A := λ s, Done (f s) s.
Definition modify (f : S → S) : tx S E unit := λ s, Done tt (f s).
Definition ensure (b : bool) (e : E) : tx S E unit :=
  if b then mret tt else throw e.
Definition of_option {A} (o : option A) (e : E) : tx S E A :=
  match o with Some a => mret a | None => throw e end.

(** A query inside a transaction. *)
Definition query {A} (f : S → E + A) : tx S E A := λ s,
  match f s with inr a => Done a s | inl e => Raise e s end.

(** The statements of a loop, one after the other. *)
Fixpoint each {A} (f : A → tx S E unit) (l : list A) : tx S E unit :=
  match l with
  | [] => mret tt
  | x :: l => f x ;; each f l
  end.

(** [if err := ...; err != nil { return e }]: any error becomes [e]. *)
Definition raising {A} (e : E) (m : tx S E A) : tx S E A := λ s,
  match m s with Done a s' => Done a s' | Raise _ s' => Raise e s' end.

(** An error stored in a variable that shadows the one the deferred
    [completeTransaction] reads: the function returns it, the transaction
    does not see it. *)
Definition shadowed {A} (m : tx S E A) : tx S E (E + A) := λ s,
  match m s with
  | Done a s' => Done (inr a) s'
  | Raise e s' => Done (inl e) s'
  end.

(** [if err := m; err != nil { return err }] in such a function. *)
Definition then_shadowed {A B} (m : tx S E A) (k : A → tx S E (E + B)) : tx S E (E + B) :=
  r ← shadowed m;
  match r with inl e => mret (inl e) | inr a => k a end.

(** [immediate] with [defer completeTransaction(finish, &err)]. *)
Definition immediate {A} (m : tx S E A) (s : S) : (E + A) * S :=
  match m s with
  | Done a s' => (inr a, s')
  | Raise e _ => (inl e, s)
  end.

(** The same, in a function whose error result is not named. *)
Definition immediate_shadowed {A} (m : tx S E (E + A)) (s : S) : (E + A) * S :=
  match m s with
  | Done r s' => (r, s')
  | Raise e _ => (inl e, s)
  end.
End ops.

(** ** What a query or a body that returns has done *)

Lemma sum_bind_inr {E A B} (m : E + A) (k : A → E + B) b :
  (m ≫= k) = inr b ↔ ∃ a, m = inr a ∧ k a = inr b.
Proof. unfold mbind, sum_bind. destruct m; naive_solver. Qed.

Lemma collect_inr {E A B} (f : A → E + B) l bs :
  collect f l = inr bs ↔ Forall2 (λ x b, f x = inr b) l bs.
Proof.
  revert bs. induction l as [|x l IH]; intros bs; cbn [collect].
  - split; [intros [= <-]; constructor|]. by intros ->%Forall2_nil_inv_l.
  - rewrite sum_bind_inr. setoid_rewrite sum_bind_inr. setoid_rewrite IH.
    split.
    + intros (b & Hb & bs' & Hbs & [= <-]). by constructor.
    + intros (b & bs' & Hb & Hbs & ->)%Forall2_cons_inv_l. eauto.
Qed.

Lemma collect_inl {E A B} (f : A → E + B) l e :
  collect f l = inl e → ∃ x, x ∈ l ∧ f x = inl e.
Proof.
  induction l as [|x l IH]; [done|]. cbn [collect].
  destruct (f x) eqn:E1; simpl.
  - intros [= ->]. exists x. split; [by left|done].
  - destruct (collect f l); simpl; [|done]. intros [= ->].
    destruct IH as (y & ? & ?); [done|]. exists y. split; [by right|done].
Qed.

Section inversion.
Context {S E : Type}.
Implicit Types (s : S) (e : E).

Lemma bind_Done {A B} (m : tx S E A) (k : A → tx S E B) s b s2 :
  (m ≫= k) s = Done b s2 ↔ ∃ a s1, m s = Done a s1 ∧ k a s1 = Done b s2.
Proof.
  unfold mbind, tx_bind. destruct (m s) as [a s'|e s'].
  - split; [by eauto|]. by intros (a' & s1 & [= -> ->] & ?).
  - split; [done|]. by intros (a' & s1 & ? & ?).
Qed.

Lemma ret_Done {A} (a : A) s b s' :
  (mret a : tx S E A) s = Done b s' ↔ a = b ∧ s = s'.
Proof. unfold mret, tx_ret. split; [by intros [= -> ->]|by intros [-> ->]]. Qed.

Lemma throw_Done {A} e s (a : A) s' : (throw e : tx S E A) s = Done a s' ↔ False.
Proof. done. Qed.

Lemma ask_Done {A} (f : S → A) s a s' :
  (ask f : tx S E A) s = Done a s' ↔ a = f s ∧ s = s'.
Proof. unfold ask. split; [by intros [= <- ->]|by intros [-> ->]]. Qed.

Lemma modify_Done (f : S → S) s u s' :
  (modify f : tx S E unit) s = Done u s' ↔ s' = f s.
Proof. destruct u. unfold modify. split; [by intros [= <-]|by intros ->]. Qed.

Lemma ensure_Done b e s u s' :
  (ensure b e : tx S E unit) s = Done u s' ↔ b = true ∧ s = s'.
Proof.
  destruct u, b; unfold ensure, mret, tx_ret, throw;
    split; try done; [by intros [= ->]|by intros [_ ->]|by intros [? _]].
Qed.

Lemma of_option_Done {A} (o : option A) e s a s' :
  (of_option o e : tx S E A) s = Done a s' ↔ o = Some a ∧ s = s'.
Proof.
  destruct o; unfold of_option, mret, tx_ret, throw; [|naive_solver].
  split; [by intros [= -> ->]|by intros [[= ->] ->]].
Qed.

Lemma query_Done {A} (f : S → E + A) s a s' :
  (query f : tx S E A) s = Done a s' ↔ f s = inr a ∧ s = s'.
Proof. unfold query. destruct (f s); naive_solver. Qed.

Lemma raising_Done {A} e (m : tx S E A) s a s' :
  raising e m s = Done a s' ↔ m s = Done a s'.
Proof. unfold raising. destruct (m s); naive_solver. Qed.

Lemma immediate_inr {A} (m : tx S E A) s a s' :
  immediate m s = (inr a, s') ↔ m s = Done a s'.
Proof. unfold immediate. destruct (m s); naive_solver. Qed.

(** An operation that fails leaves the database as it was. *)
Lemma immediate_inl {A} (m : tx S E A) s e s' :
  immediate m s = (inl e, s') → s' = s.
Proof. unfold immediate. destruct (m s); naive_solver. Qed.
End inversion.

(** ** Relations preserved along a body

    For a preorder [R] on databases, [tx_rel R m] says that [m] relates the
    database it starts from with the one it stops at, by returning or by
    raising.  An invariant [I] is the preorder [λ s s', I s → I s']. *)

Section relation.
Context {S E : Type} (R : relation S) `{!PreOrder R}.

Definition tx_rel {A} (m : tx S E A) : Prop :=
  ∀ s, match m s with Done _ s' | Raise _ s' => R s s' end.

Lemma tx_rel_ret {A} (a : A) : tx_rel (mret a).
Proof. intros s. simpl. reflexivity. Qed.
Lemma tx_rel_throw {A} e : tx_rel (throw (A:=A) e).
Proof. intros s. simpl. reflexivity. Qed.
Lemma tx_rel_ask {A} (f : S → A) : tx_rel (ask f).
Proof. intros s. simpl. reflexivity. Qed.
Lemma tx_rel_ensure b e : tx_rel (ensure b e).
Proof. destruct b; [apply tx_rel_ret|apply tx_rel_throw]. Qed.
Lemma tx_rel_of_option {A} (o : option A) e : tx_rel (of_option o e).
Proof. destruct o; [apply tx_rel_ret|apply tx_rel_throw]. Qed.
Lemma tx_rel_query {A} (f : S → E + A) : tx_rel (query f).
Proof. intros s. unfold query. destruct (f s); reflexivity. Qed.
Lemma tx_rel_modify f : (∀ s, R s (f s)) → tx_rel (modify f).
Proof. intros H s. apply H. Qed.
Lemma tx_rel_bind {A B} (m : tx S E A) (k : A → tx S E B) :
  tx_rel m → (∀ a, tx_rel (k a)) → tx_rel (m ≫= k).
Proof.
  intros Hm Hk s. specialize (Hm s). unfold mbind, tx_bind.
  destruct (m s) as [a s'|e s']; [|done]. specialize (Hk a s').
  destruct (k a s'); by etrans.
Qed.
Lemma tx_rel_each {A} (f : A → tx S E unit) l :
  (∀ x, tx_rel (f x)) → tx_rel (each f l).
Proof.
  intros H. induction l as [|x l IH]; [apply tx_rel_ret|].
  apply tx_rel_bind; [apply H|done].
Qed.
Lemma tx_rel_each_in {A} (f : A → tx S E unit) l :
  (∀ x, x ∈ l → tx_rel (f x)) → tx_rel (each f l).
Proof.
  intros H. induction l as [|x l IH]; [apply tx_rel_ret|].
  apply tx_rel_bind; [apply H; by left|]. intros []. apply IH. intros y Hy. apply H. by right.
Qed.
Lemma tx_rel_shadowed {A} (m : tx S E A) : tx_rel m → tx_rel (shadowed m).
Proof. intros H s. specialize (H s). unfold shadowed. by destruct (m s). Qed.
Lemma tx_rel_then_shadowed {A B} (m : tx S E A) (k : A → tx S E (E + B)) :
  tx_rel m → (∀ a, tx_rel (k a)) → tx_rel (then_shadowed m k).
Proof.
  intros Hm Hk. apply tx_rel_bind; [by apply tx_rel_shadowed|].
  intros [e|a]; [apply tx_rel_ret|apply Hk].
Qed.
Lemma tx_rel_raising {A} e (m : tx S E A) : tx_rel m → tx_rel (raising e m).
Proof. intros H s. specialize (H s). unfold raising. by destruct (m s). Qed.
Lemma tx_rel_immediate {A} (m : tx S E A) s :
  tx_rel m → R s (immediate m s).2.
Proof.
  intros H. specialize (H s). unfold immediate. destruct (m s); [done|].
  simpl. reflexivity.
Qed.
Lemma tx_rel_immediate_shadowed {A} (m : tx S E (E + A)) s :
  tx_rel m → R s (immediate_shadowed m s).2.
Proof.
  intros H. specialize (H s). unfold immediate_shadowed.
  destruct (m s); [done|]. simpl. reflexivity.
Qed.
End relation.

Lemma tx_rel_Done {S E A} (R : relation S) (m : tx S E A) s a s' :
  tx_rel R m → m s = Done a s' → R s s'.
Proof. intros H Em. specialize (H s). by rewrite Em in H. Qed.

(** [tx_step] decomposes [tx_rel R (x ← m; k x)] down to its statements. *)
Ltac tx_step :=
  match goal with
  | |- tx_rel _ (_ ≫= _) => apply tx_rel_bind; [apply _| |intros ?]
  | |- tx_rel _ (mret _) => apply tx_rel_ret; apply _
  | |- tx_rel _ (throw _) => apply tx_rel_throw; apply _
  | |- tx_rel _ (ask _) => apply tx_rel_ask; apply _
  | |- tx_rel _ (ensure _ _) => apply tx_rel_ensure; apply _
  | |- tx_rel _ (of_option _ _) => apply tx_rel_of_option; apply _
  | |- tx_rel _ (query _) => apply tx_rel_query; apply _
  | |- tx_rel _ (each _ _) => apply tx_rel_each; [apply _|intros ?]
  | |- tx_rel _ (raising _ _) => apply tx_rel_raising
  | |- tx_rel _ (then_shadowed _ _) => apply tx_rel_then_shadowed; [apply _| |intros ?]
  | |- tx_rel _ (shadowed _) => apply tx_rel_shadowed
  | |- tx_rel _ (let '(_, _) := ?x in _) => destruct x
  | |- tx_rel _ (if ?b then _ else _) => destruct b
  | |- tx_rel _ (match ?x with _ => _ end) => destruct x
  | |- tx_rel _ (modify _) => apply tx_rel_modify
  end.
Ltac tx_steps := repeat tx_step.

(** [tx_inv H] turns [m s = Done a s'] into what each statement of [m] did;
    the database a statement started from keeps its name. *)
Ltac keep_old E :=
  lazymatch type of E with ?a = ?b => first [subst b | subst a | idtac] end.
Ltac tx_inv_leaf H lem :=
  let E := fresh "Edb" in rewrite lem in H; destruct H as [H E]; keep_old E.
Ltac tx_inv1 H :=
  match type of H with
  | (_ ≫= _) _ = Done _ _ =>
      let a := fresh "x" in let s1 := fresh "s" in let H1 := fresh H in
      rewrite bind_Done in H; destruct H as (a & s1 & H1 & H);
      tx_inv1 H1; tx_inv1 H
  | mret _ _ = Done _ _ => tx_inv_leaf H @ret_Done
  | throw _ _ = Done _ _ => by rewrite throw_Done in H
  | ask _ _ = Done _ _ => tx_inv_leaf H @ask_Done; keep_old H
  | modify _ _ = Done _ _ => rewrite modify_Done in H; keep_old H
  | ensure _ _ _ = Done _ _ => tx_inv_leaf H @ensure_Done
  | of_option _ _ _ = Done _ _ => tx_inv_leaf H @of_option_Done
  | query _ _ = Done _ _ => tx_inv_leaf H @query_Done
  | _ => idtac
  end.
Tactic Notation "tx_inv" hyp(H) := tx_inv1 H.
