(* ===== verification/Database.v ===== *)
(** * The database (migrations/*.sql, internal/store/sqlite)

    One record per table, with the columns the statements of the store read
    or write, the constraints and triggers the schema declares on them, and
    the statements themselves as transaction steps.  A nullable column is an
    [option].  A table is the list of its rows in insertion order. *)

From S2P Require Import Prelude Domain Tx.

(** ** Errors *)

Inductive error :=
  | ErrTaskNotFound | ErrTaskNotOperable | ErrIdempotencyConflict
  | ErrPerKeyLimit | ErrGlobalLimit | ErrUpstreamBusy | ErrQueueEmpty
  | ErrStateConflict | ErrResourceUnavailable | ErrCancelReconcilePending
  | ErrOfficialRunningNotCancellable
  | ErrUnsupportedModel | ErrRouteAmbiguous | ErrRouteUnavailable
  | ErrRouteChanged | ErrCatalogConflict | ErrModelInput
  | ErrNodeNotFound | ErrNodeIDConflict | ErrNodeVersionConflict
  | ErrNodeHasActiveTask | ErrNodeMustBeDisabled | ErrNodeConfigStale
  | ErrRemotePending | ErrRemoteReconciliation | ErrRemoteNotCancellable | ErrResultRefreshUnavailable
  | ErrResultUploadNotFound | ErrResultUploadNotRetryable
  | ErrNoClaimableStage | ErrNoCallbackDelivery
  | ErrNodeDispatchBarrierNotFound | ErrNodeDispatchBarrierConflict
  | ErrDeletionNotFound | ErrNoClaimableDeletion | ErrArtifactNotFound
  | ErrObjectStorageNotFound | ErrObjectStorageVersionConflict
  | ErrAPIKeyNotFound | ErrAPIKeyVersionConflict | ErrAPIKeyNameConflict
  | ErrAPIKeyDigestConflict | ErrAPIKeyInUse
  | ErrProfileNotFound | ErrProfileVersionConflict | ErrProfileKeyConflict
  | ErrInvalidProfileConfig
  | ErrCleanupPreviewStale | ErrCleanupNotFound | ErrCleanupNotRetryable
  | ErrNoRows                (** sql.ErrNoRows returned as it is *)
  | ErrConstraint            (** a constraint or trigger of the schema aborted *)
  | ErrUnmarshal             (** json.Unmarshal *)
  | ErrDriver                (** the database or its driver failed *)
  | ErrContext               (** context.Canceled or context.DeadlineExceeded *)
  | ErrText (message : string). (** errors.New or fmt.Errorf of the function *)

#[export] Instance error_eq_dec : EqDecision error.
Proof. solve_decision. Defined.

(** ** JSON columns

    A JSON text column is what [json.Unmarshal] reads from it: a value, or a
    text that does not decode. *)

Inductive json_text (A : Type) :=
  | JsonOf (a : A)
  | JsonRaw (s : string).
Arguments JsonOf {A} _.
Arguments JsonRaw {A} _.

#[export] Instance json_text_eq_dec {A} `{EqDecision A} : EqDecision (json_text A).
Proof. solve_decision. Defined.

Definition unmarshal {A} (j : json_text A) : option A :=
  match j with JsonOf a => Some a | JsonRaw _ => None end.

(** SQLite's [length()] of a text: its code points, that is the bytes that
    are not UTF-8 continuation bytes. *)
Fixpoint sqlite_length (s : string) : Z :=
  match s with
  | EmptyString => 0
  | String c s =>
      (if bool_decide (Z.land (Z.of_nat (Ascii.nat_of_ascii c)) 192 = 128)
       then 0 else 1) + sqlite_length s
  end.

(** SQLite's [lower()] folds ASCII letters only. *)
Definition lower_ascii (c : Ascii.ascii) : Ascii.ascii :=
  let n := Z.of_nat (Ascii.nat_of_ascii c) in
  if (65 <=? n) && (n <=? 90) then Ascii.ascii_of_nat (Z.to_nat (n + 32)) else c.
Fixpoint sqlite_lower (s : string) : string :=
  match s with EmptyString => "" | String c s => String (lower_ascii c) (sqlite_lower s) end.

(** SQLite's [trim()] removes spaces only. *)
Definition sqlite_space : Ascii.ascii := Ascii.ascii_of_nat 32.
Fixpoint sqlite_ltrim (s : string) : string :=
  match s with
  | String c s' => if c ≟ sqlite_space then sqlite_ltrim s' else s
  | EmptyString => ""
  end.
Fixpoint sqlite_rtrim (s : string) : string :=
  match s with
  | EmptyString => ""
  | String c s =>
      let s := sqlite_rtrim s in if (c ≟ sqlite_space) && (s ≟ "") then "" else String c s
  end.
Definition sqlite_trim (s : string) : string := sqlite_rtrim (sqlite_ltrim s).

(** ** video_tasks *)

Inductive RouteState := RouteReady | AwaitingRoute | MigrationBlocked | LegacyUnknown.
#[export] Instance RouteState_eq_dec : EqDecision RouteState.
Proof. solve_decision. Defined.

Record UpstreamFeedback := mkFeedback {
  fb_HTTPStatus : Z;
  fb_Code : string;
  fb_Type : string;
  fb_Message : string;
  fb_ResourceType : string;
  fb_RequestID : string
}.

(** dispatch_snapshot_json *)
Record DispatchSnapshot := mkDispatch {
  ds_node_id : string;
  ds_node_version : Z;
  ds_protocol_version : string;
  ds_service_url : string;
  ds_upstream_model : string
}.

(** The columns the INSERT of a task writes and no later statement changes. *)
Record TaskRequest := mkTaskRequest {
  vt_api_key_id : string;
  vt_model : string;
  vt_scenario : string;
  vt_request_json : json_text GenerationRequest;
  vt_request_hash : string;
  vt_resolution : string;
  vt_duration : Z;
  vt_ratio_requested : string;
  vt_usage_input_image_count : Z;
  vt_callback_url_ciphertext : option string;
  vt_callback_url_nonce : option string;
  vt_profile_id : option string;
  vt_profile_version : option Z;
  vt_config_snapshot_json : option string;
  vt_config_hash : option string;
  vt_created_at : Z;
  vt_expires_at : Z
}.

Record Task := mkTask {
  vt_queue_seq : Z;
  vt_task_id : string;
  vt_request : TaskRequest;
  vt_status : InternalStatus;
  vt_cancel_locked : bool;
  vt_upstream_id : option string;
  vt_gradio_event_id : option string;
  vt_upstream_job_id : option string;
  vt_upstream_slot_active : bool;
  vt_upstream_node_version : Z;
  vt_delivery_required : bool;
  vt_upstream_jobs_before_json : json_text (list string);
  vt_official_submission_baseline_saved : bool;
  vt_retry_count : Z;
  vt_attempt_started_at : option Z;
  vt_cancel_requested_at : option Z;
  vt_gallery_before_json : option (list string);
  vt_result_internal_url : option string;
  vt_result_public_url : option string;
  vt_ratio_actual : option string;
  vt_usage_total_seconds : Z;
  vt_usage_output_seconds : Z;
  vt_error_code : option string;
  vt_error_message : option string;
  vt_upstream_feedback_json : option UpstreamFeedback;
  vt_updated_at : Z;
  vt_started_at : option Z;
  vt_finished_at : option Z;
  vt_deleted_at : option Z;
  vt_deletion_state : string;
  vt_version : Z;
  vt_active_stage_id : option string;
  vt_result_artifact_id : option string;
  vt_protocol_version : option string;
  vt_route_state : RouteState;
  vt_routing_snapshot_json : option (json_text RouteSnapshot);
  vt_dispatch_snapshot_json : option DispatchSnapshot;
  vt_request_normalizer : string;
  vt_routing_wait_reason : string;
  vt_latest_result_url : option string;
  vt_latest_result_expires_at : option Z;
  vt_result_metadata_json : option string;
  vt_metadata_status : string
}.
#[export] Instance Task_eta : Eta Task := λ r,
  mkTask (vt_queue_seq r) (vt_task_id r) (vt_request r) (vt_status r)
    (vt_cancel_locked r) (vt_upstream_id r) (vt_gradio_event_id r)
    (vt_upstream_job_id r) (vt_upstream_slot_active r)
    (vt_upstream_node_version r) (vt_delivery_required r)
    (vt_upstream_jobs_before_json r) (vt_official_submission_baseline_saved r)
    (vt_retry_count r) (vt_attempt_started_at r) (vt_cancel_requested_at r)
    (vt_gallery_before_json r) (vt_result_internal_url r)
    (vt_result_public_url r) (vt_ratio_actual r) (vt_usage_total_seconds r)
    (vt_usage_output_seconds r) (vt_error_code r) (vt_error_message r)
    (vt_upstream_feedback_json r) (vt_updated_at r) (vt_started_at r)
    (vt_finished_at r) (vt_deleted_at r) (vt_deletion_state r) (vt_version r)
    (vt_active_stage_id r) (vt_result_artifact_id r) (vt_protocol_version r)
    (vt_route_state r) (vt_routing_snapshot_json r)
    (vt_dispatch_snapshot_json r) (vt_request_normalizer r)
    (vt_routing_wait_reason r) (vt_latest_result_url r)
    (vt_latest_result_expires_at r) (vt_result_metadata_json r)
    (vt_metadata_status r).

(** Columns of the request read through the row. *)
Definition vt_owner (t : Task) : string := vt_api_key_id (vt_request t).
Definition vt_expires (t : Task) : Z := vt_expires_at (vt_request t).
Definition vt_live (t : Task) : bool := is_null (vt_deleted_at t).
Definition has_status (ss : list InternalStatus) (t : Task) : bool := vt_status t ∈? ss.

(** ** idempotency_keys and callback_deliveries *)

Record IdempotencyKey := mkIdempotencyKey {
  ik_api_key_id : string;
  ik_key_hash : string;
  ik_request_hash : string;
  ik_task_id : string;
  ik_created_at : Z;
  ik_expires_at : Z
}.

Inductive CallbackStatus := CbPending | CbSending | CbRetryWait | CbSucceeded | CbFailed.
#[export] Instance CallbackStatus_eq_dec : EqDecision CallbackStatus.
Proof. solve_decision. Defined.

Record CallbackDelivery := mkCallbackDelivery {
  cd_id : string;
  cd_task_id : string;
  cd_external_status : string;
  cd_state_version : Z;
  cd_status : CallbackStatus;
  cd_attempt_count : Z;
  cd_next_attempt_at : option Z;
  cd_request_body_hash : string;
  cd_request_body : string;
  cd_http_status : option Z;
  cd_last_error : option string;
  cd_created_at : Z;
  cd_updated_at : Z;
  cd_delivered_at : option Z;
  cd_lease_expires_at : option Z
}.
#[export] Instance CallbackDelivery_eta : Eta CallbackDelivery := λ r,
  mkCallbackDelivery (cd_id r) (cd_task_id r) (cd_external_status r)
    (cd_state_version r) (cd_status r) (cd_attempt_count r)
    (cd_next_attempt_at r) (cd_request_body_hash r) (cd_request_body r)
    (cd_http_status r) (cd_last_error r) (cd_created_at r) (cd_updated_at r)
    (cd_delivered_at r) (cd_lease_expires_at r).

(** ** task_stages, stage_attempts and node_dispatch_barriers *)

Inductive StageStatus :=
  | StPending | StLeased | StDispatching | StRunning | StValidating | StUnknown
  | StSucceeded | StFailed | StCancelled | StSkipped.
#[export] Instance StageStatus_eq_dec : EqDecision StageStatus.
Proof. solve_decision. Defined.

Record TaskStage := mkTaskStage {
  st_id : string;
  st_task_id : string;
  st_stage_order : Z;
  st_stage_type : string;
  st_required : bool;
  st_status : StageStatus;
  st_attempt_count : Z;
  st_max_attempts : Z;
  st_preferred_node_id : option string;
  st_current_node_id : option string;
  st_input_artifact_id : option string;
  st_output_artifact_id : option string;
  st_config_snapshot_json : string;
  st_lease_token : option string;
  st_lease_expires_at : option Z;
  st_next_attempt_at : option Z;
  st_error_code : option string;
  st_error_message : option string;
  st_created_at : Z;
  st_updated_at : Z;
  st_started_at : option Z;
  st_finished_at : option Z;
  st_row_version : Z
}.
#[export] Instance TaskStage_eta : Eta TaskStage := λ r,
  mkTaskStage (st_id r) (st_task_id r) (st_stage_order r) (st_stage_type r)
    (st_required r) (st_status r) (st_attempt_count r) (st_max_attempts r)
    (st_preferred_node_id r) (st_current_node_id r) (st_input_artifact_id r)
    (st_output_artifact_id r) (st_config_snapshot_json r) (st_lease_token r)
    (st_lease_expires_at r) (st_next_attempt_at r) (st_error_code r)
    (st_error_message r) (st_created_at r) (st_updated_at r) (st_started_at r)
    (st_finished_at r) (st_row_version r).

Inductive AttemptStatus :=
  AtDispatching | AtRunning | AtValidating | AtSucceeded | AtFailed | AtUnknown.
#[export] Instance AttemptStatus_eq_dec : EqDecision AttemptStatus.
Proof. solve_decision. Defined.

Definition active_attempt_statuses : list AttemptStatus :=
  [AtDispatching; AtRunning; AtValidating; AtUnknown].

Record StageAttempt := mkStageAttempt {
  sa_id : string;
  sa_stage_id : string;
  sa_attempt_no : Z;
  sa_operation_id : string;
  sa_node_id : string;
  sa_execution_id : option string;
  sa_status : AttemptStatus;
  sa_input_artifact_id : option string;
  sa_output_artifact_id : option string;
  sa_request_snapshot_json : option string;
  sa_error_code : option string;
  sa_error_message : option string;
  sa_started_at : Z;
  sa_heartbeat_at : option Z;
  sa_finished_at : option Z
}.
#[export] Instance StageAttempt_eta : Eta StageAttempt := λ r,
  mkStageAttempt (sa_id r) (sa_stage_id r) (sa_attempt_no r)
    (sa_operation_id r) (sa_node_id r) (sa_execution_id r) (sa_status r)
    (sa_input_artifact_id r) (sa_output_artifact_id r)
    (sa_request_snapshot_json r) (sa_error_code r) (sa_error_message r)
    (sa_started_at r) (sa_heartbeat_at r) (sa_finished_at r).

Record NodeDispatchBarrier := mkBarrier {
  nb_node_id : string;
  nb_task_id : string;
  nb_stage_id : string;
  nb_attempt_id : string;
  nb_operation_id : string;
  nb_execution_id : option string;
  nb_cancel_operation_id : string;
  nb_last_error_code : option string;
  nb_retry_count : Z;
  nb_next_retry_at : Z;
  nb_created_at : Z;
  nb_updated_at : Z;
  nb_row_version : Z
}.
#[export] Instance NodeDispatchBarrier_eta : Eta NodeDispatchBarrier := λ r,
  mkBarrier (nb_node_id r) (nb_task_id r) (nb_stage_id r) (nb_attempt_id r)
    (nb_operation_id r) (nb_execution_id r) (nb_cancel_operation_id r)
    (nb_last_error_code r) (nb_retry_count r) (nb_next_retry_at r)
    (nb_created_at r) (nb_updated_at r) (nb_row_version r).

(** ** task_remote_runs (internal/domain/remote_task.go) *)

Inductive RemotePhase :=
  RemotePreparing | RemotePrepared | RemoteSubmitIntent | RemoteSubmitted | RemoteTerminal.
#[export] Instance RemotePhase_eq_dec : EqDecision RemotePhase.
Proof. solve_decision. Defined.

Inductive UpstreamStatus := UpQueued | UpRunning | UpSucceeded | UpFailed | UpCancelled.
#[export] Instance UpstreamStatus_eq_dec : EqDecision UpstreamStatus.
Proof. solve_decision. Defined.

Inductive CancelState := CancelNone | CancelRequested | CancelConfirmed | CancelRejected.
#[export] Instance CancelState_eq_dec : EqDecision CancelState.
Proof. solve_decision. Defined.

Record RemoteRun := mkRemoteRun {
  rr_task_id : string;
  rr_node_id : string;
  rr_phase : RemotePhase;
  rr_submission_key : string;
  rr_request_body_json : option string;
  rr_request_body_hash : option string;
  rr_upstream_task_id : option string;
  rr_upstream_status : option UpstreamStatus;
  rr_cancel_state : CancelState;
  rr_reconciliation_required : bool;
  rr_submit_attempts : Z;
  rr_lease_token : option string;
  rr_lease_expires_at : option Z;
  rr_next_poll_at : option Z;
  rr_last_error_code : string;
  rr_created_at : Z;
  rr_updated_at : Z
}.
#[export] Instance RemoteRun_eta : Eta RemoteRun := λ r,
  mkRemoteRun (rr_task_id r) (rr_node_id r) (rr_phase r)
    (rr_submission_key r) (rr_request_body_json r) (rr_request_body_hash r)
    (rr_upstream_task_id r) (rr_upstream_status r) (rr_cancel_state r)
    (rr_reconciliation_required r) (rr_submit_attempts r) (rr_lease_token r)
    (rr_lease_expires_at r) (rr_next_poll_at r) (rr_last_error_code r)
    (rr_created_at r) (rr_updated_at r).

Record NodeAsset := mkNodeAsset {
  na_task_id : string;
  na_node_id : string;
  na_content_index : Z;
  na_asset_id : string;
  na_content_type : string;
  na_role : string;
  na_source_sha256 : string;
  na_size_bytes : Z;
  na_metadata_json : string;
  na_created_at : Z;
  na_updated_at : Z
}.
#[export] Instance NodeAsset_eta : Eta NodeAsset := λ r,
  mkNodeAsset (na_task_id r) (na_node_id r) (na_content_index r)
    (na_asset_id r) (na_content_type r) (na_role r) (na_source_sha256 r)
    (na_size_bytes r) (na_metadata_json r) (na_created_at r) (na_updated_at r).

(** ** result_upload_jobs (internal/domain/result_delivery.go) *)

Inductive UploadStatus :=
  UploadPending | UploadUploading | UploadRetryWait | UploadSucceeded | UploadFailed.
#[export] Instance UploadStatus_eq_dec : EqDecision UploadStatus.
Proof. solve_decision. Defined.

Record ResultUploadJob := mkUploadJob {
  uj_id : string;
  uj_task_id : string;
  uj_object_key : string;
  uj_status : UploadStatus;
  uj_round_no : Z;
  uj_attempt_no : Z;
  uj_max_attempts : Z;
  uj_next_attempt_at : option Z;
  uj_lease_token : option string;
  uj_lease_expires_at : option Z;
  uj_public_url : string;
  uj_last_error_code : string;
  uj_last_error_message : string;
  uj_bytes_uploaded : Z;
  uj_started_at : option Z;
  uj_finished_at : option Z;
  uj_created_at : Z;
  uj_updated_at : Z;
  uj_version : Z
}.
#[export] Instance ResultUploadJob_eta : Eta ResultUploadJob := λ r,
  mkUploadJob (uj_id r) (uj_task_id r) (uj_object_key r) (uj_status r)
    (uj_round_no r) (uj_attempt_no r) (uj_max_attempts r)
    (uj_next_attempt_at r) (uj_lease_token r) (uj_lease_expires_at r)
    (uj_public_url r) (uj_last_error_code r) (uj_last_error_message r)
    (uj_bytes_uploaded r) (uj_started_at r) (uj_finished_at r)
    (uj_created_at r) (uj_updated_at r) (uj_version r).

Definition CanRetry (job : ResultUploadJob) : bool := uj_status job ≟ UploadFailed.

(** ** model_service_nodes, node_model_catalogs, node_models, model_routes *)

Record ModelServiceNode := mkNode {
  mn_id : string;
  mn_service_url : string;
  mn_protocol_version : string;
  mn_api_key_fingerprint : option string;
  mn_upstream_model : string;
  mn_max_concurrency : Z;
  mn_replace_result_url : bool;
  mn_legacy_model_compat : bool;
  mn_base_url : string;
  mn_jobs_base_url : string;
  mn_public_base_url : string;
  mn_health_path : string;
  mn_submit_api_name : string;
  mn_check_api_name : string;
  mn_poll_interval_ms : Z;
  mn_request_timeout_ms : Z;
  mn_enabled : bool;
  mn_version : Z;
  mn_created_at : Z;
  mn_updated_at : Z;
  mn_deleted_at : option Z
}.
#[export] Instance ModelServiceNode_eta : Eta ModelServiceNode := λ r,
  mkNode (mn_id r) (mn_service_url r) (mn_protocol_version r)
    (mn_api_key_fingerprint r) (mn_upstream_model r) (mn_max_concurrency r)
    (mn_replace_result_url r) (mn_legacy_model_compat r) (mn_base_url r)
    (mn_jobs_base_url r) (mn_public_base_url r) (mn_health_path r)
    (mn_submit_api_name r) (mn_check_api_name r) (mn_poll_interval_ms r)
    (mn_request_timeout_ms r) (mn_enabled r) (mn_version r) (mn_created_at r)
    (mn_updated_at r) (mn_deleted_at r).

Record NodeModelCatalog := mkCatalog {
  nc_node_id : string;
  nc_source : string;
  nc_revision : Z;
  nc_connection_fingerprint : string;
  nc_last_status : string;
  nc_last_attempt_at : option Z;
  nc_last_success_at : option Z;
  nc_valid_until : option Z;
  nc_last_error_code : string;
  nc_created_at : Z;
  nc_updated_at : Z
}.
#[export] Instance NodeModelCatalog_eta : Eta NodeModelCatalog := λ r,
  mkCatalog (nc_node_id r) (nc_source r) (nc_revision r)
    (nc_connection_fingerprint r) (nc_last_status r) (nc_last_attempt_at r)
    (nc_last_success_at r) (nc_valid_until r) (nc_last_error_code r)
    (nc_created_at r) (nc_updated_at r).

Record NodeModelRow := mkNodeModelRow {
  nm_node_id : string;
  nm_model_id : string;
  nm_enabled : bool;
  nm_present : bool;
  nm_capabilities_json : json_text ModelCapability;
  nm_verified : bool;
  nm_created_at : Z;
  nm_updated_at : Z
}.
#[export] Instance NodeModelRow_eta : Eta NodeModelRow := λ r,
  mkNodeModelRow (nm_node_id r) (nm_model_id r) (nm_enabled r) (nm_present r)
    (nm_capabilities_json r) (nm_verified r) (nm_created_at r) (nm_updated_at r).

Record ModelRouteRow := mkModelRouteRow {
  mr_model_id : string;
  mr_protocol_version : option string;
  mr_selection_mode : string;
  mr_version : Z;
  mr_updated_by : string;
  mr_created_at : Z;
  mr_updated_at : Z
}.
#[export] Instance ModelRouteRow_eta : Eta ModelRouteRow := λ r,
  mkModelRouteRow (mr_model_id r) (mr_protocol_version r)
    (mr_selection_mode r) (mr_version r) (mr_updated_by r) (mr_created_at r)
    (mr_updated_at r).

(** ** task_input_spool_files (domain.InputSpoolFile) *)

Record InputSpoolFile := mkSpoolFile {
  sf_id : string;
  sf_task_id : string;
  sf_content_index : Z;
  sf_content_type : string;
  sf_role : string;
  sf_source_kind : string;
  sf_declared_mime : string;
  sf_detected_mime : string;
  sf_media_type : string;
  sf_extension : string;
  sf_relative_path : string;
  sf_object_url : string;
  sf_size_bytes : Z;
  sf_sha256 : string;
  sf_created_at : Z;
  sf_updated_at : Z
}.
#[export] Instance InputSpoolFile_eta : Eta InputSpoolFile := λ r,
  mkSpoolFile (sf_id r) (sf_task_id r) (sf_content_index r)
    (sf_content_type r) (sf_role r) (sf_source_kind r) (sf_declared_mime r)
    (sf_detected_mime r) (sf_media_type r) (sf_extension r)
    (sf_relative_path r) (sf_object_url r) (sf_size_bytes r) (sf_sha256 r)
    (sf_created_at r) (sf_updated_at r).

(** ** task_artifacts, artifact_locations and the deletion queue *)

Record TaskArtifact := mkArtifact {
  ta_id : string;
  ta_task_id : string;
  ta_stage_id : option string;
  ta_kind : string;
  ta_size_bytes : Z;
  ta_sha256 : option string;
  ta_media_json : option string;
  ta_state : string;
  ta_created_at : Z;
  ta_expires_at : Z;
  ta_deleted_at : option Z
}.
#[export] Instance TaskArtifact_eta : Eta TaskArtifact := λ r,
  mkArtifact (ta_id r) (ta_task_id r) (ta_stage_id r) (ta_kind r)
    (ta_size_bytes r) (ta_sha256 r) (ta_media_json r) (ta_state r)
    (ta_created_at r) (ta_expires_at r) (ta_deleted_at r).

Record ArtifactLocation := mkLocation {
  al_id : string;
  al_artifact_id : string;
  al_node_id : string;
  al_node_artifact_id : string;
  al_storage_key_fingerprint : option string;
  al_state : string;
  al_is_primary : bool;
  al_size_bytes : Z;
  al_sha256 : string;
  al_created_at : Z;
  al_verified_at : option Z;
  al_deleted_at : option Z
}.
#[export] Instance ArtifactLocation_eta : Eta ArtifactLocation := λ r,
  mkLocation (al_id r) (al_artifact_id r) (al_node_id r)
    (al_node_artifact_id r) (al_storage_key_fingerprint r) (al_state r)
    (al_is_primary r) (al_size_bytes r) (al_sha256 r) (al_created_at r)
    (al_verified_at r) (al_deleted_at r).

Record DeletionJob := mkDeletionJob {
  dj_id : string;
  dj_reason : string;
  dj_status : string;
  dj_requested_by : string;
  dj_total_count : Z;
  dj_succeeded_count : Z;
  dj_failed_count : Z;
  dj_deleted_bytes : Z;
  dj_created_at : Z;
  dj_started_at : option Z;
  dj_finished_at : option Z;
  dj_updated_at : Z;
  dj_older_than_days : option Z;
  dj_cutoff_at : option Z;
  dj_preview_token_hash : option string;
  dj_dry_run : bool;
  dj_skipped_count : Z;
  dj_candidate_bytes : Z;
  dj_error_summary : option string
}.
#[export] Instance DeletionJob_eta : Eta DeletionJob := λ r,
  mkDeletionJob (dj_id r) (dj_reason r) (dj_status r) (dj_requested_by r)
    (dj_total_count r) (dj_succeeded_count r) (dj_failed_count r)
    (dj_deleted_bytes r) (dj_created_at r) (dj_started_at r)
    (dj_finished_at r) (dj_updated_at r) (dj_older_than_days r) (dj_cutoff_at r)
    (dj_preview_token_hash r) (dj_dry_run r) (dj_skipped_count r) (dj_candidate_bytes r)
    (dj_error_summary r).

Inductive DeletionStatus :=
  DiPending | DiDeleting | DiRetryWait | DiDeleted | DiAlreadyAbsent | DiSkipped | DiFailed.
#[export] Instance DeletionStatus_eq_dec : EqDecision DeletionStatus.
Proof. solve_decision. Defined.

Record DeletionItem := mkDeletionItem {
  di_id : string;
  di_job_id : string;
  di_artifact_id : string;
  di_location_id : string;
  di_node_id : string;
  di_status : DeletionStatus;
  di_operation_id : string;
  di_attempt_count : Z;
  di_next_attempt_at : option Z;
  di_lease_token : option string;
  di_lease_expires_at : option Z;
  di_last_error_code : option string;
  di_last_error_message : option string;
  di_deleted_bytes : Z;
  di_created_at : Z;
  di_updated_at : Z;
  di_deleted_at : option Z
}.
#[export] Instance DeletionItem_eta : Eta DeletionItem := λ r,
  mkDeletionItem (di_id r) (di_job_id r) (di_artifact_id r)
    (di_location_id r) (di_node_id r) (di_status r) (di_operation_id r)
    (di_attempt_count r) (di_next_attempt_at r) (di_lease_token r)
    (di_lease_expires_at r) (di_last_error_code r) (di_last_error_message r)
    (di_deleted_bytes r) (di_created_at r) (di_updated_at r) (di_deleted_at r).

(** ** object_storage_configs, the row with id 1 *)

Record ObjectStorageConfig := mkObjectStorage {
  os_Provider : string;
  os_BucketName : string;
  os_FileHost : string;
  os_PublicBaseURL : string;
  os_UploadBase64Inputs : bool;
  os_PublicKeyCiphertext : string;
  os_PublicKeyNonce : string;
  os_PublicKeyFingerprint : string;
  os_PrivateKeyCiphertext : string;
  os_PrivateKeyNonce : string;
  os_PrivateKeyFingerprint : string;
  os_RequestTimeoutMS : Z;
  os_LastTestStatus : string;
  os_LastTestedAt : option Z;
  os_Version : Z;
  os_CreatedAt : Z;
  os_UpdatedAt : Z
}.
#[export] Instance ObjectStorageConfig_eta : Eta ObjectStorageConfig := λ r,
  mkObjectStorage (os_Provider r) (os_BucketName r) (os_FileHost r) (os_PublicBaseURL r)
    (os_UploadBase64Inputs r) (os_PublicKeyCiphertext r) (os_PublicKeyNonce r)
    (os_PublicKeyFingerprint r) (os_PrivateKeyCiphertext r) (os_PrivateKeyNonce r)
    (os_PrivateKeyFingerprint r) (os_RequestTimeoutMS r) (os_LastTestStatus r)
    (os_LastTestedAt r) (os_Version r) (os_CreatedAt r) (os_UpdatedAt r).

(** ** external_api_keys *)

Record ExternalAPIKey := mkAPIKey {
  ak_ID : string;
  ak_Name : string;
  ak_Key : option string;        (** key_plaintext *)
  ak_KeyDigest : string;         (** in hexadecimal *)
  ak_KeyPrefix : string;
  ak_KeySuffix : string;
  ak_Enabled : bool;
  ak_Version : Z;
  ak_CreatedAt : Z;
  ak_UpdatedAt : Z
}.
#[export] Instance ExternalAPIKey_eta : Eta ExternalAPIKey := λ r,
  mkAPIKey (ak_ID r) (ak_Name r) (ak_Key r) (ak_KeyDigest r) (ak_KeyPrefix r) (ak_KeySuffix r)
    (ak_Enabled r) (ak_Version r) (ak_CreatedAt r) (ak_UpdatedAt r).

(** ** request_profiles *)

Record RequestProfile := mkProfile {
  rp_ID : string;
  rp_Resolution : string;
  rp_ResolutionKey : string;
  rp_ConfigJSON : string;
  rp_ConfigHash : string;
  rp_CreatedBy : string;
  rp_UpdatedBy : string;
  rp_CreatedAt : Z;
  rp_UpdatedAt : Z;
  rp_RowVersion : Z
}.
#[export] Instance RequestProfile_eta : Eta RequestProfile := λ r,
  mkProfile (rp_ID r) (rp_Resolution r) (rp_ResolutionKey r) (rp_ConfigJSON r) (rp_ConfigHash r)
    (rp_CreatedBy r) (rp_UpdatedBy r) (rp_CreatedAt r) (rp_UpdatedAt r) (rp_RowVersion r).

(** ** The whole database *)

Record DB := mkDB {
  db_video_tasks : list Task;
  db_task_seq : Z;               (** sqlite_sequence of video_tasks *)
  db_idempotency_keys : list IdempotencyKey;
  db_callback_deliveries : list CallbackDelivery;
  db_task_stages : list TaskStage;
  db_stage_attempts : list StageAttempt;
  db_barriers : list NodeDispatchBarrier;
  db_remote_runs : list RemoteRun;
  db_node_assets : list NodeAsset;
  db_upload_jobs : list ResultUploadJob;
  db_nodes : list ModelServiceNode;
  db_catalogs : list NodeModelCatalog;
  db_node_models : list NodeModelRow;
  db_routes : list ModelRouteRow;
  db_routing_revision : Z;       (** routing_state.revision *)
  db_instance_id : string;       (** routing_state.instance_id *)
  db_spool_files : list InputSpoolFile;
  db_artifacts : list TaskArtifact;
  db_locations : list ArtifactLocation;
  db_deletion_jobs : list DeletionJob;
  db_deletion_items : list DeletionItem;
  db_profile_test_artifacts : list (option string); (** profile_test_runs.artifact_id *)
  db_object_storage : list ObjectStorageConfig;
  db_api_keys : list ExternalAPIKey;
  db_api_key_bootstrap : option Z;  (** imported_count of api_key_config_bootstrap *)
  db_profiles : list RequestProfile;
  db_node_bootstrap : option Z   (** imported_count of node_config_bootstrap *)
}.
#[export] Instance DB_eta : Eta DB := λ r,
  mkDB (db_video_tasks r) (db_task_seq r) (db_idempotency_keys r)
    (db_callback_deliveries r) (db_task_stages r) (db_stage_attempts r)
    (db_barriers r) (db_remote_runs r) (db_node_assets r) (db_upload_jobs r)
    (db_nodes r) (db_catalogs r) (db_node_models r) (db_routes r)
    (db_routing_revision r) (db_instance_id r) (db_spool_files r)
    (db_artifacts r) (db_locations r) (db_deletion_jobs r)
    (db_deletion_items r) (db_profile_test_artifacts r) (db_object_storage r)
    (db_api_keys r) (db_api_key_bootstrap r) (db_profiles r) (db_node_bootstrap r).

Definition empty_DB : DB :=
  mkDB [] 0 [] [] [] [] [] [] [] [] [] [] [] [] 1 "instance" [] [] [] [] [] []
    [] [] None [] None.

(** The body of a store operation. *)
Abbreviation Tx := (tx DB error).
