(* ===== verification/Sql.v ===== *)
(** * Statements and schema constraints

    [Table R] ties a row type to its table: the constraints of the schema
    (PRIMARY KEY, UNIQUE, CHECK) as a predicate on the whole table, and the
    BEFORE UPDATE triggers as a predicate on the old and the new row.  A
    statement whose result would break one of them is aborted by SQLite and
    returns an error. *)

From S2P Require Import Prelude Domain Tx Database.

Class Table (R : Type) := {
  tbl : DB → list R;
  set_tbl : list R → DB → DB;
  row_trigger : R → R → bool;
  tbl_valid : list R → bool
}.

(** Every table keeps what was written to it. *)
Class TableLaws (R : Type) `{Table R} := {
  tbl_set_tbl : ∀ l db, tbl (set_tbl l db) = l;
  set_tbl_tbl : ∀ db, set_tbl (tbl db) db = db;
  set_tbl_set_tbl : ∀ l l' db, set_tbl l (set_tbl l' db) = set_tbl l db
}.

Section statements.
Context {R : Type} `{Table R}.

Definition exec_update (p : R → bool) (f : R → R) : Tx Z := λ db,
  let old := tbl db in
  let new := update_where p f old in
  if forallb (λ r, negb (p r) || row_trigger r (f r)) old && tbl_valid new
  then Done (count_where p old) (set_tbl new db)
  else Raise ErrConstraint db.

Definition exec_insert (r : R) : Tx unit := λ db,
  let new := tbl db ++ [r] in
  if tbl_valid new then Done tt (set_tbl new db) else Raise ErrConstraint db.

Definition exec_delete (p : R → bool) : Tx Z := λ db,
  Done (count_where p (tbl db)) (set_tbl (delete_where p (tbl db)) db).

Definition select_count (p : R → bool) : Tx Z :=
  ask (λ db, count_where p (tbl db)).

(** [QueryRow ... Scan]: the first row, or sql.ErrNoRows. *)
Definition select_one (p : R → bool) : Tx (option R) :=
  ask (λ db, List.find p (tbl db)).

Lemma exec_update_Done p f db n db' :
  exec_update p f db = Done n db' ↔
  n = count_where p (tbl db) ∧
  db' = set_tbl (update_where p f (tbl db)) db ∧
  (∀ r, r ∈ tbl db → p r = true → row_trigger r (f r) = true) ∧
  tbl_valid (update_where p f (tbl db)) = true.
Proof.
  unfold exec_update.
  destruct (forallb _ _ && _) eqn:E.
  - apply andb_true_iff in E as [Ht Hv]. rewrite forallb_forall in Ht.
    split.
    + intros [= <- <-]. split_and!; [done..| |done].
      intros r Hr Hp. apply list_elem_of_In in Hr. specialize (Ht r Hr).
      by rewrite Hp in Ht.
    + by intros (-> & -> & _ & _).
  - split; [done|]. intros (-> & -> & Ht & Hv). rewrite Hv, andb_true_r in E.
    exfalso. apply not_true_iff_false in E. apply E. apply forallb_forall.
    intros r Hr%list_elem_of_In. destruct (p r) eqn:Hp; [|done]. simpl. auto.
Qed.

Lemma exec_insert_Done r db u db' :
  exec_insert r db = Done u db' ↔
  db' = set_tbl (tbl db ++ [r]) db ∧ tbl_valid (tbl db ++ [r]) = true.
Proof. destruct u. unfold exec_insert. destruct (tbl_valid _); naive_solver. Qed.

Lemma exec_delete_Done p db n db' :
  exec_delete p db = Done n db' ↔
  n = count_where p (tbl db) ∧ db' = set_tbl (delete_where p (tbl db)) db.
Proof. unfold exec_delete. naive_solver. Qed.

Lemma select_count_Done p db n db' :
  select_count p db = Done n db' ↔ n = count_where p (tbl db) ∧ db = db'.
Proof. unfold select_count. by rewrite ask_Done. Qed.

Lemma select_one_Done p db o db' :
  select_one p db = Done o db' ↔ o = List.find p (tbl db) ∧ db = db'.
Proof. unfold select_one. by rewrite ask_Done. Qed.

(** A statement changes its own table only. *)
Lemma tx_rel_exec_update (Q : relation DB) `{!PreOrder Q} p f :
  (∀ db, Q db (set_tbl (update_where p f (tbl db)) db)) →
  tx_rel Q (exec_update p f).
Proof.
  intros HQ db. unfold exec_update. destruct (_ && _); [apply HQ|reflexivity].
Qed.
Lemma tx_rel_exec_insert (Q : relation DB) `{!PreOrder Q} r :
  (∀ db, Q db (set_tbl (tbl db ++ [r]) db)) → tx_rel Q (exec_insert r).
Proof.
  intros HQ db. unfold exec_insert. destruct (tbl_valid _); [apply HQ|reflexivity].
Qed.
(** The same, with what the schema has checked. *)
Lemma tx_rel_update_checked (Q : relation DB) `{!PreOrder Q} p f :
  (∀ db, (∀ r, r ∈ tbl db → p r = true → row_trigger r (f r) = true) →
     tbl_valid (update_where p f (tbl db)) = true →
     Q db (set_tbl (update_where p f (tbl db)) db)) →
  tx_rel Q (exec_update p f).
Proof.
  intros HQ db. destruct (exec_update p f db) eqn:E.
  - apply exec_update_Done in E as (_ & -> & Ht & Hv). by apply HQ.
  - unfold exec_update in E. destruct (_ && _); [done|]. injection E as _ <-. reflexivity.
Qed.
Lemma tx_rel_insert_checked (Q : relation DB) `{!PreOrder Q} r :
  (∀ db, tbl_valid (tbl db ++ [r]) = true → Q db (set_tbl (tbl db ++ [r]) db)) →
  tx_rel Q (exec_insert r).
Proof.
  intros HQ db. unfold exec_insert. destruct (tbl_valid _) eqn:E; [by apply HQ|reflexivity].
Qed.
Lemma tx_rel_exec_delete (Q : relation DB) p :
  (∀ db, Q db (set_tbl (delete_where p (tbl db)) db)) → tx_rel Q (exec_delete p).
Proof. intros HQ db. apply HQ. Qed.
End statements.

(** A statement that matches no row. *)
Lemma exec_update_none {R} `{TableLaws R} (p : R → bool) f db :
  (∀ r, r ∈ tbl db → p r = false) → tbl_valid (tbl db) = true →
  exec_update p f db = Done 0 db.
Proof.
  intros Hp Hv. unfold exec_update. rewrite update_where_id by done.
  rewrite Hv, set_tbl_tbl, andb_true_r, (proj2 (count_where_zero _ _) Hp).
  rewrite (proj2 (forallb_forall _ _)); [done|].
  intros r Hr%list_elem_of_In. by rewrite Hp.
Qed.

(** [oneRow] and [barrierOneRow] of the store. *)
Definition oneRow (n : Z) : Tx unit := ensure (n ≟ 1) ErrStateConflict.
Definition barrierOneRow (n : Z) : Tx unit :=
  ensure (n ≟ 1) ErrNodeDispatchBarrierConflict.

(** [s.db.ExecContext] outside a transaction, then [oneRow]: the statement is
    committed before the number of rows is looked at. *)
Definition statement (m : Tx Z) : DB → (error + unit) * DB :=
  immediate_shadowed (n ← m; shadowed (oneRow n)).
Definition barrier_statement (m : Tx Z) : DB → (error + unit) * DB :=
  immediate_shadowed (n ← m; shadowed (barrierOneRow n)).

Lemma statement_inr (m : Tx Z) db u db' :
  statement m db = (inr u, db') → (n ← m; oneRow n) db = Done tt db'.
Proof.
  unfold statement, immediate_shadowed, shadowed, oneRow, ensure, mbind, tx_bind.
  destruct (m db) as [n db1|]; [|done]. destruct (n ≟ 1); simpl; [|done]. by intros [= _ ->].
Qed.

(** ** Triggers and constraints of each table *)

(** [json_extract(routing_snapshot_json,'$.protocol_version')]; a text that is
    not a snapshot has no such field. *)
Definition snapshot_protocol (j : option (json_text RouteSnapshot)) : option string :=
  rs_ProtocolVersion <$> (j ≫= unmarshal).

(** validate_video_tasks_route_insert and validate_video_tasks_route_update: a
    condition on every row written. *)
Definition route_valid (t : Task) : bool :=
  negb ((vt_route_state t ≟ RouteReady) &&
    (is_null (vt_protocol_version t) || (vt_protocol_version t ≟ Some "")
     || is_null (vt_routing_snapshot_json t)
     || negb (snapshot_protocol (vt_routing_snapshot_json t) ≟ vt_protocol_version t))).

(** protect_video_tasks_original_result_url and protect_video_tasks_route *)
Definition task_trigger (old new : Task) : bool :=
  (is_null (vt_result_internal_url old)
   || (vt_result_internal_url new ≟ vt_result_internal_url old))
  && negb ((vt_route_state old ≟ RouteReady)
           && negb (is_null (vt_protocol_version old))
           && (negb (vt_protocol_version new ≟ vt_protocol_version old)
               || negb (vt_routing_snapshot_json new ≟ vt_routing_snapshot_json old)
               || negb (vt_route_state new ≟ vt_route_state old)
               || negb (vt_request_normalizer new ≟ vt_request_normalizer old))).

Definition task_check (t : Task) : bool :=
  (vt_scenario (vt_request t) ∈? ["t2va"; "i2va"; "r2va"])
  && (sqlite_length (vt_resolution (vt_request t)) <=? 32)
  && (0 <? vt_duration (vt_request t))
  && (0 <=? vt_retry_count t) && (vt_retry_count t <=? 1)
  && (0 <=? vt_upstream_node_version t)
  && (vt_deletion_state t ∈? ["not_requested"; "pending"; "partial"; "deleted"; "failed"])
  && (vt_metadata_status t ∈? ["none"; "pending"; "ready"; "unavailable"]).

Definition distinct {A B} `{EqDecision B} (key : A → B) (l : list A) : bool :=
  bool_decide (NoDup (map key l)).

(** UNIQUE over the rows whose key is not NULL. *)
Definition distinct_opt {A B} `{EqDecision B} (key : A → option B) (l : list A) : bool :=
  bool_decide (NoDup (omap key l)).

#[export] Instance tasks_table : Table Task := {
  tbl := db_video_tasks;
  set_tbl l db := db <| db_video_tasks := l |>;
  row_trigger := task_trigger;
  tbl_valid l :=
    distinct vt_task_id l && distinct vt_queue_seq l
    && forallb (λ t, task_check t && route_valid t) l
}.

#[export] Instance idempotency_table : Table IdempotencyKey := {
  tbl := db_idempotency_keys;
  set_tbl l db := db <| db_idempotency_keys := l |>;
  row_trigger _ _ := true;
  tbl_valid l := distinct (λ k, (ik_api_key_id k, ik_key_hash k)) l
}.

#[export] Instance callbacks_table : Table CallbackDelivery := {
  tbl := db_callback_deliveries;
  set_tbl l db := db <| db_callback_deliveries := l |>;
  row_trigger _ _ := true;
  tbl_valid l :=
    distinct cd_id l && distinct (λ d, (cd_task_id d, cd_state_version d)) l
    && forallb (λ d, (1 <=? cd_state_version d) && (0 <=? cd_attempt_count d)) l
}.

(** Statuses the CHECK of task_stages admits. *)
Definition stage_check (s : TaskStage) : bool :=
  negb (st_status s ≟ StUnknown)
  && (st_stage_type s ∈? ["generation"; "interpolation"; "restoration"; "watermark"; "final_validation"])
  && (0 <=? st_stage_order s) && (0 <=? st_attempt_count s) && (1 <=? st_max_attempts s)
  && (1 <=? st_row_version s).

#[export] Instance stages_table : Table TaskStage := {
  tbl := db_task_stages;
  set_tbl l db := db <| db_task_stages := l |>;
  row_trigger _ _ := true;
  tbl_valid l :=
    distinct st_id l && distinct (λ s, (st_task_id s, st_stage_order s)) l
    && forallb stage_check l
}.

#[export] Instance attempts_table : Table StageAttempt := {
  tbl := db_stage_attempts;
  set_tbl l db := db <| db_stage_attempts := l |>;
  row_trigger _ _ := true;
  tbl_valid l :=
    distinct sa_id l && distinct sa_operation_id l
    && distinct (λ a, (sa_stage_id a, sa_attempt_no a)) l
    && distinct_opt (λ a, (λ e, (sa_node_id a, e)) <$> sa_execution_id a) l
    && forallb (λ a, 1 <=? sa_attempt_no a) l
}.

#[export] Instance barriers_table : Table NodeDispatchBarrier := {
  tbl := db_barriers;
  set_tbl l db := db <| db_barriers := l |>;
  row_trigger _ _ := true;
  tbl_valid l :=
    distinct nb_node_id l && distinct nb_cancel_operation_id l
    && forallb (λ b, negb (nb_operation_id b ≟ "") && negb (nb_cancel_operation_id b ≟ "")
                     && (0 <=? nb_retry_count b) && (0 <=? nb_next_retry_at b)
                     && (1 <=? nb_row_version b)) l
}.

(** protect_remote_submission *)
Definition remote_trigger (old new : RemoteRun) : bool :=
  negb (
    ((rr_phase old ∈? [RemoteSubmitIntent; RemoteSubmitted; RemoteTerminal])
     && (negb (rr_node_id new ≟ rr_node_id old)
         || negb (rr_submission_key new ≟ rr_submission_key old)
         || negb (rr_request_body_json new ≟ rr_request_body_json old)
         || negb (rr_request_body_hash new ≟ rr_request_body_hash old)
         || (rr_phase new ∈? [RemotePreparing; RemotePrepared])))
    || ((rr_phase old ≟ RemoteSubmitted) && (rr_phase new ≟ RemoteSubmitIntent))
    || ((rr_phase old ≟ RemoteTerminal) && negb (rr_phase new ≟ RemoteTerminal))
    || (negb (is_null (rr_upstream_task_id old))
        && negb (rr_upstream_task_id new ≟ rr_upstream_task_id old))
    || (rr_submit_attempts new <? rr_submit_attempts old)).

Definition remote_check (r : RemoteRun) : bool :=
  negb (rr_submission_key r ≟ "")
  && (match rr_request_body_hash r with Some h => sqlite_length h =? 64 | None => true end)
  && negb (rr_upstream_task_id r ≟ Some "")
  && (0 <=? rr_submit_attempts r)
  && ((negb (rr_phase r ∈? [RemotePrepared; RemoteSubmitIntent; RemoteSubmitted])
       && negb ((rr_phase r ≟ RemoteTerminal) && (0 <? rr_submit_attempts r)))
      || (negb (is_null (rr_request_body_json r)) && negb (is_null (rr_request_body_hash r))))
  && (negb (rr_phase r ≟ RemoteSubmitted) || negb (is_null (rr_upstream_task_id r))).

#[export] Instance remote_table : Table RemoteRun := {
  tbl := db_remote_runs;
  set_tbl l db := db <| db_remote_runs := l |>;
  row_trigger := remote_trigger;
  tbl_valid l :=
    distinct rr_task_id l && distinct rr_submission_key l
    && distinct_opt (λ r, (λ u, (rr_node_id r, u)) <$> rr_upstream_task_id r) l
    && forallb remote_check l
}.

#[export] Instance assets_table : Table NodeAsset := {
  tbl := db_node_assets;
  set_tbl l db := db <| db_node_assets := l |>;
  row_trigger _ _ := true;
  tbl_valid l :=
    distinct (λ a, (na_task_id a, na_node_id a, na_content_index a)) l
    && forallb (λ a, (0 <=? na_content_index a) && negb (na_asset_id a ≟ "")
                     && (sqlite_length (na_source_sha256 a) =? 64) && (0 <? na_size_bytes a)
                     && (((na_content_type a ≟ "image_url")
                          && (na_role a ∈? ["first_frame"; "last_frame"; "reference_image"]))
                         || ((na_content_type a ≟ "video_url") && (na_role a ≟ "reference_video"))
                         || ((na_content_type a ≟ "audio_url") && (na_role a ≟ "reference_audio")))) l
}.

#[export] Instance uploads_table : Table ResultUploadJob := {
  tbl := db_upload_jobs;
  set_tbl l db := db <| db_upload_jobs := l |>;
  row_trigger _ _ := true;
  tbl_valid l :=
    distinct uj_id l && distinct uj_task_id l && distinct uj_object_key l
    && forallb (λ j, negb (uj_id j ≟ "") && negb (uj_object_key j ≟ "")
                     && (1 <=? uj_round_no j) && (0 <=? uj_attempt_no j)
                     && (uj_attempt_no j <=? 3) && (uj_max_attempts j =? 3)
                     && (0 <=? uj_bytes_uploaded j) && (1 <=? uj_version j)) l
}.

(** A node has a sealed key unless it is a legacy node. *)
Definition node_check (n : ModelServiceNode) : bool :=
  (1 <=? sqlite_length (mn_id n)) && (sqlite_length (mn_id n) <=? 64)
  && negb (mn_service_url n ≟ "") && negb (mn_protocol_version n ≟ "")
  && (1 <=? sqlite_length (mn_health_path n)) && (sqlite_length (mn_health_path n) <=? 256)
  && (1000 <=? mn_poll_interval_ms n) && (mn_poll_interval_ms n <=? 300000)
  && (1000 <=? mn_request_timeout_ms n) && (mn_request_timeout_ms n <=? 300000)
  && (1 <=? mn_max_concurrency n) && (mn_max_concurrency n <=? 100)
  && (1 <=? mn_version n)
  && eqb (mn_protocol_version n ≟ ProtocolLegacy) (is_null (mn_api_key_fingerprint n)).

#[export] Instance nodes_table : Table ModelServiceNode := {
  tbl := db_nodes;
  set_tbl l db := db <| db_nodes := l |>;
  row_trigger _ _ := true;
  tbl_valid l :=
    distinct mn_id l
    && distinct_opt (λ n, if is_null (mn_deleted_at n)
                             && negb (mn_protocol_version n ≟ ProtocolLegacy)
                          then Some (mn_service_url n) else None) l
    && forallb node_check l
}.

#[export] Instance catalogs_table : Table NodeModelCatalog := {
  tbl := db_catalogs;
  set_tbl l db := db <| db_catalogs := l |>;
  row_trigger _ _ := true;
  tbl_valid l :=
    distinct nc_node_id l
    && forallb (λ c, (nc_source c ∈? ["builtin"; "manual"; "discovered"])
                     && (1 <=? nc_revision c)
                     && (sqlite_length (nc_connection_fingerprint c) =? 64)
                     && (nc_last_status c ∈? ["uninitialized"; "ready"; "empty"; "error"])) l
}.

#[export] Instance node_models_table : Table NodeModelRow := {
  tbl := db_node_models;
  set_tbl l db := db <| db_node_models := l |>;
  row_trigger _ _ := true;
  tbl_valid l :=
    distinct (λ m, (nm_node_id m, nm_model_id m)) l
    && forallb (λ m, (1 <=? sqlite_length (nm_model_id m))
                     && (sqlite_length (nm_model_id m) <=? 128)) l
}.

#[export] Instance routes_table : Table ModelRouteRow := {
  tbl := db_routes;
  set_tbl l db := db <| db_routes := l |>;
  row_trigger _ _ := true;
  tbl_valid l :=
    distinct mr_model_id l
    && forallb (λ r, (1 <=? sqlite_length (mr_model_id r)) && (sqlite_length (mr_model_id r) <=? 128)
                     && (1 <=? mr_version r)
                     && (((mr_selection_mode r ≟ "unresolved") && is_null (mr_protocol_version r))
                         || ((mr_selection_mode r ∈? ["auto"; "manual"])
                             && negb (is_null (mr_protocol_version r))
                             && negb (mr_protocol_version r ≟ Some "")))) l
}.

#[export] Instance spool_table : Table InputSpoolFile := {
  tbl := db_spool_files;
  set_tbl l db := db <| db_spool_files := l |>;
  row_trigger _ _ := true;
  tbl_valid l :=
    distinct sf_id l && distinct (λ f, (sf_task_id f, sf_content_index f)) l
    && forallb (λ f, negb (sf_id f ≟ "") && (0 <=? sf_content_index f)
                     && (sf_content_type f ∈? ["image_url"; "video_url"; "audio_url"])
                     && negb (sf_role f ≟ "") && (sf_source_kind f ≟ "data_uri")
                     && negb (sf_media_type f ≟ "") && negb (sf_extension f ≟ "")
                     && negb (sf_relative_path f ≟ "") && (0 <? sf_size_bytes f)
                     && ((sf_object_url f ≟ "")
                         || ((8 <? sqlite_length (sf_object_url f))
                             && String.prefix "https://" (sqlite_lower (sf_object_url f))))
                     && (sqlite_length (sf_sha256 f) =? 64)) l
}.

#[export] Instance artifacts_table : Table TaskArtifact := {
  tbl := db_artifacts;
  set_tbl l db := db <| db_artifacts := l |>;
  row_trigger _ _ := true;
  tbl_valid l :=
    distinct ta_id l
    && forallb (λ a, (ta_kind a ∈? ["audio_source"; "intermediate_video"; "final_video";
                                    "media_manifest"; "test_output"])
                     && (0 <=? ta_size_bytes a)
                     && (ta_state a ∈? ["active"; "delete_pending"; "deleting"; "deleted";
                                        "delete_failed"; "missing"])) l
}.

#[export] Instance locations_table : Table ArtifactLocation := {
  tbl := db_locations;
  set_tbl l db := db <| db_locations := l |>;
  row_trigger _ _ := true;
  tbl_valid l :=
    distinct al_id l && distinct (λ a, (al_node_id a, al_node_artifact_id a)) l
    && distinct_opt (λ a, if al_is_primary a && (al_state a ≟ "active")
                          then Some (al_artifact_id a) else None) l
    && forallb (λ a, (0 <=? al_size_bytes a)
                     && (al_state a ∈? ["importing"; "active"; "delete_pending"; "deleting";
                                        "deleted"; "delete_failed"; "missing"])) l
}.

#[export] Instance deletion_jobs_table : Table DeletionJob := {
  tbl := db_deletion_jobs;
  set_tbl l db := db <| db_deletion_jobs := l |>;
  row_trigger _ _ := true;
  tbl_valid l :=
    distinct dj_id l
    && forallb (λ j, (dj_reason j ∈? ["task_delete"; "retention"; "manual_cleanup";
                                      "orphan_cleanup"])
                     && (dj_status j ∈? ["preview"; "pending"; "running"; "partial_failed";
                                         "succeeded"; "failed"])
                     && (0 <=? dj_total_count j) && (0 <=? dj_succeeded_count j)
                     && (0 <=? dj_failed_count j) && (0 <=? dj_deleted_bytes j)
                     && (0 <=? dj_skipped_count j) && (0 <=? dj_candidate_bytes j)
                     && (match dj_older_than_days j with
                         | Some d => (1 <=? d) && (d <=? 3650)
                         | None => true
                         end)) l
}.

#[export] Instance deletion_items_table : Table DeletionItem := {
  tbl := db_deletion_items;
  set_tbl l db := db <| db_deletion_items := l |>;
  row_trigger _ _ := true;
  tbl_valid l :=
    distinct di_id l && distinct di_operation_id l
    && distinct (λ i, (di_job_id i, di_location_id i)) l
    && forallb (λ i, (0 <=? di_attempt_count i) && (0 <=? di_deleted_bytes i)) l
}.

Definition object_storage_check (c : ObjectStorageConfig) : bool :=
  (os_Provider c ≟ "ucloud-us3")
  && (1 <=? sqlite_length (os_BucketName c)) && (sqlite_length (os_BucketName c) <=? 63)
  && negb (os_FileHost c ≟ "") && negb (os_PublicBaseURL c ≟ "")
  && (1000 <=? os_RequestTimeoutMS c) && (os_RequestTimeoutMS c <=? 1800000)
  && (os_LastTestStatus c ∈? ["untested"; "passed"; "failed"]) && (1 <=? os_Version c).

#[export] Instance object_storage_table : Table ObjectStorageConfig := {
  tbl := db_object_storage;
  set_tbl l db := db <| db_object_storage := l |>;
  row_trigger _ _ := true;
  tbl_valid l := distinct (λ _, 1) l && forallb object_storage_check l
}.

Definition between4_16 (s : string) : bool := (4 <=? sqlite_length s) && (sqlite_length s <=? 16).
Definition api_key_check (k : ExternalAPIKey) : bool :=
  (1 <=? sqlite_length (sqlite_trim (ak_Name k))) && (sqlite_length (sqlite_trim (ak_Name k)) <=? 128)
  && (sqlite_length (ak_KeyDigest k) =? 64)
  && between4_16 (ak_KeyPrefix k) && between4_16 (ak_KeySuffix k) && (1 <=? ak_Version k).

#[export] Instance api_keys_table : Table ExternalAPIKey := {
  tbl := db_api_keys;
  set_tbl l db := db <| db_api_keys := l |>;
  row_trigger _ _ := true;
  tbl_valid l :=
    distinct ak_ID l && distinct (λ k, sqlite_lower (ak_Name k)) l && distinct ak_KeyDigest l
    && forallb api_key_check l
}.

#[export] Instance profiles_table : Table RequestProfile := {
  tbl := db_profiles;
  set_tbl l db := db <| db_profiles := l |>;
  row_trigger _ _ := true;
  tbl_valid l :=
    distinct rp_ID l && distinct rp_ResolutionKey l
    && forallb (λ p, (1 <=? sqlite_length (rp_ResolutionKey p))
                     && (sqlite_length (rp_ResolutionKey p) <=? 32)
                     && negb (rp_ConfigHash p ≟ "") && (1 <=? rp_RowVersion p)) l
}.

(** The keys of a table under an update that does not touch them. *)
Lemma distinct_NoDup {A B} `{EqDecision B} (key : A → B) l :
  distinct key l = true ↔ NoDup (map key l).
Proof. unfold distinct. by rewrite bool_decide_eq_true. Qed.

Lemma distinct_update {A B} `{EqDecision B} (key : A → B) p f l :
  (∀ x, key (f x) = key x) → distinct key (update_where p f l) = distinct key l.
Proof. intros H. unfold distinct. by rewrite map_update_where. Qed.

Lemma tasks_valid_iff ts :
  tbl_valid ts = true ↔
  NoDup (map vt_task_id ts) ∧ NoDup (map vt_queue_seq ts) ∧
  ∀ t, t ∈ ts → task_check t = true ∧ route_valid t = true.
Proof.
  unfold tbl_valid, tasks_table. rewrite !andb_true_iff, !distinct_NoDup, forallb_forall.
  split.
  - intros [[Hid Hseq] Hall]. split_and!; [done..|].
    intros t Ht%list_elem_of_In. by apply andb_true_iff, Hall.
  - intros (Hid & Hseq & Hall). split; [done|].
    intros t Ht%list_elem_of_In. by apply andb_true_iff, Hall.
Qed.

(** The triggers let through an update that leaves their columns alone. *)
Lemma task_trigger_same old new :
  vt_result_internal_url new = vt_result_internal_url old →
  vt_protocol_version new = vt_protocol_version old →
  vt_routing_snapshot_json new = vt_routing_snapshot_json old →
  vt_route_state new = vt_route_state old →
  vt_request_normalizer new = vt_request_normalizer old →
  task_trigger old new = true.
Proof.
  intros H1 H2 H3 H4 H5. unfold task_trigger.
  rewrite (bool_decide_eq_true_2 _ H1), (bool_decide_eq_true_2 _ H2),
    (bool_decide_eq_true_2 _ H3), (bool_decide_eq_true_2 _ H4), (bool_decide_eq_true_2 _ H5).
  by rewrite orb_true_r, andb_false_r.
Qed.

(** An update of a column no constraint looks at keeps the table valid. *)
Lemma tasks_valid_update p f (ts : list Task) :
  (∀ t, t ∈ ts → p t = true → vt_task_id (f t) = vt_task_id t ∧
     vt_queue_seq (f t) = vt_queue_seq t ∧
     (task_check t = true → task_check (f t) = true) ∧
     (route_valid t = true → route_valid (f t) = true)) →
  tbl_valid ts = true → tbl_valid (update_where p f ts) = true.
Proof.
  intros Hf. rewrite !tasks_valid_iff. intros (Hid & Hseq & Hall).
  assert (∀ B (g : Task → B), (∀ t, t ∈ ts → p t = true → g (f t) = g t) →
    map g (update_where p f ts) = map g ts) as Hmap.
  { intros B g Hg. unfold update_where. rewrite map_map. apply map_ext_in.
    intros t Ht%list_elem_of_In. destruct (p t) eqn:E; [by apply Hg|done]. }
  rewrite !Hmap by (intros t Ht Hp; by apply (Hf t Ht Hp)).
  split_and!; [done..|]. intros t' (t & Ht & ->)%elem_of_update_where.
  destruct (p t) eqn:E; [|by apply Hall].
  destruct (Hf t Ht E) as (_ & _ & H1 & H2), (Hall t Ht). auto.
Qed.

Ltac table_laws := split; [done|by intros []|done].
#[export] Instance tasks_laws : TableLaws Task. Proof. table_laws. Qed.
#[export] Instance idempotency_laws : TableLaws IdempotencyKey. Proof. table_laws. Qed.
#[export] Instance callbacks_laws : TableLaws CallbackDelivery. Proof. table_laws. Qed.
#[export] Instance stages_laws : TableLaws TaskStage. Proof. table_laws. Qed.
#[export] Instance attempts_laws : TableLaws StageAttempt. Proof. table_laws. Qed.
#[export] Instance barriers_laws : TableLaws NodeDispatchBarrier. Proof. table_laws. Qed.
#[export] Instance remote_laws : TableLaws RemoteRun. Proof. table_laws. Qed.
#[export] Instance assets_laws : TableLaws NodeAsset. Proof. table_laws. Qed.
#[export] Instance uploads_laws : TableLaws ResultUploadJob. Proof. table_laws. Qed.
#[export] Instance nodes_laws : TableLaws ModelServiceNode. Proof. table_laws. Qed.
#[export] Instance catalogs_laws : TableLaws NodeModelCatalog. Proof. table_laws. Qed.
#[export] Instance node_models_laws : TableLaws NodeModelRow. Proof. table_laws. Qed.
#[export] Instance routes_laws : TableLaws ModelRouteRow. Proof. table_laws. Qed.
#[export] Instance spool_laws : TableLaws InputSpoolFile. Proof. table_laws. Qed.
#[export] Instance artifacts_laws : TableLaws TaskArtifact. Proof. table_laws. Qed.
#[export] Instance locations_laws : TableLaws ArtifactLocation. Proof. table_laws. Qed.
#[export] Instance deletion_jobs_laws : TableLaws DeletionJob. Proof. table_laws. Qed.
#[export] Instance deletion_items_laws : TableLaws DeletionItem. Proof. table_laws. Qed.
#[export] Instance object_storage_laws : TableLaws ObjectStorageConfig. Proof. table_laws. Qed.
#[export] Instance api_keys_laws : TableLaws ExternalAPIKey. Proof. table_laws. Qed.
#[export] Instance profiles_laws : TableLaws RequestProfile. Proof. table_laws. Qed.

(** ** The environment of an operation *)

(** What one call of the store gets from outside: the clock
    ([Options.Now], read once, in Unix milliseconds), fresh identifiers
    ([uuid.NewString]), SHA-256 in hexadecimal, the JSON text of the callback
    payload, [json.Valid], and whether [url.Parse] reads an object URL as https
    with a host, no user and no fragment. *)
Record Env := mkEnv {
  env_now : Z;
  env_uuid : nat → string;
  env_sha256_hex : string → string;
  env_callback_body : string → string → string;
  env_json_valid : string → bool;
  env_object_url_ok : string → bool
}.

Definition nowUnix (e : Env) : Z := env_now e / 1000.
Definition nowMillis (e : Env) : Z := env_now e.

(** [Options] of the store; durations in nanoseconds. *)
Record Options := mkOptions {
  opt_ProtectedSlots : Z;
  opt_PerKeyLimit : Z;
  opt_GlobalLimit : Z;
  opt_Retention : Z;
  opt_IdempotencyTTL : Z
}.

(** [tx_stmt] is [tx_step] with the statements. *)
Ltac tx_stmt :=
  first
    [ tx_step
    | match goal with
      | |- tx_rel _ (exec_update _ _) => apply tx_rel_exec_update; [apply _|]
      | |- tx_rel _ (exec_insert _) => apply tx_rel_exec_insert; [apply _|]
      | |- tx_rel _ (exec_delete _) => apply tx_rel_exec_delete
      | |- tx_rel _ (oneRow _) => unfold oneRow
      | |- tx_rel _ (barrierOneRow _) => unfold barrierOneRow
      | |- tx_rel _ (select_count _) => unfold select_count
      | |- tx_rel _ (select_one _) => unfold select_one
      end ].
Ltac tx_stmts := repeat tx_stmt.

Ltac sql_inv1 H :=
  match type of H with
  | (_ ≫= _) _ = Done _ _ =>
      let a := fresh "x" in let s1 := fresh "db" in let H1 := fresh H in
      rewrite bind_Done in H; destruct H as (a & s1 & H1 & H);
      sql_inv1 H1; sql_inv1 H
  | exec_update _ _ _ = Done _ _ =>
      let Ht := fresh "Htrig" in let Hv := fresh "Hvalid" in let E := fresh "Edb" in
      rewrite exec_update_Done in H; destruct H as (H & E & Ht & Hv); subst
  | exec_insert _ _ = Done _ _ =>
      let Hv := fresh "Hvalid" in
      rewrite exec_insert_Done in H; destruct H as (H & Hv); subst
  | exec_delete _ _ = Done _ _ =>
      let E := fresh "Edb" in
      rewrite exec_delete_Done in H; destruct H as (H & E); subst
  | raising _ _ _ = Done _ _ => rewrite raising_Done in H; sql_inv1 H
  | select_count _ _ = Done _ _ => tx_inv_leaf H @select_count_Done; keep_old H
  | select_one _ _ = Done _ _ => tx_inv_leaf H @select_one_Done; keep_old H
  | oneRow _ _ = Done _ _ => unfold oneRow in H; tx_inv_leaf H @ensure_Done
  | barrierOneRow _ _ = Done _ _ => unfold barrierOneRow in H; tx_inv_leaf H @ensure_Done
  | _ => tx_inv1 H
  end.
(** [sql_inv H]: what the statements of a body that returned have done. *)
Tactic Notation "sql_inv" hyp(H) := sql_inv1 H.

(** ** Bodies that succeed

    [succeeds m Q db]: the body returns, in a result and a database that
    satisfy [Q]. *)

Definition succeeds {A} (m : Tx A) (Q : A → DB → Prop) (db : DB) : Prop :=
  match m db with Done a db' => Q a db' | Raise _ _ => False end.

Lemma succeeds_immediate {A} (m : Tx A) Q db :
  succeeds m Q db → ∃ a db', immediate m db = (inr a, db') ∧ Q a db'.
Proof. unfold succeeds, immediate. destruct (m db); [eauto|done]. Qed.

Lemma succeeds_bind {A B} (m : Tx A) (k : A → Tx B) Q db :
  succeeds m (λ a db', succeeds (k a) Q db') db → succeeds (m ≫= k) Q db.
Proof. unfold succeeds, mbind, tx_bind. by destruct (m db). Qed.

Lemma succeeds_update {R} `{Table R} (p : R → bool) f (Q : Z → DB → Prop) db :
  (∀ r, r ∈ tbl db → p r = true → row_trigger r (f r) = true) →
  tbl_valid (update_where p f (tbl db)) = true →
  Q (count_where p (tbl db)) (set_tbl (update_where p f (tbl db)) db) →
  succeeds (exec_update p f) Q db.
Proof.
  intros Ht Hv HQ. unfold succeeds.
  by rewrite (proj2 (exec_update_Done _ _ _ _ _) (conj eq_refl (conj eq_refl (conj Ht Hv)))).
Qed.

Lemma distinct_opt_update {A B} `{EqDecision B} (key : A → option B) p f l :
  (∀ x, x ∈ l → p x = true → key (f x) = None ∨ key (f x) = key x) →
  distinct_opt key l = true → distinct_opt key (update_where p f l) = true.
Proof.
  unfold distinct_opt. rewrite !bool_decide_eq_true. intros Hf Hnd. eapply sublist_NoDup; [exact Hnd|].
  clear Hnd. induction l as [|x l IH]; [done|]. unfold update_where in *. csimpl.
  assert (sublist (omap key (map (λ y, if p y then f y else y) l)) (omap key l)) as Hs
    by (apply IH; intros y Hy; apply Hf; by right).
  destruct (p x) eqn:E; [|destruct (key x); by try constructor].
  destruct (Hf x ltac:(by left) E) as [-> | ->]; destruct (key x); by try constructor.
Qed.

Lemma forallb_update {A} (c p : A → bool) f l :
  (∀ x, x ∈ l → p x = true → c x = true → c (f x) = true) →
  forallb c l = true → forallb c (update_where p f l) = true.
Proof.
  rewrite !forallb_forall. intros Hf Hc y Hy%list_elem_of_In.
  apply elem_of_update_where in Hy as (x & Hx & ->). pose proof (Hc x (proj1 (list_elem_of_In _ _) Hx)).
  destruct (p x) eqn:E; auto.
Qed.

Lemma succeeds_ret {A} (a : A) (Q : A → DB → Prop) db : Q a db → succeeds (mret a) Q db.
Proof. done. Qed.
Lemma succeeds_ask {A} (f : DB → A) (Q : A → DB → Prop) db : Q (f db) db → succeeds (ask f) Q db.
Proof. done. Qed.
Lemma succeeds_count {R} `{Table R} (p : R → bool) (Q : Z → DB → Prop) db :
  Q (count_where p (tbl db)) db → succeeds (select_count p) Q db.
Proof. done. Qed.
Lemma succeeds_one {R} `{Table R} (p : R → bool) (Q : option R → DB → Prop) db r :
  List.find p (tbl db) = Some r → Q (Some r) db → succeeds (select_one p) Q db.
Proof. intros E. unfold succeeds, select_one, ask. by rewrite E. Qed.
Lemma succeeds_some {A} (a : A) err (Q : A → DB → Prop) db :
  Q a db → succeeds (of_option (Some a) err) Q db.
Proof. done. Qed.

(** The statements that cannot fail. *)
Ltac succeed_stmts :=
  repeat match goal with
  | |- succeeds (_ ≫= _) _ _ => apply succeeds_bind
  | |- succeeds (mret _) _ _ => apply succeeds_ret
  | |- succeeds (ask _) _ _ => apply succeeds_ask; cbv beta
  | |- succeeds (select_count _) _ _ => apply succeeds_count
  | |- succeeds (of_option (Some _) _) _ _ => apply succeeds_some
  end.
