(* ===== verification/Workers.v ===== *)
(** * Workers over the store

    The background workers of the proxy (internal/{remote,official,worker,
    orchestrator,callback,resultdelivery,cleanup}) are loops that call the
    store and an upstream client.  [Prog C A] is one pass of such a worker as a
    tree of its interactions: operations of the store, calls of a client with
    the interface [C], readings of the clock and of fresh identifiers, and
    checks of the context.  A pass is finite; a polling loop takes the number
    of rounds after which its context ends.

    [steps] runs any number of workers concurrently: every operation of the
    store is atomic, and between two of them any other operation of the store
    may happen, a worker may be started, or stopped for good.  An operation may
    also fail without effect (the driver or the context), and a client may
    answer anything.  [wp] is a logic for one worker under that interference:
    [rely], any number of steps [other], is what anybody may do to the database, [guar] what must hold of the
    database whenever a client is called.  [adequacy] lifts it to all of them. *)

From stdpp Require Import relations.
From S2P Require Import Prelude Domain Tx Database Sql.

Section prog.
Context (C : Type → Type).

Inductive Prog (A : Type) : Type :=
  | Ret (a : A)
  | Now (k : Env → Prog A)
  | Ctx (k : bool → Prog A)
  | Store {X} (op : Env → DB → (error + X) * DB) (k : error + X → Prog A)
  | Call {X} (c : C X) (k : X → Prog A).
End prog.
Arguments Ret {C A} _.
Arguments Now {C A} _.
Arguments Ctx {C A} _.
Arguments Store {C A X} _ _.
Arguments Call {C A X} _ _.

Fixpoint bind {C A B} (k : A → Prog C B) (p : Prog C A) : Prog C B :=
  match p with
  | Ret a => k a
  | Now f => Now (λ e, bind k (f e))
  | Ctx f => Ctx (λ b, bind k (f b))
  | Store op f => Store op (λ x, bind k (f x))
  | Call c f => Call c (λ x, bind k (f x))
  end.

#[export] Instance prog_ret {C} : MRet (Prog C) := λ A a, Ret a.
#[export] Instance prog_bind {C} : MBind (Prog C) := λ A B k p, bind k p.

(** An operation of the store, a call of the client, the environment, and
    [ctx.Err() != nil] (or a wait that the end of the context cuts short). *)
Definition store {C X} (op : Env → DB → (error + X) * DB) : Prog C (error + X) := Store op Ret.
Definition call {C X} (c : C X) : Prog C X := Call c Ret.
Definition environment {C} : Prog C Env := Now Ret.
Definition stopped {C} : Prog C bool := Ctx Ret.

(** A query of the store. *)
Definition reading {X} (f : Env → DB → error + X) : Env → DB → (error + X) * DB :=
  λ e db, (f e db, db).

(** [if err != nil { return err }]. *)
Definition try {C E A B} (m : Prog C (E + A)) (k : A → Prog C (E + B)) : Prog C (E + B) :=
  r ← m; match r with inl err => mret (inl err) | inr a => k a end.

Notation "'try!' x ← m ; k" := (try m (λ x, k))
  (at level 20, x pattern, m at level 100, k at level 200, right associativity,
   format "'try!'  x  ←  m ;  '/' k") : store_scope.

(** ** Running one worker alone

    With a client that answers by a function and an environment that does not
    change, a pass is a function of the database. *)

Definition event (C : Type → Type) : Type := {X : Type & C X}.

Fixpoint run {C A} (answer : ∀ X, C X → X) (e : Env) (p : Prog C A) (db : DB)
    : A * DB * list (event C * DB) :=
  match p with
  | Ret a => (a, db, [])
  | Now k => run answer e (k e) db
  | Ctx k => run answer e (k false) db
  | Store op k => run answer e (k (op e db).1) (op e db).2
  | Call c k =>
      let '(a, db', tr) := run answer e (k (answer _ c)) db in
      (a, db', (existT _ c, db) :: tr)
  end.

(** ** Running one worker alone, whatever its environment answers *)

Inductive fault : error → Prop :=
  | fault_driver : fault ErrDriver
  | fault_context : fault ErrContext.

Fixpoint plays {C A} (p : Prog C A) (db : DB) (tr : list (event C)) (a : A) (db' : DB) : Prop :=
  match p with
  | Ret x => a = x ∧ db' = db ∧ tr = []
  | Now k => ∃ e, plays (k e) db tr a db'
  | Ctx k => ∃ b, plays (k b) db tr a db'
  | Store op k =>
      (∃ e, plays (k (op e db).1) (op e db).2 tr a db') ∨
      (∃ f, fault f ∧ plays (k (inl f)) db tr a db')
  | Call c k => ∃ x tr', tr = existT _ c :: tr' ∧ plays (k x) db tr' a db'
  end.

Lemma run_plays {C A} answer e (p : Prog C A) db a db' tr :
  run answer e p db = (a, db', tr) → plays p db (map fst tr) a db'.
Proof.
  revert db tr. induction p as [x|k IH|k IH|X op k IH|X c k IH]; simpl; intros db tr H.
  - by injection H as <- <- <-.
  - exists e. by apply IH.
  - exists false. by apply IH.
  - left. exists e. by apply IH.
  - destruct (run answer e (k _) db) as [[x d] t] eqn:E. injection H as <- <- <-.
    exists (answer _ c), (map fst t). split; [done|]. by eapply IH.
Qed.

Lemma run_bind {C A B} answer e (p : Prog C A) (k : A → Prog C B) db :
  run answer e (p ≫= k) db =
    let '(a, db1, tr1) := run answer e p db in
    let '(b, db2, tr2) := run answer e (k a) db1 in (b, db2, tr1 ++ tr2).
Proof.
  unfold mbind, prog_bind. revert db.
  induction p as [x|f IH|f IH|X op f IH|X c f IH]; simpl; intros db; try apply IH.
  - by destruct (run answer e (k x) db) as [[? ?] ?].
  - rewrite IH. destruct (run answer e (f _) db) as [[a db1] tr1].
    by destruct (run answer e (k a) db1) as [[? ?] ?].
Qed.

Lemma plays_bind {C A B} (p : Prog C A) (k : A → Prog C B) db tr b db' :
  plays (p ≫= k) db tr b db' ↔
  ∃ tr1 a db1 tr2, plays p db tr1 a db1 ∧ plays (k a) db1 tr2 b db' ∧ tr = tr1 ++ tr2.
Proof.
  unfold mbind, prog_bind. revert db tr.
  induction p as [x|f IH|f IH|X op f IH|X c f IH]; simpl; intros db tr.
  - split; [|by intros (tr1 & a & db1 & tr2 & (-> & -> & ->) & ? & ->)].
    intros H. by exists [], x, db, tr.
  - setoid_rewrite IH. naive_solver.
  - setoid_rewrite IH. naive_solver.
  - setoid_rewrite IH. naive_solver.
  - setoid_rewrite IH. split.
    + intros (x & tr' & -> & tr1 & a & db1 & tr2 & ? & ? & ->).
      exists (existT _ c :: tr1), a, db1, tr2. naive_solver.
    + intros (tr1 & a & db1 & tr2 & (x & tr' & -> & ?) & ? & ->).
      exists x, (tr' ++ tr2). naive_solver.
Qed.

Lemma plays_try {C E A B} (p : Prog C (E + A)) (k : A → Prog C (E + B)) db tr b db' :
  plays (try p k) db tr b db' ↔
  (∃ err, plays p db tr (inl err) db' ∧ b = inl err) ∨
  (∃ tr1 a db1 tr2, plays p db tr1 (inr a) db1 ∧ plays (k a) db1 tr2 b db' ∧ tr = tr1 ++ tr2).
Proof.
  unfold try. rewrite plays_bind. split.
  - intros (tr1 & [err|a] & db1 & tr2 & Hp & Hk & ->); [|naive_solver].
    destruct Hk as (-> & -> & ->). left. exists err. by rewrite app_nil_r.
  - intros [(err & Hp & ->)|(tr1 & a & db1 & tr2 & Hp & Hk & ->)].
    + exists tr, (inl err), db', []. by rewrite app_nil_r.
    + by exists tr1, (inr a), db1, tr2.
Qed.

(** ** What one worker sees

    A trace of the calls with their answers, whatever others do to the database in
    between. *)

Definition answered (C : Type → Type) : Type := {X : Type & (C X * X)%type}.

Fixpoint hears {C A} (p : Prog C A) (tr : list (answered C)) (a : A) : Prop :=
  match p with
  | Ret x => a = x ∧ tr = []
  | Now k => ∃ e, hears (k e) tr a
  | Ctx k => ∃ b, hears (k b) tr a
  | Store op k =>
      (∃ e db, hears (k (op e db).1) tr a) ∨ (∃ f, fault f ∧ hears (k (inl f)) tr a)
  | Call c k => ∃ x tr', tr = existT _ (c, x) :: tr' ∧ hears (k x) tr' a
  end.

Lemma hears_bind {C A B} (p : Prog C A) (k : A → Prog C B) tr b :
  hears (p ≫= k) tr b ↔ ∃ tr1 a tr2, hears p tr1 a ∧ hears (k a) tr2 b ∧ tr = tr1 ++ tr2.
Proof.
  unfold mbind, prog_bind. revert tr.
  induction p as [x|f IH|f IH|X op f IH|X c f IH]; simpl; intros tr.
  - split; [|by intros (tr1 & a & tr2 & (-> & ->) & ? & ->)]. intros H. by exists [], x, tr.
  - setoid_rewrite IH. naive_solver.
  - setoid_rewrite IH. naive_solver.
  - setoid_rewrite IH. naive_solver.
  - setoid_rewrite IH. split.
    + intros (x & tr' & -> & tr1 & a & tr2 & ? & ? & ->).
      exists (existT _ (c, x) :: tr1), a, tr2. naive_solver.
    + intros (tr1 & a & tr2 & (x & tr' & -> & ?) & ? & ->). exists x, (tr' ++ tr2). naive_solver.
Qed.

(** ** One worker alone on a store without faults

    [ensures ok p Q db]: with any clocks and any answers that meet [ok], the
    program ends in a result and a database that satisfy [Q]. *)

Fixpoint ensures {C A} (ok : ∀ X, C X → X → Prop) (p : Prog C A) (Q : A → DB → Prop) (db : DB) : Prop :=
  match p with
  | Ret a => Q a db
  | Now k => ∀ e, ensures ok (k e) Q db
  | Ctx k => ∀ b, ensures ok (k b) Q db
  | Store op k => ∀ e, ensures ok (k (op e db).1) Q (op e db).2
  | Call c k => ∀ x, ok _ c x → ensures ok (k x) Q db
  end.

Lemma ensures_bind {C A B} ok (p : Prog C A) (k : A → Prog C B) Q db :
  ensures ok p (λ a db', ensures ok (k a) Q db') db → ensures ok (p ≫= k) Q db.
Proof. unfold mbind, prog_bind. revert db. induction p; simpl; auto. Qed.

Lemma ensures_mono {C A} ok (p : Prog C A) (Q Q' : A → DB → Prop) db :
  ensures ok p Q db → (∀ a db', Q a db' → Q' a db') → ensures ok p Q' db.
Proof. intros H HQ. revert db H. induction p; simpl; auto. Qed.

Lemma ensures_run {C A} ok answer e (p : Prog C A) Q db :
  ensures ok p Q db → (∀ X c, ok X c (answer X c)) →
  Q (run answer e p db).1.1 (run answer e p db).1.2.
Proof.
  intros H Hok. revert db H. induction p as [x|f IH|f IH|X op f IH|X c f IH]; simpl; intros db H; auto.
  specialize (IH (answer X c) db (H _ (Hok X c))). by destruct (run answer e (f _) db) as [[? ?] ?].
Qed.

(** ** Using a component with a smaller interface *)

Fixpoint translate {C D A} (f : ∀ X, C X → D X) (p : Prog C A) : Prog D A :=
  match p with
  | Ret a => Ret a
  | Now k => Now (λ e, translate f (k e))
  | Ctx k => Ctx (λ b, translate f (k b))
  | Store op k => Store op (λ x, translate f (k x))
  | Call c k => Call (f _ c) (λ x, translate f (k x))
  end.

(** A program that does not touch the store. *)
Fixpoint storeless {C A} (p : Prog C A) : Prop :=
  match p with
  | Ret _ => True
  | Now k => ∀ e, storeless (k e)
  | Ctx k => ∀ b, storeless (k b)
  | Store _ _ => False
  | Call _ k => ∀ x, storeless (k x)
  end.

Lemma storeless_run {C A} answer e (p : Prog C A) db : storeless p → (run answer e p db).1.2 = db.
Proof.
  revert db. induction p as [x|f IH|f IH|X op f IH|X c f IH]; simpl; intros db H; auto; [done|].
  specialize (IH (answer X c) db (H _)). by destruct (run answer e (f _) db) as [[? ?] ?].
Qed.

Lemma storeless_bind {C A B} (p : Prog C A) (k : A → Prog C B) :
  storeless p → (∀ a, storeless (k a)) → storeless (p ≫= k).
Proof.
  intros Hp Hk. unfold mbind, prog_bind. induction p; simpl in *; auto.
Qed.
Lemma storeless_try {C E A B} (p : Prog C (E + A)) (k : A → Prog C (E + B)) :
  storeless p → (∀ a, storeless (k a)) → storeless (try p k).
Proof. intros Hp Hk. apply storeless_bind; [done|]. by intros [err|a]. Qed.

(** ** The logic *)

Section logic.
Context {C : Type → Type}.
Context (envs : Env → Prop) (other : relation DB).
Context (guar : ∀ X, C X → DB → Prop).

#[local] Abbreviation rely := (rtc other).

Fixpoint wp {A} (p : Prog C A) (Q : A → DB → Prop) (db : DB) : Prop :=
  match p with
  | Ret a => ∀ db1, rely db db1 → Q a db1
  | Now k => ∀ e, envs e → wp (k e) Q db
  | Ctx k => ∀ b, wp (k b) Q db
  | Store op k => ∀ db1, rely db db1 →
      (∀ f, fault f → wp (k (inl f)) Q db1) ∧
      ∀ e, envs e → rely db1 (op e db1).2 ∧ wp (k (op e db1).1) Q (op e db1).2
  | Call c k => ∀ db1, rely db db1 → guar _ c db1 ∧ ∀ x, wp (k x) Q db1
  end.

Lemma wp_stable {A} (p : Prog C A) Q db db' : wp p Q db → rely db db' → wp p Q db'.
Proof.
  revert db db'. induction p as [a|k IH|k IH|X op k IH|X c k IH]; simpl; intros db db' H Hr; eauto.
  all: intros db1 Hr1; apply H; by etrans.
Qed.

Lemma wp_mono {A} (p : Prog C A) (Q Q' : A → DB → Prop) db :
  wp p Q db → (∀ a db', Q a db' → Q' a db') → wp p Q' db.
Proof.
  intros H HQ. revert db H. induction p as [a|k IH|k IH|X op k IH|X c k IH]; simpl; intros db H; eauto.
  - intros db1 Hr. destruct (H db1 Hr) as [Hf Ho]. split; [eauto|].
    intros e He. destruct (Ho e He). eauto.
  - intros db1 Hr. destruct (H db1 Hr). eauto.
Qed.

(** What a program does to the database is what anybody may do. *)
Lemma wp_frame {A} (p : Prog C A) Q db :
  wp p Q db → wp p (λ a db', Q a db' ∧ rely db db') db.
Proof.
  intros H. assert (∀ db0, rely db0 db → wp p (λ a db', Q a db' ∧ rely db0 db') db) as Hp;
    [|by apply Hp].
  revert db H. induction p as [a|k IH|k IH|X op k IH|X c k IH]; simpl; intros db H db0 Hr0; eauto.
  - intros db1 Hr. split; [eauto|by etrans].
  - intros db1 Hr. destruct (H db1 Hr) as [Hf Ho]. split.
    + intros f Hff. apply IH; [eauto|by etrans].
    + intros e He. destruct (Ho e He) as [Hs Hk]. split; [done|]. apply IH; [done|].
      etrans; [exact Hr0|]. by etrans.
  - intros db1 Hr. destruct (H db1 Hr) as [Hg Hk]. split; [done|]. intros x.
    apply IH; [done|by etrans].
Qed.

Lemma wp_bind {A B} (p : Prog C A) (k : A → Prog C B) Q db :
  wp p (λ a db', wp (k a) Q db') db → wp (p ≫= k) Q db.
Proof.
  unfold mbind, prog_bind. revert db.
  induction p as [a|f IH|f IH|X op f IH|X c f IH]; simpl; intros db H; eauto.
  - apply H. reflexivity.
  - intros db1 Hr. destruct (H db1 Hr) as [Hf Ho]. split; [eauto|].
    intros e He. destruct (Ho e He). eauto.
  - intros db1 Hr. destruct (H db1 Hr). eauto.
Qed.

Lemma wp_ret {A} (a : A) (Q : A → DB → Prop) db :
  (∀ db1, rely db db1 → Q a db1) → wp (mret a) Q db.
Proof. done. Qed.

Lemma wp_try {E A B} (m : Prog C (E + A)) (k : A → Prog C (E + B)) Q db :
  wp m (λ r db', match r with inl err => wp (Ret (inl err)) Q db' | inr a => wp (k a) Q db' end) db →
  wp (try m k) Q db.
Proof.
  intros H. apply wp_bind. eapply wp_mono; [exact H|]. intros [err|a] db'; done.
Qed.

Lemma wp_store {X} (op : Env → DB → (error + X) * DB) (Q : error + X → DB → Prop) db :
  (∀ db1 f db2, rely db db1 → rely db1 db2 → fault f → Q (inl f) db2) →
  (∀ db1 e, rely db db1 → envs e →
     rely db1 (op e db1).2 ∧ ∀ db2, rely (op e db1).2 db2 → Q (op e db1).1 db2) →
  wp (store op) Q db.
Proof. intros Hf Ho. simpl. intros db1 Hr. split; eauto. Qed.

Lemma wp_call {X} (c : C X) (Q : X → DB → Prop) db :
  (∀ db1, rely db db1 → guar _ c db1) →
  (∀ x db1, rely db db1 → Q x db1) → wp (call c) Q db.
Proof.
  intros Hg HQ. simpl. intros db1 Hr. split; [by apply Hg|]. intros x db2 Hr2. apply HQ. by etrans.
Qed.

Lemma wp_environment (Q : Env → DB → Prop) db :
  (∀ e db1, envs e → rely db db1 → Q e db1) → wp environment Q db.
Proof. simpl. eauto. Qed.
Lemma wp_stopped (Q : bool → DB → Prop) db :
  (∀ b db1, rely db db1 → Q b db1) → wp stopped Q db.
Proof. simpl. eauto. Qed.

(** A program all of whose operations and calls are allowed whatever the
    database is. *)
Fixpoint quiet {A} (p : Prog C A) : Prop :=
  match p with
  | Ret _ => True
  | Now k => ∀ e, quiet (k e)
  | Ctx k => ∀ b, quiet (k b)
  | Store op k => (∀ e db, rely db (op e db).2) ∧ ∀ x, quiet (k x)
  | Call c k => (∀ db, guar _ c db) ∧ ∀ x, quiet (k x)
  end.

Lemma quiet_bind {A B} (p : Prog C A) (k : A → Prog C B) :
  quiet p → (∀ a, quiet (k a)) → quiet (p ≫= k).
Proof using C other guar.
  intros Hp Hk. unfold mbind, prog_bind. induction p; simpl in *; auto; destruct Hp; auto.
Qed.
Lemma quiet_try {E A B} (p : Prog C (E + A)) (k : A → Prog C (E + B)) :
  quiet p → (∀ a, quiet (k a)) → quiet (try p k).
Proof. intros Hp Hk. apply quiet_bind; [done|]. by intros [err|a]. Qed.
Lemma quiet_store {X} (op : Env → DB → (error + X) * DB) :
  (∀ e db, rely db (op e db).2) → quiet (store op).
Proof. done. Qed.
Lemma quiet_reading {X} (f : Env → DB → error + X) : quiet (store (reading f)).
Proof. apply quiet_store. intros e db. reflexivity. Qed.
Lemma quiet_call {X} (c : C X) : (∀ db, guar _ c db) → quiet (call c).
Proof. done. Qed.
Lemma quiet_translate {A D} (f : ∀ X, D X → C X) (p : Prog D A) :
  storeless p → (∀ X c db', guar X (f X c) db') → quiet (translate f p).
Proof using C other guar. intros Hp Hg. induction p; simpl in *; auto; done. Qed.

Lemma wp_quiet {A} (p : Prog C A) (Q : A → DB → Prop) db :
  quiet p → (∀ a db', rely db db' → Q a db') → wp p Q db.
Proof.
  intros Hp. revert db. induction p as [a|k IH|k IH|X op k IH|X c k IH];
    simpl in *; intros db HQ; eauto.
  - destruct Hp as [Ho Hk]. intros db1 Hr. split.
    + intros f _. apply IH; [done|]. intros a db2 Hr2. apply HQ. by etrans.
    + intros e He. split; [apply Ho|]. apply IH; [done|]. intros a db2 Hr2. apply HQ.
      etrans; [exact Hr|]. etrans; [apply Ho|exact Hr2].
  - destruct Hp as [Hg Hk]. intros db1 Hr. split; [apply Hg|]. intros x. apply IH; [done|].
    intros a db2 Hr2. apply HQ. by etrans.
Qed.

(** ** Any number of workers *)

Record config := mkConfig {
  pool : list (Prog C unit);
  cdb : DB;
  trace : list (event C * DB)
}.

(** One interaction of one worker; a call is recorded with the database at
    that moment. *)
Inductive act : Prog C unit → DB → Prog C unit → DB → list (event C * DB) → Prop :=
  | act_now k db e : envs e → act (Now k) db (k e) db []
  | act_ctx k db b : act (Ctx k) db (k b) db []
  | act_store {X} (op : Env → DB → (error + X) * DB) k db e :
      envs e → act (Store op k) db (k (op e db).1) (op e db).2 []
  | act_fault {X} (op : Env → DB → (error + X) * DB) k db f :
      fault f → act (Store op k) db (k (inl f)) db []
  | act_call {X} (c : C X) k db x : act (Call c k) db (k x) db [(existT _ c, db)].

Inductive steps (spawn : Prog C unit → Prop) : config → config → Prop :=
  | steps_start p ps db tr :
      spawn p → steps spawn (mkConfig ps db tr) (mkConfig (p :: ps) db tr)
  | steps_stop ps1 p ps2 db tr :
      steps spawn (mkConfig (ps1 ++ p :: ps2) db tr) (mkConfig (ps1 ++ ps2) db tr)
  | steps_other ps db db' tr :
      rely db db' → steps spawn (mkConfig ps db tr) (mkConfig ps db' tr)
  | steps_act ps1 p p' ps2 db db' tr tr' :
      act p db p' db' tr' →
      steps spawn (mkConfig (ps1 ++ p :: ps2) db tr) (mkConfig (ps1 ++ p' :: ps2) db' (tr ++ tr')).

(** What is true of a configuration once every worker meets [wp]. *)
Definition sound (db0 : DB) (c : config) : Prop :=
  rely db0 (cdb c) ∧
  Forall (λ p, wp p (λ _ _, True) (cdb c)) (pool c) ∧
  Forall (λ ev, guar _ (projT2 ev.1) ev.2 ∧ rely db0 ev.2 ∧ rely ev.2 (cdb c)) (trace c).

Lemma sound_rely db0 ps db db' tr :
  sound db0 (mkConfig ps db tr) → rely db db' → sound db0 (mkConfig ps db' tr).
Proof.
  intros (H0 & Hps & Htr) Hr. split_and!; simpl in *; [by etrans| |].
  - eapply Forall_impl; [exact Hps|]. intros p Hp. exact (wp_stable _ _ _ _ Hp Hr).
  - eapply Forall_impl; [exact Htr|]. intros ev (? & ? & ?). split_and!; [done..|by etrans].
Qed.

Lemma act_sound p db p' db' tr :
  act p db p' db' tr → wp p (λ _ _, True) db →
  rely db db' ∧ wp p' (λ _ _, True) db' ∧
  Forall (λ ev, guar _ (projT2 ev.1) ev.2 ∧ rely db ev.2 ∧ rely ev.2 db') tr.
Proof.
  destruct 1; simpl; intros Hwp.
  - split_and!; [reflexivity|eauto|constructor].
  - split_and!; [reflexivity|eauto|constructor].
  - destruct (Hwp db) as [_ Ho]; [reflexivity|]. destruct (Ho e) as [??]; [done|].
    split_and!; [done..|constructor].
  - destruct (Hwp db) as [Hf _]; [reflexivity|]. split_and!; [reflexivity|eauto|constructor].
  - destruct (Hwp db) as [Hg Hk]; [reflexivity|]. split_and!; [reflexivity|eauto|].
    constructor; [|constructor]. simpl. split_and!; [done|reflexivity|reflexivity].
Qed.

Lemma steps_sound spawn db0 c c' :
  (∀ p db, spawn p → rely db0 db → wp p (λ _ _, True) db) →
  steps spawn c c' → sound db0 c → sound db0 c'.
Proof.
  intros Hspawn. destruct 1 as [p ps db tr Hp|ps1 p ps2 db tr|ps db db' tr Hr|ps1 p p' ps2 db db' tr tr' Ha].
  - intros (H0 & Hps & Htr). split_and!; simpl in *; [done| |done]. constructor; [|done]. by apply Hspawn.
  - intros (H0 & Hps & Htr). split_and!; simpl in *; [done| |done].
    apply Forall_app in Hps as [? [_ ?]%Forall_cons]. by apply Forall_app.
  - intros H. by eapply sound_rely.
  - intros (H0 & Hps & Htr). simpl in *.
    apply Forall_app in Hps as [Hps1 [Hp Hps2]%Forall_cons].
    destruct (act_sound _ _ _ _ _ Ha Hp) as (Hr & Hp' & Htr').
    split_and!; simpl; [by etrans| |].
    + apply Forall_app. split; [|constructor]; [| done|].
      all: eapply Forall_impl; [eassumption|]; intros q Hq; exact (wp_stable _ _ _ _ Hq Hr).
    + apply Forall_app. split; (eapply Forall_impl; [eassumption|]).
      * intros ev (? & ? & ?). split_and!; [done..|by etrans].
      * intros ev (? & ? & ?). split_and!; [done|by etrans|done].
Qed.

(** Whatever happens, every call was made on a database that meets the
    guarantee, and the database has since changed only as the store allows. *)
Lemma adequacy_from spawn db0 c c' :
  (∀ p db, spawn p → rely db0 db → wp p (λ _ _, True) db) →
  sound db0 c → rtc (steps spawn) c c' → sound db0 c'.
Proof.
  intros Hspawn Hc Hs. revert Hc. induction Hs as [|c1 c2 c3 H _ IH]; [done|].
  intros Hc. apply IH. by eapply steps_sound.
Qed.

Lemma adequacy spawn db0 c :
  (∀ p db, spawn p → rely db0 db → wp p (λ _ _, True) db) →
  rtc (steps spawn) (mkConfig [] db0 []) c → sound db0 c.
Proof.
  intros Hspawn. apply adequacy_from; [done|]. split_and!; simpl; [reflexivity|constructor..].
Qed.

(** One program that nobody joins. *)
Lemma adequacy_one p db0 c :
  wp p (λ _ _, True) db0 → rtc (steps (λ _, False)) (mkConfig [p] db0 []) c → sound db0 c.
Proof.
  intros Hp. apply adequacy_from; [done|].
  split_and!; simpl; [reflexivity|by constructor|constructor].
Qed.

(** ** Counting calls *)

Section budget.
Context (counted : ∀ X, C X → bool).

(** At most [n] calls of the program are counted. *)
Fixpoint budget {A} (n : nat) (p : Prog C A) : Prop :=
  match p with
  | Ret _ => True
  | Now k => ∀ e, budget n (k e)
  | Ctx k => ∀ b, budget n (k b)
  | Store _ k => ∀ x, budget n (k x)
  | Call c k =>
      if counted _ c then match n with O => False | S n => ∀ x, budget n (k x) end
      else ∀ x, budget n (k x)
  end.

Lemma budget_bind {A B} n m (p : Prog C A) (k : A → Prog C B) :
  budget n p → (∀ a, budget m (k a)) → budget (n + m) (p ≫= k).
Proof using C counted.
  unfold mbind, prog_bind. revert n.
  induction p as [a|f IH|f IH|X op f IH|X c f IH]; simpl; intros n Hp Hk; auto.
  - clear Hp. induction n as [|n IH]; simpl; [done|]. clear Hk. revert IH. generalize (n + m)%nat.
    clear. intros i. induction (k a) as [x|f IHp|f IHp|X op f IHp|X c f IHp] in i |- *; simpl; auto.
    destruct (counted X c); [|auto]. destruct i; [done|auto].
  - destruct (counted X c); [|auto]. destruct n; [done|simpl; auto].
Qed.

Definition spent (tr : list (event C * DB)) : nat :=
  length (List.filter (λ ev, counted _ (projT2 ev.1)) tr).

Lemma spent_app tr tr' : spent (tr ++ tr') = (spent tr + spent tr')%nat.
Proof. unfold spent. by rewrite List.filter_app, length_app. Qed.

Lemma spent_elem tr : spent tr ≠ 0%nat → ∃ ev, ev ∈ tr ∧ counted _ (projT2 ev.1) = true.
Proof.
  induction tr as [|[[X c] d] tr IH]; [done|]. unfold spent in *. simpl.
  destruct (counted X c) eqn:E; [intros _; eexists; split; [left|done]|].
  intros (ev' & ? & ?)%IH. exists ev'. split; [by right|done].
Qed.

Lemma act_budget n p db p' db' tr :
  act p db p' db' tr → budget n p → ∃ m, budget m p' ∧ (spent tr + m ≤ n)%nat.
Proof.
  destruct 1; simpl; intros Hb; try (exists n; auto; fail).
  unfold spent. simpl. destruct (counted X c); [|by exists n].
  destruct n as [|n]; [done|]. exists n. simpl. auto.
Qed.

Lemma budget_one n p db c :
  budget n p → rtc (steps (λ _, False)) (mkConfig [p] db []) c → (spent (trace c) ≤ n)%nat.
Proof.
  intros Hp Hc. assert (∃ m, (spent (trace c) + m ≤ n)%nat ∧ length (pool c) ≤ 1 ∧
    Forall (budget m) (pool c))%nat as (m & Hm & _); [|lia].
  revert c Hc. apply rtc_ind_r.
  - exists n. simpl. split_and!; [done|lia|by repeat constructor].
  - intros c c' _ Hs (m & Hm & Hl & Hf).
    destruct Hs as [|ps1 q ps2 db1 tr|ps db1 db2 tr Hr|ps1 q q' ps2 db1 db2 tr tr' Ha]; simpl in *; [done|..].
    + exists m. rewrite length_app in *. simpl in *. split_and!; [done|lia|].
      apply Forall_app in Hf as [? [_ ?]%Forall_cons]. by apply Forall_app.
    + by exists m.
    + rewrite length_app in Hl. simpl in Hl. destruct ps1; [|simpl in *; lia]. destruct ps2; [|simpl in *; lia].
      simpl in *. apply Forall_cons in Hf as [Hf _]. destruct (act_budget _ _ _ _ _ _ Ha Hf) as (m' & Hb & Hle).
      exists m'. rewrite spent_app. split_and!; [lia|done|by constructor].
Qed.
End budget.
End logic.

(** A program whose operations are always allowed and whose calls are allowed
    wherever [I] holds, which nobody breaks. *)
Lemma wp_quiet_inv {C A} envs other (guar : ∀ X, C X → DB → Prop) (I : DB → Prop) (p : Prog C A)
    (Q : A → DB → Prop) db :
  (∀ db db', rtc other db db' → I db → I db') →
  quiet other (λ X c db, I db → guar X c db) p → I db →
  (∀ a db', rtc other db db' → Q a db') → wp envs other guar p Q db.
Proof.
  intros Hst Hp. revert db. induction p as [a|k IH|k IH|X op k IH|X c k IH];
    simpl in *; intros db Hi HQ; eauto.
  - destruct Hp as [Ho Hk]. intros db1 Hr. split.
    + intros f _. apply IH; [done|by eapply Hst|]. intros a db2 Hr2. apply HQ. by etrans.
    + intros e He. split; [apply Ho|].
      assert (rtc other db (op e db1).2) as Hr1 by (etrans; [exact Hr|apply Ho]).
      apply IH; [done|by eapply Hst|]. intros a db2 Hr2. apply HQ. by etrans.
  - destruct Hp as [Hg Hk]. intros db1 Hr. split; [apply Hg; by eapply Hst|]. intros x.
    apply IH; [done|by eapply Hst|]. intros a db2 Hr2. apply HQ. by etrans.
Qed.

(** A pass that runs alone is one of the executions. *)
Section alone.
Context {C : Type → Type} (envs : Env → Prop) (other : relation DB) (spawn : Prog C unit → Prop).

Lemma run_steps answer e p db u db' tr tr0 :
  envs e → run answer e p db = (u, db', tr) →
  rtc (steps envs other spawn) (mkConfig [p] db tr0) (mkConfig [Ret u] db' (tr0 ++ tr)).
Proof.
  intros He. revert db tr tr0.
  assert (∀ p p' db db1 tr0 tr1 c, act envs p db p' db1 tr1 →
    rtc (steps envs other spawn) (mkConfig [p'] db1 (tr0 ++ tr1)) c →
    rtc (steps envs other spawn) (mkConfig [p] db tr0) c) as Hstep.
  { intros p0 p' db db1 tr0 tr1 c Ha Hc. eapply rtc_l; [|exact Hc].
    apply (steps_act _ _ _ [] p0 p' []). exact Ha. }
  induction p as [a|k IH|k IH|X op k IH|X c k IH]; simpl; intros db tr tr0 H.
  - injection H as <- <- <-. by rewrite app_nil_r.
  - eapply Hstep; [by constructor|]. rewrite app_nil_r. by apply IH.
  - eapply Hstep; [by constructor|]. rewrite app_nil_r. by apply IH.
  - eapply Hstep; [by constructor|]. rewrite app_nil_r. by apply IH.
  - destruct (run answer e (k _) db) as [[a d] t] eqn:E. injection H as <- <- <-.
    eapply Hstep; [apply act_call|]. rewrite (cons_middle _ tr0 t), app_assoc. by apply IH.
Qed.

Lemma run_reachable answer e p db u db' tr :
  envs e → spawn p → run answer e p db = (u, db', tr) →
  rtc (steps envs other spawn) (mkConfig [] db []) (mkConfig [Ret u] db' tr).
Proof.
  intros He Hp H. eapply rtc_l; [by apply steps_start|]. by apply (run_steps answer e p db u db' tr []).
Qed.
End alone.

(** [quiet_by st gu] goes through a program: [st] proves that an operation of
    the store is allowed, [gu] that a call is. *)
Create HintDb quiet.
Ltac quiet_step st gu :=
  match goal with
  | |- quiet _ _ (mbind _ _) => apply quiet_bind
  | |- quiet _ _ (try _ _) => apply quiet_try
  | |- quiet _ _ (mret _) => exact I
  | |- quiet _ _ environment => exact (λ _, I)
  | |- quiet _ _ stopped => exact (λ _, I)
  | |- quiet _ _ (store (reading _)) => apply quiet_reading
  | |- quiet _ _ (store _) => apply quiet_store; intros; cbn beta; apply rtc_once; st
  | |- quiet _ _ (call _) => apply quiet_call; intros; gu
  | |- quiet _ _ (match ?x with _ => _ end) => destruct x
  | |- quiet _ _ (let '(_, _) := ?x in _) => destruct x
  | |- ∀ _, _ => intro
  | |- quiet _ _ _ => solve [auto with quiet]
  end.
Ltac quiet_by st gu := repeat quiet_step st gu.

(** [budgeted] goes through a program none of whose calls are counted. *)
Ltac budget_step :=
  match goal with
  | |- budget _ O (mbind _ _) => apply (budget_bind _ O O)
  | |- budget _ O (try _ _) => apply (budget_bind _ O O)
  | |- budget _ _ (mret _) => exact I
  | |- budget _ _ environment => exact (λ _, I)
  | |- budget _ _ stopped => exact (λ _, I)
  | |- budget _ _ (store _) => exact (λ _, I)
  | |- budget _ _ (call _) => exact (λ _, I)
  | |- budget _ _ (match ?x with _ => _ end) => destruct x
  | |- budget _ _ (let '(_, _) := ?x in _) => destruct x
  | |- ∀ _, _ => intro
  | |- budget _ _ _ => solve [auto with quiet]
  end.
Ltac budgeted := repeat budget_step.
