(* ===== verification/Counting.v ===== *)
(** * Counting the calls of a worker

    [counts] follows a program with the number of its counted calls so far and an
    invariant [J] of that number and the database.  The operations of the program
    may do more to the database than others may, as long as [J] holds again;
    [counts_adequate] carries [J] to every state that the program reaches. *)

From stdpp Require Import relations.
From S2P Require Import Prelude Domain Tx Database Sql Workers.

Section counting.
Context {C : Type → Type} (other : relation DB) (counted : ∀ X, C X → bool).
Context (J : nat → DB → Prop) (J_other : ∀ n db db', other db db' → J n db → J n db').

#[local] Abbreviation rely := (rtc other).
#[local] Abbreviation after n c := (if counted _ c then S n else n).

Fixpoint counts {A} (p : Prog C A) (Q : A → nat → DB → Prop) (n : nat) (db : DB) : Prop :=
  match p with
  | Ret a => ∀ db1, rely db db1 → Q a n db1
  | Now k => ∀ e, counts (k e) Q n db
  | Ctx k => ∀ b, counts (k b) Q n db
  | Store op k => ∀ db1, rely db db1 →
      (∀ f, fault f → counts (k (inl f)) Q n db1) ∧
      ∀ e, J n (op e db1).2 ∧ counts (k (op e db1).1) Q n (op e db1).2
  | Call c k => ∀ db1, rely db db1 → J (after n c) db1 ∧ ∀ x, counts (k x) Q (after n c) db1
  end.

Lemma J_rely n db db' : rely db db' → J n db → J n db'.
Proof using J_other. induction 1; eauto. Qed.

Lemma counts_stable {A} (p : Prog C A) Q n db db' : counts p Q n db → rely db db' → counts p Q n db'.
Proof.
  revert n db db'. induction p as [a|k IH|k IH|X op k IH|X c k IH]; simpl; intros n db db' H Hr; eauto.
  all: intros db1 Hr1; apply H; by etrans.
Qed.

Lemma counts_mono {A} (p : Prog C A) (Q Q' : A → nat → DB → Prop) n db :
  counts p Q n db → (∀ a m db', Q a m db' → Q' a m db') → counts p Q' n db.
Proof.
  intros H HQ. revert n db H. induction p as [a|k IH|k IH|X op k IH|X c k IH]; simpl; intros n db H; eauto.
  - intros db1 Hr. destruct (H db1 Hr) as [Hf Ho]. split; [eauto|].
    intros e. destruct (Ho e). eauto.
  - intros db1 Hr. destruct (H db1 Hr). eauto.
Qed.

Lemma counts_bind {A B} (p : Prog C A) (k : A → Prog C B) Q n db :
  counts p (λ a m db', counts (k a) Q m db') n db → counts (p ≫= k) Q n db.
Proof.
  unfold mbind, prog_bind. revert n db.
  induction p as [a|f IH|f IH|X op f IH|X c f IH]; simpl; intros n db H; eauto.
  - apply H. reflexivity.
  - intros db1 Hr. destruct (H db1 Hr) as [Hf Ho]. split; [eauto|]. intros e. destruct (Ho e). eauto.
  - intros db1 Hr. destruct (H db1 Hr). eauto.
Qed.

Lemma counts_ret {A} (a : A) (Q : A → nat → DB → Prop) n db :
  (∀ db1, rely db db1 → Q a n db1) → counts (mret a) Q n db.
Proof. done. Qed.

Lemma counts_store {X} (op : Env → DB → (error + X) * DB) (Q : error + X → nat → DB → Prop) n db :
  (∀ f db1, fault f → rely db db1 → Q (inl f) n db1) →
  (∀ db1 e, rely db db1 →
     J n (op e db1).2 ∧ ∀ db2, rely (op e db1).2 db2 → Q (op e db1).1 n db2) →
  counts (store op) Q n db.
Proof.
  intros Hf Ho. simpl. intros db1 Hr. split; [|eauto]. intros f Hff db2 Hr2. apply Hf; [done|by etrans].
Qed.

(** A program without counted calls that does what others may do. *)
Lemma counts_quiet {A} (p : Prog C A) (Q : A → nat → DB → Prop) n db :
  quiet other (λ X c _, counted X c = false) p → J n db →
  (∀ a db', rely db db' → J n db' → Q a n db') → counts p Q n db.
Proof using J_other.
  intros Hp. revert db. induction p as [a|k IH|k IH|X op k IH|X c k IH];
    simpl in *; intros db Hj HQ; eauto.
  - intros db1 Hr. apply HQ; [done|by eapply J_rely].
  - destruct Hp as [Ho Hk]. intros db1 Hr. assert (J n db1) by (by eapply J_rely). split.
    + intros f _. apply IH; [done..|]. intros a db2 Hr2. apply HQ. by etrans.
    + intros e. assert (J n (op e db1).2) by (by eapply J_rely; [apply Ho|]). split; [done|].
      apply IH; [done..|]. intros a db2 Hr2. apply HQ. etrans; [exact Hr|]. etrans; [apply Ho|exact Hr2].
  - destruct Hp as [Hg Hk]. intros db1 Hr. rewrite (Hg db1). assert (J n db1) by (by eapply J_rely).
    split; [done|]. intros x. apply IH; [done..|]. intros a db2 Hr2. apply HQ. by etrans.
Qed.

(** A program that only calls, with at most [b] counted calls. *)
Lemma counts_budget {A} b (p : Prog C A) (Q : A → nat → DB → Prop) n db :
  storeless p → budget counted b p → (∀ m, (n ≤ m ≤ n + b)%nat → J m db) →
  (∀ a m db', rely db db' → J m db' → Q a m db') → counts p Q n db.
Proof using J_other.
  revert b n db. induction p as [a|k IH|k IH|X op k IH|X c k IH]; simpl; intros b n db Hs Hb Hj HQ; eauto.
  - intros db1 Hr. apply HQ; [done|]. eapply J_rely; [done|]. apply Hj. lia.
  - done.
  - intros db1 Hr. assert (∀ m, (n ≤ m ≤ n + b)%nat → J m db1) as Hj1 by (intros; eapply J_rely; eauto).
    assert (∀ a m db', rely db1 db' → J m db' → Q a m db') as HQ1 by (intros a m db' Hr'; apply HQ; by etrans).
    destruct (counted X c).
    + destruct b as [|b]; [done|]. split; [apply Hj1; lia|]. intros y. apply (IH y b); [done|done| |done].
      intros m Hm. apply Hj1. lia.
    + split; [apply Hj1; lia|]. intros y. by apply (IH y b).
Qed.

(** The invariant holds wherever the program is stopped. *)
Lemma counts_adequate p db0 n c :
  counts p (λ _ _ _, True) n db0 → J n db0 →
  rtc (steps (λ _, True) other (λ _, False)) (mkConfig [p] db0 []) c →
  J (n + spent counted (trace c)) (cdb c).
Proof using J_other.
  intros Hp Hj Hc.
  assert (J (n + spent counted (trace c)) (cdb c) ∧ (length (pool c) ≤ 1)%nat ∧
    Forall (λ q, counts q (λ _ _ _, True) (n + spent counted (trace c)) (cdb c)) (pool c)) as (? & _); [|done].
  revert c Hc. apply rtc_ind_r.
  - simpl. rewrite Nat.add_0_r. split_and!; [done|lia|by constructor].
  - intros c c' _ Hs (HJ & Hl & Hf).
    destruct Hs as [|ps1 q ps2 db1 tr|ps db1 db2 tr Hr|ps1 q q' ps2 db1 db2 tr tr' Ha]; simpl in *; [done|..].
    + rewrite length_app in *. simpl in *. split_and!; [done|lia|].
      apply Forall_app in Hf as [? [_ ?]%Forall_cons]. by apply Forall_app.
    + split_and!; [by eapply J_rely|done|]. eapply Forall_impl; [exact Hf|]. intros q Hq. eapply counts_stable; [exact Hq|exact Hr].
    + rewrite length_app in Hl. simpl in Hl. destruct ps1; [|simpl in *; lia]. destruct ps2; [|simpl in *; lia].
      simpl in *. apply Forall_cons in Hf as [Hf _]. rewrite spent_app.
      destruct Ha as [k db e|k db b|X op k db e|X op k db f Hff|X ev k db y]; simpl in *;
        unfold spent at 2 4; simpl; rewrite ?Nat.add_0_r.
      * split_and!; [done|lia|by constructor].
      * split_and!; [done|lia|by constructor].
      * destruct (Hf db) as [_ Ho]; [reflexivity|]. destruct (Ho e). split_and!; [done|lia|]. constructor; eauto.
      * destruct (Hf db) as [Hb _]; [reflexivity|]. split_and!; [done|lia|]. constructor; eauto.
      * destruct (Hf db) as [H1 H2]; [reflexivity|]. destruct (counted X ev); simpl; rewrite ?Nat.add_0_r.
        -- rewrite Nat.add_assoc, Nat.add_1_r. split_and!; [done|lia|]. constructor; eauto.
        -- split_and!; [done|lia|]. constructor; eauto.
Qed.
End counting.
