(* ===== verification/GoStrings.v ===== *)
(** * Go strings

    The functions of packages strings, unicode and unicode/utf8 the program
    uses, on strings of bytes. *)

From S2P Require Import Prelude.

Definition byte_of (c : Ascii.ascii) : Z := Z.of_nat (Ascii.nat_of_ascii c).

(** ** UTF-8 (unicode/utf8) *)

Definition RuneError : Z := 65533.

Definition in_range (lo hi z : Z) : bool := (lo <=? z) && (z <=? hi).
Definition continuation (c : Ascii.ascii) : bool := in_range 128 191 (byte_of c).
Definition low6 (c : Ascii.ascii) : Z := Z.land (byte_of c) 63.

(** The range of the second byte after a first byte of three or four. *)
Definition second_ok (b0 b1 : Z) : bool :=
  if b0 =? 224 then in_range 160 191 b1
  else if b0 =? 237 then in_range 128 159 b1
  else if b0 =? 240 then in_range 144 191 b1
  else if b0 =? 244 then in_range 128 143 b1
  else in_range 128 191 b1.

(** [DecodeRuneInString] along a whole string: every rune with its bytes; a
    byte that starts no valid sequence is [RuneError] on its own.  The boolean
    is [ValidString]'s verdict on the sequence. *)
Record rune := mkRune { ru_rune : Z; ru_bytes : string; ru_valid : bool }.

Fixpoint runes (s : string) : list rune :=
  match s with
  | EmptyString => []
  | String c0 s0 =>
      let b0 := byte_of c0 in
      if b0 <? 128 then mkRune b0 (String c0 EmptyString) true :: runes s0
      else if in_range 194 223 b0 then
        match s0 with
        | String c1 s1 =>
            if continuation c1
            then mkRune (Z.lor (Z.shiftl (Z.land b0 31) 6) (low6 c1))
                   (String c0 (String c1 EmptyString)) true :: runes s1
            else mkRune RuneError (String c0 EmptyString) false :: runes s0
        | _ => mkRune RuneError (String c0 EmptyString) false :: runes s0
        end
      else if in_range 224 239 b0 then
        match s0 with
        | String c1 (String c2 s2) =>
            if second_ok b0 (byte_of c1) && continuation c2
            then mkRune (Z.lor (Z.shiftl (Z.land b0 15) 12)
                           (Z.lor (Z.shiftl (low6 c1) 6) (low6 c2)))
                   (String c0 (String c1 (String c2 EmptyString))) true :: runes s2
            else mkRune RuneError (String c0 EmptyString) false :: runes s0
        | _ => mkRune RuneError (String c0 EmptyString) false :: runes s0
        end
      else if in_range 240 244 b0 then
        match s0 with
        | String c1 (String c2 (String c3 s3)) =>
            if second_ok b0 (byte_of c1) && continuation c2 && continuation c3
            then mkRune (Z.lor (Z.shiftl (Z.land b0 7) 18)
                           (Z.lor (Z.shiftl (low6 c1) 12)
                              (Z.lor (Z.shiftl (low6 c2) 6) (low6 c3))))
                   (String c0 (String c1 (String c2 (String c3 EmptyString)))) true
                 :: runes s3
            else mkRune RuneError (String c0 EmptyString) false :: runes s0
        | _ => mkRune RuneError (String c0 EmptyString) false :: runes s0
        end
      else mkRune RuneError (String c0 EmptyString) false :: runes s0
  end.

Definition RuneCountInString (s : string) : Z := Z.of_nat (length (runes s)).
Definition ValidString (s : string) : bool := forallb ru_valid (runes s).

Fixpoint concat_bytes (rs : list rune) : string :=
  match rs with [] => "" | r :: rs => String.append (ru_bytes r) (concat_bytes rs) end.

(** ** unicode.IsSpace and unicode.IsControl *)

Definition IsSpace (r : Z) : bool :=
  in_range 9 13 r || (r =? 32) || (r =? 133) || (r =? 160) || (r =? 5760)
  || in_range 8192 8202 r || (r =? 8232) || (r =? 8233) || (r =? 8239)
  || (r =? 8287) || (r =? 12288).
Definition IsControl (r : Z) : bool := in_range 0 31 r || in_range 127 159 r.

(** ** strings *)

Fixpoint drop_space (rs : list rune) : list rune :=
  match rs with
  | [] => []
  | r :: rs' => if IsSpace (ru_rune r) then drop_space rs' else rs
  end.
Definition TrimSpace (s : string) : string :=
  concat_bytes (rev (drop_space (rev (drop_space (runes s))))).

(** [strings.Cut] with a separator of one byte. *)
Fixpoint Cut (s : string) (sep : Ascii.ascii) : string * string * bool :=
  match s with
  | EmptyString => ("", "", false)
  | String c s' =>
      if c ≟ sep then ("", s', true)
      else let '(before, after, found) := Cut s' sep in (String c before, after, found)
  end.

Definition HasPrefix (s p : string) : bool := String.prefix p s.
Definition TrimPrefix (s p : string) : string :=
  if HasPrefix s p then String.substring (String.length p) (String.length s) s else s.
Definition HasSuffix (s p : string) : bool :=
  (String.length p <=? String.length s)%nat &&
  (String.substring (String.length s - String.length p) (String.length p) s ≟ p).
Definition TrimSuffix (s p : string) : string :=
  if HasSuffix s p then String.substring 0 (String.length s - String.length p) s else s.
Definition ContainsByte (s : string) (b : Ascii.ascii) : bool :=
  existsb (λ c, c ≟ b) (String.list_ascii_of_string s).

(** [strings.Contains] *)
Fixpoint Contains_str (s sub : string) : bool :=
  HasPrefix s sub || match s with EmptyString => false | String _ s => Contains_str s sub end.

(** [strings.ToLower], exact when the result is compared with an ASCII text:
    besides A-Z only U+0130 and U+212A have an ASCII lower case. *)
Definition lower_rune (r : rune) : string :=
  if in_range 65 90 (ru_rune r)
  then String (Ascii.ascii_of_nat (Z.to_nat (ru_rune r + 32))) EmptyString
  else if ru_rune r =? 304 then "i"
  else if ru_rune r =? 8490 then "k"
  else ru_bytes r.
Definition ToLower (s : string) : string :=
  String.concat "" (map lower_rune (runes s)).

Definition colon : Ascii.ascii := Ascii.ascii_of_nat 58.
Definition len (s : string) : Z := Z.of_nat (String.length s).

(** ** Decoding loses no byte *)

(** Whatever a decoding step takes, it takes it from the front of the text. *)
Lemma runes_step c0 s0 :
  ∃ r rest, runes (String c0 s0) = r :: runes rest ∧
    String c0 s0 = String.append (ru_bytes r) rest ∧
    (String.length rest < String.length (String c0 s0))%nat.
Proof.
  cbn [runes].
  repeat match goal with
  | |- context [if ?b then _ else _] => destruct b
  | |- context [match ?t with EmptyString => _ | String _ _ => _ end] => is_var t; destruct t
  end;
    (do 2 eexists; split; [reflexivity|]; split; [reflexivity|]; cbn [String.length]; lia).
Qed.

Lemma runes_ind (P : string → Prop) :
  P "" →
  (∀ s r rest, runes s = r :: runes rest → s = String.append (ru_bytes r) rest →
     (String.length rest < String.length s)%nat → P rest → P s) →
  ∀ s, P s.
Proof.
  intros H0 Hs s. remember (String.length s) as n eqn:E. revert s E.
  induction (lt_wf n) as [n _ IH]. intros [|c0 s0] ->; [done|].
  destruct (runes_step c0 s0) as (r & rest & Hr & Happ & Hlt).
  eapply Hs; [done..|]. by apply (IH (String.length rest)).
Qed.

Lemma runes_concat s : concat_bytes (runes s) = s.
Proof.
  induction s as [|s r rest Hr Happ _ IH] using runes_ind; [done|].
  rewrite Hr. cbn [concat_bytes]. by rewrite IH.
Qed.

Lemma RuneCount_le_len s : RuneCountInString s ≤ len s.
Proof.
  unfold RuneCountInString, len.
  induction s as [|s r rest Hr _ Hlt IH] using runes_ind; [done|].
  rewrite Hr. cbn [length]. lia.
Qed.

(** ** Decimal *)

(** [fmt.Sprintf("%d", n)]. *)
Fixpoint decimal (fuel : nat) (n : Z) : string :=
  match fuel with
  | O => ""
  | S fuel =>
      String.append (if n <? 10 then "" else decimal fuel (n / 10))
        (String (Ascii.ascii_of_nat (Z.to_nat (48 + n mod 10))) "")
  end.
Definition Itoa (n : Z) : string :=
  if n <? 0 then String.append "-" (decimal 20 (- n)) else decimal 20 n.
