(* ===== verification/GoFloat.v ===== *)
(** * float64

    What the program uses of Go's [float64]: IEEE 754 binary64 with rounding to
    nearest even, [math.Abs], [math.Max], [math.Round], and the conversion to
    [int], which the language leaves open for a value out of range. *)

From Stdlib Require Import SpecFloat.
From S2P Require Import Prelude.

Definition float64 := spec_float.
Definition of_int (n : Z) : float64 := binary_normalize 53 1024 n 0 false.
Definition fadd : float64 → float64 → float64 := SFadd 53 1024.
Definition fsub : float64 → float64 → float64 := SFsub 53 1024.
Definition fmul : float64 → float64 → float64 := SFmul 53 1024.
Definition fdiv : float64 → float64 → float64 := SFdiv 53 1024.
Definition fabs : float64 → float64 := SFabs.
Definition finite (x : float64) : bool :=
  match x with S754_zero _ | S754_finite _ _ _ => true | _ => false end.
Definition is_nan (x : float64) : bool := match x with S754_nan => true | _ => false end.

Definition fmax (x y : float64) : float64 :=
  if is_nan x || is_nan y then
    (match x, y with
     | S754_infinity false, _ | _, S754_infinity false => S754_infinity false
     | _, _ => S754_nan
     end)
  else if SFltb x y then y
  else match x, y with S754_zero true, S754_zero _ => y | _, _ => x end.

(** Half away from zero. *)
Definition fround (x : float64) : float64 :=
  match x with
  | S754_finite s m e =>
      if 0 <=? e then x
      else let q := (Zpos m + 2 ^ (- e - 1)) / 2 ^ (- e) in
           binary_normalize 53 1024 (if s then - q else q) 0 s
  | _ => x
  end.

Definition int64_range (z : Z) : bool := (- 2 ^ 63 <=? z) && (z <? 2 ^ 63).

(** [x == math.Trunc(x)] for a finite [x]. *)
Definition is_integer (x : float64) : bool :=
  match x with
  | S754_finite _ m e => (0 <=? e) || (Zpos m mod 2 ^ (- e) =? 0)
  | _ => true
  end.

(** [int(x)]: [open x] is what an implementation makes of a value out of range. *)
Definition to_int (open : float64 → Z) (x : float64) : Z :=
  match x with
  | S754_zero _ => 0
  | S754_finite s m e =>
      let v := if 0 <=? e then Zpos m * 2 ^ e else Zpos m / 2 ^ (- e) in
      let v := if s then - v else v in
      if int64_range v then v else open x
  | _ => open x
  end.

Example float_examples :
  map (λ x, to_int (λ _, 0) (fround x))
    [fdiv (of_int 5) (of_int 2); fdiv (of_int (-5)) (of_int 2); fdiv (of_int 7) (of_int 3);
     fmul (of_int 24) (of_int 5); fdiv (of_int 1) (of_int 3)]
  = [3; -3; 2; 120; 0].
Proof. vm_compute. reflexivity. Qed.
