(* ===== verification/GoNet.v ===== *)
(** * net/netip and net/url

    What the program uses of Go's addresses and URLs: [netip.ParseAddr] and the
    classifying methods of [netip.Addr], [netip.Prefix.Contains], and the parts
    of a parsed [url.URL]; [url.Parse] itself is a variable of the code that
    calls it. *)

From S2P Require Import Prelude GoStrings.

(** ** Addresses *)

(** [netip.Addr]: the zero value, an IPv4 address, an IPv6 address with its
    zone, empty for none. *)
Inductive Addr := AddrZero | Addr4 (v : Z) | Addr6 (v : Z) (zone : string).
#[export] Instance Addr_eq_dec : EqDecision Addr.
Proof. solve_decision. Defined.

Definition IPv4Unspecified : Addr := Addr4 0.
Definition IPv6Unspecified : Addr := Addr6 0 "".

Definition Is4In6 (a : Addr) : bool :=
  match a with Addr6 v _ => Z.shiftr v 32 =? 65535 | _ => false end.
Definition Unmap (a : Addr) : Addr :=
  match a with
  | Addr6 v _ => if Z.shiftr v 32 =? 65535 then Addr4 (Z.land v (2 ^ 32 - 1)) else a
  | _ => a
  end.

(** The [n]th byte of an IPv4 address, and [v6u16(0)]. *)
Definition v4 (v : Z) (n : Z) : Z := Z.land (Z.shiftr v (8 * (3 - n))) 255.
Definition v6u16 (v : Z) : Z := Z.land (Z.shiftr v 112) 65535.

Definition IsValid (a : Addr) : bool := negb (a ≟ AddrZero).
Definition IsLoopback (a : Addr) : bool :=
  match Unmap a with
  | Addr4 v => v4 v 0 =? 127
  | Addr6 v _ => v =? 1
  | AddrZero => false
  end.
Definition IsMulticast (a : Addr) : bool :=
  match Unmap a with
  | Addr4 v => Z.land (v4 v 0) 240 =? 224
  | Addr6 v _ => Z.shiftr v 120 =? 255
  | AddrZero => false
  end.
Definition IsInterfaceLocalMulticast (a : Addr) : bool :=
  match a with
  | Addr6 v _ => negb (Is4In6 a) && (Z.land (v6u16 v) 65295 =? 65281)
  | _ => false
  end.
Definition IsLinkLocalMulticast (a : Addr) : bool :=
  match Unmap a with
  | Addr4 v => (v4 v 0 =? 224) && (v4 v 1 =? 0) && (v4 v 2 =? 0)
  | Addr6 v _ => Z.land (v6u16 v) 65295 =? 65282
  | AddrZero => false
  end.
Definition IsLinkLocalUnicast (a : Addr) : bool :=
  match Unmap a with
  | Addr4 v => (v4 v 0 =? 169) && (v4 v 1 =? 254)
  | Addr6 v _ => Z.land (v6u16 v) 65472 =? 65152
  | AddrZero => false
  end.
Definition IsPrivate (a : Addr) : bool :=
  match Unmap a with
  | Addr4 v => (v4 v 0 =? 10) || ((v4 v 0 =? 172) && (Z.land (v4 v 1) 240 =? 16))
               || ((v4 v 0 =? 192) && (v4 v 1 =? 168))
  | Addr6 v _ => Z.land (v6u16 v) 65024 =? 64512
  | AddrZero => false
  end.
(** The comparisons are of whole values, zone included. *)
Definition IsUnspecified (a : Addr) : bool := (a ≟ IPv4Unspecified) || (a ≟ IPv6Unspecified).
Definition IsGlobalUnicast (a : Addr) : bool :=
  match Unmap a with
  | AddrZero => false
  | a =>
      negb ((a ≟ IPv4Unspecified) || (a ≟ Addr4 (2 ^ 32 - 1)))
      && negb (a ≟ IPv6Unspecified) && negb (IsLoopback a) && negb (IsMulticast a)
      && negb (IsLinkLocalUnicast a)
  end.

(** ** Prefixes *)

Inductive Prefix := Prefix4 (v bits : Z) | Prefix6 (v bits : Z).

(** [Contains]: only addresses of the same family, and none with a zone. *)
Definition Contains (p : Prefix) (a : Addr) : bool :=
  match p, a with
  | Prefix4 v bits, Addr4 x => Z.shiftr x (32 - bits) =? Z.shiftr v (32 - bits)
  | Prefix6 v bits, Addr6 x zone =>
      (zone ≟ "") && (Z.shiftr x (128 - bits) =? Z.shiftr v (128 - bits))
  | _, _ => false
  end.

(** ** [netip.ParseAddr] *)

Fixpoint split_byte (sep : Ascii.ascii) (s : string) : list string :=
  match s with
  | EmptyString => [""]
  | String c s =>
      if c ≟ sep then "" :: split_byte sep s
      else match split_byte sep s with
           | w :: ws => String c w :: ws
           | [] => [String c ""]
           end
  end.

Definition dot : Ascii.ascii := Ascii.ascii_of_nat 46.
Definition percent : Ascii.ascii := Ascii.ascii_of_nat 37.
Definition slash : Ascii.ascii := Ascii.ascii_of_nat 47.
Definition backslash : Ascii.ascii := Ascii.ascii_of_nat 92.
Definition dash : Ascii.ascii := Ascii.ascii_of_nat 45.

Definition digit (c : Ascii.ascii) : option Z :=
  if in_range 48 57 (byte_of c) then Some (byte_of c - 48) else None.
Definition hex_digit (c : Ascii.ascii) : option Z :=
  let b := byte_of c in
  if in_range 48 57 b then Some (b - 48)
  else if in_range 97 102 b then Some (b - 87)
  else if in_range 65 70 b then Some (b - 55)
  else None.

Fixpoint digits (s : string) (acc : Z) : option Z :=
  match s with
  | EmptyString => Some acc
  | String c s => d ← digit c; digits s (10 * acc + d)
  end.

(** [strconv.ParseInt(s,10,64)] *)
Definition ParseInt64 (s : string) : option Z :=
  let '(neg, ds) := match s with
                    | String c s' => if c ≟ Ascii.ascii_of_nat 45 then (true, s')
                                     else if c ≟ Ascii.ascii_of_nat 43 then (false, s') else (false, s)
                    | EmptyString => (false, s)
                    end in
  if ds ≟ "" then None
  else n ← digits ds 0;
       let v := if neg : bool then - n else n in
       if (- 2 ^ 63 <=? v) && (v <? 2 ^ 63) then Some v else None.

(** A field of a dotted quad: decimal, at most 255, no leading zero. *)
Definition quad_field (s : string) : option Z :=
  match s with
  | EmptyString => None
  | String c s' =>
      if (c ≟ Ascii.ascii_of_nat 48) && negb (s' ≟ "") then None
      else n ← digits s 0; if n <=? 255 then Some n else None
  end.
Definition parseIPv4Fields (s : string) : option Z :=
  match split_byte dot s with
  | [a; b; c; d] =>
      a ← quad_field a; b ← quad_field b; c ← quad_field c; d ← quad_field d;
      Some (Z.shiftl a 24 + Z.shiftl b 16 + Z.shiftl c 8 + d)
  | _ => None
  end.

(** The hexadecimal digits at the front of [s], at most four, with the rest. *)
Fixpoint hex_field (n : nat) (s : string) (acc : Z) : option (Z * string) :=
  match s with
  | EmptyString => Some (acc, s)
  | String c s' =>
      match hex_digit c with
      | None => Some (acc, s)
      | Some d => match n with O => None | S n => hex_field n s' (16 * acc + d) end
      end
  end.

(** The loop over the fields: 16-bit words read so far, the place of the
    ellipsis, the rest of the text.  Eight words are the most there are. *)
Fixpoint ipv6_fields (fuel : nat) (ws : list Z) (ellipsis : option nat) (s : string)
    : option (list Z * option nat) :=
  match fuel with
  | O => if s ≟ "" then Some (ws, ellipsis) else None
  | S fuel =>
      r ← hex_field 4 s 0;
      let '(acc, rest) := r in
      if rest ≟ s then None
      else
      match rest with
      | String c rest' =>
          if c ≟ dot then
            if (is_null ellipsis && negb (length ws =? 6)%nat) || (6 <? length ws)%nat then None
            else v ← parseIPv4Fields s;
                 Some (ws ++ [Z.shiftr v 16; Z.land v 65535], ellipsis)
          else if negb (c ≟ colon) then None
          else
          let ws := ws ++ [acc] in
          match rest' with
          | EmptyString => None
          | String c' rest'' =>
              if c' ≟ colon then
                match ellipsis with
                | Some _ => None
                | None => if rest'' ≟ "" then Some (ws, Some (length ws))
                          else ipv6_fields fuel ws (Some (length ws)) rest''
                end
              else ipv6_fields fuel ws ellipsis rest'
          end
      | EmptyString => Some (ws ++ [acc], ellipsis)
      end
  end.

Definition words (ws : list Z) : Z := fold_left (λ acc w, Z.shiftl acc 16 + w) ws 0.

(** Zeros for the ellipsis, which must stand for at least one word. *)
Definition ipv6_expand (ws : list Z) (ellipsis : option nat) : option Z :=
  if (length ws <? 8)%nat
  then n ← ellipsis; Some (words (take n ws ++ replicate (8 - length ws) 0 ++ drop n ws))
  else if is_null ellipsis then Some (words ws) else None.

Definition parseIPv6 (s : string) : option Addr :=
  let '(s, zone, zoned) := Cut s percent in
  if zoned && (zone ≟ "") then None
  else
  let '(s, ellipsis) := if HasPrefix s "::" then (TrimPrefix s "::", Some O) else (s, None) in
  if (s ≟ "") && negb (is_null ellipsis) then Some (Addr6 0 zone)
  else
    r ← ipv6_fields 8 [] ellipsis s;
    v ← ipv6_expand r.1 r.2;
    Some (Addr6 v zone).

(** The first separator decides the family. *)
Fixpoint first_separator (s : string) : option Ascii.ascii :=
  match s with
  | EmptyString => None
  | String c s => if c ∈? [dot; colon; percent] then Some c else first_separator s
  end.
Definition ParseAddr (s : string) : option Addr :=
  match first_separator s with
  | Some c => if c ≟ dot then Addr4 <$> parseIPv4Fields s
              else if c ≟ colon then parseIPv6 s else None
  | None => None
  end.

(** ** URLs *)

Record URL := mkURL {
  url_Scheme : string;
  url_Opaque : string;
  url_User : bool;        (** User is not nil *)
  url_Host : string;
  url_Hostname : string;
  url_Port : string;
  url_Path : string;
  url_EscapedPath : string;
  url_RawPath : string;
  url_RawQuery : string;
  url_Fragment : string;
  url_ForceQuery : bool
}.
#[export] Instance URL_eta : Eta URL := λ r,
  mkURL (url_Scheme r) (url_Opaque r) (url_User r) (url_Host r) (url_Hostname r) (url_Port r)
    (url_Path r) (url_EscapedPath r) (url_RawPath r) (url_RawQuery r) (url_Fragment r)
    (url_ForceQuery r).

(** ** Paths *)

(** [strings.TrimRight(s,"/")] *)
Fixpoint TrimRight_slash (s : string) : string :=
  match s with
  | EmptyString => ""
  | String c s =>
      let s := TrimRight_slash s in
      if (c ≟ slash) && (s ≟ "") then "" else String c s
  end.

(** The components [path.Clean] keeps, the last one first. *)
Fixpoint clean_components (rooted : bool) (stack comps : list string) : list string :=
  match comps with
  | [] => stack
  | c :: comps =>
      if (c ≟ "") || (c ≟ ".") then clean_components rooted stack comps
      else if c ≟ ".." then
        match stack with
        | top :: rest => if top ≟ ".." then clean_components rooted (c :: stack) comps
                         else clean_components rooted rest comps
        | [] => clean_components rooted (if rooted then [] else [c]) comps
        end
      else clean_components rooted (c :: stack) comps
  end.
Definition path_Clean (path : string) : string :=
  let rooted := HasPrefix path "/" in
  let joined := String.concat "/" (rev (clean_components rooted [] (split_byte slash path))) in
  if rooted then String slash joined else if joined ≟ "" then "." else joined.
(** [path.Join]: empty elements are left out. *)
Definition path_Join (elems : list string) : string :=
  match List.filter (λ s, negb (s ≟ "")) elems with
  | [] => ""
  | elems => path_Clean (String.concat "/" elems)
  end.

Example path_Clean_examples :
  map path_Clean [""; "/"; "/a/"; "a//b/./c"; "/../a"; "../a"; "a/../../b"; "/a/.."]
  = ["."; "/"; "/a"; "a/b/c"; "/a"; "../a"; "../b"; "/"].
Proof. vm_compute. reflexivity. Qed.

Example ParseAddr_examples :
  map ParseAddr ["127.0.0.1"; "01.2.3.4"; "::1"; "::ffff:10.0.0.1"; "64:ff9b::a00:1%eth0";
                 "1:2:3:4:5:6:7::"; "1:2:3:4:5:6:7:8::"; "example.com"]
  = [Some (Addr4 2130706433); None; Some (Addr6 1 ""); Some (Addr6 (words [0;0;0;0;0;65535;2560;1]) "");
     Some (Addr6 (words [100;65435;0;0;0;0;2560;1]) "eth0");
     Some (Addr6 (words [1;2;3;4;5;6;7;0]) ""); None; None].
Proof. vm_compute. reflexivity. Qed.
