(* ===== verification/GoHttp.v ===== *)
(** * net/http and encoding/json

    Requests and responses as the clients see them, and a decoded JSON value. *)

From S2P Require Import Prelude GoStrings GoFloat GoNet.

(** ** HTTP *)

Inductive http_body :=
  | NoBody
  | JsonBody (text : string)
  | MultipartBody (fields : list (string * string)) (filename : string).
(** A header that is empty is not set. *)
Record http_request := mkHttpRequest {
  hq_Method : string;
  hq_URL : string;
  hq_Authorization : string;
  hq_ContentType : string;
  hq_RequestID : string;
  hq_IdempotencyKey : string;
  hq_Range : string;
  hq_Body : http_body
}.
(** [hp_Body] are the bytes that can be read, [hp_Failure] why reading them does
    not end in EOF. *)
Record http_response := mkHttpResponse {
  hp_StatusCode : Z;
  hp_ContentLength : Z;
  hp_ContentRange : string;
  hp_ContentType : string;
  hp_ETag : string;
  hp_Body : string;
  hp_Failure : option string
}.

(** ** JSON *)

(** A decoded JSON value ([any]); an object has each key once. *)
Inductive any :=
  | AnyNull
  | AnyBool (b : bool)
  | AnyNumber (x : float64)
  | AnyString (s : string)
  | AnyList (l : list any)
  | AnyMap (m : list (string * any)).

Definition any_lookup (key : string) (m : list (string * any)) : any :=
  match List.find (λ kv, kv.1 ≟ key) m with Some kv => kv.2 | None => AnyNull end.
