(* ===== verification/Mediagate.v ===== *)
(** * The media gate (internal/mediagate/validate.go)

    Before the proxy records the artifact of a stage, it checks the media
    manifest that the node claims for it against the frozen parameters of the
    stage. *)

From Stdlib Require Import SpecFloat.
From S2P Require Import Prelude Domain Database GoStrings GoFloat GoNet.

Record Manifest := mkManifest {
  mf_Width : Z;
  mf_Height : Z;
  mf_StartSeconds : float64;
  mf_DurationSeconds : float64;
  mf_AverageFrameRate : string;
  mf_FrameCount : Z;
  mf_PTSMonotonic : bool;
  mf_AudioPresent : bool;
  mf_AudioStart : float64;
  mf_AudioDuration : float64
}.

(** [((value % modulus) + modulus) % modulus] on [int]. *)
Definition positiveModulo (value modulus : Z) : Z := Z.rem (wrap64 (Z.rem value modulus + modulus)) modulus.

Definition seconds_50ms : float64 := fdiv (of_int 5) (of_int 100).

Section gate.
(** [strconv.ParseFloat(s,64)]; [int(x)] out of range; the JSON of a manifest,
    of generation parameters (width, height, duration) and of restoration
    parameters (target width and height); ["%.3f"]. *)
Context (ParseFloat : string → option float64) (overflow : float64 → Z).
Context (manifest_of_json : string → option Manifest).
Context (generation_of_json : string → option (Z * Z * float64)).
Context (restoration_of_json : string → option (Z * Z)).
Context (format3 : float64 → string).

Definition parseFrameRate (value : string) : float64 :=
  let '(first, second, two) := Cut value slash in
  match ParseFloat first with
  | None => of_int 0
  | Some numerator =>
      if SFleb numerator (of_int 0) then of_int 0
      else if negb two then numerator
      else match ParseFloat second with
           | None => of_int 0
           | Some denominator =>
               if SFleb denominator (of_int 0) then of_int 0 else fdiv numerator denominator
           end
  end.

Definition requested_frames (duration fps : float64) : Z :=
  Z.max 5 (to_int overflow (fround (fmul duration fps))).
Definition aligned_frames (requested : Z) : Z := wrap64 (requested + positiveModulo (wrap64 (5 - requested)) 17).

Definition expectedGenerationDuration (duration fps : float64) (frameCount : Z) : option float64 :=
  if SFleb duration (of_int 0) || SFleb fps (of_int 0) || (frameCount <=? 0) then None
  else
  let requestedFrames := requested_frames duration fps in
  if frameCount =? requestedFrames then Some duration
  else
  let alignedFrames := aligned_frames requestedFrames in
  if (requestedFrames <? alignedFrames) && (frameCount =? alignedFrames)
  then Some (fdiv (of_int frameCount) fps)
  else None.

Definition frame_tolerance (fps : float64) : float64 :=
  if SFltb (of_int 0) fps then fmax seconds_50ms (fdiv (of_int 1) fps) else seconds_50ms.

(** [expected=%dx%d actual=%dx%d] *)
Definition size_text (what : string) (w h w' h' : Z) : string :=
  String.concat "" [what; "结果尺寸与冻结参数不匹配: expected="; Itoa w; "x"; Itoa h;
                    " actual="; Itoa w'; "x"; Itoa h'].

Definition check_stage (stageType parameters : string) (m : Manifest) : error + unit :=
  let fps := parseFrameRate (mf_AverageFrameRate m) in
  if stageType ≟ "generation" then
    match generation_of_json parameters with
    | None => inl (ErrText "冻结生成参数不可解析")
    | Some (w, h, duration) =>
        if negb (mf_Width m =? w) || negb (mf_Height m =? h)
        then inl (ErrText (size_text "生成" w h (mf_Width m) (mf_Height m)))
        else
        let mismatch := inl (ErrText (String.concat ""
          ["生成结果时长与冻结参数不匹配: expected="; format3 duration; " actual=";
           format3 (mf_DurationSeconds m)])) in
        match expectedGenerationDuration duration fps (mf_FrameCount m) with
        | None => mismatch
        | Some expected =>
            if SFltb (frame_tolerance fps) (fabs (fsub (mf_DurationSeconds m) expected))
            then mismatch else inr tt
        end
    end
  else if stageType ≟ "restoration" then
    match restoration_of_json parameters with
    | None => inl (ErrText "冻结修复参数不可解析")
    | Some (w, h) =>
        if negb (mf_Width m =? w) || negb (mf_Height m =? h)
        then inl (ErrText (size_text "修复" w h (mf_Width m) (mf_Height m)))
        else inr tt
    end
  else inr tt.

Definition Validate (stageType parameters raw : string) : error + unit :=
  match manifest_of_json raw with
  | None => inl (ErrText "节点阶段媒体清单无法解析")
  | Some m =>
      if (mf_Width m <=? 0) || (mf_Height m <=? 0) || SFleb (mf_DurationSeconds m) (of_int 0)
         || (mf_FrameCount m <=? 0) || negb (mf_PTSMonotonic m)
      then inl (ErrText "节点阶段媒体清单缺少有效视频轨参数")
      else
      let fps := parseFrameRate (mf_AverageFrameRate m) in
      if SFltb seconds_50ms (fabs (mf_StartSeconds m))
      then inl (ErrText "节点阶段视频起始时间超出 50ms")
      else if mf_AudioPresent m
              && (SFltb seconds_50ms (fabs (fsub (mf_AudioStart m) (mf_StartSeconds m)))
                  || SFltb (frame_tolerance fps)
                       (fabs (fsub (mf_AudioDuration m) (mf_DurationSeconds m))))
      then inl (ErrText "节点阶段媒体音画时间轴不一致")
      else check_stage stageType parameters m
  end.

(** ** What passes the gate *)

(** The least number of frames that is at least [n] and 5 more than a multiple
    of 17, the lengths the generator works in. *)
Definition least_aligned (n m : Z) : Prop :=
  n ≤ m ∧ m mod 17 = 5 ∧ ∀ k, n ≤ k → k mod 17 = 5 → m ≤ k.

Lemma wrap64_in_range z : int64_range z = true → wrap64 z = z.
Proof.
  unfold int64_range. rewrite andb_true_iff, Z.leb_le, Z.ltb_lt. intros [??].
  apply wrap64_id. unfold max_int64. lia.
Qed.

Lemma wrap64_range z : - 2 ^ 63 ≤ wrap64 z < 2 ^ 63.
Proof. unfold wrap64. pose proof (Z.mod_pos_bound (z + 2 ^ 63) (2 ^ 64)). lia. Qed.

Lemma positiveModulo_spec v : int64_range v = true → positiveModulo v 17 = v mod 17.
Proof.
  unfold positiveModulo, int64_range. rewrite andb_true_iff, Z.leb_le, Z.ltb_lt. intros [??].
  pose proof (Z.rem_bound_abs v 17). rewrite wrap64_in_range.
  2: { unfold int64_range. apply andb_true_iff. rewrite Z.leb_le, Z.ltb_lt. lia. }
  rewrite Z.rem_mod_nonneg by lia.
  pose proof (Z.quot_rem' v 17).
  replace (Z.rem v 17 + 17) with (v + (1 - Z.quot v 17) * 17) by lia. apply Z.mod_add. lia.
Qed.

Lemma aligned_frames_spec n :
  5 ≤ n < 2 ^ 63 → n < aligned_frames n → least_aligned n (aligned_frames n).
Proof.
  intros Hn Hlt. unfold aligned_frames in *.
  rewrite (wrap64_in_range (5 - n)) in * by (unfold int64_range; apply andb_true_iff; rewrite Z.leb_le, Z.ltb_lt; lia).
  rewrite positiveModulo_spec in * by (unfold int64_range; apply andb_true_iff; rewrite Z.leb_le, Z.ltb_lt; lia).
  pose proof (Z.mod_pos_bound (5 - n) 17).
  assert (wrap64 (n + (5 - n) mod 17) = n + (5 - n) mod 17) as E.
  { destruct (decide (n + (5 - n) mod 17 < 2 ^ 63)).
    - apply wrap64_in_range. unfold int64_range. apply andb_true_iff. rewrite Z.leb_le, Z.ltb_lt. lia.
    - exfalso. revert Hlt. unfold wrap64.
      rewrite <-(Z.mod_add _ (-1)), Z.mod_small by lia. lia. }
  rewrite E in *. split_and!; [lia| |].
  - rewrite Z.add_mod_idemp_r by lia. by replace (n + (5 - n)) with 5 by lia.
  - intros k Hk Ek. pose proof (Z.div_mod (5 - n) 17). pose proof (Z.div_mod k 17). lia.
Qed.

Lemma to_int_max x : (∀ y, overflow y < 2 ^ 63) → to_int overflow x < 2 ^ 63.
Proof.
  intros H. unfold to_int. repeat case_match; try done; try apply H.
  all: unfold int64_range in *; rewrite andb_true_iff, Z.ltb_lt in *; lia.
Qed.

(** What the media gate lets through for a generated video.  If [Validate]
    accepts the manifest of a generation, the manifest decodes, it has exactly
    the frozen dimensions, which are positive, its timestamps are monotonic, and
    its number of frames is the one the frozen duration asks for at the claimed
    frame rate (at least 5) or the least number from there on that is 5 more
    than a multiple of 17; and the claimed duration is not further than the
    tolerance from the one that number stands for. *)
Theorem Validate_generation parameters raw :
  (∀ y, overflow y < 2 ^ 63) → Validate "generation" parameters raw = inr tt →
  ∃ m w h duration expected, manifest_of_json raw = Some m ∧
    generation_of_json parameters = Some (w, h, duration) ∧
    mf_Width m = w ∧ mf_Height m = h ∧ 0 < w ∧ 0 < h ∧ mf_PTSMonotonic m = true ∧
    let fps := parseFrameRate (mf_AverageFrameRate m) in
    let n := requested_frames duration fps in
    (mf_FrameCount m = n ∧ expected = duration ∨
     least_aligned n (mf_FrameCount m) ∧ expected = fdiv (of_int (mf_FrameCount m)) fps) ∧
    SFltb (frame_tolerance fps) (fabs (fsub (mf_DurationSeconds m) expected)) = false.
Proof.
  intros Hov. unfold Validate. destruct (manifest_of_json raw) as [m|]; [|done].
  destruct (_ || negb (mf_PTSMonotonic m)) eqn:Em; [done|]. destruct (SFltb seconds_50ms _); [done|].
  destruct (mf_AudioPresent m && _); [done|]. unfold check_stage. simpl.
  destruct (generation_of_json parameters) as [[[w h] duration]|]; [|done].
  destruct (_ || negb (mf_Height m =? h)) eqn:Es; [done|]. cbv zeta.
  destruct (expectedGenerationDuration _ _ _) as [expected|] eqn:Ee; [|done].
  destruct (SFltb (frame_tolerance _) _) eqn:Et; [done|]. intros _.
  rewrite ?orb_false_iff, ?negb_false_iff, ?Z.leb_gt, ?Z.eqb_eq in *.
  destruct Em as [[[[? ?] _] _] ?], Es as [<- <-].
  exists m, (mf_Width m), (mf_Height m), duration, expected. split_and!; try done.
  unfold expectedGenerationDuration in Ee. destruct (_ || (mf_FrameCount m <=? 0)); [done|].
  cbv zeta in Ee. destruct (mf_FrameCount m =? _) eqn:En; [left|right].
  - apply Z.eqb_eq in En. by injection Ee.
  - destruct (_ && _) eqn:Ea; [|done]. apply andb_true_iff in Ea as [Hlt%Z.ltb_lt Hfc%Z.eqb_eq].
    injection Ee as <-. split; [|done]. rewrite Hfc. apply aligned_frames_spec; [|done].
    unfold requested_frames. pose proof (to_int_max (fround (fmul duration
      (parseFrameRate (mf_AverageFrameRate m)))) Hov). lia.
Qed.

(** The guard against a frame rate that is not positive lets NaN through: a
    manifest that claims the rate "nan" and 5 frames has the frozen duration,
    whatever it is, where the conversion of NaN to an integer is at most 5 (it is
    the least integer on amd64). *)
Lemma nan_frame_rate duration :
  SFleb duration (of_int 0) = false → overflow S754_nan ≤ 5 →
  ParseFloat "nan" = Some S754_nan →
  expectedGenerationDuration duration (parseFrameRate "nan") 5 = Some duration.
Proof.
  intros Hd Ho Hp. unfold parseFrameRate. simpl. rewrite Hp. simpl.
  unfold expectedGenerationDuration. rewrite Hd. simpl. unfold requested_frames.
  assert (fmul duration S754_nan = S754_nan) as -> by (by destruct duration).
  simpl. by rewrite Z.max_l.
Qed.
End gate.
