(* ===== verification/Netguard.v ===== *)
(** * Guarded outgoing requests (internal/netguard/url.go)

    URLs that clients supply (callbacks, media) are fetched through a guard:
    the scheme, the port and every address the host resolves to are checked
    before a request, on every redirect and again when a connection is dialled,
    and the body of a response is cut off at a limit. *)

From S2P Require Import Prelude Domain Tx Database Sql Workers GoStrings GoNet.

Inductive guard_error := ErrUnsafeURL (detail : string) | ErrResponseTooLarge | ErrNetwork.

(** The resolver, the dialer and the base transport of the guard. *)
Record Response := mkResponse {
  rs_StatusCode : Z;
  rs_Redirect : option string   (** the target, when the client follows it *)
}.
Inductive NetE : Type → Type :=
  | LookupNetIP (host : string) : NetE (option (list Addr))
  | Dial (address : Addr) (port : string) : NetE bool
  | RoundTrip (rawURL : string) : NetE (guard_error + Response).

(** ** Protected addresses *)

Definition protectedPrefixes : list Prefix :=
  [Prefix4 (Z.shiftl 0 24) 8;
   Prefix4 (Z.shiftl 100 24 + Z.shiftl 64 16) 10;
   Prefix4 (Z.shiftl 192 24) 24;
   Prefix4 (Z.shiftl 192 24 + Z.shiftl 2 8) 24;
   Prefix4 (Z.shiftl 198 24 + Z.shiftl 18 16) 15;
   Prefix4 (Z.shiftl 198 24 + Z.shiftl 51 16 + Z.shiftl 100 8) 24;
   Prefix4 (Z.shiftl 203 24 + Z.shiftl 113 8) 24;
   Prefix4 (Z.shiftl 192 24 + Z.shiftl 88 16 + Z.shiftl 99 8) 24;
   Prefix4 (Z.shiftl 240 24) 4;
   Prefix6 (words [100; 65435; 0; 0; 0; 0; 0; 0]) 96;       (* 64:ff9b::/96 *)
   Prefix6 (words [100; 65435; 1; 0; 0; 0; 0; 0]) 48;       (* 64:ff9b:1::/48 *)
   Prefix6 (words [256; 0; 0; 0; 0; 0; 0; 0]) 64;           (* 100::/64 *)
   Prefix6 (words [8193; 0; 0; 0; 0; 0; 0; 0]) 23;          (* 2001::/23 *)
   Prefix6 (words [8193; 3512; 0; 0; 0; 0; 0; 0]) 32;       (* 2001:db8::/32 *)
   Prefix6 (words [8194; 0; 0; 0; 0; 0; 0; 0]) 16;          (* 2002::/16 *)
   Prefix6 (words [65216; 0; 0; 0; 0; 0; 0; 0]) 10].        (* fec0::/10 *)

Definition IsProtectedAddress (a : Addr) : bool :=
  if negb (IsValid a) || negb (IsGlobalUnicast a) || IsPrivate a || IsLoopback a
     || IsLinkLocalUnicast a || IsLinkLocalMulticast a || IsInterfaceLocalMulticast a
     || IsUnspecified a || IsMulticast a
  then true
  else existsb (λ p, Contains p a) protectedPrefixes.

(** ** Validation *)

(** The keys of [Guard.ports]. *)
Definition guard_ports (AllowedPorts : list string) : list string :=
  ["80"; "443"] ++ List.filter (λ p, negb (p ≟ "")) (map TrimSpace AllowedPorts).

(** [strconv.ParseUint(port,10,16)] and [FormatUint]. *)
Fixpoint format_digits (fuel : nat) (n : Z) : string :=
  match fuel with
  | O => ""
  | S fuel =>
      String.append (if n <? 10 then "" else format_digits fuel (n / 10))
        (String (Ascii.ascii_of_nat (Z.to_nat (48 + n mod 10))) "")
  end.
Definition ParseUint16 (s : string) : option Z :=
  if s ≟ "" then None else n ← digits s 0; if n <? 65536 then Some n else None.
Definition FormatUint16 (n : Z) : string := format_digits 5 n.

Definition normalizePort (scheme port : string) : guard_error + string :=
  if port ≟ "" then inr (if scheme ≟ "https" then "443" else "80")
  else match ParseUint16 port with
       | Some n => if n =? 0 then inl (ErrUnsafeURL "端口无效") else inr (FormatUint16 n)
       | None => inl (ErrUnsafeURL "端口无效")
       end.

Definition is_bracket (c : Ascii.ascii) : bool :=
  c ∈? [Ascii.ascii_of_nat 91; Ascii.ascii_of_nat 93].
Fixpoint drop_while (p : Ascii.ascii → bool) (cs : list Ascii.ascii) : list Ascii.ascii :=
  match cs with [] => [] | c :: cs' => if p c then drop_while p cs' else cs end.
(** [strings.Trim(host,"[]")] *)
Definition trim_brackets (s : string) : string :=
  String.string_of_list_ascii
    (rev (drop_while is_bracket (rev (drop_while is_bracket (String.list_ascii_of_string s))))).

Fixpoint vet (addresses : list Addr) : guard_error + list Addr :=
  match addresses with
  | [] => inr []
  | a :: l =>
      let a := Unmap a in
      if IsProtectedAddress a then inl (ErrUnsafeURL "DNS 包含受保护网络地址")
      else l ← vet l; inr (a :: l)
  end.

Definition lookup (host : string) : Prog NetE (guard_error + list Addr) :=
  let normalizedHost := TrimSuffix (ToLower (TrimSpace host)) "." in
  if (normalizedHost ≟ "localhost") || HasSuffix normalizedHost ".localhost"
  then mret (inl (ErrUnsafeURL "localhost 保留域不可访问"))
  else
  match ParseAddr (trim_brackets host) with
  | Some literal =>
      let literal := Unmap literal in
      mret (if IsProtectedAddress literal then inl (ErrUnsafeURL "地址属于受保护网络")
            else inr [literal])
  | None =>
      addresses ← call (LookupNetIP host);
      mret match addresses with
           | None | Some [] => inl (ErrUnsafeURL "DNS 解析失败")
           | Some addresses => vet addresses
           end
  end.

Section guard.
(** [url.Parse], and the ports of the guard. *)
Context (url_Parse : string → option URL) (ports : list string).

Definition Validate (rawURL : string) : Prog NetE (guard_error + (URL * list Addr)) :=
  match url_Parse (TrimSpace rawURL) with
  | None => mret (inl (ErrUnsafeURL "URL 格式无效"))
  | Some parsed =>
      if negb (url_Scheme parsed ≟ "http") && negb (url_Scheme parsed ≟ "https")
      then mret (inl (ErrUnsafeURL "仅允许 HTTP/HTTPS"))
      else if (url_Hostname parsed ≟ "") || url_User parsed || negb (url_Fragment parsed ≟ "")
      then mret (inl (ErrUnsafeURL "主机、用户信息或片段无效"))
      else
      match normalizePort (url_Scheme parsed) (url_Port parsed) with
      | inl err => mret (inl err)
      | inr port =>
          if negb (port ∈? ports) then mret (inl (ErrUnsafeURL "端口不在允许列表"))
          else
          try! addresses ← lookup (url_Hostname parsed);
          mret (inr (parsed, addresses))
      end
  end.

(** The addresses of a host, one after the other until one answers. *)
Fixpoint dial_each (addresses : list Addr) (port : string) : Prog NetE (guard_error + unit) :=
  match addresses with
  | [] => mret (inl ErrNetwork)
  | a :: l =>
      ok ← call (Dial a port);
      if ok : bool then mret (inr tt) else dial_each l port
  end.

Definition dialContext (host port : string) : Prog NetE (guard_error + unit) :=
  if negb (port ∈? ports) then mret (inl (ErrUnsafeURL "端口不在允许列表"))
  else
  try! addresses ← lookup host;
  dial_each addresses port.

(** [guardedTransport.RoundTrip] *)
Definition roundTrip (rawURL : string) : Prog NetE (guard_error + Response) :=
  try! _ ← Validate rawURL;
  call (RoundTrip rawURL).

(** [http.Client.Do] with [CheckRedirect]; [via] counts the requests made.
    [None] when the fuel runs out. *)
Fixpoint follow (fuel : nat) (maxRedirects via : Z) (rawURL : string)
    : Prog NetE (option (guard_error + Response)) :=
  match fuel with
  | O => mret None
  | S fuel =>
      r ← roundTrip rawURL;
      match r with
      | inl err => mret (Some (inl err))
      | inr response =>
          match rs_Redirect response with
          | None => mret (Some (inr response))
          | Some next =>
              let via := via + 1 in
              if maxRedirects <? via then mret (Some (inl ErrNetwork))
              else
              t ← Validate next;
              match t with
              | inl err => mret (Some (inl err))
              | inr _ => follow fuel maxRedirects via next
              end
          end
      end
  end.

(** At most [maxRedirects] redirects follow the first request. *)
Definition Do (maxRedirects : Z) (rawURL : string) : Prog NetE (option (guard_error + Response)) :=
  follow (S (Z.to_nat maxRedirects)) maxRedirects 0 rawURL.
End guard.

Lemma lookup_storeless host : storeless (lookup host).
Proof. unfold lookup. destruct (_ || _); [done|]. by destruct (ParseAddr _). Qed.

Lemma Validate_storeless url_Parse ports raw : storeless (Validate url_Parse ports raw).
Proof.
  unfold Validate. destruct (url_Parse _); [|done]. destruct (_ && _); [done|].
  destruct (_ || _); [done|]. destruct (normalizePort _ _); [done|]. destruct (negb _); [done|].
  apply storeless_try; [apply lookup_storeless|done].
Qed.

(** ** The body of a response

    [boundedReadCloser.Read] over a source that yields, read by read, some
    bytes and an error or not; [size] is the length of the caller's buffer. *)

Inductive read_error := EOF | ReadFailure | TooLarge.
Record bounded := mkBounded { bd_remaining : Z; bd_exceeded : bool }.

(** [source] answers a read of at most [want] bytes. *)
Definition bounded_read (source : Z → list Ascii.ascii * option read_error) (size : Z) (r : bounded)
    : list Ascii.ascii * option read_error * bounded :=
  if bd_exceeded r then ([], Some TooLarge, r)
  else if size =? 0 then ([], None, r)
  else
    let want := if bd_remaining r + 1 <? size then bd_remaining r + 1 else size in
    let '(temporary, err) := source want in
    let n := Z.of_nat (length temporary) in
    if bd_remaining r <? n
    then (take (Z.to_nat (bd_remaining r)) temporary, Some TooLarge, mkBounded 0 true)
    else (temporary, err, mkBounded (bd_remaining r - n) false).

(** ** What is protected *)

(** The special-purpose blocks of the two address families, first to last. *)
Definition block4 (a b c d bits : Z) : Z * Z :=
  let lo := a * 2 ^ 24 + b * 2 ^ 16 + c * 2 ^ 8 + d in (lo, lo + 2 ^ (32 - bits) - 1).
Definition block6 (ws : list Z) (bits : Z) : Z * Z := (words ws, words ws + 2 ^ (128 - bits) - 1).

Definition special4 : list (Z * Z) :=
  [block4 0 0 0 0 8; block4 10 0 0 0 8; block4 100 64 0 0 10; block4 127 0 0 0 8;
   block4 169 254 0 0 16; block4 172 16 0 0 12; block4 192 0 0 0 24; block4 192 0 2 0 24;
   block4 192 88 99 0 24; block4 192 168 0 0 16; block4 198 18 0 0 15; block4 198 51 100 0 24;
   block4 203 0 113 0 24; block4 224 0 0 0 4; block4 240 0 0 0 4].
Definition special6 : list (Z * Z) :=
  [block6 [0; 0; 0; 0; 0; 0; 0; 0] 128; block6 [0; 0; 0; 0; 0; 0; 0; 1] 128;
   block6 [100; 65435; 0; 0; 0; 0; 0; 0] 96; block6 [100; 65435; 1; 0; 0; 0; 0; 0] 48;
   block6 [256; 0; 0; 0; 0; 0; 0; 0] 64; block6 [8193; 0; 0; 0; 0; 0; 0; 0] 23;
   block6 [8193; 3512; 0; 0; 0; 0; 0; 0] 32; block6 [8194; 0; 0; 0; 0; 0; 0; 0] 16;
   block6 [64512; 0; 0; 0; 0; 0; 0; 0] 7; block6 [65152; 0; 0; 0; 0; 0; 0; 0] 10;
   block6 [65216; 0; 0; 0; 0; 0; 0; 0] 10; block6 [65280; 0; 0; 0; 0; 0; 0; 0] 8].
Definition special (l : list (Z * Z)) (v : Z) : Prop := ∃ b, b ∈ l ∧ b.1 ≤ v ≤ b.2.

(** Masks of a byte or of a 16-bit word, by enumeration. *)
Fixpoint below (n : nat) (p : Z → bool) (hi : Z) : bool :=
  match n with
  | O => p hi
  | S n => below n p (2 * hi) && below n p (2 * hi + 1)
  end.
Lemma below_spec n p hi x :
  below n p hi = true → hi * 2 ^ Z.of_nat n ≤ x < (hi + 1) * 2 ^ Z.of_nat n → p x = true.
Proof.
  revert hi. induction n as [|n IH]; intros hi; cbn [below].
  - intros H Hx. replace x with hi by (simpl in Hx; lia). done.
  - intros [H1 H2]%andb_true_iff Hx. rewrite Nat2Z.inj_succ, Z.pow_succ_r in Hx by lia.
    destruct (decide (x < (2 * hi + 1) * 2 ^ Z.of_nat n)); [apply (IH _ H1)|apply (IH _ H2)]; lia.
Qed.
Definition mask_is (m lo n x : Z) : bool :=
  eqb (Z.land x m =? lo) ((lo <=? x) && (x <? lo + n)).
Lemma mask_byte x lo : 0 ≤ x < 256 → lo ∈ [224; 16] →
  (Z.land x 240 =? lo) = ((lo <=? x) && (x <? lo + 16)).
Proof.
  intros Hx Hin. apply eqb_true_iff. fold (mask_is 240 lo 16 x). apply (below_spec 8 _ 0); [|simpl; lia].
  repeat (apply elem_of_cons in Hin as [->|Hin]); [..|by apply elem_of_nil in Hin];
    vm_compute; reflexivity.
Qed.
Lemma mask_word x m lo n :
  0 ≤ x < 65536 → (m, lo, n) ∈ [(65472, 65152, 64); (65024, 64512, 512)] →
  (Z.land x m =? lo) = ((lo <=? x) && (x <? lo + n)).
Proof.
  intros Hx Hin. apply eqb_true_iff. fold (mask_is m lo n x).
  apply (below_spec 16 _ 0); [|simpl; lia].
  repeat (apply elem_of_cons in Hin as [[= -> -> ->]|Hin]); [..|by apply elem_of_nil in Hin];
    vm_compute; reflexivity.
Qed.

Lemma v4_div v n : 0 ≤ n ≤ 3 → v4 v n = (v / 2 ^ (8 * (3 - n))) mod 256.
Proof.
  intros. unfold v4. rewrite Z.shiftr_div_pow2 by lia. change 255 with (Z.ones 8).
  by rewrite Z.land_ones by lia.
Qed.

Lemma special_cons b l v : special (b :: l) v ↔ b.1 ≤ v ≤ b.2 ∨ special l v.
Proof. unfold special. setoid_rewrite elem_of_cons. naive_solver. Qed.
Lemma special_nil v : special [] v ↔ False.
Proof. unfold special. set_solver. Qed.
Lemma v4_bytes v : 0 ≤ v < 2 ^ 32 →
  ∃ a b c d, v = a * 2 ^ 24 + b * 2 ^ 16 + c * 2 ^ 8 + d ∧ v4 v 0 = a ∧ v4 v 1 = b ∧ v4 v 2 = c ∧
    0 ≤ a < 256 ∧ 0 ≤ b < 256 ∧ 0 ≤ c < 256 ∧ 0 ≤ d < 256.
Proof.
  intros Hv. exists (v / 2 ^ 24), ((v / 2 ^ 16) mod 256), ((v / 2 ^ 8) mod 256), (v mod 256).
  rewrite !v4_div by lia. change (8 * (3 - 0)) with 24. change (8 * (3 - 1)) with 16. change (8 * (3 - 2)) with 8.
  change (2 ^ 32) with 4294967296 in Hv.
  change (2 ^ 24) with 16777216. change (2 ^ 16) with 65536. change (2 ^ 8) with 256.
  split_and!; Z.to_euclidean_division_equations; lia.
Qed.

Ltac closed_z t :=
  lazymatch t with
  | Z0 => idtac | Zpos ?p => closed_p p | Zneg ?p => closed_p p
  | ?f ?x => lazymatch f with
             | Z.add ?a => closed_z a; closed_z x | Z.sub ?a => closed_z a; closed_z x
             | Z.mul ?a => closed_z a; closed_z x | Z.pow ?a => closed_z a; closed_z x
             | Z.div ?a => closed_z a; closed_z x | Z.shiftl ?a => closed_z a; closed_z x
             | words => idtac
             end
  end
with closed_p p := lazymatch p with xH => idtac | xO ?q => closed_p q | xI ?q => closed_p q end.
(** Evaluate the constant expressions of the goal. *)
Ltac constants :=
  repeat match goal with
  | |- context [?t] =>
      lazymatch t with
      | Z.add _ _ => idtac | Z.sub _ _ => idtac | Z.mul _ _ => idtac | Z.pow _ _ => idtac
      | Z.div _ _ => idtac | Z.shiftl _ _ => idtac | words _ => idtac
      end; closed_z t; let z := eval vm_compute in t in change t with z
  end.

Lemma div_block x k q : 0 < k → x / k = q ↔ q * k ≤ x < q * k + k.
Proof.
  intros Hk. split.
  - intros <-. pose proof (Z.mul_div_le x k Hk). pose proof (Z.mul_succ_div_gt x k Hk). lia.
  - intros H. symmetry. apply (Z.div_unique x k q (x - q * k)); lia.
Qed.

(** A disjunct that holds by linear arithmetic. *)
Ltac pick := lazymatch goal with |- _ ∨ _ => first [left; pick | right; pick] | |- _ => lia end.

Lemma addr4_eqb v w : (Addr4 v ≟ Addr4 w) = (v =? w).
Proof. apply eq_true_iff_eq. rewrite bool_decide_eq_true, Z.eqb_eq. naive_solver. Qed.

Lemma protected4 v : 0 ≤ v < 2 ^ 32 → IsProtectedAddress (Addr4 v) = true ↔ special special4 v.
Proof.
  intros Hv. unfold special4. rewrite !special_cons, special_nil. 
  destruct (v4_bytes v Hv) as (a & b & c & d & Ev & Ea & Eb & Ec & Ha & Hb & Hc & Hd).
  unfold IsProtectedAddress, IsValid, IsGlobalUnicast, IsPrivate, IsLoopback, IsLinkLocalUnicast,
    IsLinkLocalMulticast, IsInterfaceLocalMulticast, IsUnspecified, IsMulticast, protectedPrefixes,
    IPv4Unspecified, IPv6Unspecified. cbn [Unmap existsb Contains negb].
  rewrite Ea, Eb, Ec, !addr4_eqb.
  rewrite !(mask_byte _ 224 Ha), !(mask_byte _ 16 Hb) by (repeat constructor).
  rewrite !(bool_decide_eq_false_2 (Addr4 v = AddrZero)), !(bool_decide_eq_false_2 (Addr4 v = Addr6 _ _)) by done.
  rewrite !Z.shiftr_div_pow2 by lia. unfold block4. cbn [fst snd].
  rewrite Ev in *. clear Ev Ea Eb Ec Hv v. constants.
  match goal with |- (if ?x then true else ?y) = true ↔ _ => change (if x then true else y) with (x || y) end.
  rewrite !orb_true_iff, !negb_true_iff, !andb_false_iff, !negb_false_iff, !orb_true_iff, !andb_true_iff,
    !Z.eqb_eq, !Z.leb_le, !Z.ltb_lt.
  rewrite !div_block by lia. constants.
  split; intros H; repeat destruct H as [H|H]; first [discriminate H | contradiction H | pick].
Qed.
Lemma mask_ff x : 0 ≤ x < 65536 → Z.land x 65295 = 65281 ∨ Z.land x 65295 = 65282 → 65280 ≤ x.
Proof.
  intros Hx. rewrite <-!Z.eqb_eq, <-Z.leb_le, <-orb_true_iff. intros H.
  assert (implb ((Z.land x 65295 =? 65281) || (Z.land x 65295 =? 65282)) (65280 <=? x) = true) as Hi.
  { apply (below_spec 16 (λ x, implb ((Z.land x 65295 =? 65281) || (Z.land x 65295 =? 65282))
      (65280 <=? x)) 0); [vm_compute; reflexivity|simpl; lia]. }
  by rewrite H in Hi.
Qed.

Lemma addr6_eqb v w z z' : (Addr6 v z ≟ Addr6 w z') = (v =? w) && (z ≟ z').
Proof.
  apply eq_true_iff_eq. rewrite andb_true_iff, !bool_decide_eq_true, Z.eqb_eq. naive_solver.
Qed.

Lemma protected6 v :
  0 ≤ v < 2 ^ 128 → Is4In6 (Addr6 v "") = false →
  IsProtectedAddress (Addr6 v "") = true ↔ special special6 v.
Proof.
  intros Hv Hm. unfold special6. rewrite !special_cons, special_nil.
  assert (v6u16 v = v / 2 ^ 112 ∧ 0 ≤ v / 2 ^ 112 < 65536) as [Ew Hw].
  { unfold v6u16. rewrite Z.shiftr_div_pow2 by lia. change 65535 with (Z.ones 16).
    assert (0 ≤ v / 2 ^ 112 < 65536) by (split; [apply Z.div_pos; lia|apply Z.div_lt_upper_bound; lia]).
    rewrite Z.land_ones by lia. split; [by apply Z.mod_small|done]. }
  unfold Is4In6 in Hm.
  unfold IsProtectedAddress, IsValid, IsGlobalUnicast, IsPrivate, IsLoopback, IsLinkLocalUnicast,
    IsLinkLocalMulticast, IsInterfaceLocalMulticast, IsUnspecified, IsMulticast, protectedPrefixes,
    IPv4Unspecified, IPv6Unspecified, Is4In6. cbn [Unmap existsb Contains]. do 2 (rewrite Hm; cbn [Unmap]).
  rewrite !addr6_eqb, Ew, !(bool_decide_eq_true_2 ("" = "")) by done.
  rewrite !(mask_word _ 65472 65152 64 Hw), !(mask_word _ 65024 64512 512 Hw)
    by (repeat constructor).
  rewrite !(bool_decide_eq_false_2 (Addr6 v _ = AddrZero)), !(bool_decide_eq_false_2 (Addr6 v _ = Addr4 _)) by done.
  rewrite !Z.shiftr_div_pow2 by lia. unfold block6. cbn [fst snd].
  match goal with |- (if ?x then true else ?y) = true ↔ _ => change (if x then true else y) with (x || y) end.
  rewrite !orb_true_iff, !negb_true_iff, !andb_false_iff, !negb_false_iff, !orb_true_iff, !andb_true_iff,
    !Z.eqb_eq, !Z.leb_le, !Z.ltb_lt.
  pose proof (mask_ff _ Hw) as Hff. pose proof (div_block v (2 ^ 112) (v / 2 ^ 112) ltac:(lia)) as [Hd _].
  specialize (Hd eq_refl). set (w := v / 2 ^ 112) in *. clearbody w. clear Ew Hm.
  rewrite !div_block by lia. constants. change (2 ^ 112) with 5192296858534827628530496329220096 in Hd.
  split; intros H; repeat destruct H as [H|H]; 
    first [discriminate H | contradiction H
          | destruct H as [_ H]; specialize (Hff (or_introl H)); pick | specialize (Hff (or_intror H)); pick | clear Hff; pick].
Qed.

(** ** Connections *)

(** Outside every special-purpose block; of an address with a zone the check
    only covers loopback, unique local, link local and multicast. *)
Definition public (a : Addr) : Prop :=
  match a with
  | AddrZero => False
  | Addr4 v => 0 ≤ v < 2 ^ 32 → ¬ special special4 v
  | Addr6 v zone => 0 ≤ v < 2 ^ 128 → zone = "" → ¬ special special6 v
  end.

Lemma Unmap_not_mapped a v zone : Unmap a = Addr6 v zone → Is4In6 (Addr6 v zone) = false.
Proof.
  destruct a as [|w|w z]; [done..|]. unfold Unmap, Is4In6.
  destruct (Z.shiftr w 32 =? 65535) eqn:E; [done|]. by intros [= -> ->].
Qed.

Lemma unprotected_public a : IsProtectedAddress (Unmap a) = false → public (Unmap a).
Proof.
  intros H. destruct (Unmap a) as [|v|v zone] eqn:E; [done|intros Hv Hs..].
  - apply protected4 in Hs; [|done]. congruence.
  - intros Hsp. subst zone. apply protected6 in Hsp; [congruence|done|].
    by apply Unmap_not_mapped in E.
Qed.

Lemma vet_public l l' : vet l = inr l' → Forall public l'.
Proof.
  revert l'. induction l as [|a l IH]; intros l'; cbn [vet]; [by intros [= <-]|].
  destruct (IsProtectedAddress (Unmap a)) eqn:E; [done|].
  rewrite sum_bind_inr. intros (l'' & Hl & [= <-]).
  constructor; [by apply unprotected_public|by apply IH].
Qed.

Lemma lookup_public host db tr l db' :
  plays (lookup host) db tr (inr l) db' → Forall public l ∧ ∀ ev, ev ∈ tr → ev = existT _ (LookupNetIP host).
Proof.
  unfold lookup. destruct (_ || _); [by intros (? & _)|].
  destruct (ParseAddr _) as [a|].
  - intros (H & _ & ->). destruct (IsProtectedAddress (Unmap a)) eqn:E; [done|].
    injection H as ->. split; [|by intros ev ?%elem_of_nil].
    constructor; [by apply unprotected_public|constructor].
  - intros (x & tr' & -> & H & _ & ->). split; [|by intros ev ->%list_elem_of_singleton].
    destruct x as [[|a l']|]; [done| |done]. by apply (vet_public (a :: l')).
Qed.

Lemma dial_each_in l port db tr r db' :
  plays (dial_each l port) db tr r db' →
  ∀ ev, ev ∈ tr → ∃ a, a ∈ l ∧ ev = existT _ (Dial a port).
Proof.
  revert tr. induction l as [|a l IH]; intros tr; cbn [dial_each].
  - intros (_ & _ & ->) ev []%elem_of_nil.
  - intros (x & tr' & -> & H) ev [->|Hin]%elem_of_cons.
    { exists a. split; [by left|done]. }
    destruct x; [by destruct H as (_ & _ & ->); apply elem_of_nil in Hin|].
    destruct (IH tr' H ev Hin) as (b & Hb & ->). exists b. split; [by right|done].
Qed.

(** Every event of a connection attempt; the resolver may answer anything, and
    differently from what it answered when the URL was validated. *)
Definition connects_safely (ports : list string) (host port : string) (ev : event NetE) : Prop :=
  ev = existT _ (LookupNetIP host) ∨
  ∃ a, ev = existT _ (Dial a port) ∧ port ∈ ports ∧ public a.

(** C15: the guard dials public addresses only.  Whatever the resolver answers,
    and whenever it changes its answers, every connection a guarded client
    opens goes to an allowed port of an address outside all special-purpose
    blocks of IPv4 and IPv6 (loopback, private, link local, shared, benchmark,
    documentation, multicast, reserved, translation and tunnel prefixes), an
    IPv6 address with a zone excepted. *)
Theorem dialContext_safe ports host port db tr r db' :
  plays (dialContext ports host port) db tr r db' →
  Forall (connects_safely ports host port) tr.
Proof.
  unfold dialContext. destruct (negb (port ∈? ports)) eqn:E.
  { intros (_ & _ & ->). constructor. }
  apply negb_false_iff, bool_decide_eq_true in E.
  rewrite plays_try. intros [(err & H & ->)|(tr1 & l & db1 & tr2 & Hl & Hd & ->)].
  - apply Forall_forall. intros ev Hin. left. revert H Hin. unfold lookup.
    destruct (_ || _); [by intros (_ & _ & ->) []%elem_of_nil|].
    destruct (ParseAddr _); [by intros (_ & _ & ->) []%elem_of_nil|].
    by intros (x & tr' & -> & _ & _ & ->) ->%list_elem_of_singleton.
  - apply lookup_public in Hl as [Hpub Hl]. rewrite Forall_forall in Hpub.
    apply Forall_app. split; apply Forall_forall; intros ev Hin; [left; by apply Hl|right].
    destruct (dial_each_in _ _ _ _ _ _ Hd ev Hin) as (a & Ha & ->). exists a. auto.
Qed.


(** ** Redirects *)

Definition is_request (ev : event NetE) : bool :=
  match projT2 ev with RoundTrip _ => true | _ => false end.
Definition requests (tr : list (event NetE)) : Z := count_where is_request tr.

Lemma lookup_no_request host db tr r db' : plays (lookup host) db tr r db' → requests tr = 0.
Proof.
  unfold lookup. destruct (_ || _); [by intros (_ & _ & ->)|].
  destruct (ParseAddr _); [by intros (_ & _ & ->)|].
  by intros (x & tr' & -> & _ & _ & ->).
Qed.
Lemma Validate_no_request parse ports raw db tr r db' :
  plays (Validate parse ports raw) db tr r db' → requests tr = 0.
Proof.
  unfold Validate. repeat case_match; try by intros (_ & _ & ->).
  rewrite plays_try.
  intros [(err & Hl & ->)|(tr1 & l & db1 & tr2 & Hl & (_ & _ & ->) & ->)];
    rewrite ?app_nil_r; by eapply lookup_no_request.
Qed.
Lemma roundTrip_requests parse ports raw db tr r db' :
  plays (roundTrip parse ports raw) db tr r db' → requests tr ≤ 1.
Proof.
  unfold roundTrip. rewrite plays_try.
  intros [(err & Hv%Validate_no_request & ->)|(tr1 & t & db1 & tr2 & Hv & Hr & ->)]; [lia|].
  apply Validate_no_request in Hv. destruct Hr as (x & tr' & -> & _ & _ & ->).
  unfold requests in *. rewrite count_where_app, Hv. reflexivity.
Qed.

Ltac ended H := destruct H as (-> & -> & ->); split; [done|rewrite count_where_nil; lia].

Lemma follow_bounded parse ports fuel maxR via raw db tr r db' :
  (Z.to_nat (maxR - via) < fuel)%nat → 
  plays (follow parse ports fuel maxR via raw) db tr r db' →
  r ≠ None ∧ requests tr ≤ 1 + Z.max 0 (maxR - via).
Proof.
  revert via raw db tr. induction fuel as [|fuel IH]; intros via raw db tr Hf; [lia|].
  cbn [follow]. rewrite plays_bind. intros (tr1 & x & db1 & tr2 & Hr%roundTrip_requests & Hk & ->).
  unfold requests in *. rewrite count_where_app.
  destruct x as [err|response]; [ended Hk|].
  destruct (rs_Redirect response) as [next|]; [|ended Hk].
  destruct (maxR <? via + 1) eqn:E; [ended Hk|].
  apply Z.ltb_ge in E. apply plays_bind in Hk as (tr3 & t & db2 & tr4 & Hv%Validate_no_request & Hk & ->).
  unfold requests in Hv. rewrite count_where_app, Hv.
  destruct t as [err|t]; [ended Hk|].
  apply IH in Hk as [? ?]; [|lia]. split; [done|lia].
Qed.

(** C16: redirects end.  A guarded request returns whatever the servers answer
    (the loop never outlives its bound), after at most one request more than
    the redirects allowed. *)
Theorem Do_terminates parse ports maxR raw db tr r db' :
  plays (Do parse ports maxR raw) db tr r db' →
  r ≠ None ∧ requests tr ≤ 1 + Z.max 0 maxR.
Proof.
  intros H. apply follow_bounded in H as [? ?]; [split; [done|lia]|lia].
Qed.

(** ** Bodies *)

(** The reads of a caller, with buffers of the given sizes, until the first
    error; [source k want] is the answer of the body to its [k]th read. *)
Fixpoint read_all (source : nat → Z → list Ascii.ascii * option read_error) (sizes : list Z)
    (k : nat) (r : bounded) : list Ascii.ascii * option read_error :=
  match sizes with
  | [] => ([], None)
  | size :: sizes =>
      let '(bs, err, r') := bounded_read (source k) size r in
      match err with
      | Some _ => (bs, err)
      | None => let '(bs', err) := read_all source sizes (S k) r' in (bs ++ bs', err)
      end
  end.

(** A response never delivers more than its limit.  However the caller
    reads and however the server sends, at most [limit] bytes come out, and if
    the body is refused as too large exactly [limit] bytes came out before. *)
Theorem read_all_bounded source sizes limit bs err :
  0 ≤ limit →
  read_all source sizes 0 (mkBounded limit false) = (bs, err) →
  Z.of_nat (length bs) ≤ limit ∧
  (err = Some TooLarge → (∀ k want, (source k want).2 ≠ Some TooLarge) →
     Z.of_nat (length bs) = limit).
Proof.
  generalize O. revert limit bs. induction sizes as [|size sizes IH]; intros limit bs k Hl; cbn [read_all].
  { intros [= <- <-]. simpl. split; [lia|done]. }
  unfold bounded_read. cbn [bd_exceeded bd_remaining].
  destruct (size =? 0).
  { destruct (read_all _ _ _ _) as [bs' e'] eqn:E. intros [= <- <-].
    apply IH in E as [??]; [|done]. by split. }
  destruct (source k _) as [tmp e] eqn:Es. destruct (limit <? Z.of_nat (length tmp)) eqn:E.
  - apply Z.ltb_lt in E. intros [= <- <-]. rewrite length_take. lia.
  - apply Z.ltb_ge in E. destruct e as [e|].
    + intros [= <- <-]. split; [lia|]. intros [= ->] Hs. exfalso.
      apply (Hs k (if limit + 1 <? size then limit + 1 else size)). by rewrite Es.
    + destruct (read_all _ _ _ _) as [bs' e'] eqn:Er. intros [= <- <-].
      apply IH in Er as [Hle Heq]; [|lia]. rewrite length_app. split; [lia|].
      intros He Hs. specialize (Heq He Hs). lia.
Qed.
