(* ===== verification/Monitor.v ===== *)
(** * The cache of node states (internal/monitor/cache.go)

    What the process knows of its nodes, shared by the workers, the collector,
    the scheduler and the dashboards under one mutex. *)

From stdpp Require Import gmap strings.
From S2P Require Import Prelude GoStrings GoFloat GoNet GoHttp.

Definition HealthUnknown : string := "unknown".
Definition HealthHealthy : string := "healthy".
Definition HealthUnhealthy : string := "unhealthy".
Definition RuntimeUnknown : string := "unknown".
Definition RuntimeIdle : string := "idle".
Definition RuntimeRunning : string := "running".

(** Times are in milliseconds, [None] for the zero time. *)
Record CurrentTaskSnapshot := mkCurrentTask {
  ct_TaskID : string;
  ct_Status : string;
  ct_StartedAt : option Z
}.
Record FinishedTaskSnapshot := mkFinishedTask {
  fs_ID : string;
  fs_APIKeyID : string;
  fs_Status : string;
  fs_DurationSeconds : Z;
  fs_FinishedAt : option Z
}.
Record ErrorSnapshot := mkErrorSnapshot { es_Code : string; es_Summary : string }.
#[export] Instance ErrorSnapshot_eq_dec : EqDecision ErrorSnapshot.
Proof. solve_decision. Defined.

(** *** The dashboard of a TK2SD node (internal/monitor/tk2sd_dashboard.go) *)

Record TK2SDCounts := mkTK2SDCounts {
  kc_Running : Z; kc_Queued : Z; kc_Succeeded : Z; kc_Uncertain : Z; kc_Failed : Z; kc_Canceled : Z
}.
Record TK2SDAccount := mkTK2SDAccount {
  ka_Label : string;
  ka_Status : string;
  ka_Credits : option Z;
  ka_ActiveCount : Z;
  ka_ConcurrencyLimit : Z;
  ka_AvailableSlots : Z;
  ka_Cooldown : bool
}.
Record TK2SDLogin := mkTK2SDLogin { kl_Status : string; kl_CanDispatch : bool }.
Record TK2SDDashboard := mkTK2SDDashboard {
  kd_Counts : TK2SDCounts;
  kd_Occupied : Z;
  kd_Capacity : Z;
  kd_Accounts : list TK2SDAccount;
  kd_Login : TK2SDLogin;
  kd_LeasedTaskIDs : list string;
  kd_SlotCapacity : Z;
  kd_SlotOccupied : Z;
  kd_ConcurrencyPerLine : Z;
  kd_CoolingSlots : Z
}.

(** The capabilities of a node are only passed on. *)
Record NodeSnapshot := mkNodeSnapshot {
  ns_ID : string;
  ns_Address : string;
  ns_Health : string;
  ns_Runtime : string;
  ns_PrivateQueue : option Z;
  ns_CPUPercent : option float64;
  ns_MemoryPercent : option float64;
  ns_GPUPercent : option float64;
  ns_VRAMPercent : option float64;
  ns_CheckedAt : option Z;
  ns_LastHealthyAt : option Z;
  ns_UpdatedAt : option Z;
  ns_CurrentTask : option CurrentTaskSnapshot;
  ns_LatestFinishedTask : option FinishedTaskSnapshot;
  ns_LastError : option ErrorSnapshot;
  ns_TK2SDDashboard : option TK2SDDashboard;
  ns_Disabled : bool;
  ns_Applying : bool;
  ns_SchedulingBlocked : bool;
  ns_Capabilities : option (list (string * any))
}.
#[export] Instance NodeSnapshot_eta : Eta NodeSnapshot := λ r,
  mkNodeSnapshot (ns_ID r) (ns_Address r) (ns_Health r) (ns_Runtime r) (ns_PrivateQueue r)
    (ns_CPUPercent r) (ns_MemoryPercent r) (ns_GPUPercent r) (ns_VRAMPercent r) (ns_CheckedAt r)
    (ns_LastHealthyAt r) (ns_UpdatedAt r) (ns_CurrentTask r) (ns_LatestFinishedTask r) (ns_LastError r)
    (ns_TK2SDDashboard r) (ns_Disabled r) (ns_Applying r) (ns_SchedulingBlocked r) (ns_Capabilities r).
Definition zero_node : NodeSnapshot :=
  mkNodeSnapshot "" "" "" "" None None None None None None None None None None None None
    false false false None.

Definition sanitizeError (code : string) : ErrorSnapshot :=
  if code ≟ "upstream_unhealthy" then mkErrorSnapshot code "私有服务连接失败"
  else if code ≟ "upstream_poll_error" then mkErrorSnapshot code "私有服务状态查询失败"
  else if code ≟ "upstream_protocol_error" then mkErrorSnapshot code "私有服务状态响应异常"
  else if code ≟ "upstream_jobs_unhealthy" then mkErrorSnapshot code "私有任务服务连接失败"
  else if code ≟ "upstream_cancel_unconfirmed" then mkErrorSnapshot code "私有任务中止状态待确认"
  else if code ≟ "node_api_unhealthy" then mkErrorSnapshot code "模型节点 API 健康检查失败"
  else if code ≟ "node_cancel_reconciling" then mkErrorSnapshot code "模型节点任务中止状态待确认"
  else mkErrorSnapshot "upstream_error" "私有服务异常".

Definition normalizeNode (node : NodeSnapshot) : NodeSnapshot :=
  node <| ns_Health := if ns_Health node ≟ "" then HealthUnknown else ns_Health node |>
       <| ns_Runtime := if ns_Runtime node ≟ "" then RuntimeUnknown else ns_Runtime node |>
       <| ns_LastError := (λ err, sanitizeError (es_Code err)) <$> ns_LastError node |>.

(** ** The cache *)

#[local] Abbreviation Cache := (gmap string NodeSnapshot).

Definition Cache_Set (node : NodeSnapshot) (c : Cache) : Cache :=
  let node := normalizeNode node in <[ns_ID node := node]> c.
Definition NewCache (nodes : list NodeSnapshot) : Cache := fold_left (λ c n, Cache_Set n c) nodes ∅.
Definition Cache_Update (id : string) (update : NodeSnapshot → NodeSnapshot) (c : Cache) : Cache :=
  let node := (default zero_node (c !! id)) <| ns_ID := id |> in
  <[id := normalizeNode (update node)]> c.
Definition Cache_Delete (id : string) (c : Cache) : Cache := delete id c.
Definition Cache_Get (id : string) (c : Cache) : option NodeSnapshot := c !! id.
Definition Cache_List (c : Cache) : list NodeSnapshot :=
  order_by_text (λ n, (ns_ID n, "")) (map snd (map_to_list c)).

Definition node_available (n : NodeSnapshot) : bool :=
  negb (ns_Disabled n) && negb (ns_Applying n) && (ns_Health n ≟ HealthHealthy).
Definition HealthyCount (c : Cache) : Z := count_where (λ kn, node_available kn.2) (map_to_list c).
Definition Available (c : Cache) : bool := 0 <? HealthyCount c.
(** [now] in milliseconds and [maxAge] in nanoseconds. *)
Definition node_fresh (now maxAge : Z) (n : NodeSnapshot) : bool :=
  negb (ns_Disabled n) && negb (ns_Applying n)
  && ((ns_Health n ≟ HealthHealthy) || ns_SchedulingBlocked n)
  && match ns_CheckedAt n with
     | Some checked => now * Millisecond - maxAge <=? checked * Millisecond
     | None => false
     end.
Definition AvailableFresh (now maxAge : Z) (c : Cache) : bool :=
  existsb (λ kn, node_fresh now maxAge kn.2) (map_to_list c).

(** ** What it holds *)

(** Anything anybody does to the cache. *)
Inductive cache_step : Cache → Cache → Prop :=
  | cache_set node c : cache_step c (Cache_Set node c)
  | cache_update id update c : cache_step c (Cache_Update id update c)
  | cache_delete id c : cache_step c (Cache_Delete id c).

Definition node_clean (n : NodeSnapshot) : Prop :=
  ns_Health n ≠ "" ∧ ns_Runtime n ≠ "" ∧
  ∀ err, ns_LastError n = Some err → sanitizeError (es_Code err) = err.

Lemma sanitizeError_idempotent code : sanitizeError (es_Code (sanitizeError code)) = sanitizeError code.
Proof.
  unfold sanitizeError at 2 3.
  repeat match goal with |- context [code ≟ ?s] =>
    destruct (decide (code = s)) as [->|]; [reflexivity|rewrite bool_decide_eq_false_2 by done] end.
  reflexivity.
Qed.

Lemma normalizeNode_clean n : node_clean (normalizeNode n).
Proof.
  unfold node_clean, normalizeNode. simpl. split_and!.
  - destruct (ns_Health n ≟ "") eqn:E; [done|]. by apply bool_decide_eq_false in E.
  - destruct (ns_Runtime n ≟ "") eqn:E; [done|]. by apply bool_decide_eq_false in E.
  - intros err. destruct (ns_LastError n); [|done]. intros [= <-]. apply sanitizeError_idempotent.
Qed.

(** The cache never holds, nor shows, a text that came from a node: whatever was
    done to it, an error in it is one of the eight fixed ones, and every health and
    state is set. *)
Theorem cache_clean nodes c :
  rtc cache_step (NewCache nodes) c → map_Forall (λ _ n, node_clean n) c.
Proof.
  revert c. apply rtc_ind_r.
  - unfold NewCache. generalize (map_Forall_empty (λ (_ : string) n, node_clean n)).
    generalize (∅ : gmap string NodeSnapshot). induction nodes as [|n nodes IH]; intros c0 H0; simpl; [done|].
    apply IH, map_Forall_insert_2; [apply normalizeNode_clean|done].
  - intros c1 c2 _ Hs IH. destruct Hs; simpl in *.
    + apply map_Forall_insert_2; [apply normalizeNode_clean|done].
    + apply map_Forall_insert_2; [apply normalizeNode_clean|done].
    + by apply map_Forall_delete.
Qed.
