(* ===== verification/Catalog.v ===== *)
(** * Model catalogues and routes
    (internal/store/sqlite/model_catalog_store.go, model_route_store.go)

    What a node offers, and which protocol serves a model. *)

From S2P Require Import Prelude Domain Tx Database Sql GoStrings.

(** ** Catalogues *)

(** domain.ModelCatalog *)
Record ModelCatalog := mkModelCatalog {
  cat_NodeID : string;
  cat_Source : string;
  cat_Revision : Z;
  cat_Status : string;
  cat_Fingerprint : string;
  cat_LastAttemptAt : Z;
  cat_LastSuccessAt : Z;
  cat_ValidUntil : Z;
  cat_LastErrorCode : string;
  cat_Items : list NodeModel
}.
#[export] Instance ModelCatalog_eta : Eta ModelCatalog := λ r,
  mkModelCatalog (cat_NodeID r) (cat_Source r) (cat_Revision r) (cat_Status r)
    (cat_Fingerprint r) (cat_LastAttemptAt r) (cat_LastSuccessAt r)
    (cat_ValidUntil r) (cat_LastErrorCode r) (cat_Items r).

(** domain.ModelNodeInput; the sealed API key is its fingerprint. *)
Record ModelNodeInput := mkNodeInput {
  ni_ID : string;
  ni_ServiceURL : string;
  ni_ProtocolVersion : string;
  ni_APIKeyFingerprint : string;
  ni_UpstreamModel : string;
  ni_MaxConcurrency : Z;
  ni_ReplaceResultURL : bool;
  ni_LegacyModelCompat : bool;
  ni_ModelCatalog : option ModelCatalog;
  ni_BaseURL : string;
  ni_JobsBaseURL : string;
  ni_PublicBaseURL : string;
  ni_HealthPath : string;
  ni_SubmitAPIName : string;
  ni_CheckAPIName : string;
  ni_PollInterval : Z;
  ni_RequestTimeout : Z;
  ni_Enabled : bool
}.
#[export] Instance ModelNodeInput_eta : Eta ModelNodeInput := λ r,
  mkNodeInput (ni_ID r) (ni_ServiceURL r) (ni_ProtocolVersion r)
    (ni_APIKeyFingerprint r) (ni_UpstreamModel r) (ni_MaxConcurrency r)
    (ni_ReplaceResultURL r) (ni_LegacyModelCompat r) (ni_ModelCatalog r)
    (ni_BaseURL r) (ni_JobsBaseURL r) (ni_PublicBaseURL r) (ni_HealthPath r)
    (ni_SubmitAPIName r) (ni_CheckAPIName r) (ni_PollInterval r)
    (ni_RequestTimeout r) (ni_Enabled r).

Definition NUL : string := String (Ascii.ascii_of_nat 0) EmptyString.

Definition CatalogFingerprint (e : Env) (n : ModelNodeInput) : string :=
  env_sha256_hex e (String.concat NUL
    [ni_ProtocolVersion n; ni_ServiceURL n; ni_APIKeyFingerprint n]).

Definition node_model_of_row (m : NodeModelRow) : error + NodeModel :=
  match unmarshal (nm_capabilities_json m) with
  | Some caps => inr (mkNodeModel (nm_model_id m) (nm_enabled m) (nm_present m)
                        (nm_verified m) caps)
  | None => inl ErrUnmarshal
  end.

Definition catalogWith (nodeID : string) (db : DB) : error + ModelCatalog :=
  match List.find (λ c, nc_node_id c ≟ nodeID) (db_catalogs db) with
  | None => inl ErrNodeNotFound
  | Some c =>
      items ← collect node_model_of_row
        (order_by_text (λ m, (nm_model_id m, ""))
          (List.filter (λ m, nm_node_id m ≟ nodeID) (db_node_models db)));
      mret (mkModelCatalog nodeID (nc_source c) (nc_revision c) (nc_last_status c)
        (nc_connection_fingerprint c) (coalesce_int (nc_last_attempt_at c))
        (coalesce_int (nc_last_success_at c)) (coalesce_int (nc_valid_until c))
        (nc_last_error_code c) items)
  end.

Definition ValidModelID (id : string) : bool :=
  ValidString id && (1 <=? RuneCountInString id) && (RuneCountInString id <=? 128)
  && negb (ContainsByte id (Ascii.ascii_of_nat 42))
  && forallb (λ r, negb (IsControl (ru_rune r) || IsSpace (ru_rune r))) (runes id).

Definition catalogHasEnabled (c : ModelCatalog) (now : Z) : bool :=
  if (cat_Source c ≟ "discovered")
     && ((cat_LastSuccessAt c =? 0) || (cat_ValidUntil c <=? now))
  then false
  else existsb (λ m, nmd_Enabled m && nmd_Present m) (cat_Items c).

Fixpoint validateCatalogItems_seen (seen : list string) (items : list NodeModel)
    : option error :=
  match items with
  | [] => None
  | m :: items =>
      if negb (ValidModelID (nmd_ModelID m)) || (nmd_ModelID m ∈? seen)
      then Some (ErrText "模型 ID 无效或重复")
      else if cap_Modes (nmd_Capabilities m) ≟ []
      then Some (ErrText "模型能力缺失")
      else validateCatalogItems_seen (nmd_ModelID m :: seen) items
  end.
Definition validateCatalogItems (items : list NodeModel) : option error :=
  validateCatalogItems_seen [] items.

Definition guard_none (o : option error) : Tx unit :=
  match o with Some err => throw err | None => mret tt end.

(** INSERT ... ON CONFLICT(node_id,model_id) DO UPDATE *)
Definition writeNodeModel (nodeID : string) (now : Z) (m : NodeModel) : Tx unit :=
  let same r := (nm_node_id r ≟ nodeID) && (nm_model_id r ≟ nmd_ModelID m) in
  rows ← ask (λ db, exists_where same (db_node_models db));
  if rows : bool
  then
    exec_update same (λ r, r
      <| nm_enabled := nmd_Enabled m |> <| nm_present := nmd_Present m |>
      <| nm_capabilities_json := JsonOf (nmd_Capabilities m) |>
      <| nm_verified := nmd_Verified m |> <| nm_updated_at := now |>) ;; mret tt
  else
    exec_insert (mkNodeModelRow nodeID (nmd_ModelID m) (nmd_Enabled m) (nmd_Present m)
      (JsonOf (nmd_Capabilities m)) (nmd_Verified m) now now).

Definition bumpRouting : Tx unit :=
  modify (λ db, db <| db_routing_revision := db_routing_revision db + 1 |>).

(** The enabled and present models of the enabled nodes, with their node. *)
Definition offered (db : DB) : list (NodeModelRow * ModelServiceNode) :=
  join_on (λ m n, (mn_id n ≟ nm_node_id m) && nm_enabled m && nm_present m
                  && mn_enabled n && is_null (mn_deleted_at n))
    (db_node_models db) (db_nodes db).

Definition model_protocols (db : DB) (model : string) : list string :=
  remove_dups (map (λ mn, mn_protocol_version mn.2)
    (List.filter (λ mn, nm_model_id mn.1 ≟ model) (offered db))).

(** INSERT ... SELECT ... GROUP BY m.model_id ON CONFLICT(model_id) DO NOTHING *)
Definition syncModelRoutes (now : Z) : Tx unit :=
  models ← ask (λ db, remove_dups (map (λ mn, nm_model_id mn.1) (offered db)));
  each (λ model,
    known ← ask (λ db, exists_where (λ r, mr_model_id r ≟ model) (db_routes db));
    if known : bool then mret tt
    else
      protocols ← ask (λ db, model_protocols db model);
      match protocols with
      | [p] => exec_insert (mkModelRouteRow model (Some p) "auto" 1 "system" now now)
      | _ => exec_insert (mkModelRouteRow model None "unresolved" 1 "system" now now)
      end) models.

Definition builtin_catalog (n : ModelNodeInput) (d : Definition_) (now : Z) : ModelCatalog :=
  if pd_ModelSource d ≟ "discovered"
  then mkModelCatalog "" (pd_ModelSource d) 0 "uninitialized" "" 0 0 0 "" []
  else mkModelCatalog "" (pd_ModelSource d) 0 "ready" "" 0 now 0 ""
         [mkNodeModel "MiniMax-H3" true true (pd_ModelSource d ≟ "builtin")
            (BuiltinCapability (ni_ProtocolVersion n))].

(** The catalogue of the input, with the discovery times of the stored one
    when those are newer. *)
Definition merge_discovery (old c : ModelCatalog) : ModelCatalog :=
  let c := if cat_LastSuccessAt c <? cat_LastSuccessAt old
           then c <| cat_LastSuccessAt := cat_LastSuccessAt old |>
                  <| cat_ValidUntil := cat_ValidUntil old |>
           else c in
  if cat_LastAttemptAt c <? cat_LastAttemptAt old
  then c <| cat_LastAttemptAt := cat_LastAttemptAt old |>
         <| cat_Status := cat_Status old |>
         <| cat_LastErrorCode := cat_LastErrorCode old |>
  else c.

Definition write_catalog_row (nodeID fingerprint : string) (revision : Z)
    (c : ModelCatalog) (now : Z) : Tx unit :=
  rows ← ask (λ db, exists_where (λ r, nc_node_id r ≟ nodeID) (db_catalogs db));
  if rows : bool
  then
    exec_update (λ r, nc_node_id r ≟ nodeID) (λ r, r
      <| nc_source := cat_Source c |> <| nc_revision := revision |>
      <| nc_connection_fingerprint := fingerprint |>
      <| nc_last_status := cat_Status c |>
      <| nc_last_attempt_at := nullif_int (cat_LastAttemptAt c) |>
      <| nc_last_success_at := nullif_int (cat_LastSuccessAt c) |>
      <| nc_valid_until := nullif_int (cat_ValidUntil c) |>
      <| nc_last_error_code := cat_LastErrorCode c |> <| nc_updated_at := now |>) ;; mret tt
  else
    exec_insert (mkCatalog nodeID (cat_Source c) revision fingerprint (cat_Status c)
      (nullif_int (cat_LastAttemptAt c)) (nullif_int (cat_LastSuccessAt c))
      (nullif_int (cat_ValidUntil c)) (cat_LastErrorCode c) now now).

Definition hide_models (nodeID : string) (now : Z) : Tx unit :=
  exec_update (λ r, nm_node_id r ≟ nodeID)
    (λ r, r <| nm_present := false |> <| nm_updated_at := now |>) ;; mret tt.

(** The catalogue [writeNodeCatalog] stores: the one of the input, or the one
    the protocol starts with. *)
Definition chosen_catalog (n : ModelNodeInput) (old : option ModelCatalog)
    (fingerprint : string) (now : Z) : error + ModelCatalog :=
  match ni_ModelCatalog n with
  | Some c =>
      match old with
      | Some o =>
          if negb (cat_Revision c =? cat_Revision o) then inl ErrCatalogConflict
          else if (cat_Source c ≟ "discovered") && (cat_Fingerprint o ≟ fingerprint)
          then inr (merge_discovery o c)
          else inr c
      | None => inr c
      end
  | None =>
      match Lookup (ni_ProtocolVersion n) with
      | None => inl (ErrText "未知节点协议")
      | Some d => inr (builtin_catalog n d now)
      end
  end.

Definition replace_catalog (n : ModelNodeInput) (old : option ModelCatalog)
    (fingerprint : string) (now : Z) : Tx unit :=
  c ← query (λ _, chosen_catalog n old fingerprint now);
  ensure (Z.of_nat (length (cat_Items c)) <=? 256) (ErrText "节点模型数量超过限制") ;;
  guard_none (validateCatalogItems (cat_Items c)) ;;
  ensure (negb (ni_Enabled n && negb (catalogHasEnabled c now))) ErrRouteUnavailable ;;
  write_catalog_row (ni_ID n) fingerprint
    (match old with Some o => cat_Revision o + 1 | None => 1 end) c now ;;
  hide_models (ni_ID n) now ;;
  each (writeNodeModel (ni_ID n) now) (cat_Items c) ;;
  syncModelRoutes now ;;
  bumpRouting.

Definition writeNodeCatalog (e : Env) (n : ModelNodeInput) (now : Z) : Tx unit :=
  old ← query (λ db, match catalogWith (ni_ID n) db with
                     | inr c => inr (Some c)
                     | inl ErrNodeNotFound => inr None
                     | inl err => inl err
                     end);
  let fingerprint := CatalogFingerprint e n in
  match ni_ModelCatalog n, old with
  | None, Some o =>
      if cat_Fingerprint o ≟ fingerprint
      then
        ensure (negb (ni_Enabled n && negb (catalogHasEnabled o now))) ErrRouteUnavailable ;;
        syncModelRoutes now ;;
        bumpRouting
      else replace_catalog n old fingerprint now
  | _, _ => replace_catalog n old fingerprint now
  end.

(** ** Discovery: RefreshModelCatalog *)

(** scanModelNode: what a row says about the connection of its node. *)
Definition node_input_of_row (r : ModelServiceNode) : ModelNodeInput :=
  mkNodeInput (mn_id r) (mn_service_url r) (mn_protocol_version r)
    (coalesce_str (mn_api_key_fingerprint r)) (mn_upstream_model r)
    (mn_max_concurrency r) (mn_replace_result_url r) (mn_legacy_model_compat r) None
    (mn_base_url r) (mn_jobs_base_url r) (mn_public_base_url r) (mn_health_path r)
    (mn_submit_api_name r) (mn_check_api_name r)
    (mn_poll_interval_ms r * Millisecond) (mn_request_timeout_ms r * Millisecond)
    (mn_enabled r).

Definition live_node (id : string) (r : ModelServiceNode) : bool :=
  (mn_id r ≟ id) && is_null (mn_deleted_at r).

Definition zero_node_model : NodeModel :=
  mkNodeModel "" false false false (mkCapability 0 [] [] "" [] 0).

Definition previous_model (old : list NodeModel) (id : string) : NodeModel :=
  default zero_node_model (List.find (λ m, nmd_ModelID m ≟ id) old).

(** The loop over the discovered items: present, verified, and enabled when
    they already were. *)
Definition refresh_item (old : list NodeModel) (m : NodeModel) : NodeModel :=
  m <| nmd_Present := true |> <| nmd_Verified := true |>
    <| nmd_Enabled := nmd_Enabled (previous_model old (nmd_ModelID m)) |>.

Definition catalog_changed (old items : list NodeModel) : bool :=
  existsb (λ m, negb (previous_model old (nmd_ModelID m) ≟ m)) items
  || existsb (λ m, nmd_Present m && negb (nmd_ModelID m ∈? map nmd_ModelID items)) old.

Definition RefreshModelCatalog (e : Env) (nodeID : string)
    (nodeVersion catalogRevision : Z) (items : list NodeModel) (errorCode : string)
    (db : DB) : (error + ModelCatalog) * DB :=
  if 256 <? Z.of_nat (length items) then (inl (ErrText "模型清单过大"), db)
  else
  match (if errorCode ≟ "" then validateCatalogItems items else None) with
  | Some err => (inl err, db)
  | None =>
  immediate (
    row ← select_one (live_node nodeID);
    node ← of_option row ErrNoRows;
    ensure (mn_version node =? nodeVersion) ErrNodeVersionConflict ;;
    old ← query (catalogWith nodeID);
    ensure ((cat_Revision old =? catalogRevision)
            && (cat_Fingerprint old ≟ CatalogFingerprint e (node_input_of_row node)))
      ErrCatalogConflict ;;
    ensure (cat_Source old ≟ "discovered") (ErrText "协议不支持模型发现") ;;
    let now := nowUnix e in
    if negb (errorCode ≟ "")
    then
      exec_update (λ c, nc_node_id c ≟ nodeID) (λ c, c
        <| nc_last_status := "error" |> <| nc_last_attempt_at := Some now |>
        <| nc_last_error_code := errorCode |> <| nc_updated_at := now |>) ;;
      query (catalogWith nodeID)
    else
      let fresh := map (refresh_item (cat_Items old)) items in
      let changed := catalog_changed (cat_Items old) fresh in
      exec_update (λ c, nc_node_id c ≟ nodeID) (λ c, c
        <| nc_revision := if changed then cat_Revision old + 1 else cat_Revision old |>
        <| nc_last_status := if items ≟ [] then "empty" else "ready" |>
        <| nc_last_attempt_at := Some now |> <| nc_last_success_at := Some now |>
        <| nc_valid_until := Some (now + 1800) |> <| nc_last_error_code := "" |>
        <| nc_updated_at := now |>) ;;
      hide_models nodeID now ;;
      each (writeNodeModel nodeID now) fresh ;;
      (if changed then syncModelRoutes now ;; bumpRouting else mret tt) ;;
      query (catalogWith nodeID)) db
  end.

(** ** Routes *)

Record RouteCandidate := mkCandidate {
  rc_ProtocolVersion : string;
  rc_NodeIDs : list string
}.

Record ModelRoute := mkModelRoute {
  ro_Model : string;
  ro_ProtocolVersion : string;
  ro_SelectionMode : string;
  ro_Version : Z;
  ro_State : string;
  ro_WaitReason : string;
  ro_Candidates : list RouteCandidate;
  ro_LegacyAwaitingTasks : Z
}.

(** The loop that gathers the rows, ordered by protocol and node, into one
    candidate per run of the same protocol. *)
Fixpoint group_candidates (rows : list (string * string)) : list RouteCandidate :=
  match rows with
  | [] => []
  | (p, id) :: rows =>
      match group_candidates rows with
      | c :: cs =>
          if rc_ProtocolVersion c ≟ p
          then mkCandidate p (id :: rc_NodeIDs c) :: cs
          else mkCandidate p [id] :: c :: cs
      | [] => [mkCandidate p [id]]
      end
  end.

Definition candidate_rows (model : string) (db : DB) : list (string * string) :=
  order_by_text (λ x, x)
    (map (λ mn, (mn_protocol_version mn.2, mn_id mn.2))
      (List.filter (λ mn, nm_model_id mn.1 ≟ model) (offered db))).

(** The state machine over the candidates, in their order. *)
Definition route_state_step (protocol mode : string) (state : string) (c : RouteCandidate)
    : string :=
  let state :=
    if (rc_ProtocolVersion c ≟ protocol) && negb (state ≟ "ambiguous")
    then "ready" else state in
  if negb (mode ≟ "manual") && negb (rc_ProtocolVersion c ≟ protocol)
  then "ambiguous" else state.

Definition route_state_of (protocol mode : string) (cs : list RouteCandidate) : string :=
  fold_left (route_state_step protocol mode) cs
    (if protocol ≟ "" then "ambiguous" else "unavailable").

Definition routeWith (model : string) (db : DB) : error + (ModelRoute * Z) :=
  match List.find (λ r, mr_model_id r ≟ model) (db_routes db) with
  | None => inl ErrUnsupportedModel
  | Some r =>
      let protocol := coalesce_str (mr_protocol_version r) in
      let cs := group_candidates (candidate_rows model db) in
      let state := route_state_of protocol (mr_selection_mode r) cs in
      inr (mkModelRoute model protocol (mr_selection_mode r) (mr_version r) state
             (if state ≟ "ambiguous" then "multiple_protocols"
              else if state ≟ "unavailable" then "no_protocol_nodes" else "")
             cs
             (count_where (λ t, (vt_model (vt_request t) ≟ model)
                                && (vt_route_state t ≟ AwaitingRoute) && vt_live t
                                && has_status queued_statuses t) (db_video_tasks db)),
           db_routing_revision db)
  end.

Definition ListModelRoutes (db : DB) : error + (list ModelRoute * Z) :=
  routes ← collect (λ id, routeWith id db)
    (map mr_model_id (order_by_text (λ r, (mr_model_id r, "")) (db_routes db)));
  mret (map fst routes, db_routing_revision db).

Definition BindModelRoute (e : Env) (model protocol admin : string)
    (version revision : Z) : DB → (error + (ModelRoute * Z)) * DB :=
  immediate (
    rr ← query (routeWith model);
    let '(r, current) := rr : ModelRoute * Z in
    ensure ((ro_Version r =? version) && (current =? revision)) ErrRouteChanged ;;
    ensure (existsb (λ c, rc_ProtocolVersion c ≟ protocol) (ro_Candidates r))
      ErrRouteUnavailable ;;
    exec_update (λ x, mr_model_id x ≟ model) (λ x, x
      <| mr_protocol_version := Some protocol |> <| mr_selection_mode := "manual" |>
      <| mr_version := mr_version x + 1 |> <| mr_updated_by := admin |>
      <| mr_updated_at := nowUnix e |>) ;;
    bumpRouting ;;
    query (routeWith model)).

(** ** Routes *)

Lemma route_state_ambiguous protocol mode cs :
  fold_left (route_state_step protocol mode) cs "ambiguous" = "ambiguous".
Proof.
  induction cs as [|c cs IH]; [done|]. simpl.
  assert (route_state_step protocol mode "ambiguous" c = "ambiguous") as ->; [|done].
  unfold route_state_step. simpl. rewrite andb_false_r. by destruct (_ && _).
Qed.

(** All candidates serve the protocol, or the administrator chose it. *)
Definition agreed (protocol mode : string) (cs : list RouteCandidate) : Prop :=
  mode = "manual" ∨ ∀ c, c ∈ cs → rc_ProtocolVersion c = protocol.

Lemma route_state_fold protocol mode cs s :
  s = "unavailable" ∨ s = "ready" →
  fold_left (route_state_step protocol mode) cs s = "ready" ↔
  agreed protocol mode cs ∧ (s = "ready" ∨ ∃ c, c ∈ cs ∧ rc_ProtocolVersion c = protocol).
Proof.
  revert s. induction cs as [|c cs IH]; intros s Hs; simpl.
  - split; [intros ->; split; [right; intros c Hc; by apply elem_of_nil in Hc|by left]|].
    intros [_ [|(c & Hc & _)]]; [done|by apply elem_of_nil in Hc].
  - assert (s ≠ "ambiguous") as Hna by (by destruct Hs as [->| ->]).
    unfold route_state_step at 2. rewrite (bool_decide_eq_false_2 _ Hna). simpl.
    rewrite andb_true_r. unfold agreed in *.
    destruct (decide (rc_ProtocolVersion c = protocol)) as [E|E].
    + rewrite (bool_decide_eq_true_2 _ E). simpl. rewrite andb_false_r, IH by by right.
      setoid_rewrite elem_of_cons. split.
      * intros [Ha _]. split; [|right; exists c; auto].
        destruct Ha as [|Ha]; [by left|right]. intros c' [->|Hc']; auto.
      * intros [Ha _]. split; [|by left]. destruct Ha as [|Ha]; [by left|right]. auto.
    + rewrite (bool_decide_eq_false_2 _ E). simpl. rewrite andb_true_r.
      destruct (decide (mode = "manual")) as [Em|Em].
      * rewrite (bool_decide_eq_true_2 _ Em). simpl. rewrite IH by done.
        setoid_rewrite elem_of_cons. split.
        -- intros [_ [|(c' & ? & ?)]]; (split; [by left|]); [by left|right; exists c'; auto].
        -- intros [_ [|(c' & [->|?] & ?)]]; (split; [by left|]); [by left|done|right; exists c'; auto].
      * rewrite (bool_decide_eq_false_2 _ Em). simpl. rewrite route_state_ambiguous.
        split; [done|]. intros [[|Ha] _]; [done|]. destruct E. apply Ha. by left.
Qed.

Lemma route_state_ready protocol mode cs :
  route_state_of protocol mode cs = "ready" ↔
  protocol ≠ "" ∧ agreed protocol mode cs ∧ ∃ c, c ∈ cs ∧ rc_ProtocolVersion c = protocol.
Proof.
  unfold route_state_of. destruct (decide (protocol = "")) as [E|E].
  - rewrite (bool_decide_eq_true_2 _ E), route_state_ambiguous. naive_solver.
  - rewrite (bool_decide_eq_false_2 _ E), route_state_fold by by left. naive_solver.
Qed.

(** The protocols and nodes of the candidates are those of the rows. *)
Lemma group_candidates_elem rows p id :
  (∃ c, c ∈ group_candidates rows ∧ rc_ProtocolVersion c = p ∧ id ∈ rc_NodeIDs c) ↔
  (p, id) ∈ rows.
Proof.
  induction rows as [|[p0 id0] rows IH]; simpl.
  { split; [intros (c & Hc & _)|intros Hc]; by apply elem_of_nil in Hc. }
  rewrite elem_of_cons, <-IH. destruct (group_candidates rows) as [|c0 cs].
  { split.
    - intros (c & ->%list_elem_of_singleton & Ep & Hid%list_elem_of_singleton). simpl in *.
      left. by rewrite Ep, Hid.
    - intros [[= -> ->]|(c & Hc & _)]; [|by apply elem_of_nil in Hc].
      eexists. split; [by left|]. simpl. set_solver. }
  destruct (decide (rc_ProtocolVersion c0 = p0)) as [E|E].
  - rewrite (bool_decide_eq_true_2 _ E). split.
    + intros (c & [->|Hc]%elem_of_cons & Ep & Hid); simpl in *; [|set_solver].
      apply elem_of_cons in Hid as [->|Hid]; [left; by rewrite Ep|right]. exists c0. set_solver.
    + intros [[= -> ->]|(c & [->|Hc]%elem_of_cons & Ep & Hid)].
      * eexists. split; [by left|]. simpl. set_solver.
      * eexists. split; [by left|]. simpl. set_solver.
      * exists c. set_solver.
  - rewrite (bool_decide_eq_false_2 _ E). split.
    + intros (c & [->|Hc]%elem_of_cons & Ep & Hid); simpl in *; [left; set_solver|].
      right. by exists c.
    + intros [[= -> ->]|(c & Hc & Ep & Hid)].
      * eexists. split; [by left|]. simpl. set_solver.
      * exists c. set_solver.
Qed.

Lemma group_candidates_nonempty rows c :
  c ∈ group_candidates rows → ∃ id, id ∈ rc_NodeIDs c.
Proof.
  revert c. induction rows as [|[p0 id0] rows IH]; intros c; simpl; [set_solver|].
  destruct (group_candidates rows) as [|c0 cs]; [|destruct (_ ≟ _)];
    intros [->|Hc]%elem_of_cons; simpl; try (exists id0; set_solver); try (by apply IH; set_solver).
Qed.

(** A node offers a model with a protocol: it is enabled, and its catalogue
    has the model enabled and present. *)
Definition offers (db : DB) (model protocol : string) : Prop :=
  ∃ m n, m ∈ db_node_models db ∧ n ∈ db_nodes db ∧ nm_model_id m = model ∧
    nm_enabled m = true ∧ nm_present m = true ∧ mn_id n = nm_node_id m ∧
    mn_enabled n = true ∧ mn_deleted_at n = None ∧ mn_protocol_version n = protocol.

Lemma candidates_offers db model protocol :
  (∃ c, c ∈ group_candidates (candidate_rows model db) ∧ rc_ProtocolVersion c = protocol) ↔
  offers db model protocol.
Proof.
  assert (∀ id, (protocol, id) ∈ candidate_rows model db ↔ ∃ m n,
    (m, n) ∈ offered db ∧ nm_model_id m = model ∧ mn_protocol_version n = protocol ∧ mn_id n = id)
    as Hrows.
  { intros id. unfold candidate_rows. rewrite order_by_text_elem, list_elem_of_In, in_map_iff.
    setoid_rewrite filter_In. split.
    - intros ([m n] & E & Hin & Hm%bool_decide_eq_true). injection E as E1 E2. exists m, n.
      by rewrite list_elem_of_In.
    - intros (m & n & Hin & Hm & <- & <-). exists (m, n).
      by rewrite <-list_elem_of_In, bool_decide_eq_true_2. }
  assert (∀ m n, (m, n) ∈ offered db ↔ m ∈ db_node_models db ∧ n ∈ db_nodes db ∧
    mn_id n = nm_node_id m ∧ nm_enabled m = true ∧ nm_present m = true ∧ mn_enabled n = true ∧
    mn_deleted_at n = None) as Hoff.
  { intros m n. unfold offered. rewrite elem_of_join_on, !andb_true_iff, bool_decide_eq_true.
    destruct (mn_deleted_at n); simpl; naive_solver. }
  split.
  - intros (c & Hc & Ep). destruct (group_candidates_nonempty _ _ Hc) as (id & Hid).
    assert ((protocol, id) ∈ candidate_rows model db) as (m & n & Ho & ? & ? & ?)%Hrows.
    { apply group_candidates_elem. by exists c. }
    apply Hoff in Ho. exists m, n. naive_solver.
  - intros (m & n & Hm & Hn & H). destruct_and! H.
    assert ((protocol, mn_id n) ∈ candidate_rows model db) as Hr.
    { apply Hrows. exists m, n. split_and!; [|done..]. apply Hoff. by split_and!. }
    apply group_candidates_elem in Hr as (c & Hc & Ep & _). by exists c.
Qed.

(** When a route is ready.  [routeWith] reports a model as ready exactly
    if its route names a protocol, some node offers the model with that
    protocol, and either an administrator chose the protocol or no node offers
    the model with another one. *)
Theorem routeWith_ready model db route revision :
  routeWith model db = inr (route, revision) →
  ro_State route = "ready" ↔
  ro_ProtocolVersion route ≠ "" ∧ offers db model (ro_ProtocolVersion route) ∧
  (ro_SelectionMode route = "manual" ∨
   ∀ protocol, offers db model protocol → protocol = ro_ProtocolVersion route).
Proof.
  unfold routeWith. destruct (List.find _ _) as [r|]; [|done]. intros [= <- _]. simpl.
  rewrite route_state_ready, candidates_offers. unfold agreed.
  assert ((∀ c, c ∈ group_candidates (candidate_rows model db) →
    rc_ProtocolVersion c = coalesce_str (mr_protocol_version r)) ↔
    ∀ protocol, offers db model protocol → protocol = coalesce_str (mr_protocol_version r)) as ->.
  { split.
    - intros H p (c & Hc & <-)%candidates_offers. by apply H.
    - intros H c Hc. apply H, candidates_offers. by exists c. }
  tauto.
Qed.

(** Binding a route makes it ready.  When [BindModelRoute] returns, the
    route was at the expected version and the routing state at the expected
    revision; both are one higher now, the selection is the administrator's,
    some node offers the model with the chosen protocol, and the route it
    returns is ready. *)
Theorem BindModelRoute_ready e model protocol admin version revision db route rev db' :
  tbl_valid (db_routes db) = true →
  BindModelRoute e model protocol admin version revision db = (inr (route, rev), db') →
  (∃ old, routeWith model db = inr (old, revision) ∧ ro_Version old = version) ∧
  offers db model protocol ∧
  ro_ProtocolVersion route = protocol ∧ ro_SelectionMode route = "manual" ∧
  ro_Version route = version + 1 ∧ rev = revision + 1 ∧ ro_State route = "ready" ∧
  routeWith model db' = inr (route, rev).
Proof.
  intros Hv H. unfold BindModelRoute, bumpRouting in H. rewrite immediate_inr, bind_Done in H.
  destruct H as ([old current] & db1 & Hold & H). sql_inv Hold. sql_inv H.
  apply andb_true_iff in H0 as [<-%Z.eqb_eq <-%Z.eqb_eq].
  assert (List.find (λ r, mr_model_id r ≟ model) (db_routes db) ≠ None) as Hfind.
  { unfold routeWith in Hold. by destruct (List.find _ _). }
  destruct (List.find _ (db_routes db)) as [r0|] eqn:Ef; [|done]. clear Hfind.
  pose proof Ef as [Hr0 Er0%bool_decide_eq_true]%find_elem_of.
  assert (offers db model protocol) as Hoff.
  { apply candidates_offers. unfold routeWith in Hold. rewrite Ef in Hold.
    injection Hold as <- _. simpl in H1. apply existsb_exists in H1 as (c & Hc & Ec).
    apply bool_decide_eq_true in Ec. exists c. by rewrite list_elem_of_In. }
  unfold tbl_valid, routes_table in Hv, Hvalid. rewrite !andb_true_iff, !distinct_NoDup in Hv, Hvalid.
  destruct Hv as [Hnd _], Hvalid as [_ Hall].
  assert (protocol ≠ "") as Hne.
  { intros ->. rewrite forallb_forall in Hall. simpl in Hall.
    match type of Hall with ∀ x, In x (update_where ?p ?f ?l) → _ => specialize (Hall (f r0)) end.
    simpl in Hall. rewrite andb_true_iff in Hall. destruct Hall as [_ Hbad]; [|done].
    apply list_elem_of_In, elem_of_update_where. exists r0. by rewrite bool_decide_eq_true_2. }
  set (f := λ x : ModelRouteRow, x <| mr_protocol_version := Some protocol |>
    <| mr_selection_mode := "manual" |> <| mr_version := mr_version x + 1 |>
    <| mr_updated_by := admin |> <| mr_updated_at := nowUnix e |>) in *.
  assert (List.find (λ r, mr_model_id r ≟ model)
    (update_where (λ x, mr_model_id x ≟ model) f (db_routes db)) = Some (f r0)) as Ef'.
  { apply (find_unique mr_model_id); [by rewrite map_update_where| | |].
    - apply elem_of_update_where. exists r0. by rewrite bool_decide_eq_true_2.
    - by rewrite bool_decide_eq_true_2.
    - intros y Hy%bool_decide_eq_true. by rewrite Hy, <-Er0. }
  pose proof H as Hroute. match type of H with routeWith _ ?d = _ =>
    assert (db_routes d = update_where (λ x, mr_model_id x ≟ model) f (db_routes db)) as Ed
      by reflexivity; unfold routeWith in H; rewrite Ed, Ef' in H end.
  pose proof Hold as Hold'. unfold routeWith in Hold. rewrite Ef in Hold.
  injection Hold as <- <-. injection H as E1 E2.
  split_and!; [eexists; split; [exact Hold'|done]|done|by rewrite <-E1..|done| |exact Hroute].
  rewrite <-E1. simpl. apply route_state_ready. split_and!; [done|by left|].
  by apply candidates_offers.
Qed.

(** ** Discovery *)

(** The models of a node after a discovery of [items], against the database
    [old] it started from. *)
Definition refreshed (old : DB) (nodeID : string) (items : list NodeModel) (db : DB) : Prop :=
  ∀ m, m ∈ db_node_models db →
    if nm_node_id m ≟ nodeID
    then (nm_present m = true → nm_model_id m ∈ map nmd_ModelID items) ∧
         (nm_enabled m = true → ∃ m0, m0 ∈ db_node_models old ∧ nm_node_id m0 = nodeID ∧
            nm_model_id m0 = nm_model_id m ∧ nm_enabled m0 = true)
    else m ∈ db_node_models old.

Definition keeps_refreshed (old : DB) (nodeID : string) (items : list NodeModel)
    (db db' : DB) : Prop :=
  (refreshed old nodeID items db → refreshed old nodeID items db') ∧
  db_catalogs db' = db_catalogs db.
#[export] Instance keeps_refreshed_preorder old nodeID items :
  PreOrder (keeps_refreshed old nodeID items).
Proof.
  unfold keeps_refreshed. split; [done|]. intros db1 db2 db3 [R1 C1] [R2 C2].
  split; [auto|congruence].
Qed.

Lemma writeNodeModel_refreshed old nodeID items now x :
  nmd_ModelID x ∈ map nmd_ModelID items →
  (nmd_Enabled x = true → ∃ m0, m0 ∈ db_node_models old ∧ nm_node_id m0 = nodeID ∧
     nm_model_id m0 = nmd_ModelID x ∧ nm_enabled m0 = true) →
  tx_rel (keeps_refreshed old nodeID items) (writeNodeModel nodeID now x).
Proof.
  intros Hx Hen. unfold writeNodeModel. tx_stmts.
  - intros db. split; [|done]. intros Hdb m' Hm'. simpl in Hm'. apply elem_of_update_where in Hm' as (m & Hm & ->).
    specialize (Hdb m Hm). destruct (_ && _) eqn:E; [|done]. simpl.
    apply andb_true_iff in E as [E1%bool_decide_eq_true E2%bool_decide_eq_true].
    rewrite (bool_decide_eq_true_2 _ E1), E2. by split.
  - intros db. split; [|done]. intros Hdb m' Hm'. simpl in Hm'.
    apply elem_of_app in Hm' as [Hm'|Hm'%list_elem_of_singleton]; [by apply Hdb|].
    rewrite Hm'. simpl.
    rewrite bool_decide_eq_true_2 by done. by split.
Qed.

Lemma syncModelRoutes_refreshed old nodeID items now :
  tx_rel (keeps_refreshed old nodeID items) (syncModelRoutes now).
Proof. unfold syncModelRoutes. by tx_stmts. Qed.

(** An enabled item of a decoded catalogue comes from an enabled row. *)
Lemma catalogWith_item nodeID db c x :
  catalogWith nodeID db = inr c → x ∈ cat_Items c →
  ∃ m, m ∈ db_node_models db ∧ nm_node_id m = nodeID ∧ node_model_of_row m = inr x.
Proof.
  unfold catalogWith. destruct (List.find _ _) as [r|]; [|done].
  rewrite sum_bind_inr. intros (l & Hl & [= <-]) Hx. simpl in Hx.
  apply collect_inr in Hl. apply list_elem_of_lookup in Hx as (i & Hi).
  destruct (Forall2_lookup_r _ _ _ _ _ Hl Hi) as (m & Hm & Ex).
  apply list_elem_of_lookup_2 in Hm. apply order_by_text_elem, elem_of_filter_bool in Hm.
  destruct Hm as [E%bool_decide_eq_true Hm]. by exists m.
Qed.

Lemma refresh_item_enabled nodeID db c x :
  catalogWith nodeID db = inr c → nmd_Enabled (refresh_item (cat_Items c) x) = true →
  ∃ m, m ∈ db_node_models db ∧ nm_node_id m = nodeID ∧ nm_model_id m = nmd_ModelID x ∧
    nm_enabled m = true.
Proof.
  intros Hc. simpl. unfold previous_model. destruct (List.find _ _) as [o|] eqn:E; [|done].
  apply find_elem_of in E as [Ho Eid%bool_decide_eq_true]. simpl. intros Hen.
  destruct (catalogWith_item _ _ _ _ Hc Ho) as (m & Hm & Enode & Erow).
  unfold node_model_of_row in Erow. destruct (unmarshal _); [|done]. injection Erow as <-.
  exists m. by split_and!.
Qed.

(** Discovery never enables a model.  After a successful refresh of a
    node's catalogue, a model of the node is present only if it was discovered
    now, it is enabled only if it was enabled before, and no other node's
    models changed; the catalogue is valid for half an hour. *)
Theorem RefreshModelCatalog_safe e nodeID version revision items db c db' :
  RefreshModelCatalog e nodeID version revision items "" db = (inr c, db') →
  refreshed db nodeID items db' ∧ catalogWith nodeID db' = inr c ∧
  (∀ r, r ∈ db_catalogs db' → nc_node_id r = nodeID →
     nc_valid_until r = Some (nowUnix e + 1800) ∧ nc_last_success_at r = Some (nowUnix e)).
Proof.
  intros H. unfold RefreshModelCatalog in H. destruct (256 <? _); [done|]. simpl in H.
  destruct (validateCatalogItems items); [done|]. rewrite immediate_inr in H. sql_inv H.
  unfold hide_models in H5. sql_inv H5.
  assert (keeps_refreshed db nodeID items db1 db2) as [R2 C2].
  { eapply tx_rel_Done; [|exact H7]. unfold bumpRouting.
    tx_steps; [apply syncModelRoutes_refreshed|done]. }
  match type of H6 with each _ _ ?d = _ => assert (keeps_refreshed db nodeID items d db1) as [R1 C1] end.
  { eapply tx_rel_Done; [|exact H6]. apply tx_rel_each_in; [apply _|].
    intros y (x7 & -> & Hx7)%list_elem_of_fmap.
    apply writeNodeModel_refreshed; [|exact (refresh_item_enabled _ _ _ _ H2)].
    simpl. by apply list_elem_of_In, in_map, list_elem_of_In. }
  split_and!; [|done|].
  - apply R2, R1. intros m Hm. simpl in Hm. apply elem_of_update_where in Hm as (m0 & Hm0 & ->).
    destruct (nm_node_id m0 ≟ nodeID) eqn:E; simpl; rewrite E; [|done].
    apply bool_decide_eq_true in E. split; [done|]. intros Hen. by exists m0.
  - intros r Hr Er. rewrite C2, C1 in Hr. simpl in Hr.
    apply elem_of_update_where in Hr as (r0 & _ & ->). rewrite proj_if in Er by done.
    by rewrite bool_decide_eq_true_2.
Qed.
