(* ===== verification/Paging.v ===== *)
(** * Keyset paging

    [nextEligibleTask] and [nextEligibleStage] walk an ordered query in pages
    of 100 rows: each page asks for the rows after the last one looked at, and
    a page shorter than the limit ends the walk.  The loop is written once
    here; a component supplies the query, the verdict on a row, and the law of
    keyset pagination: asking again after a row yields the rest. *)

From S2P Require Import Prelude Tx.

Inductive page_result (E K B : Type) :=
  | Found (b : B)
  | Failed (err : E)
  | Exhausted (after : K).
Arguments Found {E K B} _.
Arguments Failed {E K B} _.
Arguments Exhausted {E K B} _.

Definition page_size : nat := 100.

Section paging.
Context {A K E B : Type}.
(** The cursor of a row, the rows after a cursor in order, the verdict on a
    row, and the error of an empty queue. *)
Context (key : A → K) (rows : K → list A) (judge : A → E + option B) (empty : E).

(** The loop over the rows of a page. *)
Fixpoint scan_page (after : K) (xs : list A) : page_result E K B :=
  match xs with
  | [] => Exhausted after
  | x :: xs =>
      match judge x with
      | inl err => Failed err
      | inr (Some b) => Found b
      | inr None => scan_page (key x) xs
      end
  end.

(** The outer loop; [None] when the fuel runs out. *)
Fixpoint page_loop (fuel : nat) (after : K) : option (E + B) :=
  match fuel with
  | O => None
  | S fuel =>
      let page := take page_size (rows after) in
      match scan_page after page with
      | Found b => Some (inr b)
      | Failed err => Some (inl err)
      | Exhausted after' =>
          if (length page <? page_size)%nat then Some (inl empty)
          else page_loop fuel after'
      end
  end.

(** The reference: one loop over all the rows. *)
Definition page_outcome (r : page_result E K B) : E + B :=
  match r with
  | Found b => inr b
  | Failed err => inl err
  | Exhausted _ => inl empty
  end.
Definition full_scan (after : K) : E + B := page_outcome (scan_page after (rows after)).

Lemma scan_page_app after l1 l2 :
  scan_page after (l1 ++ l2) =
  match scan_page after l1 with
  | Exhausted after' => scan_page after' l2
  | r => r
  end.
Proof.
  revert after. induction l1 as [|x l1 IH]; intros after; simpl; [done|].
  destruct (judge x) as [|[]]; [done..|apply IH].
Qed.

Lemma scan_page_exhausted after l x after' :
  scan_page after (l ++ [x]) = Exhausted after' → after' = key x.
Proof.
  rewrite scan_page_app. destruct (scan_page after l); [done..|]. simpl.
  destruct (judge x) as [|[]]; [done..|by intros [=]].
Qed.

(** The law of keyset pagination. *)
Context (Hrows : ∀ after l1 x l2, rows after = l1 ++ x :: l2 → rows (key x) = l2).

Lemma page_loop_spec fuel after :
  (length (rows after) < fuel)%nat → page_loop fuel after = Some (full_scan after).
Proof.
  unfold full_scan.
  revert after. induction fuel as [|fuel IH]; intros after Hlen; [lia|].
  cbn [page_loop].
  assert (scan_page after (rows after) =
    scan_page after (take page_size (rows after) ++ drop page_size (rows after)))
    as -> by by rewrite take_drop.
  rewrite scan_page_app.
  destruct (scan_page after (take _ _)) as [| |after'] eqn:Escan; [done..|].
  rewrite length_take.
  destruct (Nat.ltb_spec (page_size `min` length (rows after)) page_size).
  { by rewrite drop_ge by lia. }
  destruct (take page_size (rows after)) as [|x l _] eqn:Et using rev_ind.
  { apply (f_equal length) in Et. rewrite length_take in Et.
    cbn [length] in Et. unfold page_size in *. lia. }
  apply scan_page_exhausted in Escan as ->.
  assert (rows (key x) = drop page_size (rows after)) as Hq.
  { apply (Hrows after l). rewrite <-(take_drop page_size (rows after)) at 1.
    rewrite Et, <-app_assoc. done. }
  rewrite IH; rewrite Hq; [done|]. rewrite length_drop. unfold page_size in *. lia.
Qed.
End paging.

Section verdicts.
Context {A K E B : Type} (key : A → K) (judge : A → E + option B).

Lemma scan_page_Found after xs b :
  scan_page key judge after xs = Found b →
  ∃ l1 x l2, xs = l1 ++ x :: l2 ∧ judge x = inr (Some b) ∧
    Forall (λ y, judge y = inr None) l1.
Proof.
  revert after. induction xs as [|x xs IH]; intros after; simpl; [done|].
  destruct (judge x) as [|[b'|]] eqn:Ej; [done|..].
  - intros [= ->]. by exists [], x, xs.
  - intros (l1 & y & l2 & -> & Hy & Hl)%IH. exists (x :: l1), y, l2.
    split; [done|]. split; [done|by constructor].
Qed.

Lemma scan_page_Exhausted after xs after' :
  scan_page key judge after xs = Exhausted after' → Forall (λ y, judge y = inr None) xs.
Proof.
  revert after. induction xs as [|x xs IH]; intros after; simpl; [done|].
  destruct (judge x) as [|[]] eqn:Ej; [done..|]. intros H%IH. by constructor.
Qed.

Lemma scan_page_Failed after xs err :
  scan_page key judge after xs = Failed err → ∃ x, x ∈ xs ∧ judge x = inl err.
Proof.
  revert after. induction xs as [|x xs IH]; intros after; simpl; [done|].
  destruct (judge x) as [|[]] eqn:Ej; [|done|].
  - intros [= ->]. exists x. split; [by left|done].
  - intros (y & Hy & ?)%IH. exists y. split; [by right|done].
Qed.
End verdicts.

(** ** Keyset pagination over a table

    [WHERE key>? ORDER BY key]: the law holds when keys are distinct. *)

Section keyset.
Context {A K : Type} (le : K → K → Prop).
Context `{!Total le, !Transitive le, !AntiSymm (=) le, !∀ a b, Decision (le a b)}.
Context (key : A → K).

Definition key_lt (a b : K) : bool := bool_decide (le a b) && negb (bool_decide (le b a)).

Definition key_rows (base : list A) (after : K) : list A :=
  merge_sort (λ x y, le (key x) (key y)) (List.filter (λ x, key_lt after (key x)) base).

#[local] Instance key_rows_total : Total (λ x y, le (key x) (key y)).
Proof. intros x y. apply (total le). Qed.
#[local] Instance key_rows_trans : Transitive (λ x y, le (key x) (key y)).
Proof. intros x y z. apply transitivity. Qed.

Lemma key_lt_iff a b : key_lt a b = true ↔ le a b ∧ a ≠ b.
Proof.
  unfold key_lt. rewrite andb_true_iff, negb_true_iff, bool_decide_eq_true, bool_decide_eq_false.
  split.
  - intros [H1 H2]. split; [done|]. by intros ->.
  - intros [H1 H2]. split; [done|]. intros H3. apply H2. by apply (anti_symm le).
Qed.

Lemma key_rows_elem base after x :
  x ∈ key_rows base after ↔ x ∈ base ∧ key_lt after (key x) = true.
Proof. unfold key_rows. rewrite merge_sort_Permutation, elem_of_filter_bool. tauto. Qed.

Lemma key_rows_sorted base after :
  StronglySorted (λ x y, le (key x) (key y)) (key_rows base after).
Proof. apply StronglySorted_merge_sort; apply _. Qed.

Lemma key_rows_length base after : (length (key_rows base after) ≤ length base)%nat.
Proof. unfold key_rows. rewrite merge_sort_Permutation. apply List.filter_length_le. Qed.

Context (base : list A) (Hnd : NoDup (map key base)).

Lemma key_rows_NoDup after : NoDup (key_rows base after).
Proof.
  unfold key_rows. rewrite merge_sort_Permutation.
  apply NoDup_filter_bool. by apply (NoDup_of_map key).
Qed.

Lemma key_rows_split after l1 x l2 :
  key_rows base after = l1 ++ x :: l2 → key_rows base (key x) = l2.
Proof.
  intros E. pose proof (key_rows_sorted base after) as Hs.
  pose proof (key_rows_NoDup after) as Hd. rewrite E in Hs, Hd.
  apply StronglySorted_app_iff in Hs as (_ & Hs & H12).
  apply StronglySorted_inv in Hs as [Hs Hx]. rewrite Forall_forall in Hx.
  apply NoDup_app in Hd as (_ & _ & Hd). apply NoDup_cons in Hd as [Hxl Hd].
  assert (∀ y, y ∈ l1 ++ x :: l2 ↔ y ∈ base ∧ le after (key y) ∧ after ≠ key y) as Hel.
  { intros y. by rewrite <-E, key_rows_elem, key_lt_iff. }
  assert (x ∈ base ∧ le after (key x) ∧ after ≠ key x) as (Hxb & Hax & Hne)
    by (apply Hel; set_solver).
  assert (∀ y, y ∈ key_rows base (key x) ↔ y ∈ l2) as Hiff.
  { intros y. rewrite key_rows_elem, key_lt_iff. split.
    - intros (Hy & Hle & Hneq).
      assert (y ∈ l1 ++ x :: l2) as Hin.
      { apply Hel. split; [done|]. split; [by trans (key x)|].
        intros ->. apply Hneq. by apply (anti_symm le). }
      apply elem_of_app in Hin as [Hin|[->|Hin]%elem_of_cons]; [|done|done].
      destruct Hneq. apply (anti_symm le); [done|].
      apply (H12 y x Hin), list_elem_of_here.
    - intros Hy. assert (y ∈ base) by (apply Hel; set_solver).
      split; [done|]. split; [by apply Hx|]. intros Hk. apply Hxl.
      by rewrite (NoDup_map_inj key base x y). }
  apply (StronglySorted_unique_strong (λ y z, le (key y) (key z))).
  - intros y z Hy Hz ??. apply (NoDup_map_inj key base); [done|..].
    + by apply key_rows_elem in Hy as [??].
    + by apply Hiff, key_rows_elem in Hz as [??].
    + by apply (anti_symm le).
  - apply key_rows_sorted.
  - done.
  - apply NoDup_Permutation; [apply key_rows_NoDup|done|done].
Qed.
End keyset.

(** Pairs of integers in lexicographic order. *)
Definition lex_le (x y : Z * Z) : Prop := x.1 < y.1 ∨ (x.1 = y.1 ∧ x.2 ≤ y.2).
#[export] Instance lex_le_dec x y : Decision (lex_le x y).
Proof. unfold lex_le. apply _. Defined.
#[export] Instance lex_le_total : Total lex_le.
Proof. intros [x1 x2] [y1 y2]. unfold lex_le. simpl. lia. Qed.
#[export] Instance lex_le_trans : Transitive lex_le.
Proof. intros [x1 x2] [y1 y2] [z1 z2]. unfold lex_le. simpl. lia. Qed.
#[export] Instance lex_le_anti : AntiSymm (=) lex_le.
Proof. intros [x1 x2] [y1 y2]. unfold lex_le. simpl. intros ??. f_equal; lia. Qed.
