(* ===== verification/TaskRouting.v ===== *)
(** * Routing of tasks (internal/store/sqlite/task_routing_store.go)

    The route a new task gets, and the choice of the next task for a node. *)

From S2P Require Import Prelude Domain Tx Database Sql GoStrings Catalog Paging.

(** domain.NewTask and domain.NewTaskStage *)
Record NewTaskStage := mkNewTaskStage {
  ns_ID : string;
  ns_StageType : string;
  ns_ConfigSnapshotJSON : string;
  ns_StageOrder : Z;
  ns_MaxAttempts : Z
}.

(** [nt_RoutingSnapshotJSON] is [None] for the empty string; the callback URL
    is the ciphertext and its nonce, empty when there is no callback. *)
Record NewTask := mkNewTask {
  nt_ProtocolVersion : string;
  nt_RoutingSnapshotJSON : option (json_text RouteSnapshot);
  nt_RequestNormalizer : string;
  nt_RoutingRevision : Z;
  nt_TaskID : string;
  nt_APIKeyID : string;
  nt_Model : string;
  nt_Scenario : string;
  nt_RequestJSON : json_text GenerationRequest;
  nt_RequestHash : string;
  nt_Resolution : string;
  nt_Ratio : string;
  nt_Duration : Z;
  nt_InputImageCount : Z;
  nt_CallbackURLCiphertext : string;
  nt_CallbackURLNonce : string;
  nt_CallbackDeliveryID : string;
  nt_CallbackRequestBody : string;
  nt_CallbackRequestBodyHash : string;
  nt_ProfileID : string;
  nt_ConfigSnapshotJSON : string;
  nt_ConfigHash : string;
  nt_ProfileVersion : Z;
  nt_Stages : list NewTaskStage;
  nt_InputSpoolFiles : list InputSpoolFile
}.
#[export] Instance NewTask_eta : Eta NewTask := λ r,
  mkNewTask (nt_ProtocolVersion r) (nt_RoutingSnapshotJSON r)
    (nt_RequestNormalizer r) (nt_RoutingRevision r) (nt_TaskID r)
    (nt_APIKeyID r) (nt_Model r) (nt_Scenario r) (nt_RequestJSON r)
    (nt_RequestHash r) (nt_Resolution r) (nt_Ratio r) (nt_Duration r)
    (nt_InputImageCount r) (nt_CallbackURLCiphertext r)
    (nt_CallbackURLNonce r) (nt_CallbackDeliveryID r)
    (nt_CallbackRequestBody r) (nt_CallbackRequestBodyHash r)
    (nt_ProfileID r) (nt_ConfigSnapshotJSON r) (nt_ConfigHash r)
    (nt_ProfileVersion r) (nt_Stages r) (nt_InputSpoolFiles r).

(** ** The route of a new task *)

Definition route_protocol (db : DB) (inp : NewTask) : error + string :=
  if negb (nt_ProtocolVersion inp ≟ "") then inr (nt_ProtocolVersion inp)
  else match model_protocols db (nt_Model inp) with
       | [p] => inr p
       | _ :: _ => inl ErrRouteAmbiguous
       | [] => inr (if nt_Stages inp is [] then ProtocolLegacy else ProtocolH3)
       end.

(** The nodes that offer the model now, their discovery still valid. *)
Definition routable_nodes (e : Env) (protocol model : string) (db : DB) : list string :=
  map (λ mnc, mn_id mnc.1.2)
    (join_on (λ mn c, (nc_node_id c ≟ mn_id mn.2)
                      && (negb (nc_source c ≟ "discovered")
                          || sql_gt (nc_valid_until c) (nowUnix e)))
      (List.filter (λ mn, (nm_model_id mn.1 ≟ model)
                          && (mn_protocol_version mn.2 ≟ protocol)) (offered db))
      (db_catalogs db)).

Definition catalog_accepts (model : string) (r : TaskRequirements) (c : ModelCatalog) : bool :=
  existsb (λ m, (nmd_ModelID m ≟ model) && nmd_Enabled m && nmd_Present m
                && Accepts (nmd_Capabilities m) r) (cat_Items c).

Definition prepareTaskRouting (e : Env) (inp : NewTask) (db : DB) : error + NewTask :=
  protocol ← route_protocol db inp;
  match Lookup protocol with
  | None => inl ErrRouteUnavailable
  | Some _ =>
      let normalizer := if nt_RequestNormalizer inp ≟ "" then "legacy-h3-v1"
                        else nt_RequestNormalizer inp in
      let snapshot_json :=
        default (JsonOf (mkSnapshot 1 (nt_Model inp) protocol 0 0 "" "" normalizer
                   (mkRequirements (nt_Scenario inp) (nt_Duration inp)
                      (nt_Resolution inp) [] [] 0)))
          (nt_RoutingSnapshotJSON inp) in
      match unmarshal snapshot_json with
      | None => inl ErrUnmarshal
      | Some snapshot =>
          if negb (rs_ProtocolVersion snapshot ≟ protocol)
             || negb (rs_Model snapshot ≟ nt_Model inp)
          then inl ErrRouteChanged
          else
            let ready := inp <| nt_ProtocolVersion := protocol |>
                             <| nt_RequestNormalizer := normalizer |>
                             <| nt_RoutingSnapshotJSON := Some snapshot_json |> in
            if 0 <? nt_RoutingRevision inp
            then
              if negb (db_routing_revision db =? nt_RoutingRevision inp)
              then inl ErrRouteChanged
              else
                let ids := routable_nodes e protocol (nt_Model inp) db in
                if ids is [] then inl ErrRouteUnavailable
                else
                  cats ← collect (λ id, catalogWith id db) ids;
                  if existsb (catalog_accepts (nt_Model inp) (rs_Requirements snapshot)) cats
                  then inr ready else inl ErrModelInput
            else inr ready
      end
  end.

(** ** Eligibility of a task for a node *)

Definition taskEligibleForNode (db : DB) (t : Task) (nodeID : string) (now : Z)
    : error + bool :=
  let protocol := coalesce_str (vt_protocol_version t) in
  if negb (vt_route_state t ≟ RouteReady) || (protocol ≟ "") then inr false
  else match List.find (live_node nodeID) (db_nodes db) with
  | None => inr (protocol ≟ ProtocolLegacy)
  | Some n =>
      if negb (mn_enabled n) || negb (mn_protocol_version n ≟ protocol) then inr false
      else
        cat ← catalogWith nodeID db;
        if (cat_Source cat ≟ "discovered") && (cat_ValidUntil cat <=? now) then inr false
        else match vt_routing_snapshot_json t ≫= unmarshal with
             | None => inl ErrUnmarshal
             | Some snapshot =>
                 inr (catalog_accepts (vt_model (vt_request t))
                        (rs_Requirements snapshot) cat)
             end
  end.

(** ['proxy-input://' || task_id || '/' || id] *)
Definition proxy_input_url (f : InputSpoolFile) : string :=
  String.concat "" ["proxy-input://"; sf_task_id f; "/"; sf_id f].

Definition spool_refs (db : DB) (taskID : string) (index : Z) (c : GenerationContent)
    (url : string) : Z :=
  count_where (λ f, (sf_task_id f ≟ taskID) && (sf_content_index f =? index)
                    && (sf_content_type f ≟ gc_Type c) && (sf_role f ≟ gc_Role c)
                    && (proxy_input_url f ≟ url)) (db_spool_files db).

(** The source of one input is one the node can read. *)
Definition input_valid (db : DB) (t : Task) (index : Z) (c : GenerationContent) : bool :=
  match Media c with
  | None => true
  | Some url =>
      let '(source, tail, _) := Cut url colon in
      let source := ToLower source in
      if source ∈? ["http"; "https"; "data"] then true
      else if source ≟ "mm_file"
      then (coalesce_str (vt_protocol_version t) ≟ ProtocolOfficial)
           && HasPrefix tail "//" && (2 <? len tail)
      else if source ≟ "proxy-input"
      then spool_refs db (vt_task_id t) index c url =? 1
      else false
  end.

Fixpoint inputs_valid (db : DB) (t : Task) (index : Z) (cs : list GenerationContent) : bool :=
  match cs with
  | [] => true
  | c :: cs => input_valid db t index c && inputs_valid db t (index + 1) cs
  end.

Definition request_valid (db : DB) (t : Task) : bool :=
  match unmarshal (vt_request_json (vt_request t)) with
  | None => false
  | Some r => inputs_valid db t 0 (gr_Content r)
  end.

(** ** The next task of the queue for a node *)

Definition waiting (t : Task) : bool :=
  vt_live t && (vt_route_state t ≟ RouteReady) && has_status queued_statuses t.

(** The query of the scan, without its LIMIT:
    [queue_seq>? ORDER BY queue_seq]. *)
Definition queue_after (db : DB) : Z → list Task :=
  key_rows Z.le vt_queue_seq (List.filter waiting (db_video_tasks db)).

(** What the loop does with a row: return it, or [continue]. *)
Definition judge_task (db : DB) (nodeID : string) (now : Z) (t : Task)
    : error + option Task :=
  eligible ← taskEligibleForNode db t nodeID now;
  mret (if eligible && request_valid db t then Some t else None).

(** The paging loop.  Each page but the last has 100 rows, so one round per
    task is enough fuel. *)
Definition nextEligibleTask_loop (fuel : nat) (db : DB) (nodeID : string) (now after : Z)
    : option (error + Task) :=
  page_loop vt_queue_seq (queue_after db) (judge_task db nodeID now) ErrQueueEmpty fuel after.

Definition nextEligibleTask (nodeID : string) (now : Z) (db : DB) : error + Task :=
  default (inl ErrQueueEmpty)
    (nextEligibleTask_loop (S (length (db_video_tasks db))) db nodeID now 0).

(** ** The paged scan is a scan of the whole queue *)

(** The reference: one loop over the queue, without pages. *)
Definition first_eligible (nodeID : string) (now : Z) (db : DB) : error + Task :=
  full_scan vt_queue_seq (queue_after db) (judge_task db nodeID now) ErrQueueEmpty 0.

Lemma queue_after_elem db after t :
  t ∈ queue_after db after ↔
  t ∈ db_video_tasks db ∧ waiting t = true ∧ after < vt_queue_seq t.
Proof.
  unfold queue_after. rewrite (key_rows_elem Z.le), (key_lt_iff Z.le), elem_of_filter_bool.
  intuition lia.
Qed.

Lemma queue_after_length db after :
  (length (queue_after db after) ≤ length (db_video_tasks db))%nat.
Proof. etrans; [apply (key_rows_length Z.le)|apply List.filter_length_le]. Qed.

Lemma queue_after_split db after l1 t l2 :
  NoDup (map vt_queue_seq (db_video_tasks db)) →
  queue_after db after = l1 ++ t :: l2 → queue_after db (vt_queue_seq t) = l2.
Proof. intros H. apply (key_rows_split Z.le). by apply NoDup_map_filter. Qed.

Lemma nextEligibleTask_loop_spec db nodeID now :
  NoDup (map vt_queue_seq (db_video_tasks db)) →
  nextEligibleTask_loop (S (length (db_video_tasks db))) db nodeID now 0
  = Some (first_eligible nodeID now db).
Proof.
  intros H. apply page_loop_spec; [intros ????; by apply queue_after_split|].
  pose proof (queue_after_length db 0). lia.
Qed.

(** The task is skipped by the scan of a node. *)
Definition passed_over (db : DB) (nodeID : string) (now : Z) (t : Task) : Prop :=
  taskEligibleForNode db t nodeID now = inr false ∨
  (taskEligibleForNode db t nodeID now = inr true ∧ request_valid db t = false).

Lemma judge_task_None db nodeID now t :
  judge_task db nodeID now t = inr None → passed_over db nodeID now t.
Proof.
  unfold judge_task, passed_over. destruct (taskEligibleForNode db t nodeID now) as [|[]];
    simpl; [done| |by left].
  destruct (request_valid db t); [done|by right].
Qed.

Lemma judge_task_Some db nodeID now t t' :
  judge_task db nodeID now t = inr (Some t') →
  t' = t ∧ taskEligibleForNode db t nodeID now = inr true ∧ request_valid db t = true.
Proof.
  unfold judge_task. destruct (taskEligibleForNode db t nodeID now) as [|[]]; simpl; [done| |done].
  destruct (request_valid db t); [|done]. by intros [= ->].
Qed.

Lemma catalogWith_err nodeID db err :
  catalogWith nodeID db = inl err → err = ErrNodeNotFound ∨ err = ErrUnmarshal.
Proof.
  unfold catalogWith. case_match; [|intros [= <-]; by left].
  destruct (collect _ _) eqn:E; [|done]. intros [= ->]. right.
  apply collect_inl in E as (m & _ & Hm). unfold node_model_of_row in Hm.
  destruct (unmarshal (nm_capabilities_json m)); congruence.
Qed.

Lemma taskEligibleForNode_err db t nodeID now err :
  taskEligibleForNode db t nodeID now = inl err →
  err = ErrNodeNotFound ∨ err = ErrUnmarshal.
Proof.
  unfold taskEligibleForNode.
  destruct (_ || _); [done|]. destruct (List.find _ _); [|done].
  destruct (_ || _); [done|].
  destruct (catalogWith nodeID db) eqn:E;
    [intros [= ->]; by apply catalogWith_err in E|].
  simpl. destruct (_ && _); [done|]. case_match; [done|].
  intros [= <-]. by right.
Qed.

(** What [nextEligibleTask] returned: a waiting, eligible task with readable
    inputs, and every task queued before it was passed over. *)
Definition next_for_node (db : DB) (nodeID : string) (now : Z) (t : Task) : Prop :=
  t ∈ db_video_tasks db ∧ waiting t = true ∧ 0 < vt_queue_seq t ∧
  taskEligibleForNode db t nodeID now = inr true ∧ request_valid db t = true ∧
  ∀ t', t' ∈ db_video_tasks db → waiting t' = true →
    0 < vt_queue_seq t' < vt_queue_seq t → passed_over db nodeID now t'.

Lemma first_eligible_next db nodeID now t :
  NoDup (map vt_queue_seq (db_video_tasks db)) →
  first_eligible nodeID now db = inr t → next_for_node db nodeID now t.
Proof.
  intros Hnd. unfold first_eligible, full_scan.
  destruct (scan_page _ _ _ _) as [t'| |] eqn:E; [|done..].
  simpl. intros [= ->].
  apply scan_page_Found in E as (l1 & x & l2 & Hq & (<- & He & Hv)%judge_task_Some & Hl).
  assert (t ∈ queue_after db 0) as (Hin & Hw & Hpos)%queue_after_elem
    by (rewrite Hq; set_solver).
  split_and!; [done..|]. intros t' Hin' Hw' Hlt.
  assert (t' ∈ queue_after db 0) as Hq' by (apply queue_after_elem; split_and!; [done..|lia]).
  rewrite Hq in Hq'. rewrite Forall_forall in Hl.
  apply elem_of_app in Hq' as [?|[->|Hq']%elem_of_cons]; [by apply judge_task_None, Hl|lia|].
  rewrite <-(queue_after_split db 0 l1 t l2 Hnd Hq) in Hq'.
  apply queue_after_elem in Hq'. lia.
Qed.

Lemma first_eligible_empty db nodeID now t :
  first_eligible nodeID now db = inl ErrQueueEmpty →
  t ∈ db_video_tasks db → waiting t = true → 0 < vt_queue_seq t →
  passed_over db nodeID now t.
Proof.
  unfold first_eligible, full_scan. destruct (scan_page _ _ _ _) as [|err|] eqn:E; [done|..].
  - simpl. intros [= ->]. apply scan_page_Failed in E as (x & _ & Hx).
    unfold judge_task in Hx. destruct (taskEligibleForNode _ x _ _) eqn:Ex; [|done].
    simpl in Hx. simplify_eq. by apply taskEligibleForNode_err in Ex as [|].
  - intros _ Hin Hw Hpos. apply scan_page_Exhausted in E. rewrite Forall_forall in E.
    apply judge_task_None, E. by apply queue_after_elem.
Qed.

Lemma first_eligible_failed db nodeID now err :
  first_eligible nodeID now db = inl err → err ≠ ErrQueueEmpty →
  ∃ t, t ∈ db_video_tasks db ∧ waiting t = true ∧ taskEligibleForNode db t nodeID now = inl err.
Proof.
  unfold first_eligible, full_scan. destruct (scan_page _ _ _ _) as [|err'|] eqn:E; [done|..].
  - simpl. intros [= ->] _. apply scan_page_Failed in E as (x & (? & ? & _)%queue_after_elem & Hx).
    exists x. split_and!; [done..|]. unfold judge_task in Hx.
    destruct (taskEligibleForNode _ x _ _); simpl in Hx; [by simplify_eq|].
    by destruct b; [destruct (request_valid _ _)|].
  - by intros [= <-].
Qed.

Lemma nextEligibleTask_eq db nodeID now :
  NoDup (map vt_queue_seq (db_video_tasks db)) →
  nextEligibleTask nodeID now db = first_eligible nodeID now db.
Proof. intros H. unfold nextEligibleTask. by rewrite nextEligibleTask_loop_spec. Qed.

Lemma nextEligibleTask_next db nodeID now t :
  NoDup (map vt_queue_seq (db_video_tasks db)) →
  nextEligibleTask nodeID now db = inr t → next_for_node db nodeID now t.
Proof. intros Hnd. rewrite nextEligibleTask_eq by done. by apply first_eligible_next. Qed.

(** Termination and refinement of the paged scan.  With one round per
    task as fuel the 100-row paging loop of [nextEligibleTask] always returns,
    and it returns what a single loop over the whole waiting queue in
    [queue_seq] order returns, errors included; no page boundary skips or
    repeats a task. *)
Theorem nextEligibleTask_refines db nodeID now :
  distinct vt_queue_seq (db_video_tasks db) = true →
  nextEligibleTask_loop (S (length (db_video_tasks db))) db nodeID now 0
  = Some (first_eligible nodeID now db).
Proof. rewrite distinct_NoDup. apply nextEligibleTask_loop_spec. Qed.

(** The scan is fair.  A task is returned only if it is waiting, the node
    can run it and its inputs are readable, and every task waiting before it
    was looked at and passed over; the queue is reported empty only if every
    waiting task was passed over; any other error is that of judging some
    waiting task for the node. *)
Theorem nextEligibleTask_fifo db nodeID now :
  distinct vt_queue_seq (db_video_tasks db) = true →
  match nextEligibleTask nodeID now db with
  | inr t => next_for_node db nodeID now t
  | inl ErrQueueEmpty =>
      (∀ t, t ∈ db_video_tasks db → waiting t = true → 0 < vt_queue_seq t →
         passed_over db nodeID now t)
  | inl err =>
      ∃ t, t ∈ db_video_tasks db ∧ waiting t = true ∧
        taskEligibleForNode db t nodeID now = inl err
  end.
Proof.
  rewrite distinct_NoDup. intros Hnd. rewrite nextEligibleTask_eq by done.
  destruct (first_eligible nodeID now db) as [err|t] eqn:E.
  - destruct (decide (err = ErrQueueEmpty)) as [->|Hne].
    + intros t. by apply first_eligible_empty.
    + apply first_eligible_failed in E; [|done]. by destruct err.
  - by apply first_eligible_next.
Qed.
