(* ===== verification/Callbacks.v ===== *)
(** * Callback deliveries (internal/store/sqlite/callback_store.go)

    The outbox of status notifications: a delivery is written in the
    transaction that changes the task, then claimed under a lease, sent, and
    settled. *)

From S2P Require Import Prelude Domain Tx Database Sql.

(** [k] numbers the identifiers one operation draws. *)
Definition createCallbackDeliveryWithConn (e : Env) (k : nat)
    (taskID externalStatus : string) (now : Z) : Tx unit :=
  row ← select_one (λ t, vt_task_id t ≟ taskID);
  task ← of_option row ErrNoRows;
  if is_null (vt_callback_url_ciphertext (vt_request task)) then mret tt
  else
    let body := env_callback_body e taskID externalStatus in
    conflict ← ask (λ db, exists_where
      (λ d, (cd_task_id d ≟ taskID) && (cd_state_version d =? vt_version task))
      (db_callback_deliveries db));
    if conflict : bool then mret tt
    else exec_insert (mkCallbackDelivery (env_uuid e k) taskID externalStatus
           (vt_version task) CbPending 0 None (env_sha256_hex e body) body
           None None now now None None).

(** [status] is empty for a new delivery. *)
Definition CreateCallbackDelivery (e : Env) (status : option CallbackStatus) (d : CallbackDelivery)
    : DB → (error + unit) * DB :=
  let created := if cd_created_at d =? 0 then nowMillis e else cd_created_at d in
  immediate (exec_insert (d <| cd_status := default CbPending status |> <| cd_created_at := created |>
    <| cd_updated_at := if cd_updated_at d =? 0 then created else cd_updated_at d |>
    <| cd_lease_expires_at := None |>)).

(** [body] is the JSON of the notification. *)
Definition CreateTaskCallbackDelivery (e : Env) (taskID externalStatus : string) (stateVersion : Z)
    (body : string) (db : DB) : (error + unit) * DB :=
  if (taskID ≟ "") || (stateVersion <? 1) then (inl (ErrText "callback 状态事件无效"), db)
  else
  match List.find (λ t, vt_task_id t ≟ taskID) (db_video_tasks db) with
  | None => (inl ErrNoRows, db)
  | Some t =>
      if is_null (vt_callback_url_ciphertext (vt_request t)) then (inr tt, db)
      else CreateCallbackDelivery e None
             (mkCallbackDelivery (env_uuid e 0) taskID externalStatus stateVersion CbPending 0 None
                (env_sha256_hex e body) body None None 0 0 None None) db
  end.

Definition callback_due (nowMS : Z) (d : CallbackDelivery) : bool :=
  (cd_status d ∈? [CbPending; CbRetryWait; CbSending])
  && null_or_le (cd_next_attempt_at d) nowMS && null_or_le (cd_lease_expires_at d) nowMS.

Definition ClaimCallbackDelivery (nowMS leaseUntilMS : Z)
    : DB → (error + CallbackDelivery) * DB :=
  immediate (
    row ← ask (λ db, head (order_by_key (λ d, (cd_created_at d, cd_id d))
      (map fst (join_on (λ d t, (vt_task_id t ≟ cd_task_id d)
                         && negb (is_null (vt_callback_url_ciphertext (vt_request t)))
                         && callback_due nowMS d)
        (db_callback_deliveries db) (db_video_tasks db)))));
    delivery ← of_option row ErrNoCallbackDelivery;
    raising ErrNoCallbackDelivery (
      n ← exec_update
        (λ d, (cd_id d ≟ cd_id delivery) && null_or_le (cd_lease_expires_at d) nowMS)
        (λ d, d <| cd_status := CbSending |> <| cd_lease_expires_at := Some leaseUntilMS |>
                <| cd_updated_at := nowMS |>);
      oneRow n) ;;
    mret delivery).

Definition MarkCallbackSucceeded (id : string) (httpStatus deliveredAtMS : Z)
    : DB → (error + unit) * DB :=
  statement (
    exec_update (λ d, (cd_id d ≟ id) && (cd_status d ≟ CbSending))
      (λ d, d <| cd_status := CbSucceeded |> <| cd_attempt_count := cd_attempt_count d + 1 |>
              <| cd_http_status := Some httpStatus |> <| cd_last_error := None |>
              <| cd_next_attempt_at := None |> <| cd_lease_expires_at := None |>
              <| cd_delivered_at := Some deliveredAtMS |> <| cd_updated_at := deliveredAtMS |>)).

Definition ScheduleCallbackRetry (e : Env) (id : string) (attempt httpStatus : Z)
    (message : string) (nextAttemptMS : Z) : DB → (error + unit) * DB :=
  statement (
    exec_update (λ d, (cd_id d ≟ id) && (cd_status d ≟ CbSending))
      (λ d, d <| cd_status := CbRetryWait |> <| cd_attempt_count := attempt |>
              <| cd_http_status := nullif_int httpStatus |> <| cd_last_error := Some message |>
              <| cd_next_attempt_at := Some nextAttemptMS |> <| cd_lease_expires_at := None |>
              <| cd_updated_at := nowMillis e |>)).

Definition MarkCallbackFailed (e : Env) (id : string) (attempt httpStatus : Z)
    (message : string) : DB → (error + unit) * DB :=
  statement (
    exec_update (λ d, (cd_id d ≟ id) && (cd_status d ≟ CbSending))
      (λ d, d <| cd_status := CbFailed |> <| cd_attempt_count := attempt |>
              <| cd_http_status := nullif_int httpStatus |> <| cd_last_error := Some message |>
              <| cd_next_attempt_at := None |> <| cd_lease_expires_at := None |>
              <| cd_updated_at := nowMillis e |>)).

(** ** What writing a delivery does *)

Lemma createCallback_frame e k taskID status now db u db' :
  createCallbackDeliveryWithConn e k taskID status now db = Done u db' →
  ∃ cs, db' = db <| db_callback_deliveries := cs |>.
Proof.
  unfold createCallbackDeliveryWithConn. intros H. sql_inv H.
  destruct (is_null _); [sql_inv H; exists (db_callback_deliveries db); by destruct db|].
  sql_inv H. destruct (exists_where _ _); sql_inv H; [|by eexists].
  exists (db_callback_deliveries db). by destruct db.
Qed.

Lemma callbacks_valid ds :
  tbl_valid ds = true →
  NoDup (map cd_id ds) ∧ NoDup (map (λ d, (cd_task_id d, cd_state_version d)) ds).
Proof. unfold tbl_valid, callbacks_table. rewrite !andb_true_iff, !distinct_NoDup. tauto. Qed.

(** One notification per state of a task.  If a task with a callback
    exists, a delivery for its present version exists once
    [createCallbackDeliveryWithConn] has returned, and calling it again for the
    same task, with any status, clock and identifiers, changes nothing. *)
Theorem createCallback_once e k taskID status now db u db' t :
  List.find (λ t, vt_task_id t ≟ taskID) (db_video_tasks db) = Some t →
  createCallbackDeliveryWithConn e k taskID status now db = Done u db' →
  (vt_callback_url_ciphertext (vt_request t) ≠ None →
     ∃ d, d ∈ db_callback_deliveries db' ∧ cd_task_id d = taskID ∧
       cd_state_version d = vt_version t) ∧
  (vt_callback_url_ciphertext (vt_request t) = None → db' = db) ∧
  ∀ e' k' status' now',
    createCallbackDeliveryWithConn e' k' taskID status' now' db' = Done tt db'.
Proof.
  intros Ht H. pose proof (createCallback_frame _ _ _ _ _ _ _ _ H) as (cs & Ecs).
  assert (db_video_tasks db' = db_video_tasks db) as Et by by rewrite Ecs.
  unfold createCallbackDeliveryWithConn in H |- *. sql_inv H.
  simpl in H0. rewrite Ht in H0. injection H0 as <-.
  unfold mbind, tx_bind, select_one, ask. simpl. rewrite Et, Ht. simpl.
  destruct (vt_callback_url_ciphertext (vt_request t)) as [c|] eqn:Ec; simpl in *; [|by sql_inv H].
  set (dup := λ d, (cd_task_id d ≟ taskID) && (cd_state_version d =? vt_version t)) in *.
  assert (exists_where dup (db_callback_deliveries db') = true) as Hex.
  { rewrite bind_Done in H. destruct H as (b & db1 & Hb & H). sql_inv Hb.
    destruct (exists_where dup (db_callback_deliveries db)) eqn:E; sql_inv H; [done|].
    simpl. apply existsb_exists. eexists. rewrite in_app_iff. split; [right; by left|].
    unfold dup. simpl. by rewrite bool_decide_eq_true_2, Z.eqb_refl. }
  split_and!; [intros _|done|].
  - apply existsb_exists in Hex as (d & Hd%list_elem_of_In & Hdup). exists d. split; [done|].
    unfold dup in Hdup. by rewrite andb_true_iff, bool_decide_eq_true, Z.eqb_eq in Hdup.
  - intros e' k' status' now'. by rewrite Hex.
Qed.

(** A delivery is sent by one worker at a time.  [ClaimCallbackDelivery]
    returns a delivery that was due, marks it as being sent, and until its
    lease runs out no other claim returns it. *)
Theorem ClaimCallbackDelivery_exclusive now until db d db' :
  tbl_valid (db_callback_deliveries db) = true →
  ClaimCallbackDelivery now until db = (inr d, db') →
  d ∈ db_callback_deliveries db ∧ callback_due now d = true ∧
  (∀ x, x ∈ db_callback_deliveries db' → cd_id x = cd_id d →
     cd_status x = CbSending ∧ cd_lease_expires_at x = Some until) ∧
  ∀ now' until' d' db'', now' < until →
    ClaimCallbackDelivery now' until' db' = (inr d', db'') → cd_id d' ≠ cd_id d.
Proof.
  intros (Hnd & _)%callbacks_valid H.
  assert (∀ now until db d db', ClaimCallbackDelivery now until db = (inr d, db') →
    d ∈ db_callback_deliveries db ∧ callback_due now d = true ∧
    db' = db <| db_callback_deliveries := update_where
      (λ x, (cd_id x ≟ cd_id d) && null_or_le (cd_lease_expires_at x) now)
      (λ x, x <| cd_status := CbSending |> <| cd_lease_expires_at := Some until |>
              <| cd_updated_at := now |>) (db_callback_deliveries db) |>) as Hclaim.
  { clear. intros now until db d db' H. unfold ClaimCallbackDelivery in H.
    rewrite immediate_inr in H. sql_inv H.
    apply head_Some_elem_of, order_by_key_elem, list_elem_of_In, in_map_iff in H0
      as ([d' t] & Ed & Hin%list_elem_of_In). simpl in Ed. subst d'.
    apply elem_of_join_on in Hin as (Hd & _ & Hp). apply andb_true_iff in Hp as [_ Hdue].
    subst. by split_and!. }
  apply Hclaim in H as (Hd & Hdue & ->).
  assert (∀ x, x ∈ update_where
      (λ x, (cd_id x ≟ cd_id d) && null_or_le (cd_lease_expires_at x) now)
      (λ x, x <| cd_status := CbSending |> <| cd_lease_expires_at := Some until |>
              <| cd_updated_at := now |>) (db_callback_deliveries db) → cd_id x = cd_id d →
    cd_status x = CbSending ∧ cd_lease_expires_at x = Some until) as Hrow.
  { intros x (x0 & Hx0 & ->)%elem_of_update_where Ex. rewrite proj_if in Ex by done.
    assert (x0 = d) as -> by by apply (NoDup_map_inj cd_id (db_callback_deliveries db)).
    unfold callback_due in Hdue. rewrite !andb_true_iff in Hdue. destruct Hdue as [_ Hl].
    by rewrite Hl, bool_decide_eq_true_2. }
  split_and!; [done..|].
  intros now' until' d' db'' Hlt (Hd' & Hdue' & _)%Hclaim E.
  destruct (Hrow d' Hd' E) as [_ El]. unfold callback_due in Hdue'.
  rewrite !andb_true_iff, El in Hdue'. destruct Hdue' as [_ Hle]. simpl in Hle.
  apply Z.leb_le in Hle. lia.
Qed.
