(* ===== verification/Queue.v ===== *)
(** * The queue of tasks (internal/store/sqlite/store.go, task_status.go)

    Reading tasks, the public status, the listings, and [rebalance], which
    decides which waiting tasks are protected from cancellation. *)

From S2P Require Import Prelude Domain Tx Database Sql GoStrings Catalog Paging TaskRouting.

(** ** Reading a task *)

Definition visible (owner taskID : string) (now : Z) (t : Task) : bool :=
  (vt_task_id t ≟ taskID) && (vt_owner t ≟ owner) && vt_live t && (now <? vt_expires t).

Definition getWith (owner taskID : string) (now : Z) (db : DB) : error + Task :=
  match List.find (visible owner taskID now) (db_video_tasks db) with
  | Some t => inr t
  | None => inl ErrTaskNotFound
  end.

Definition Get (e : Env) (owner taskID : string) (db : DB) : error + Task :=
  getWith owner taskID (nowUnix e) db.

Definition live_task (taskID : string) (t : Task) : bool :=
  (vt_task_id t ≟ taskID) && vt_live t.

Definition GetTaskForExecution (taskID : string) (db : DB) : error + Task :=
  match List.find (live_task taskID) (db_video_tasks db) with
  | Some t => inr t
  | None => inl ErrTaskNotFound
  end.

Definition ActiveForUpstream (upstreamID : string) (db : DB) : error + Task :=
  match List.find (λ t, (vt_upstream_id t ≟ Some upstreamID)
                        && has_status active_statuses t && vt_live t) (db_video_tasks db) with
  | Some t => inr t
  | None => inl ErrTaskNotFound
  end.

(** The latest first. *)
Definition finished_le (x y : Task) : Prop :=
  lex_le (coalesce_int (vt_finished_at y), vt_queue_seq y) (coalesce_int (vt_finished_at x), vt_queue_seq x).
#[export] Instance finished_le_dec x y : Decision (finished_le x y).
Proof. unfold finished_le. apply _. Defined.
Definition LatestFinishedForUpstream (e : Env) (upstreamID : string) (db : DB) : error + Task :=
  match merge_sort finished_le
          (List.filter (λ t, (vt_upstream_id t ≟ Some upstreamID)
                             && has_status [StatusSucceeded; StatusFailed; StatusCancelled] t
                             && vt_live t && (nowUnix e <? vt_expires t)) (db_video_tasks db)) with
  | t :: _ => inr t
  | [] => inl ErrTaskNotFound
  end.

(** The key a request is replayed under: [idempotency_keys] joined with the
    task that is still there. *)
Definition idempotent_match (e : Env) (owner keyHash : string) (i : IdempotencyKey) (t : Task)
    : bool :=
  (vt_task_id t ≟ ik_task_id i) && (ik_api_key_id i ≟ owner) && (ik_key_hash i ≟ keyHash)
  && (nowUnix e <? ik_expires_at i) && vt_live t.

Definition find_idempotent (e : Env) (owner keyHash : string) (db : DB)
    : option IdempotencyKey :=
  fst <$> head (join_on (idempotent_match e owner keyHash)
                  (db_idempotency_keys db) (db_video_tasks db)).

Definition FindIdempotentTask (e : Env) (owner keyHash requestHash : string) (db : DB)
    : error + Task :=
  if keyHash ≟ "" then inl ErrTaskNotFound
  else match find_idempotent e owner keyHash db with
       | None => inl ErrTaskNotFound
       | Some i =>
           if negb (ik_request_hash i ≟ requestHash) then inl ErrIdempotencyConflict
           else getWith owner (ik_task_id i) (nowUnix e) db
       end.

Definition FindIdempotentRecord (e : Env) (owner keyHash : string) (db : DB) : error + Task :=
  match find_idempotent e owner keyHash db with
  | None => inl ErrTaskNotFound
  | Some i => Get e owner (ik_task_id i) db
  end.

(** ** The public status *)

(** The remote run of a task: [phase], [upstream_status] and [cancel_state]
    are subqueries on task_remote_runs, whose primary key is the task. *)
Definition remote_run_of (db : DB) (t : Task) : option RemoteRun :=
  List.find (λ r, rr_task_id r ≟ vt_task_id t) (db_remote_runs db).

(** domain.Task.PublicStatus, on what [scanTask] reads. *)
Definition PublicStatus (db : DB) (t : Task) : V2Status :=
  let run := remote_run_of db t in
  if negb (coalesce_str (vt_protocol_version t) ≟ ProtocolTK2SD)
     || (vt_status t ∈? [StatusSucceeded; StatusFailed; StatusCancelled])
  then V2 (vt_status t)
  else if (rr_cancel_state <$> run) ≟ Some CancelRequested then V2Running
  else if ((rr_phase <$> run) ≟ Some RemotePreparing)
          || ((rr_phase <$> run) ≟ Some RemotePrepared)
          || (((rr_phase <$> run) ≟ Some RemoteSubmitted)
              && ((run ≫= rr_upstream_status) ≟ Some UpQueued))
  then V2Queued
  else V2 (vt_status t).

(** taskPublicStatusSQL: a CASE over the row. *)
Definition taskPublicStatusSQL (db : DB) (t : Task) : V2Status :=
  match vt_status t with
  | StatusSucceeded => V2Succeeded
  | StatusFailed => V2Failed
  | StatusCancelled => V2Cancelled
  | _ =>
      let tk2sd := vt_protocol_version t ≟ Some ProtocolTK2SD in
      if tk2sd && ((rr_cancel_state <$> remote_run_of db t) ≟ Some CancelRequested)
      then V2Running
      else if tk2sd && exists_where
                (λ r, (rr_task_id r ≟ vt_task_id t)
                      && ((rr_phase r ∈? [RemotePreparing; RemotePrepared])
                          || ((rr_phase r ≟ RemoteSubmitted)
                              && (rr_upstream_status r ≟ Some UpQueued))))
                (db_remote_runs db)
      then V2Queued
      else if vt_status t ∈? queued_statuses then V2Queued
      else V2Running
  end.

(** ** Listings *)

(** [ORDER BY created_at DESC,queue_seq DESC LIMIT n OFFSET k].  SQLite reads
    a negative LIMIT as none and a negative OFFSET as zero. *)
Definition newest_le (t1 t2 : Task) : Prop :=
  vt_created_at (vt_request t2) < vt_created_at (vt_request t1) ∨
  (vt_created_at (vt_request t2) = vt_created_at (vt_request t1) ∧
   vt_queue_seq t2 ≤ vt_queue_seq t1).
#[export] Instance newest_le_dec t1 t2 : Decision (newest_le t1 t2).
Proof. unfold newest_le. apply _. Defined.
Definition newest_first (ts : list Task) : list Task := merge_sort newest_le ts.

Definition limit_offset {A} (limit offset : Z) (l : list A) : list A :=
  let l := drop (Z.to_nat offset) l in
  if limit <? 0 then l else take (Z.to_nat limit) l.

(** The status of a filter: the empty string, a V2 status, or a text
    [internalStatuses] does not know, which matches nothing. *)
Inductive StatusFilter := AnyStatus | OnlyStatus (s : V2Status) | UnknownStatus.

Definition status_matches (db : DB) (f : StatusFilter) (t : Task) : bool :=
  match f with
  | AnyStatus => true
  | OnlyStatus s => taskPublicStatusSQL db t ≟ s
  | UnknownStatus => false
  end.

(** domain.TaskFilter *)
Record TaskFilter := mkTaskFilter {
  tf_Model : string;
  tf_Status : StatusFilter;
  tf_TaskIDs : list string;
  tf_PageNum : Z;
  tf_PageSize : Z
}.

Definition list_matches (e : Env) (db : DB) (owner : string) (f : TaskFilter) (t : Task) : bool :=
  (vt_owner t ≟ owner) && vt_live t && (nowUnix e <? vt_expires t)
  && ((tf_Model f ≟ "") || (vt_model (vt_request t) ≟ tf_Model f))
  && status_matches db (tf_Status f) t
  && ((tf_TaskIDs f ≟ []) || (vt_task_id t ∈? tf_TaskIDs f)).

(** The offset is computed in Go's int. *)
Definition List_ (e : Env) (owner : string) (f : TaskFilter) (db : DB) : list Task * Z :=
  let rows := List.filter (list_matches e db owner f) (db_video_tasks db) in
  let pageNum := if tf_PageNum f <=? 0 then 1 else tf_PageNum f in
  let pageSize := if tf_PageSize f <=? 0 then 20 else tf_PageSize f in
  (limit_offset pageSize (wrap64 ((pageNum - 1) * pageSize)) (newest_first rows),
   Z.of_nat (length rows)).

Record AdminTaskFilter := mkAdminTaskFilter {
  af_Model : string;
  af_ProtocolVersion : string;
  af_RouteState : option RouteState;
  af_Status : StatusFilter;
  af_UpstreamID : string;
  af_Search : string;
  af_PageNum : Z;
  af_PageSize : Z
}.

(** [instr(s,p)=1] and [instr(s,p)>0] *)
Definition instr_head (s p : string) : bool := String.prefix p s.
Fixpoint instr_any (s p : string) : bool :=
  String.prefix p s || match s with EmptyString => false | String _ s' => instr_any s' p end.

Definition admin_matches (e : Env) (db : DB) (f : AdminTaskFilter) (t : Task) : bool :=
  vt_live t && (nowUnix e <? vt_expires t)
  && ((af_Model f ≟ "") || (vt_model (vt_request t) ≟ af_Model f))
  && ((af_ProtocolVersion f ≟ "") || (vt_protocol_version t ≟ Some (af_ProtocolVersion f)))
  && (match af_RouteState f with Some s => vt_route_state t ≟ s | None => true end)
  && status_matches db (af_Status f) t
  && ((af_UpstreamID f ≟ "") || (vt_upstream_id t ≟ Some (af_UpstreamID f)))
  && ((af_Search f ≟ "") || instr_head (vt_task_id t) (af_Search f)
      || instr_head (vt_owner t) (af_Search f)
      || instr_any (vt_model (vt_request t)) (af_Search f)).

(** The summaries of [scanAdminTaskSummary] are the rows and their public
    status. *)
Definition ListAdminTasks (e : Env) (f : AdminTaskFilter) (db : DB)
    : list (Task * V2Status) * Z :=
  let rows := List.filter (admin_matches e db f) (db_video_tasks db) in
  let total := Z.of_nat (length rows) in
  let pageNum := if af_PageNum f <=? 0 then 1 else af_PageNum f in
  let pageSize := if af_PageSize f <=? 0 then 10 else af_PageSize f in
  if Z.quot max_int64 pageSize <? pageNum - 1 then ([], total)
  else
    (map (λ t, (t, taskPublicStatusSQL db t))
       (limit_offset pageSize (wrap64 ((pageNum - 1) * pageSize)) (newest_first rows)),
     total).

(** ** Rebalancing the queue *)

Definition protected_seqs (o : Options) (db : DB) : list Z :=
  map vt_queue_seq (take (Z.to_nat (opt_ProtectedSlots o))
    (order_by vt_queue_seq (List.filter waiting (db_video_tasks db)))).

Definition rebalanced (locked : list Z) (now : Z) (t : Task) : Task :=
  t <| vt_status := if vt_queue_seq t ∈? locked then StatusQueuedLocked else StatusQueuedOpen |>
    <| vt_cancel_locked := vt_queue_seq t ∈? locked |>
    <| vt_updated_at := now |> <| vt_version := vt_version t + 1 |>.

Definition queued_live (t : Task) : bool := vt_live t && has_status queued_statuses t.

Definition rebalance (o : Options) (now : Z) : Tx unit :=
  locked ← ask (protected_seqs o);
  exec_update queued_live (rebalanced locked now) ;;
  mret tt.

(** ** Lemmas *)

Lemma find_exists_where {A} (p q : A → bool) l :
  (∀ x y, x ∈ l → y ∈ l → p x = true → p y = true → x = y) →
  exists_where (λ x, p x && q x) l =
  match List.find p l with Some x => q x | None => false end.
Proof.
  intros H. unfold exists_where. apply eq_true_iff_eq. rewrite existsb_exists. split.
  - intros (x & Hx & [Hp Hq]%andb_true_iff). apply list_elem_of_In in Hx.
    destruct (List.find p l) as [y|] eqn:E.
    + apply find_elem_of in E as [Hy Hpy]. by rewrite (H y x).
    + rewrite find_none_iff in E. by rewrite E in Hp.
  - destruct (List.find p l) as [y|] eqn:E; [|done]. intros Hq.
    apply find_elem_of in E as [Hy Hp]. exists y. rewrite <-list_elem_of_In.
    by rewrite Hp, Hq.
Qed.

(** C31: the status a client reads from a task ([PublicStatus] on the scanned
    row) is the status the listings filter and show ([taskPublicStatusSQL]),
    for every task of every database whose remote runs are keyed by task. *)
Theorem PublicStatus_sql db t :
  distinct rr_task_id (db_remote_runs db) = true →
  taskPublicStatusSQL db t = PublicStatus db t.
Proof.
  unfold distinct. rewrite bool_decide_eq_true. intros Hnd.
  unfold taskPublicStatusSQL, PublicStatus.
  rewrite find_exists_where; last first.
  { intros x y Hx Hy. rewrite !bool_decide_eq_true. intros Hxt Hyt.
    apply (NoDup_map_inj rr_task_id (db_remote_runs db)); congruence. }
  unfold remote_run_of. destruct (vt_protocol_version t) as [p|]; simpl.
  - destruct (decide (p = ProtocolTK2SD)) as [->|Hp].
    + rewrite !(bool_decide_eq_true_2 (_ = _)) by done. simpl.
      destruct (List.find _ _) as [r|]; simpl; [|by destruct (vt_status t)].
      destruct r as [?? [] ???? [[]|] [] ????????]; simpl; by destruct (vt_status t).
    + rewrite !(bool_decide_eq_false_2 (_ = ProtocolTK2SD)) by congruence.
      rewrite (bool_decide_eq_false_2 (Some p = _)) by congruence.
      simpl. by destruct (vt_status t).
  - by destruct (vt_status t).
Qed.

(** The administrator's listing never computes an overflowing offset.  For
    every page number and page size of Go's int, page n holds exactly the rows
    (n-1)*size .. n*size-1 of the matching tasks, newest first, and the total
    counts all of them. *)
Theorem ListAdminTasks_page e f db :
  1 ≤ af_PageNum f ≤ max_int64 → 1 ≤ af_PageSize f ≤ max_int64 →
  let rows := List.filter (admin_matches e db f) (db_video_tasks db) in
  Z.of_nat (length rows) ≤ max_int64 →
  ListAdminTasks e f db =
  (map (λ t, (t, taskPublicStatusSQL db t))
     (take (Z.to_nat (af_PageSize f))
        (drop (Z.to_nat ((af_PageNum f - 1) * af_PageSize f)) (newest_first rows))),
   Z.of_nat (length rows)).
Proof.
  intros Hn Hs rows Hlen. unfold ListAdminTasks. fold rows.
  rewrite !(proj2 (Z.leb_gt _ _)) by lia.
  rewrite Z.quot_div_nonneg by lia.
  assert (length (newest_first rows) = length rows) as Hl
    by (unfold newest_first; by rewrite merge_sort_Permutation).
  destruct (Z.ltb_spec (max_int64 / af_PageSize f) (af_PageNum f - 1)) as [Hgt|Hle].
  - rewrite drop_ge; [by rewrite take_nil|].
    pose proof (Z.mul_succ_div_gt max_int64 (af_PageSize f)).
    assert (af_PageSize f * (max_int64 / af_PageSize f + 1) ≤ af_PageSize f * (af_PageNum f - 1))
      by (apply Z.mul_le_mono_nonneg_l; lia).
    rewrite Hl. lia.
  - assert (af_PageSize f * (af_PageNum f - 1) ≤ af_PageSize f * (max_int64 / af_PageSize f))
      by (apply Z.mul_le_mono_nonneg_l; lia).
    pose proof (Z.mul_div_le max_int64 (af_PageSize f)).
    rewrite wrap64_id; [|split; [|lia]].
    + unfold limit_offset. by rewrite (proj2 (Z.ltb_ge _ _)) by lia.
    + assert (0 ≤ (af_PageNum f - 1) * af_PageSize f) by (apply Z.mul_nonneg_nonneg; lia). lia.
Qed.

(** Finding.  [List], unlike [ListAdminTasks], does not guard the offset
    against overflow: page 2^62+1 of four tasks, which the HTTP handler lets
    through, is the first page again, for every owner, filter and database. *)
Theorem List_page_overflow e owner model status ids db :
  List_ e owner (mkTaskFilter model status ids (2 ^ 62 + 1) 4) db =
  List_ e owner (mkTaskFilter model status ids 1 4) db.
Proof. reflexivity. Qed.

(** ** What [rebalance] does *)

Lemma count_where_le_length {A} (p : A → bool) l : count_where p l ≤ Z.of_nat (length l).
Proof. unfold count_where. pose proof (List.filter_length_le p l). lia. Qed.

(** The rank of a row of a sorted list with distinct keys is the number of
    rows before it. *)
Lemma take_sorted_rank {A} (key : A → Z) (l : list A) n x :
  NoDup (map key l) → StronglySorted (λ y z, key y ≤ key z) l → x ∈ l →
  x ∈ take n l ↔ count_where (λ y, key y <? key x) l < Z.of_nat n.
Proof.
  revert n. induction l as [|y l IH]; intros n Hnd Hs Hx; [by apply elem_of_nil in Hx|].
  simpl in Hnd. apply NoDup_cons in Hnd as [Hy Hnd].
  apply StronglySorted_inv in Hs as [Hs Hall]. rewrite Forall_forall in Hall.
  assert (∀ z, z ∈ l → key y < key z) as Hlt.
  { intros z Hz. specialize (Hall z Hz).
    assert (key y ≠ key z); [|lia]. intros E. apply Hy. rewrite E.
    apply list_elem_of_In, in_map. by apply list_elem_of_In. }
  rewrite count_where_cons.
  apply elem_of_cons in Hx as [->|Hx].
  - rewrite Z.ltb_irrefl, (proj2 (count_where_zero _ _)).
    + destruct n; simpl; [split; [by intros ?%elem_of_nil|lia]|]. split; [lia|by left].
    + intros z Hz. apply Z.ltb_ge. specialize (Hlt z Hz). lia.
  - rewrite (proj2 (Z.ltb_lt _ _)) by by apply Hlt.
    destruct n as [|n]; simpl.
    + pose proof (count_where_nonneg (λ y0, key y0 <? key x) l).
      split; [by intros ?%elem_of_nil|lia].
    + rewrite elem_of_cons, IH by done. split; [|right; lia].
      intros [->|?]; [|lia]. specialize (Hlt y Hx). lia.
Qed.

(** Permuting a table does not change what it counts. *)
Lemma count_where_perm {A} (p : A → bool) l l' : l ≡ₚ l' → count_where p l = count_where p l'.
Proof.
  intros H. induction H as [|x l l' _ IH|x y l|l1 l2 l3 _ IH1 _ IH2]; [done|..].
  - by rewrite !count_where_cons, IH.
  - rewrite !count_where_cons. lia.
  - congruence.
Qed.

Lemma count_where_filter {A} (p q : A → bool) l :
  count_where q (List.filter p l) = count_where (λ x, p x && q x) l.
Proof.
  induction l as [|x l IH]; [done|]. rewrite count_where_cons. simpl.
  destruct (p x); simpl; [by rewrite count_where_cons, IH|by rewrite IH].
Qed.

(** The number of waiting tasks ahead of a place in the queue. *)
Definition ahead (ts : list Task) (seq : Z) : Z :=
  count_where (λ u, waiting u && (vt_queue_seq u <? seq)) ts.

Lemma protected_iff o db t :
  NoDup (map vt_queue_seq (db_video_tasks db)) → t ∈ db_video_tasks db →
  vt_queue_seq t ∈ protected_seqs o db ↔
  waiting t = true ∧ ahead (db_video_tasks db) (vt_queue_seq t) < opt_ProtectedSlots o.
Proof.
  intros Hnd Ht. unfold protected_seqs, ahead.
  set (W := List.filter waiting (db_video_tasks db)).
  assert (NoDup (map vt_queue_seq (order_by vt_queue_seq W))) as HndW.
  { rewrite order_by_perm. by apply NoDup_map_filter. }
  assert (∀ x, x ∈ order_by vt_queue_seq W ↔ waiting x = true ∧ x ∈ db_video_tasks db) as Hel.
  { intros x. unfold W. by rewrite order_by_elem, elem_of_filter_bool. }
  assert (count_where (λ u, waiting u && (vt_queue_seq u <? vt_queue_seq t)) (db_video_tasks db)
    = count_where (λ u, vt_queue_seq u <? vt_queue_seq t) (order_by vt_queue_seq W)) as ->.
  { rewrite (count_where_perm _ _ _ (order_by_perm _ W)). unfold W. by rewrite count_where_filter. }
  pose proof (count_where_nonneg (λ u, vt_queue_seq u <? vt_queue_seq t) (order_by vt_queue_seq W)).
  split.
  - intros Hin. apply list_elem_of_In, in_map_iff in Hin as (u & Eu & Hu).
    apply list_elem_of_In in Hu.
    assert (u ∈ order_by vt_queue_seq W) as HuW 
      by (apply elem_of_take in Hu as (i & ? & _); by eapply list_elem_of_lookup_2).
    assert (u = t) as ->.
    { apply (NoDup_map_inj vt_queue_seq (db_video_tasks db)); [done| |done|done]. by apply Hel. }
    split; [by apply Hel|].
    apply (take_sorted_rank vt_queue_seq) in Hu; [lia|done|apply order_by_sorted|done].
  - intros [Hw Hlt]. apply list_elem_of_In, in_map, list_elem_of_In.
    apply (take_sorted_rank vt_queue_seq); [done|apply order_by_sorted|by apply Hel|lia].
Qed.

Lemma Forall2_map_r {A B} (P : A → B → Prop) (f : A → B) l :
  (∀ x, x ∈ l → P x (f x)) → Forall2 P l (map f l).
Proof.
  induction l as [|x l IH]; intros H; simpl; constructor; [apply H; by left|].
  apply IH. intros y Hy. apply H. by right.
Qed.

(** What [rebalance] makes of a row: a queued task is locked if it is among
    the first [ProtectedSlots] waiting tasks and open otherwise; its version
    grows by one; every other row is left alone. *)
Definition rebalanced_row (o : Options) (now : Z) (ts : list Task) (t t' : Task) : Prop :=
  if queued_live t
  then
    let locked := waiting t && (ahead ts (vt_queue_seq t) <? opt_ProtectedSlots o) in
    t' = t <| vt_status := if locked then StatusQueuedLocked else StatusQueuedOpen |>
           <| vt_cancel_locked := locked |>
           <| vt_updated_at := now |> <| vt_version := vt_version t + 1 |>
  else t' = t.

Lemma rebalance_rows o now db u db' :
  NoDup (map vt_queue_seq (db_video_tasks db)) →
  rebalance o now db = Done u db' →
  ∃ ts, db' = db <| db_video_tasks := ts |> ∧
    Forall2 (rebalanced_row o now (db_video_tasks db)) (db_video_tasks db) ts.
Proof.
  intros Hnd H. unfold rebalance in H. sql_inv H.
  eexists. split; [reflexivity|]. unfold tbl, tasks_table, update_where.
  apply Forall2_map_r. intros t Ht. unfold rebalanced_row.
  destruct (queued_live t); [|done].
  assert ((vt_queue_seq t ∈? protected_seqs o db) =
    waiting t && (ahead (db_video_tasks db) (vt_queue_seq t) <? opt_ProtectedSlots o)) as E.
  { apply eq_true_iff_eq. rewrite bool_decide_eq_true, andb_true_iff, Z.ltb_lt.
    by apply protected_iff. }
  unfold rebalanced. by rewrite E.
Qed.

(** C13: [rebalance] on any database that satisfies the schema succeeds,
    changes no table but video_tasks, and leaves exactly the first
    [ProtectedSlots] tasks that wait with a ready route locked: every other
    queued task is open, and rows that are not queued, or deleted, are
    untouched. *)
Theorem rebalance_exact o now db :
  tbl_valid (db_video_tasks db) = true →
  ∃ ts, rebalance o now db = Done tt (db <| db_video_tasks := ts |>) ∧
    Forall2 (rebalanced_row o now (db_video_tasks db)) (db_video_tasks db) ts.
Proof.
  intros Hv. pose proof Hv as (_ & Hnd & _)%tasks_valid_iff.
  destruct (rebalance o now db) as [[] db'|err db'] eqn:E.
  - destruct (rebalance_rows _ _ _ _ _ Hnd E) as (ts & -> & Hts). eauto.
  - exfalso. revert E. unfold rebalance, mbind, tx_bind, ask, exec_update.
    rewrite (tasks_valid_update queued_live) by
      (done || intros t _ _; unfold route_valid; by destruct t).
    rewrite andb_true_r, (proj2 (forallb_forall _ _)); [done|].
    intros t _. destruct (queued_live t); [|done]. by apply task_trigger_same.
Qed.

(** ** The row a claim took

    A claim changes the row it selected, rebalances the queue and reads the
    task back. *)

Lemma rebalance_elem o now db u db' y :
  NoDup (map vt_queue_seq (db_video_tasks db)) →
  rebalance o now db = Done u db' → y ∈ db_video_tasks db' →
  ∃ x, x ∈ db_video_tasks db ∧ rebalanced_row o now (db_video_tasks db) x y.
Proof.
  intros Hnd H Hy. destruct (rebalance_rows _ _ _ _ _ Hnd H) as (ts & -> & Hts).
  apply (list_elem_of_lookup_1 ts) in Hy as (i & Hi).
  destruct (Forall2_lookup_r _ _ _ _ _ Hts Hi) as (x & Hx & ?). eauto using list_elem_of_lookup_2.
Qed.

Lemma rebalanced_row_keeps o now ts x y :
  rebalanced_row o now ts x y →
  vt_task_id y = vt_task_id x ∧ vt_request y = vt_request x ∧
  vt_upstream_id y = vt_upstream_id x ∧
  vt_upstream_slot_active y = vt_upstream_slot_active x ∧
  vt_protocol_version y = vt_protocol_version x ∧ vt_deleted_at y = vt_deleted_at x.
Proof.
  unfold rebalanced_row. destruct (queued_live x); [|by intros ->]. intros ->. by destruct x.
Qed.

(** Rebalancing makes no task active. *)
Lemma rebalanced_row_active o now ts x y ss :
  (∀ s, s ∈ ss → s ∉ queued_statuses) →
  rebalanced_row o now ts x y → has_status ss y = true → y = x.
Proof.
  intros Hss. unfold rebalanced_row. destruct (queued_live x); [|done].
  intros -> Hy. unfold has_status in Hy. apply bool_decide_eq_true in Hy.
  exfalso. apply (Hss _ Hy). simpl. destruct (_ && _); set_solver.
Qed.

Lemma active_not_queued s : s ∈ active_statuses → s ∉ queued_statuses.
Proof. unfold active_statuses, queued_statuses. set_solver. Qed.

Lemma queued_live_active t : has_status active_statuses t = true → queued_live t = false.
Proof.
  unfold queued_live, has_status. intros H%bool_decide_eq_true%active_not_queued.
  by rewrite (bool_decide_eq_false_2 _ H), andb_false_r.
Qed.

(** A claim of the row [s] with the update [p], [f]. *)
Lemma claimed_row o now db p f u db' owner now' s t :
  NoDup (map vt_task_id (db_video_tasks db)) →
  NoDup (map vt_queue_seq (update_where p f (db_video_tasks db))) →
  s ∈ db_video_tasks db → p s = true →
  (∀ x, p x = true → vt_task_id x = vt_task_id s) →
  (∀ x, vt_task_id (f x) = vt_task_id x) → queued_live (f s) = false →
  rebalance o now (db <| db_video_tasks := update_where p f (db_video_tasks db) |>) = Done u db' →
  getWith owner (vt_task_id s) now' db' = inr t →
  t = f s ∧ t ∈ db_video_tasks db' ∧
  (∃ ts, db' = db <| db_video_tasks := ts |> ∧
     Forall2 (rebalanced_row o now (update_where p f (db_video_tasks db)))
       (update_where p f (db_video_tasks db)) ts) ∧
  (∀ y, y ∈ db_video_tasks db' → y = t ∨
     ∃ x, x ∈ db_video_tasks db ∧ vt_task_id x ≠ vt_task_id s ∧
       rebalanced_row o now (update_where p f (db_video_tasks db)) x y).
Proof.
  intros Hid Hnd Hs Hps Hp Hf Hq Hreb Hget.
  pose (db1 := db <| db_video_tasks := update_where p f (db_video_tasks db) |>).
  assert (∀ y, y ∈ db_video_tasks db' → y = f s ∨
     ∃ x, x ∈ db_video_tasks db ∧ vt_task_id x ≠ vt_task_id s ∧
       rebalanced_row o now (update_where p f (db_video_tasks db)) x y) as Hall.
  { intros y Hy. apply (rebalance_elem _ _ db1 _ _ _ Hnd Hreb) in Hy as (r & Hr & Hrow).
    apply elem_of_update_where in Hr as (x & Hx & ->).
    destruct (decide (vt_task_id x = vt_task_id s)) as [Ex|Hne].
    - left. rewrite (NoDup_map_inj vt_task_id _ x s Hid Hx Hs Ex) in Hrow. rewrite Hps in Hrow. unfold rebalanced_row in Hrow. by rewrite Hq in Hrow.
    - right. exists x. split_and!; [done..|]. destruct (p x) eqn:Epx; [|done].
      by destruct Hne; apply Hp. }
  unfold getWith in Hget. destruct (List.find _ _) as [t'|] eqn:Efind; [|done].
  apply (inj inr) in Hget as ->. apply find_elem_of in Efind as [Ht Hvis].
  unfold visible in Hvis. rewrite !andb_true_iff, bool_decide_eq_true in Hvis.
  destruct Hvis as [[[Htid _] _] _].
  assert (t = f s) as ->.
  { destruct (Hall t Ht) as [|(x & Hx & Hne & (Eid & _)%rebalanced_row_keeps)]; [done|].
    congruence. }
  split_and!; [done..| |done].
  destruct (rebalance_rows _ _ db1 _ _ Hnd Hreb) as (ts & -> & Hts). exists ts. done.
Qed.

(** A claim adds at most one row to a count that rebalancing does not see. *)
Lemma claimed_count (q : Task → bool) o now p f ts ts' s :
  (∀ l x y, rebalanced_row o now l x y → q y = q x) →
  count_where p ts = 1 → s ∈ ts → p s = true →
  Forall2 (rebalanced_row o now (update_where p f ts)) (update_where p f ts) ts' →
  count_where q ts' = count_where q ts + (if q (f s) then 1 else 0) - (if q s then 1 else 0).
Proof.
  intros Hq Hone Hs Hp Hts. rewrite <-(count_update_one p q f ts s) by done.
  symmetry. apply count_where_Forall2. eapply Forall2_impl; [exact Hts|].
  intros x y Hxy. symmetry. by eapply Hq.
Qed.
