(* ===== verification/Stages.v ===== *)
(** * Stages of a task and dispatch barriers
    (internal/store/sqlite/stage_store.go, dispatch_barrier.go, and
    [finishStageTaskCancellation] of store.go)

    A task of the H3 protocol runs through ordered stages; a node claims a
    stage under a lease, records attempts, and completes or fails it.  A
    barrier keeps a node from taking work while a cancelled execution on it is
    not yet known to be over. *)

From S2P Require Import Prelude Domain Tx Database Sql GoStrings Catalog Paging TaskRouting Callbacks Queue.

Definition Milliseconds (d : Z) : Z := Z.quot d Millisecond.

(** ** Dispatch barriers *)

Definition HasNodeDispatchBarrier (nodeID : string) (db : DB) : bool :=
  0 <? count_where (λ b, nb_node_id b ≟ nodeID) (db_barriers db).

Definition GetNodeDispatchBarrier (nodeID : string) (db : DB)
    : error + (NodeDispatchBarrier * StageAttempt) :=
  match join_on (λ b a, (sa_id a ≟ nb_attempt_id b) && (nb_node_id b ≟ nodeID))
          (db_barriers db) (db_stage_attempts db) with
  | b :: _ => inr b
  | [] => inl ErrNodeDispatchBarrierNotFound
  end.

Definition BindBarrierExecution (e : Env) (nodeID : string) (rowVersion : Z)
    (executionID : string) : DB → (error + unit) * DB :=
  barrier_statement (
    exec_update (λ b, (nb_node_id b ≟ nodeID) && (nb_row_version b =? rowVersion)
                      && is_null (nb_execution_id b))
      (λ b, b <| nb_execution_id := Some executionID |> <| nb_last_error_code := None |>
              <| nb_next_retry_at := 0 |> <| nb_updated_at := nowMillis e |>
              <| nb_row_version := nb_row_version b + 1 |>)).

Definition DeferNodeDispatchBarrier (e : Env) (nodeID : string) (rowVersion : Z)
    (errorCode : string) (retryAtMS : Z) : DB → (error + unit) * DB :=
  barrier_statement (
    exec_update (λ b, (nb_node_id b ≟ nodeID) && (nb_row_version b =? rowVersion))
      (λ b, b <| nb_last_error_code := nullif_str errorCode |>
              <| nb_retry_count := nb_retry_count b + 1 |>
              <| nb_next_retry_at := retryAtMS |> <| nb_updated_at := nowMillis e |>
              <| nb_row_version := nb_row_version b + 1 |>)).

Definition ResolveNodeDispatchBarrier (nodeID : string) (rowVersion : Z)
    : DB → (error + unit) * DB :=
  barrier_statement (
    exec_delete (λ b, (nb_node_id b ≟ nodeID) && (nb_row_version b =? rowVersion))).

(** The active attempts of a task, the latest stage and attempt first. *)
Definition latest_le (x y : TaskStage * StageAttempt) : Prop :=
  lex_le (st_stage_order y.1, sa_attempt_no y.2) (st_stage_order x.1, sa_attempt_no x.2).
#[export] Instance latest_le_dec x y : Decision (latest_le x y).
Proof. unfold latest_le. apply _. Defined.

Definition active_attempts (taskID : string) (db : DB) : list (TaskStage * StageAttempt) :=
  merge_sort latest_le
    (join_on (λ s a, (sa_stage_id a ≟ st_id s) && (st_task_id s ≟ taskID)
                     && (sa_status a ∈? active_attempt_statuses))
      (db_task_stages db) (db_stage_attempts db)).

Definition createNodeDispatchBarrierForTask (taskID : string) (now : Z) : Tx bool :=
  rows ← ask (active_attempts taskID);
  match rows with
  | [] => mret false
  | (s, a) :: _ =>
      exec_insert (mkBarrier (sa_node_id a) (st_task_id s) (st_id s) (sa_id a)
        (sa_operation_id a) (sa_execution_id a ≫= nullif_str)
        (String.append "stage-cancel-" (sa_id a)) None 0 0 now now 1) ;;
      mret true
  end.

(** ** Claiming a stage *)

Definition in_flight_statuses : list StageStatus :=
  [StDispatching; StRunning; StValidating; StUnknown].
Definition done_statuses : list StageStatus := [StSucceeded; StSkipped].

(** [COALESCE(image_url.url, video_url.url, audio_url.url, '')] *)
Definition any_media_url (c : GenerationContent) : string :=
  match gc_ImageURL c, gc_VideoURL c, gc_AudioURL c with
  | Some u, _, _ | None, Some u, _ | None, None, Some u => u
  | _, _, _ => ""
  end.

(** An input that only the official protocol reads.  A request text that does
    not decode has no such input. *)
Definition has_mm_file (t : Task) : bool :=
  match unmarshal (vt_request_json (vt_request t)) with
  | None => false
  | Some r =>
      existsb (λ c, (gc_Type c ∈? ["image_url"; "video_url"; "audio_url"])
                    && String.prefix "mm_file://" (sqlite_lower (any_media_url c)))
        (gr_Content r)
  end.

Definition earlier_done (db : DB) (s : TaskStage) : bool :=
  negb (exists_where (λ s', (st_task_id s' ≟ st_task_id s)
                            && (st_stage_order s' <? st_stage_order s)
                            && negb (st_status s' ∈? done_statuses)) (db_task_stages db)).

(** claimStageCandidateSelect, without the cursor. *)
Definition claim_candidate (db : DB) (nodeID : string) (now : Z) (s : TaskStage) (t : Task)
    : bool :=
  (vt_task_id t ≟ st_task_id s) && vt_live t && (vt_route_state t ≟ RouteReady)
  && (vt_protocol_version t ≟ Some ProtocolH3)
  && exists_where (λ n, (mn_id n ≟ nodeID) && (mn_protocol_version n ≟ ProtocolH3)) (db_nodes db)
  && has_status [StatusQueuedOpen; StatusQueuedLocked; StatusDispatching; StatusRunning;
                 StatusReconciling] t
  && (((st_status s ≟ StPending) && (st_attempt_count s <? st_max_attempts s))
      || ((st_status s ≟ StLeased) && (st_attempt_count s <=? st_max_attempts s))
      || (st_status s ∈? in_flight_statuses))
  && null_or_le (st_next_attempt_at s) now && null_or_le (st_lease_expires_at s) now
  && (is_null (st_preferred_node_id s) || (st_preferred_node_id s ≟ Some nodeID))
  && (negb (st_status s ∈? in_flight_statuses) || (st_current_node_id s ≟ Some nodeID))
  && negb (exists_where (λ a, (sa_stage_id a ≟ st_id s)
                              && (sa_status a ∈? active_attempt_statuses)
                              && negb (sa_node_id a ≟ nodeID)) (db_stage_attempts db))
  && earlier_done db s
  && negb (has_mm_file t).

Definition stage_key (st : TaskStage * Task) : Z * Z :=
  (vt_queue_seq st.2, st_stage_order st.1).

Definition stage_rows (db : DB) (nodeID : string) (now : Z)
    : Z * Z → list (TaskStage * Task) :=
  key_rows lex_le stage_key
    (join_on (claim_candidate db nodeID now) (db_task_stages db) (db_video_tasks db)).

(** A stage already submitted is resumed on its node whatever the catalogue
    says now; any other needs an eligible task. *)
Definition judge_stage (db : DB) (nodeID : string) (now : Z) (st : TaskStage * Task)
    : error + option TaskStage :=
  let '(s, t) := st in
  let active := count_where (λ a, (sa_stage_id a ≟ st_id s) && (sa_node_id a ≟ nodeID)
                                  && (sa_status a ∈? active_attempt_statuses))
                  (db_stage_attempts db) in
  if (0 <? active) || ((coalesce_str (st_current_node_id s) ≟ nodeID)
                       && (st_status s ∈? in_flight_statuses))
  then inr (Some s)
  else
    eligible ← taskEligibleForNode db t nodeID (now / 1000);
    mret (if eligible : bool then Some s else None).

Definition nextEligibleStage_loop (fuel : nat) (db : DB) (nodeID : string) (now : Z)
    (after : Z * Z) : option (error + TaskStage) :=
  page_loop stage_key (stage_rows db nodeID now) (judge_stage db nodeID now)
    ErrNoClaimableStage fuel after.

(** One round per pair of a stage and its task is enough fuel. *)
Definition stage_fuel (db : DB) : nat :=
  S (length (db_task_stages db) * length (db_video_tasks db)).

Definition nextEligibleStage (nodeID : string) (now : Z) (db : DB) : error + TaskStage :=
  default (inl ErrNoClaimableStage)
    (nextEligibleStage_loop (stage_fuel db) db nodeID now (0, -1)).

Definition ClaimStage (e : Env) (nodeID leaseToken : string) (leaseDuration : Z)
    : DB → (error + TaskStage) * DB :=
  immediate (
    blocked ← select_count (λ b, nb_node_id b ≟ nodeID);
    ensure (negb (0 <? blocked)) ErrNoClaimableStage ;;
    let now := nowMillis e in
    stage ← query (nextEligibleStage nodeID now);
    raising ErrNoClaimableStage (
      n ← exec_update
        (λ s, (st_id s ≟ st_id stage) && (st_row_version s =? st_row_version stage)
              && (st_status s ∈? [StPending; StLeased; StDispatching; StRunning;
                                  StValidating; StUnknown])
              && null_or_le (st_lease_expires_at s) now)
        (λ s, s <| st_status := StLeased |> <| st_current_node_id := Some nodeID |>
                <| st_lease_token := Some leaseToken |>
                <| st_lease_expires_at := Some (now + Milliseconds leaseDuration) |>
                <| st_updated_at := now |> <| st_row_version := st_row_version s + 1 |>);
      oneRow n) ;;
    row ← select_one (λ s, st_id s ≟ st_id stage);
    of_option row ErrNoRows).

Definition RenewStageLease (e : Env) (stageID leaseToken : string) (leaseDuration : Z)
    : DB → (error + unit) * DB :=
  let now := nowMillis e in
  statement (
    exec_update (λ s, (st_id s ≟ stageID) && (st_lease_token s ≟ Some leaseToken)
                      && (st_status s ∈? [StLeased; StDispatching; StRunning; StValidating])
                      && sql_gt (st_lease_expires_at s) now)
      (λ s, s <| st_lease_expires_at := Some (now + Milliseconds leaseDuration) |>
              <| st_updated_at := now |> <| st_row_version := st_row_version s + 1 |>)).

(** ** Attempts *)

Definition dispatch_of_node (db : DB) (nodeID : string) (t : Task) : option DispatchSnapshot :=
  (λ n, mkDispatch (mn_id n) (mn_version n) (mn_protocol_version n) (mn_service_url n)
          (vt_model (vt_request t)))
  <$> List.find (λ n, mn_id n ≟ nodeID) (db_nodes db).

(** [attempt] is the row to insert, NULLIF applied; a start time of 0 is
    replaced by the clock. *)
Definition CreateStageAttempt (e : Env) (o : Options) (attempt : StageAttempt)
    (token : string) : DB → (error + unit) * DB :=
  immediate (
    rows ← ask (λ db, join_on (λ s t, (vt_task_id t ≟ st_task_id s)
                                      && (st_id s ≟ sa_stage_id attempt) && vt_live t)
                        (db_task_stages db) (db_video_tasks db));
    row ← of_option (head rows) ErrNoRows;
    let '(s, task) := row : TaskStage * Task in
    ensure (negb (negb (st_status s ≟ StLeased) || (token ≟ "")
                  || negb (token ≟ coalesce_str (st_lease_token s))
                  || negb (sa_node_id attempt ≟ coalesce_str (st_current_node_id s))
                  || negb (AdminCanCancel (vt_status task))
                  || (coalesce_int (st_lease_expires_at s) <=? nowMillis e)))
      ErrStateConflict ;;
    ensure (coalesce_str (vt_protocol_version task) ≟ ProtocolH3) ErrStateConflict ;;
    eligible ← query (λ db, taskEligibleForNode db task (sa_node_id attempt) (nowUnix e));
    ensure eligible ErrStateConflict ;;
    ensure ((sa_attempt_no attempt =? st_attempt_count s + 1)
            && (sa_attempt_no attempt <=? st_max_attempts s))
      (ErrText "阶段尝试序号冲突") ;;
    let startedAt := if sa_started_at attempt =? 0 then nowMillis e
                     else sa_started_at attempt in
    exec_insert (attempt <| sa_started_at := startedAt |>) ;;
    n ← exec_update (λ x, (st_id x ≟ sa_stage_id attempt)
                          && (st_attempt_count x =? st_attempt_count s))
      (λ x, x <| st_attempt_count := st_attempt_count x + 1 |>
              <| st_updated_at := startedAt |> <| st_row_version := st_row_version x + 1 |>);
    oneRow n ;;
    node ← ask (λ db, List.find (λ n, mn_id n ≟ sa_node_id attempt) (db_nodes db));
    dispatch ← ask (λ db, dispatch_of_node db (sa_node_id attempt) task);
    n ← exec_update (λ t, (vt_task_id t ≟ vt_task_id task) && (vt_route_state t ≟ RouteReady)
                          && (vt_protocol_version t ≟ Some ProtocolH3) && vt_live t)
      (λ t, t <| vt_status := StatusDispatching |> <| vt_cancel_locked := true |>
              <| vt_upstream_id := Some (sa_node_id attempt) |>
              <| vt_active_stage_id := Some (sa_stage_id attempt) |>
              <| vt_attempt_started_at := Some (Z.quot startedAt 1000) |>
              <| vt_started_at := coalesce (vt_started_at t) (Z.quot startedAt 1000) |>
              <| vt_upstream_node_version := default 0 (mn_version <$> node) |>
              <| vt_dispatch_snapshot_json := dispatch |>
              <| vt_updated_at := nowUnix e |> <| vt_version := vt_version t + 1 |>);
    oneRow n ;;
    rebalance o (nowUnix e)).

(** The error result is not named: an error returned through a shadowing
    variable does not reach [completeTransaction], which commits. *)
Definition BindStageExecution (e : Env) (stageID leaseToken attemptID executionID : string)
    : DB → (error + unit) * DB :=
  let now := nowMillis e in
  immediate_shadowed (
    n ← exec_update
      (λ a, (sa_id a ≟ attemptID) && (sa_stage_id a ≟ stageID)
            && (sa_status a ∈? active_attempt_statuses)
            && (is_null (sa_execution_id a) || (sa_execution_id a ≟ Some executionID)))
      (λ a, a <| sa_execution_id := Some executionID |> <| sa_status := AtRunning |>
              <| sa_heartbeat_at := Some now |>);
    then_shadowed (oneRow n) (λ _,
    n ← exec_update
      (λ s, (st_id s ≟ stageID) && (st_lease_token s ≟ Some leaseToken)
            && (st_status s ≟ StLeased))
      (λ s, s <| st_status := StRunning |> <| st_updated_at := now |>
              <| st_started_at := coalesce (st_started_at s) now |>
              <| st_row_version := st_row_version s + 1 |>);
    then_shadowed (oneRow n) (λ _,
    then_shadowed (
      rows ← ask (λ db, join_on (λ s a, (sa_stage_id a ≟ st_id s) && (st_id s ≟ stageID)
                                        && (sa_id a ≟ attemptID))
                          (db_task_stages db) (db_stage_attempts db));
      of_option (head rows) ErrNoRows) (λ sa,
    n ← exec_update
      (λ t, (vt_task_id t ≟ st_task_id sa.1) && vt_live t
            && has_status [StatusQueuedOpen; StatusQueuedLocked; StatusDispatching;
                           StatusRunning; StatusReconciling] t)
      (λ t, t <| vt_status := StatusRunning |> <| vt_upstream_id := Some (sa_node_id sa.2) |>
              <| vt_active_stage_id := Some stageID |>
              <| vt_started_at := coalesce (vt_started_at t) (now / 1000) |>
              <| vt_updated_at := now / 1000 |> <| vt_version := vt_version t + 1 |>);
    then_shadowed (oneRow n) (λ _,
    shadowed (createCallbackDeliveryWithConn e 0 (st_task_id sa.1) "running" now)))))).

Definition GetRunningStageAttempt (stageID leaseToken : string) (db : DB)
    : error + StageAttempt :=
  match merge_sort latest_le
          (join_on (λ s a, (st_id s ≟ sa_stage_id a) && (sa_stage_id a ≟ stageID)
                           && (st_lease_token s ≟ Some leaseToken))
             (db_task_stages db) (db_stage_attempts db)) with
  | (_, a) :: _ => inr a
  | [] => inl ErrNoClaimableStage
  end.

(** ** Completing and failing a stage *)

(** [SELECT MIN(stage_order) FROM task_stages WHERE task_id=? AND stage_order>?] *)
Definition next_stage_order (db : DB) (taskID : string) (order : Z) : option Z :=
  head (order_by (λ z, z) (map st_stage_order
    (List.filter (λ s, (st_task_id s ≟ taskID) && (order <? st_stage_order s))
      (db_task_stages db)))).

Definition completeStageWithConn (e : Env)
    (stageID leaseToken attemptID outputArtifactID : string) : Tx unit :=
  let now := nowMillis e in
  n ← exec_update
    (λ a, (sa_id a ≟ attemptID) && (sa_stage_id a ≟ stageID)
          && (sa_status a ∈? [AtRunning; AtValidating; AtUnknown]))
    (λ a, a <| sa_status := AtSucceeded |>
            <| sa_output_artifact_id := nullif_str outputArtifactID |>
            <| sa_heartbeat_at := Some now |> <| sa_finished_at := Some now |>);
  oneRow n ;;
  n ← exec_update
    (λ s, (st_id s ≟ stageID) && (st_lease_token s ≟ Some leaseToken)
          && (st_status s ∈? [StRunning; StValidating; StDispatching]))
    (λ s, s <| st_status := StSucceeded |>
            <| st_output_artifact_id := nullif_str outputArtifactID |>
            <| st_lease_token := None |> <| st_lease_expires_at := None |>
            <| st_updated_at := now |> <| st_finished_at := Some now |>
            <| st_row_version := st_row_version s + 1 |>);
  oneRow n ;;
  row ← select_one (λ s, st_id s ≟ stageID);
  stage ← of_option row ErrNoRows;
  let taskID := st_task_id stage in
  (if negb (outputArtifactID ≟ "")
   then
     next ← ask (λ db, next_stage_order db taskID (st_stage_order stage));
     exec_update (λ s, (st_task_id s ≟ taskID) && (Some (st_stage_order s) ≟ next)
                       && (st_status s ≟ StPending))
       (λ s, s <| st_input_artifact_id := Some outputArtifactID |>) ;; mret tt
   else mret tt) ;;
  remaining ← select_count (λ s, (st_task_id s ≟ taskID)
                                 && negb (st_status s ∈? done_statuses));
  if remaining =? 0
  then
    exec_update (live_task taskID)
      (λ t, t <| vt_status := StatusSucceeded |>
              <| vt_result_artifact_id := nullif_str outputArtifactID |>
              <| vt_active_stage_id := None |>
              <| vt_usage_total_seconds := vt_duration (vt_request t) |>
              <| vt_usage_output_seconds := vt_duration (vt_request t) |>
              <| vt_finished_at := Some (now / 1000) |> <| vt_updated_at := now / 1000 |>
              <| vt_version := vt_version t + 1 |>) ;;
    createCallbackDeliveryWithConn e 0 taskID "succeeded" now
  else
    exec_update (live_task taskID)
      (λ t, t <| vt_status := StatusRunning |> <| vt_upstream_id := None |>
              <| vt_active_stage_id := None |> <| vt_updated_at := now / 1000 |>
              <| vt_version := vt_version t + 1 |>) ;;
    createCallbackDeliveryWithConn e 0 taskID "running" now.

Definition CompleteStage (e : Env) (stageID leaseToken attemptID outputArtifactID : string)
    : DB → (error + unit) * DB :=
  immediate (completeStageWithConn e stageID leaseToken attemptID outputArtifactID).

Definition FailStage (e : Env) (stageID leaseToken attemptID code message : string)
    (retryAtMS : Z) (terminal : bool) : DB → (error + unit) * DB :=
  let now := nowMillis e in
  immediate (
    exec_update (λ a, (sa_id a ≟ attemptID) && (sa_stage_id a ≟ stageID))
      (λ a, a <| sa_status := AtFailed |> <| sa_error_code := Some code |>
              <| sa_error_message := Some message |>
              <| sa_heartbeat_at := Some now |> <| sa_finished_at := Some now |>) ;;
    n ← exec_update (λ s, (st_id s ≟ stageID) && (st_lease_token s ≟ Some leaseToken))
      (λ s, s <| st_status := if terminal then StFailed else StPending |>
              <| st_error_code := Some code |> <| st_error_message := Some message |>
              <| st_next_attempt_at := if terminal then None else Some retryAtMS |>
              <| st_lease_token := None |> <| st_lease_expires_at := None |>
              <| st_updated_at := now |>
              <| st_finished_at := if terminal then Some now else None |>
              <| st_row_version := st_row_version s + 1 |>);
    oneRow n ;;
    row ← select_one (λ s, st_id s ≟ stageID);
    stage ← of_option row ErrNoRows;
    let taskID := st_task_id stage in
    if terminal
    then
      exec_update (live_task taskID)
        (λ t, t <| vt_status := StatusFailed |> <| vt_error_code := Some code |>
                <| vt_error_message := Some message |> <| vt_active_stage_id := None |>
                <| vt_finished_at := Some (now / 1000) |> <| vt_updated_at := now / 1000 |>
                <| vt_version := vt_version t + 1 |>) ;;
      createCallbackDeliveryWithConn e 0 taskID "failed" now
    else
      exec_update (live_task taskID)
        (λ t, t <| vt_status := StatusRunning |> <| vt_upstream_id := None |>
                <| vt_active_stage_id := None |> <| vt_updated_at := now / 1000 |>
                <| vt_version := vt_version t + 1 |>) ;;
      mret tt).

(** ** Cancelling the stages of a task *)

Definition finishStageTaskCancellation (e : Env) (taskID : string) (now : Z) : Tx unit :=
  stages ← ask (λ db, map st_id (List.filter (λ s, st_task_id s ≟ taskID) (db_task_stages db)));
  exec_update (λ a, (sa_stage_id a ∈? stages) && (sa_status a ∈? active_attempt_statuses))
    (λ a, a <| sa_status := AtFailed |> <| sa_error_code := Some "task_cancelled" |>
            <| sa_error_message := Some "任务已取消" |>
            <| sa_heartbeat_at := Some (now * 1000) |>
            <| sa_finished_at := Some (now * 1000) |>) ;;
  exec_update (λ s, (st_task_id s ≟ taskID)
                    && negb (st_status s ∈? [StSucceeded; StFailed; StSkipped; StCancelled]))
    (λ s, s <| st_status := StCancelled |> <| st_lease_token := None |>
            <| st_lease_expires_at := None |> <| st_next_attempt_at := None |>
            <| st_updated_at := now * 1000 |>
            <| st_finished_at := coalesce (st_finished_at s) (now * 1000) |>
            <| st_row_version := st_row_version s + 1 |>) ;;
  n ← exec_update (λ t, (vt_task_id t ≟ taskID) && has_status unfinished_statuses t)
    (λ t, t <| vt_status := StatusCancelled |> <| vt_cancel_locked := false |>
            <| vt_cancel_requested_at := coalesce (vt_cancel_requested_at t) now |>
            <| vt_upstream_id := None |> <| vt_active_stage_id := None |>
            <| vt_finished_at := Some now |> <| vt_updated_at := now |>
            <| vt_version := vt_version t + 1 |>);
  oneRow n ;;
  createCallbackDeliveryWithConn e 0 taskID "cancelled" (now * 1000).

(** CreateStages: the [Required] flag of the input is overridden to true. *)
Definition CreateStages (e : Env) (stages : list TaskStage) : DB → (error + unit) * DB :=
  immediate (each (λ s, exec_insert (mkTaskStage (st_id s) (st_task_id s) (st_stage_order s)
    (st_stage_type s) true StPending 0 (st_max_attempts s) (st_preferred_node_id s) None
    (st_input_artifact_id s) None (st_config_snapshot_json s) None None None None None
    (nowMillis e) (nowMillis e) None None 1)) stages).

(** ** The paged scan of the stages *)

(** The reference: one loop over the candidates, without pages. *)
Definition first_stage (nodeID : string) (now : Z) (db : DB) : error + TaskStage :=
  full_scan stage_key (stage_rows db nodeID now) (judge_stage db nodeID now)
    ErrNoClaimableStage (0, -1).

Lemma join_on_NoDup {A B C} (key : A * B → C) (p : A → B → bool) l1 l2 :
  NoDup l1 → NoDup l2 →
  (∀ x y, x ∈ join_on p l1 l2 → y ∈ join_on p l1 l2 → key x = key y → x = y) →
  NoDup (map key (join_on p l1 l2)).
Proof.
  intros H1 H2 Hinj. apply (NoDup_fmap_2_strong key); [done|].
  clear Hinj. unfold join_on. induction l1 as [|a l1 IH]; [constructor|].
  apply NoDup_cons in H1 as [Ha H1]. simpl. apply NoDup_app. split_and!; [| |by apply IH].
  - apply (NoDup_fmap_2 (λ b, (a, b))). by apply NoDup_filter_bool.
  - intros [a' b] Hin Hin'. apply list_elem_of_In, in_map_iff in Hin as (? & [= <- <-] & _).
    apply elem_of_join_on in Hin' as (? & _). done.
Qed.

(** A stage has one task and a place of its own in it. *)
Lemma stage_key_NoDup db nodeID now :
  tbl_valid (db_video_tasks db) = true → tbl_valid (db_task_stages db) = true →
  NoDup (map stage_key
    (join_on (claim_candidate db nodeID now) (db_task_stages db) (db_video_tasks db))).
Proof.
  intros (Hid & Hseq & _)%tasks_valid_iff Hst.
  unfold tbl_valid, stages_table in Hst. rewrite !andb_true_iff, !distinct_NoDup in Hst.
  destruct Hst as [[Hsid Hord] _].
  apply join_on_NoDup; [by eapply NoDup_of_map..|].
  intros [s t] [s' t'] (Hs & Ht & Hc)%elem_of_join_on (Hs' & Ht' & Hc')%elem_of_join_on [= Eq Eo].
  unfold claim_candidate in Hc, Hc'. rewrite !andb_true_iff, bool_decide_eq_true in Hc, Hc'.
  assert (t = t') as <- by by apply (NoDup_map_inj vt_queue_seq (db_video_tasks db)).
  f_equal. apply (NoDup_map_inj (λ s, (st_task_id s, st_stage_order s)) (db_task_stages db));
    [done..|]. f_equal; [|done]. destruct_and!. congruence.
Qed.

Lemma stage_rows_length db nodeID now after :
  (length (stage_rows db nodeID now after)
   ≤ length (db_task_stages db) * length (db_video_tasks db))%nat.
Proof.
  etrans; [apply (key_rows_length lex_le)|]. unfold join_on.
  induction (db_task_stages db) as [|s ss IH]; [done|]. simpl.
  rewrite length_app, length_map.
  pose proof (List.filter_length_le (claim_candidate db nodeID now s) (db_video_tasks db)). lia.
Qed.

Lemma nextEligibleStage_loop_spec db nodeID now :
  tbl_valid (db_video_tasks db) = true → tbl_valid (db_task_stages db) = true →
  nextEligibleStage_loop (stage_fuel db) db nodeID now (0, -1)
  = Some (first_stage nodeID now db).
Proof.
  intros Ht Hs. apply page_loop_spec.
  - intros after l1 x l2. apply (key_rows_split lex_le). by apply stage_key_NoDup.
  - unfold stage_fuel. pose proof (stage_rows_length db nodeID now (0, -1)). lia.
Qed.

Lemma judge_stage_Some db nodeID now st s :
  judge_stage db nodeID now st = inr (Some s) → s = st.1.
Proof.
  destruct st as [s' t]. unfold judge_stage. destruct (_ || _); [by intros [= ->]|].
  destruct (taskEligibleForNode _ _ _ _) as [|[]]; simpl; [done|by intros [= ->]|done].
Qed.

(** A candidate the scan returned: it can be claimed now, and every candidate
    before it in (queue_seq, stage_order) was passed over. *)
Definition next_stage (db : DB) (nodeID : string) (now : Z) (s : TaskStage) : Prop :=
  ∃ t, s ∈ db_task_stages db ∧ t ∈ db_video_tasks db ∧
    claim_candidate db nodeID now s t = true ∧
    judge_stage db nodeID now (s, t) = inr (Some s) ∧
    ∀ s' t', s' ∈ db_task_stages db → t' ∈ db_video_tasks db →
      claim_candidate db nodeID now s' t' = true →
      key_lt lex_le (0, -1) (stage_key (s', t')) = true →
      lex_le (stage_key (s', t')) (stage_key (s, t)) → stage_key (s', t') ≠ stage_key (s, t) →
      judge_stage db nodeID now (s', t') = inr None.

Lemma first_stage_next db nodeID now s :
  tbl_valid (db_video_tasks db) = true → tbl_valid (db_task_stages db) = true →
  first_stage nodeID now db = inr s → next_stage db nodeID now s.
Proof.
  intros Hvt Hvs. unfold first_stage, full_scan.
  destruct (scan_page _ _ _ _) as [s'| |] eqn:E; [|done..]. simpl. intros [= ->].
  apply scan_page_Found in E as (l1 & [s' t] & l2 & Hq & Hj & Hl).
  apply judge_stage_Some in Hj as Es. simpl in Es. subst s'.
  pose proof (stage_key_NoDup db nodeID now Hvt Hvs) as Hnd.
  assert (∀ s' t', (s', t') ∈ stage_rows db nodeID now (0, -1) ↔
    (s' ∈ db_task_stages db ∧ t' ∈ db_video_tasks db ∧
     claim_candidate db nodeID now s' t' = true) ∧
    key_lt lex_le (0, -1) (stage_key (s', t')) = true) as Hel.
  { intros s' t'. unfold stage_rows. by rewrite (key_rows_elem lex_le), elem_of_join_on. }
  assert ((s, t) ∈ stage_rows db nodeID now (0, -1)) as Hst by (rewrite Hq; set_solver).
  apply Hel in Hst as [(Hs & Ht & Hc) _].
  exists t. split_and!; [done..|]. intros s' t' Hs' Ht' Hc' Hk Hle Hne.
  assert ((s', t') ∈ stage_rows db nodeID now (0, -1)) as Hin by by apply Hel.
  rewrite Hq in Hin. rewrite Forall_forall in Hl.
  apply elem_of_app in Hin as [?|[[= -> ->]|Hin]%elem_of_cons]; [by apply Hl|done|].
  exfalso. apply Hne. apply (anti_symm lex_le); [done|].
  unfold stage_rows in Hq. apply (key_rows_split lex_le) in Hq; [|done].
  rewrite <-Hq, (key_rows_elem lex_le), (key_lt_iff lex_le) in Hin. by destruct Hin as (_ & ? & _).
Qed.

(** C23: the paged scan of [nextEligibleStage] with its two-column cursor
    always returns within one round per candidate pair, and returns what one
    loop over all candidates in (queue_seq, stage_order) order returns: no page
    boundary skips or repeats a stage. *)
Theorem nextEligibleStage_refines db nodeID now :
  tbl_valid (db_video_tasks db) = true → tbl_valid (db_task_stages db) = true →
  nextEligibleStage_loop (stage_fuel db) db nodeID now (0, -1)
  = Some (first_stage nodeID now db).
Proof. apply nextEligibleStage_loop_spec. Qed.

(** What a stage that can be claimed satisfies. *)
Lemma claim_candidate_safe db nodeID now s t :
  claim_candidate db nodeID now s t = true →
  vt_task_id t = st_task_id s ∧ vt_live t = true ∧
  vt_protocol_version t = Some ProtocolH3 ∧ AdminCanCancel (vt_status t) = true ∧
  null_or_le (st_lease_expires_at s) now = true ∧
  st_status s ∈ [StPending; StLeased; StDispatching; StRunning; StValidating; StUnknown] ∧
  (∀ s', s' ∈ db_task_stages db → st_task_id s' = st_task_id s →
     st_stage_order s' < st_stage_order s → st_status s' ∈ done_statuses) ∧
  (∀ a, a ∈ db_stage_attempts db → sa_stage_id a = st_id s →
     sa_status a ∈ active_attempt_statuses → sa_node_id a = nodeID).
Proof.
  unfold claim_candidate, earlier_done, exists_where.
  rewrite !andb_true_iff, !negb_true_iff, !bool_decide_eq_true, <-!not_true_iff_false, !existsb_exists.
  intros H. destruct_and!. split_and!; try done.
  - unfold has_status in *. by destruct (vt_status t).
  - apply (bool_decide_eq_true_1 _). by destruct (st_status s).
  - intros s' Hs' E1 E2. destruct (decide (st_status s' ∈ done_statuses)) as [|Hn]; [done|].
    exfalso. match goal with H : ¬ (∃ x, In x (db_task_stages db) ∧ _) |- _ => apply H end.
    exists s'. rewrite <-list_elem_of_In. split; [done|].
    rewrite (bool_decide_eq_true_2 _ E1), (proj2 (Z.ltb_lt _ _) E2).
    by rewrite (bool_decide_eq_false_2 _ Hn).
  - intros a Ha E1 E2. destruct (decide (sa_node_id a = nodeID)) as [|Hn]; [done|].
    exfalso. match goal with H : ¬ (∃ x, In x (db_stage_attempts db) ∧ _) |- _ => apply H end.
    exists a. rewrite <-list_elem_of_In. split; [done|].
    rewrite (bool_decide_eq_true_2 _ E1), (bool_decide_eq_true_2 _ E2).
    by rewrite (bool_decide_eq_false_2 _ Hn).
Qed.

Lemma claim_update_row now s0 :
  st_status s0 ∈ [StPending; StLeased; StDispatching; StRunning; StValidating; StUnknown] →
  null_or_le (st_lease_expires_at s0) now = true →
  ((st_id s0 ≟ st_id s0) && (st_row_version s0 =? st_row_version s0)
   && (st_status s0 ∈? [StPending; StLeased; StDispatching; StRunning; StValidating; StUnknown])
   && null_or_le (st_lease_expires_at s0) now) = true.
Proof. intros Hs Hl. by rewrite Z.eqb_refl, Hl, !bool_decide_eq_true_2. Qed.

(** The row of a stage leased by a claim. *)
Definition leased (node token : string) (now until : Z) (s : TaskStage) : TaskStage :=
  s <| st_status := StLeased |> <| st_current_node_id := Some node |>
    <| st_lease_token := Some token |> <| st_lease_expires_at := Some until |>
    <| st_updated_at := now |> <| st_row_version := st_row_version s + 1 |>.

(** C11: a claim of a stage is safe.  When [ClaimStage] returns a stage, no
    dispatch barrier blocks the node, the stage is the first claimable one in
    queue order, nobody held an unexpired lease on it, every earlier stage of
    its task is done, no other node has an active attempt on it, and its task
    is live, routed to the H3 protocol and still cancellable; the only change
    is the new lease on that stage. *)
Theorem ClaimStage_sound e node token duration db s db' :
  tbl_valid (db_video_tasks db) = true → tbl_valid (db_task_stages db) = true →
  ClaimStage e node token duration db = (inr s, db') →
  let now := nowMillis e in
  (∀ b, b ∈ db_barriers db → nb_node_id b ≠ node) ∧
  ∃ s0 t, next_stage db node now s0 ∧
    s0 ∈ db_task_stages db ∧ t ∈ db_video_tasks db ∧
    vt_task_id t = st_task_id s0 ∧ vt_live t = true ∧
    vt_protocol_version t = Some ProtocolH3 ∧ AdminCanCancel (vt_status t) = true ∧
    null_or_le (st_lease_expires_at s0) now = true ∧
    (∀ s', s' ∈ db_task_stages db → st_task_id s' = st_task_id s0 →
       st_stage_order s' < st_stage_order s0 → st_status s' ∈ done_statuses) ∧
    (∀ a, a ∈ db_stage_attempts db → sa_stage_id a = st_id s0 →
       sa_status a ∈ active_attempt_statuses → sa_node_id a = node) ∧
    s = leased node token now (now + Milliseconds duration) s0 ∧
    db' = db <| db_task_stages := update_where (λ x, st_id x ≟ st_id s0) (λ _, s)
                                    (db_task_stages db) |>.
Proof.
  intros Hvt Hvs H now. unfold ClaimStage in H. rewrite immediate_inr in H. sql_inv H.
  rewrite negb_true_iff, Z.ltb_ge in H0.
  assert (∀ b, b ∈ db_barriers db → (nb_node_id b ≟ node) = false) as Hb.
  { apply count_where_zero.
    pose proof (count_where_nonneg (λ b, nb_node_id b ≟ node) (db_barriers db)).
    simpl in H0. lia. }
  unfold nextEligibleStage in H1. rewrite nextEligibleStage_loop_spec in H1 by done.
  simpl in H1. apply first_stage_next in H1 as Hnext; [|done..].
  pose proof Hnext as (t & Hs & Ht & Hc & _). apply claim_candidate_safe in Hc.
  destruct Hc as (Etid & Hlive & Hpv & Hcan & Hlease & Hst & Hearlier & Hatt).
  unfold tbl_valid, stages_table in Hvs. rewrite !andb_true_iff, !distinct_NoDup in Hvs.
  destruct Hvs as [[Hsid _] _]. pose proof (claim_update_row _ _ Hst Hlease) as Hp.
  apply (update_reread st_id) in H as Es; [|done|done|done| |by intros []]; last first.
  { intros z. rewrite !andb_true_iff, bool_decide_eq_true. tauto. }
  split; [intros b Hbin; by apply (bool_decide_eq_false_1 _), Hb|].
  exists x0, t. split_and!; try done.
  simpl. rewrite (update_by_key st_id _ _ _ x0); [by rewrite Es|done..|].
  intros z. rewrite !andb_true_iff, bool_decide_eq_true. tauto.
Qed.

(** ** Cancelling the stages *)

Definition stage_over : list StageStatus := [StSucceeded; StFailed; StSkipped; StCancelled].

(** Nothing of the task runs any more. *)
Definition task_stopped (db : DB) (taskID : string) : Prop :=
  (∀ t, t ∈ db_video_tasks db → vt_task_id t = taskID → vt_status t = StatusCancelled) ∧
  (∀ s, s ∈ db_task_stages db → st_task_id s = taskID → st_status s ∈ stage_over) ∧
  (∀ s a, s ∈ db_task_stages db → st_task_id s = taskID → a ∈ db_stage_attempts db →
     sa_stage_id a = st_id s → sa_status a ∉ active_attempt_statuses).

Lemma finishStageTaskCancellation_stops e taskID now db u db' :
  NoDup (map vt_task_id (db_video_tasks db)) →
  finishStageTaskCancellation e taskID now db = Done u db' →
  task_stopped db' taskID ∧ db_barriers db' = db_barriers db.
Proof.
  intros Hid H. unfold finishStageTaskCancellation in H. sql_inv H.
  apply createCallback_frame in H as (cs & ->). split; [|done]. split_and!; simpl.
  - intros t Ht Etid. apply elem_of_update_where in Ht as (t0 & Ht0 & ->).
    apply bool_decide_eq_true, count_where_one in H0 as (l1 & w & l2 & El & Hx & _).
    simpl in El. apply andb_true_iff in Hx as Hx'. destruct Hx' as [Ex%bool_decide_eq_true _].
    assert (t0 = w) as ->; [|by rewrite Hx].
    apply (NoDup_map_inj vt_task_id (db_video_tasks db)); [done|done|rewrite El; set_solver|].
    rewrite proj_if in Etid by done. congruence.
  - intros s Hs Etid. apply elem_of_update_where in Hs as (s0 & Hs0 & ->). unfold stage_over.
    destruct (_ && _) eqn:E; [simpl; set_solver|].
    rewrite (bool_decide_eq_true_2 _ Etid) in E. simpl in E.
    by apply negb_false_iff, bool_decide_eq_true in E.
  - intros s a Hs Etid Ha Est. apply elem_of_update_where in Hs as (s0 & Hs0 & Es).
    apply elem_of_update_where in Ha as (a0 & Ha0 & ->).
    assert (st_id s = st_id s0 ∧ st_task_id s = st_task_id s0) as [E1 E2]
      by (rewrite Es, !proj_if; done).
    assert (sa_stage_id a0 ∈ map st_id (List.filter (λ s, st_task_id s ≟ taskID)
      (db_task_stages db))) as Hin.
    { apply list_elem_of_In, in_map_iff. exists s0. split.
      - rewrite <-E1, <-Est. by rewrite proj_if.
      - apply filter_In. split; [by apply list_elem_of_In|]. apply bool_decide_eq_true. congruence. }
    rewrite (bool_decide_eq_true_2 _ Hin). simpl.
    destruct (sa_status a0 ∈? active_attempt_statuses) eqn:E.
    + simpl. apply (bool_decide_eq_false_1 _). reflexivity.
    + by apply bool_decide_eq_false in E.
Qed.

(** A barrier is put on the node of the latest active attempt. *)
Lemma createBarrier_Done taskID now db b db' :
  createNodeDispatchBarrierForTask taskID now db = Done b db' →
  b = negb (is_null (head (active_attempts taskID db))) ∧
  db_video_tasks db' = db_video_tasks db ∧ db_task_stages db' = db_task_stages db ∧
  db_stage_attempts db' = db_stage_attempts db ∧
  (∀ s a, head (active_attempts taskID db) = Some (s, a) →
     HasNodeDispatchBarrier (sa_node_id a) db' = true).
Proof.
  unfold createNodeDispatchBarrierForTask. intros H. rewrite bind_Done in H.
  destruct H as (rows & db1 & H1 & H). sql_inv H1.
  destruct (active_attempts taskID db) as [|[s a] l]; sql_inv H; [done|].
  split_and!; [by rewrite <-H|done..|]. simpl. intros s' a' [= <- <-].
  unfold HasNodeDispatchBarrier. simpl. rewrite count_where_app, count_where_cons. simpl.
  rewrite bool_decide_eq_true_2 by done. apply Z.ltb_lt.
  pose proof (count_where_nonneg (λ b, nb_node_id b ≟ sa_node_id a) (db_barriers db)).
  rewrite count_where_nil. lia.
Qed.

Lemma ClaimStage_blocked e node token duration db :
  HasNodeDispatchBarrier node db = true →
  ClaimStage e node token duration db = (inl ErrNoClaimableStage, db).
Proof.
  intros H. unfold ClaimStage, immediate, mbind, tx_bind, select_count, ask. simpl.
  unfold HasNodeDispatchBarrier in H. by rewrite H.
Qed.

(** ** Completing a stage *)

(** The stage a worker may complete. *)
Definition completable (stageID token : string) (s : TaskStage) : bool :=
  (st_id s ≟ stageID) && (st_lease_token s ≟ Some token)
  && (st_status s ∈? [StRunning; StValidating; StDispatching]).

Definition completed_stage (now : Z) (out : string) (s : TaskStage) : TaskStage :=
  s <| st_status := StSucceeded |> <| st_output_artifact_id := nullif_str out |>
    <| st_lease_token := None |> <| st_lease_expires_at := None |>
    <| st_updated_at := now |> <| st_finished_at := Some now |>
    <| st_row_version := st_row_version s + 1 |>.

(** The stages after the completion: the next one may have got an input. *)
Definition handed_over (s s' : TaskStage) : Prop :=
  s' = s ∨ ∃ a, s' = s <| st_input_artifact_id := a |>.

Lemma stages_ids ss : tbl_valid ss = true → NoDup (map st_id ss).
Proof. unfold tbl_valid, stages_table. rewrite !andb_true_iff, !distinct_NoDup. tauto. Qed.

(** The status a task gets when one of its stages is completed. *)
Definition status_after (ss : list TaskStage) (taskID : string) : InternalStatus :=
  if count_where (λ s, (st_task_id s ≟ taskID) && negb (st_status s ∈? done_statuses)) ss =? 0
  then StatusSucceeded else StatusRunning.

(** The tail of a completion: the task gets the status its stages say. *)
Definition task_settled (ss : list TaskStage) (taskID : string) (t t' : Task) : Prop :=
  vt_task_id t' = vt_task_id t ∧ vt_deleted_at t' = vt_deleted_at t ∧
  vt_status t' = if live_task taskID t then status_after ss taskID else vt_status t.

Lemma settle_tasks (ss : list TaskStage) taskID f db n db1 e k status now u db' :
  exec_update (live_task taskID) f db = Done n db1 →
  createCallbackDeliveryWithConn e k taskID status now db1 = Done u db' →
  (∀ t, vt_task_id (f t) = vt_task_id t ∧ vt_deleted_at (f t) = vt_deleted_at t ∧
     vt_status (f t) = status_after ss taskID) →
  db_task_stages db' = db_task_stages db ∧
  Forall2 (task_settled ss taskID) (db_video_tasks db) (db_video_tasks db').
Proof.
  intros H1 H2 Hf. sql_inv H1. apply createCallback_frame in H2 as (cs & ->). simpl.
  split; [done|]. apply Forall2_update_where. intros t. unfold task_settled.
  destruct (live_task taskID t); [apply Hf|done].
Qed.

Lemma completeStage_effect e stage token attempt out db u db' :
  completeStageWithConn e stage token attempt out db = Done u db' →
  ∃ s0, count_where (completable stage token) (db_task_stages db) = 1 ∧
    List.find (λ s, st_id s ≟ stage)
      (update_where (completable stage token) (completed_stage (nowMillis e) out)
         (db_task_stages db)) = Some s0 ∧
    Forall2 handed_over
      (update_where (completable stage token) (completed_stage (nowMillis e) out)
         (db_task_stages db)) (db_task_stages db') ∧
    Forall2 (task_settled (db_task_stages db') (st_task_id s0))
      (db_video_tasks db) (db_video_tasks db') ∧
    count_where (λ a, (sa_id a ≟ attempt) && (sa_stage_id a ≟ stage)
      && (sa_status a ∈? [AtRunning; AtValidating; AtUnknown])) (db_stage_attempts db) = 1.
Proof.
  intros H. unfold completeStageWithConn in H. cbv zeta in H. sql_inv H.
  match type of H with _ ?d = _ => rename d into db2 end.
  match goal with Hm : (if negb _ then _ else _) ?d = Done _ db2 |- _ =>
    assert (Forall2 handed_over (db_task_stages d) (db_task_stages db2) ∧
      db_video_tasks db2 = db_video_tasks d) as [Hst Hvt];
    [destruct (negb _) in Hm; sql_inv Hm; simpl|]
  end.
  { split; [|done]. apply Forall2_update_where. intros s. unfold handed_over.
    destruct (_ && _); [right; by eexists|by left]. }
  { split; [|done]. apply Forall_Forall2_diag, Forall_true. by left. }
  assert (db_task_stages db' = db_task_stages db2 ∧
    Forall2 (task_settled (db_task_stages db2) (st_task_id x1))
      (db_video_tasks db2) (db_video_tasks db')) as [Es Hts].
  { destruct (_ =? 0) eqn:E in H; rewrite bind_Done in H; destruct H as (n & db3 & Hu & Hc);
      eapply settle_tasks; [exact Hu|exact Hc| |exact Hu|exact Hc|];
      intros t; unfold status_after; simpl in E; by rewrite E. }
  exists x1. rewrite Es. simpl in Hst, Hvt. rewrite Hvt in Hts.
  apply bool_decide_eq_true in H0, H1. by split_and!.
Qed.

Lemma handed_over_keeps s s' :
  handed_over s s' → st_id s' = st_id s ∧ st_status s' = st_status s ∧
  st_lease_token s' = st_lease_token s ∧ st_output_artifact_id s' = st_output_artifact_id s.
Proof. by intros [->|[a ->]]. Qed.

Lemma completed_unique stage token now out ss s0 :
  NoDup (map st_id ss) → s0 ∈ ss → completable stage token s0 = true →
  ∀ x, x ∈ update_where (completable stage token) (completed_stage now out) ss →
    st_id x = stage → x = completed_stage now out s0.
Proof.
  intros Hnd Hin Hs0 x (y & Hy & ->)%elem_of_update_where Ex.
  pose proof Hs0 as [[E%bool_decide_eq_true _]%andb_true_iff _]%andb_true_iff.
  rewrite proj_if in Ex by done.
  assert (y = s0) as -> by (apply (NoDup_map_inj st_id ss); congruence).
  by rewrite Hs0.
Qed.

Lemma status_after_iff ss taskID :
  status_after ss taskID ∈ [StatusSucceeded; StatusRunning] ∧
  (status_after ss taskID = StatusSucceeded ↔
   ∀ s, s ∈ ss → st_task_id s = taskID → st_status s ∈ done_statuses).
Proof.
  unfold status_after. destruct (_ =? 0) eqn:E.
  - apply Z.eqb_eq in E. rewrite count_where_zero in E. split; [set_solver|].
    split; [|done]. intros _ s Hs Es. specialize (E s Hs).
    rewrite (bool_decide_eq_true_2 _ Es) in E. simpl in E.
    by apply negb_false_iff, bool_decide_eq_true in E.
  - apply Z.eqb_neq in E. split; [set_solver|]. split; [done|]. intros H. destruct E.
    apply count_where_zero. intros s Hs. destruct (st_task_id s ≟ taskID) eqn:Es; [|done].
    apply bool_decide_eq_true in Es. simpl. rewrite bool_decide_eq_true_2; [done|]. by apply H.
Qed.

(** A stage completes once, for the worker that holds it, and its task
    with the last stage.  When [CompleteStage] returns without error, the
    stage was in progress under the worker's lease; it is succeeded with the
    output and without a lease, and its task, unless it was deleted, is
    succeeded exactly if all its stages are done now, and running otherwise;
    every later completion of the stage is refused and changes nothing. *)
Theorem CompleteStage_once e stage token attempt out db db' :
  tbl_valid (db_task_stages db) = true →
  CompleteStage e stage token attempt out db = (inr tt, db') →
  ∃ s0, s0 ∈ db_task_stages db ∧ completable stage token s0 = true ∧
    (∀ s, s ∈ db_task_stages db' → st_id s = stage →
       st_status s = StSucceeded ∧ st_lease_token s = None ∧
       st_output_artifact_id s = nullif_str out) ∧
    (∀ t, t ∈ db_video_tasks db' → vt_task_id t = st_task_id s0 → vt_live t = true →
       vt_status t ∈ [StatusSucceeded; StatusRunning] ∧
       (vt_status t = StatusSucceeded ↔
        ∀ s, s ∈ db_task_stages db' → st_task_id s = st_task_id s0 →
          st_status s ∈ done_statuses)) ∧
    ∀ e' token' attempt' out', ∃ err,
      CompleteStage e' stage token' attempt' out' db' = (inl err, db').
Proof.
  intros Hids%stages_ids H. unfold CompleteStage in H. rewrite immediate_inr in H.
  apply completeStage_effect in H as (s1 & Hone & Hfind & Hst & Hts & _).
  apply count_where_one in Hone as (l1 & s0 & l2 & El & Hs0 & _).
  assert (s0 ∈ db_task_stages db) as Hin by (rewrite El; set_solver).
  pose proof (completed_unique _ _ (nowMillis e) out _ _ Hids Hin Hs0) as Huniq.
  apply find_elem_of in Hfind as [Hs1 Es1%bool_decide_eq_true].
  assert (st_task_id s1 = st_task_id s0) as Etid by by rewrite (Huniq _ Hs1 Es1).
  rewrite Etid in Hts.
  assert (∀ s, s ∈ db_task_stages db' → st_id s = stage → st_status s = StSucceeded ∧
    st_lease_token s = None ∧ st_output_artifact_id s = nullif_str out) as Hdone.
  { intros s Hs Es. destruct (Forall2_elem_of_r _ _ _ _ Hst Hs) as (x & Hx & Hxs).
    apply handed_over_keeps in Hxs as (E1 & -> & -> & ->). rewrite E1 in Es.
    by rewrite (Huniq x Hx Es). }
  exists s0. split_and!; [done..| |].
  - intros t Ht Et Hlive. destruct (Forall2_elem_of_r _ _ _ _ Hts Ht) as (t0 & _ & E1 & E2 & E3).
    assert (live_task (st_task_id s0) t0 = true) as Hl.
    { unfold live_task, vt_live in *. rewrite <-E1, <-E2, Hlive. by rewrite bool_decide_eq_true_2. }
    rewrite E3, Hl. apply status_after_iff.
  - intros e' token' attempt' out'. unfold CompleteStage.
    destruct (immediate _ db') as [[err|[]] db''] eqn:E.
    { exists err. f_equal. by apply immediate_inl in E. }
    exfalso. rewrite immediate_inr in E. apply completeStage_effect in E as (_ & Hone & _).
    apply count_where_one in Hone as (l1' & s & l2' & El' & Hs & _).
    unfold completable in Hs. rewrite !andb_true_iff, !bool_decide_eq_true in Hs.
    destruct Hs as [[Es Hl] _]. destruct (Hdone s) as (_ & Hn & _); [rewrite El'; set_solver|done|].
    congruence.
Qed.

(** ** Binding an execution after the lease is lost *)

(** The attempt an execution can be bound to, and the attempt bound to it. *)
Definition bindable (stageID attemptID executionID : string) (a : StageAttempt) : bool :=
  (sa_id a ≟ attemptID) && (sa_stage_id a ≟ stageID)
  && (sa_status a ∈? active_attempt_statuses)
  && (is_null (sa_execution_id a) || (sa_execution_id a ≟ Some executionID)).
Definition bound_attempt (executionID : string) (now : Z) (a : StageAttempt) : StageAttempt :=
  a <| sa_execution_id := Some executionID |> <| sa_status := AtRunning |>
    <| sa_heartbeat_at := Some now |>.

(** Finding.  [BindStageExecution] is not atomic: its error result is not
    named, so the deferred [completeTransaction] does not see the error of a
    lost lease.  Whenever the attempt can be bound but the worker no longer
    holds the leased stage, the operation returns [ErrStateConflict] and the
    attempt is nevertheless bound to the execution and running. *)
Theorem BindStageExecution_lost_lease e stage token attempt execution db :
  count_where (bindable stage attempt execution) (db_stage_attempts db) = 1 →
  tbl_valid (update_where (bindable stage attempt execution)
    (bound_attempt execution (nowMillis e)) (db_stage_attempts db)) = true →
  tbl_valid (db_task_stages db) = true →
  (∀ s, s ∈ db_task_stages db → st_id s = stage → st_status s = StLeased →
     st_lease_token s ≠ Some token) →
  BindStageExecution e stage token attempt execution db =
  (inl ErrStateConflict,
   db <| db_stage_attempts := update_where (bindable stage attempt execution)
           (bound_attempt execution (nowMillis e)) (db_stage_attempts db) |>).
Proof.
  intros Hone Hv Hvs Hlost. set (db' := db <| db_stage_attempts := _ |>).
  assert (exec_update (bindable stage attempt execution) (bound_attempt execution (nowMillis e)) db
    = Done 1 db') as E1 by (apply exec_update_Done; by split_and!).
  assert (∀ f, exec_update (λ s, (st_id s ≟ stage) && (st_lease_token s ≟ Some token)
    && (st_status s ≟ StLeased)) f db' = Done 0 db') as E2.
  { intros f. apply (exec_update_none (R:=TaskStage)); [|done]. intros s Hs.
    apply not_true_iff_false. rewrite !andb_true_iff, !bool_decide_eq_true.
    intros [[? ?] ?]. by apply (Hlost s). }
  unfold BindStageExecution, immediate_shadowed. cbv zeta.
  unfold mbind at 1, tx_bind at 1. change (exec_update _ _ db) with
    (exec_update (bindable stage attempt execution) (bound_attempt execution (nowMillis e)) db).
  rewrite E1. unfold then_shadowed at 1, mbind at 1, tx_bind at 1. simpl.
  unfold mbind at 1, tx_bind at 1. by rewrite E2.
Qed.
