(* ===== verification/Artifacts.v ===== *)
(** * Artifacts of a task and their deletion
    (internal/store/sqlite/artifact_store.go, artifact_location_store.go,
    deletion_store.go, task_purge_store.go)

    An artifact is a file produced for a task; a location is a copy of it on a
    node.  Deleting a task queues one deletion item per copy; a node claims an
    item under a lease and completes or fails it, and the outcome of the items
    is summed up in the job and in the task. *)

From S2P Require Import Prelude Domain Tx Database Sql GoStrings Catalog Paging TaskRouting Callbacks Queue Stages.

(** ** Registering artifacts *)

Definition is_hex (c : Ascii.ascii) : bool :=
  let n := byte_of c in in_range 48 57 n || in_range 65 70 n || in_range 97 102 n.
(** [hex.DecodeString] accepts the text. *)
Definition hex_decodes (s : string) : bool :=
  Z.even (len s) && forallb is_hex (String.list_ascii_of_string s).

Definition stableArtifactID (e : Env) (prefix value : string) : string :=
  String.concat "" [prefix; "_"; String.substring 0 32 (env_sha256_hex e value)].

Definition validateStageOutput (e : Env) (taskID stageID nodeID nodeArtifactID : string)
    (sizeBytes : Z) (digest mediaJSON : string) : option error :=
  if (taskID ≟ "") || (stageID ≟ "") || (nodeID ≟ "") || (nodeArtifactID ≟ "")
     || (sizeBytes <=? 0) || negb (len digest =? 64) || negb (env_json_valid e mediaJSON)
  then Some (ErrText "节点阶段产物元数据无效")
  else if negb (hex_decodes digest) then Some (ErrText "节点阶段产物 SHA-256 无效")
  else None.

(** INSERT ... ON CONFLICT(id) DO NOTHING *)
Definition insert_artifact (a : TaskArtifact) : Tx unit :=
  known ← ask (λ db, exists_where (λ x, ta_id x ≟ ta_id a) (db_artifacts db));
  if known : bool then mret tt else exec_insert a.
Definition insert_location (l : ArtifactLocation) : Tx unit :=
  known ← ask (λ db, exists_where (λ x, al_id x ≟ al_id l) (db_locations db));
  if known : bool then mret tt else exec_insert l.

Definition registerStageOutputWithConn (e : Env)
    (taskID stageID nodeID nodeArtifactID : string) (sizeBytes : Z)
    (digest mediaJSON : string) : Tx string :=
  let artifactID := stableArtifactID e "art" stageID in
  let locationID := stableArtifactID e "loc" (String.concat NUL [nodeID; nodeArtifactID]) in
  row ← select_one (λ s, st_id s ≟ stageID);
  stage ← of_option row (ErrText "阶段不存在");
  ensure (st_task_id stage ≟ taskID) (ErrText "阶段不属于任务") ;;
  row ← select_one (live_task taskID);
  task ← of_option row ErrNoRows;
  later ← select_count (λ s, (st_task_id s ≟ taskID)
                             && (st_stage_order stage <? st_stage_order s));
  let kind := if later =? 0 then "final_video" else "intermediate_video" in
  let now := nowMillis e in
  insert_artifact (mkArtifact artifactID taskID (Some stageID) kind sizeBytes (Some digest)
    (Some mediaJSON) "active" now (vt_expires task * 1000) None) ;;
  row ← select_one (λ a, ta_id a ≟ artifactID);
  a ← of_option row ErrNoRows;
  ensure ((ta_task_id a ≟ taskID) && (coalesce_str (ta_stage_id a) ≟ stageID)
          && (ta_kind a ≟ kind) && (ta_size_bytes a =? sizeBytes)
          && (coalesce_str (ta_sha256 a) ≟ digest) && (coalesce_str (ta_media_json a) ≟ mediaJSON))
    (ErrText "阶段产物幂等冲突") ;;
  insert_location (mkLocation locationID artifactID nodeID nodeArtifactID None "active" true
    sizeBytes digest now (Some now) None) ;;
  row ← select_one (λ l, al_id l ≟ locationID);
  l ← of_option row ErrNoRows;
  ensure ((al_artifact_id l ≟ artifactID) && (al_node_id l ≟ nodeID)
          && (al_node_artifact_id l ≟ nodeArtifactID) && (al_state l ≟ "active")
          && al_is_primary l && (al_size_bytes l =? sizeBytes) && (al_sha256 l ≟ digest))
    (ErrText "阶段产物位置幂等冲突") ;;
  mret artifactID.

Definition RegisterStageOutput (e : Env) (taskID stageID nodeID nodeArtifactID : string)
    (sizeBytes : Z) (digest mediaJSON : string) (db : DB) : (error + string) * DB :=
  match validateStageOutput e taskID stageID nodeID nodeArtifactID sizeBytes digest mediaJSON with
  | Some err => (inl err, db)
  | None => immediate (registerStageOutputWithConn e taskID stageID nodeID nodeArtifactID
              sizeBytes digest mediaJSON) db
  end.

Definition CompleteStageWithOutput (e : Env)
    (taskID stageID leaseToken attemptID nodeID nodeArtifactID : string)
    (sizeBytes : Z) (digest mediaJSON : string) (db : DB) : (error + string) * DB :=
  match validateStageOutput e taskID stageID nodeID nodeArtifactID sizeBytes digest mediaJSON with
  | Some err => (inl err, db)
  | None =>
      immediate (
        artifactID ← registerStageOutputWithConn e taskID stageID nodeID nodeArtifactID
                       sizeBytes digest mediaJSON;
        completeStageWithConn e stageID leaseToken attemptID artifactID ;;
        mret artifactID) db
  end.

Definition RegisterInputArtifact (e : Env) (artifactID taskID kind nodeID nodeArtifactID : string)
    (sizeBytes : Z) (digest mediaJSON : string) (db : DB) : (error + unit) * DB :=
  if (artifactID ≟ "") || (taskID ≟ "") || (nodeID ≟ "") || (nodeArtifactID ≟ "")
     || (sizeBytes <=? 0) || negb (len digest =? 64)
  then (inl (ErrText "输入素材元数据无效"), db)
  else if negb (kind ∈? ["audio_source"; "intermediate_video"; "test_output"])
  then (inl (ErrText "输入素材类型无效"), db)
  else if negb (mediaJSON ≟ "") && negb (env_json_valid e mediaJSON)
  then (inl (ErrText "输入素材媒体清单无效"), db)
  else
  immediate (
    row ← select_one (live_task taskID);
    task ← of_option row ErrNoRows;
    let now := nowMillis e in
    insert_artifact (mkArtifact artifactID taskID None kind sizeBytes (Some digest)
      (nullif_str mediaJSON) "active" now (vt_expires task * 1000) None) ;;
    let locationID := stableArtifactID e "loc" (String.concat NUL [artifactID; nodeID]) in
    exec_update (λ l, (al_artifact_id l ≟ artifactID) && al_is_primary l)
      (λ l, l <| al_is_primary := false |>) ;;
    known ← ask (λ db, exists_where (λ l, al_id l ≟ locationID) (db_locations db));
    if known : bool
    then
      exec_update (λ l, al_id l ≟ locationID)
        (λ l, l <| al_node_artifact_id := nodeArtifactID |> <| al_state := "active" |>
                <| al_is_primary := true |> <| al_size_bytes := sizeBytes |>
                <| al_sha256 := digest |> <| al_verified_at := Some now |>) ;; mret tt
    else exec_insert (mkLocation locationID artifactID nodeID nodeArtifactID None "active" true
           sizeBytes digest now (Some now) None)) db.

(** ** Locations *)

Definition GetArtifact (artifactID : string) (db : DB) : error + TaskArtifact :=
  match List.find (λ a, ta_id a ≟ artifactID) (db_artifacts db) with
  | Some a => inr a | None => inl ErrArtifactNotFound end.

(** The input carries an absent text as [None] or [Some ""], an absent time as 0. *)
Definition CreateArtifact (e : Env) (artifact : TaskArtifact) : DB → (error + unit) * DB :=
  immediate (exec_insert (artifact
    <| ta_stage_id := nullif_str (coalesce_str (ta_stage_id artifact)) |>
    <| ta_sha256 := nullif_str (coalesce_str (ta_sha256 artifact)) |>
    <| ta_media_json := nullif_str (coalesce_str (ta_media_json artifact)) |>
    <| ta_state := if ta_state artifact ≟ "" then "active" else ta_state artifact |>
    <| ta_created_at := if ta_created_at artifact =? 0 then nowMillis e else ta_created_at artifact |>
    <| ta_deleted_at := None |>)).

Definition CreateArtifactLocation (e : Env) (location : ArtifactLocation) : DB → (error + unit) * DB :=
  immediate (exec_insert (location
    <| al_storage_key_fingerprint := nullif_str (coalesce_str (al_storage_key_fingerprint location)) |>
    <| al_state := if al_state location ≟ "" then "active" else al_state location |>
    <| al_created_at := if al_created_at location =? 0 then nowMillis e else al_created_at location |>
    <| al_verified_at := nullif_int (coalesce_int (al_verified_at location)) |>
    <| al_deleted_at := None |>)).

Definition GetArtifactLocation (locationID : string) (db : DB) : error + ArtifactLocation :=
  match List.find (λ l, al_id l ≟ locationID) (db_locations db) with
  | Some l => inr l | None => inl ErrArtifactNotFound end.

(** Two rows are read to see that there is only one. *)
Definition GetActiveArtifactLocation (artifactID nodeID : string) (db : DB) : error + ArtifactLocation :=
  match List.filter (λ l, (al_artifact_id l ≟ artifactID) && (al_node_id l ≟ nodeID)
                          && (al_state l ≟ "active")) (db_locations db) with
  | [] => inl ErrArtifactNotFound
  | [l] => inr l
  | _ => inl (ErrText "同一产物在节点上存在多个活动位置")
  end.

(** The artifact, its primary copy and the task whose result it is. *)
Definition GetArtifactAccess (artifactID : string) (db : DB)
    : error + (TaskArtifact * ArtifactLocation * Task) :=
  match List.find (λ atl, let '(a, t, l) := atl in
                     (ta_id a ≟ artifactID) && (vt_result_artifact_id t ≟ Some (ta_id a)))
          (join_on (λ at_ l, (al_artifact_id l ≟ ta_id at_.1) && (al_state l ≟ "active") && al_is_primary l)
             (join_on (λ a t, vt_task_id t ≟ ta_task_id a) (db_artifacts db) (db_video_tasks db))
             (db_locations db)) with
  | Some (a, t, l) => inr (a, l, t)
  | None => inl ErrArtifactNotFound
  end.

Definition GetPrimaryArtifactLocation (artifactID : string) (db : DB) : error + ArtifactLocation :=
  match List.find (λ l, (al_artifact_id l ≟ artifactID) && (al_state l ≟ "active")
                        && al_is_primary l) (db_locations db) with
  | Some l => inr l | None => inl ErrArtifactNotFound end.

Definition SetPrimaryArtifactLocation (artifactID locationID : string)
    : DB → (error + unit) * DB :=
  immediate (
    exec_update (λ l, al_artifact_id l ≟ artifactID) (λ l, l <| al_is_primary := false |>) ;;
    n ← exec_update (λ l, (al_id l ≟ locationID) && (al_artifact_id l ≟ artifactID)
                          && (al_state l ≟ "active"))
      (λ l, l <| al_is_primary := true |>);
    oneRow n).

Definition UpdateImportingArtifactLocation (locationID nodeArtifactID : string)
    (sizeBytes : Z) (digest : string) : DB → (error + unit) * DB :=
  statement (
    exec_update (λ l, (al_id l ≟ locationID)
                      && ((al_state l ≟ "importing")
                          || ((al_state l ≟ "active") && (al_node_artifact_id l ≟ nodeArtifactID)
                              && (al_size_bytes l =? sizeBytes) && (al_sha256 l ≟ digest))))
      (λ l, l <| al_node_artifact_id := nodeArtifactID |> <| al_size_bytes := sizeBytes |>
              <| al_sha256 := digest |>)).

Definition ActivatePrimaryArtifactLocation (e : Env) (artifactID locationID : string)
    (sizeBytes : Z) (digest : string) : DB → (error + unit) * DB :=
  immediate (
    row ← select_one (λ a, (ta_id a ≟ artifactID) && (ta_state a ≟ "active"));
    a ← of_option row ErrArtifactNotFound;
    ensure ((ta_size_bytes a =? sizeBytes) && (coalesce_str (ta_sha256 a) ≟ digest))
      (ErrText "产物迁移完整性不匹配") ;;
    exec_update (λ l, al_artifact_id l ≟ artifactID) (λ l, l <| al_is_primary := false |>) ;;
    n ← exec_update (λ l, (al_id l ≟ locationID) && (al_artifact_id l ≟ artifactID)
                          && (al_state l ∈? ["importing"; "active"]))
      (λ l, l <| al_state := "active" |> <| al_is_primary := true |>
              <| al_size_bytes := sizeBytes |> <| al_sha256 := digest |>
              <| al_verified_at := Some (nowMillis e) |>);
    oneRow n).

(** ** Deletion *)

Definition gone : list string := ["deleted"; "missing"].

(** The copies of a task's artifacts that still exist. *)
Definition task_copies (taskID : string) (db : DB) : list (TaskArtifact * ArtifactLocation) :=
  join_on (λ a l, (al_artifact_id l ≟ ta_id a) && (ta_task_id a ≟ taskID)
                  && negb (al_state l ∈? gone))
    (db_artifacts db) (db_locations db).

Definition deletion_candidates (taskID : string) (db : DB)
    : list (TaskArtifact * ArtifactLocation) :=
  order_by_text (λ al, (ta_id al.1, al_id al.2))
    (List.filter (λ al, negb (ta_state al.1 ∈? gone)) (task_copies taskID db)).

Fixpoint insert_items (e : Env) (jobID : string) (now : Z) (k : nat)
    (cs : list (TaskArtifact * ArtifactLocation)) : Tx unit :=
  match cs with
  | [] => mret tt
  | (a, l) :: cs =>
      exec_insert (mkDeletionItem (env_uuid e k) jobID (ta_id a) (al_id l) (al_node_id l)
        DiPending (env_uuid e (S k)) 0 None None None None None 0 now now None) ;;
      insert_items e jobID now (S (S k)) cs
  end.

(** [created_at] and [deleted_at] of this operation are milliseconds, also in
    video_tasks. *)
Definition RequestTaskDeletion (e : Env) (taskID reason requestedBy : string)
    : DB → (error + DeletionJob) * DB :=
  let now := nowMillis e in
  immediate (
    row ← select_one (λ t, vt_task_id t ≟ taskID);
    task ← of_option row ErrDeletionNotFound;
    ensure (vt_live task) (ErrText "任务已存在删除意图") ;;
    candidates ← ask (deletion_candidates taskID);
    let total := Z.of_nat (length candidates) in
    let job := mkDeletionJob (env_uuid e 0) reason
                 (if total =? 0 then "succeeded" else "pending") requestedBy total 0 0 0
                 now None (if total =? 0 then Some now else None) now None None None false 0 0
                 None in
    exec_insert job ;;
    insert_items e (dj_id job) now 1 candidates ;;
    ids ← ask (λ db, map ta_id (List.filter (λ a, ta_task_id a ≟ taskID) (db_artifacts db)));
    exec_update (λ l, (al_artifact_id l ∈? ids) && negb (al_state l ∈? gone))
      (λ l, l <| al_state := "delete_pending" |> <| al_is_primary := false |>) ;;
    exec_update (λ a, (ta_task_id a ≟ taskID) && negb (ta_state a ∈? gone))
      (λ a, a <| ta_state := "delete_pending" |>) ;;
    exec_delete (λ k, ik_task_id k ≟ taskID) ;;
    n ← exec_update (live_task taskID)
      (λ t, t <| vt_deleted_at := Some now |>
              <| vt_deletion_state := if total =? 0 then "deleted" else "pending" |>
              <| vt_updated_at := now |> <| vt_version := vt_version t + 1 |>);
    oneRow n ;;
    mret job).

Definition RequestOwnedTaskDeletion (e : Env) (owner taskID : string) (db : DB)
    : (error + DeletionJob) * DB :=
  match List.find (λ t, vt_task_id t ≟ taskID) (db_video_tasks db) with
  | None => (inl ErrDeletionNotFound, db)
  | Some t =>
      if negb (vt_owner t ≟ owner) || negb (vt_live t) then (inl ErrDeletionNotFound, db)
      else if negb (vt_status t ∈? [StatusSucceeded; StatusFailed; StatusCancelled])
      then (inl (ErrText "任务当前状态不可删除"), db)
      else RequestTaskDeletion e taskID "task_delete" owner db
  end.

Definition ClaimDeletionItem (e : Env) (nodeID leaseToken : string) (leaseDuration : Z)
    : DB → (error + DeletionItem) * DB :=
  let now := nowMillis e in
  immediate (
    row ← ask (λ db, head (order_by_key (λ i, (di_created_at i, di_id i))
      (List.filter (λ i, (di_node_id i ≟ nodeID)
                         && (di_status i ∈? [DiPending; DiRetryWait; DiDeleting])
                         && null_or_le (di_next_attempt_at i) now
                         && null_or_le (di_lease_expires_at i) now) (db_deletion_items db))));
    item ← of_option row ErrNoClaimableDeletion;
    raising ErrNoClaimableDeletion (
      n ← exec_update (λ i, (di_id i ≟ di_id item) && null_or_le (di_lease_expires_at i) now)
        (λ i, i <| di_status := DiDeleting |> <| di_lease_token := Some leaseToken |>
                <| di_lease_expires_at := Some (now + Milliseconds leaseDuration) |>
                <| di_attempt_count := di_attempt_count i + 1 |> <| di_updated_at := now |>);
      oneRow n) ;;
    exec_update (λ l, (al_id l ≟ di_location_id item)
                      && (al_state l ∈? ["active"; "delete_pending"; "delete_failed"; "deleting"]))
      (λ l, l <| al_state := "deleting" |>) ;;
    exec_update (λ j, (dj_id j ≟ di_job_id item) && (dj_status j ≟ "pending"))
      (λ j, j <| dj_status := "running" |> <| dj_started_at := coalesce (dj_started_at j) now |>
              <| dj_updated_at := now |>) ;;
    row ← select_one (λ i, di_id i ≟ di_id item);
    of_option row ErrNoRows).

Definition RenewDeletionLease (e : Env) (itemID leaseToken : string) (leaseDuration : Z)
    : DB → (error + unit) * DB :=
  let now := nowMillis e in
  statement (
    exec_update (λ i, (di_id i ≟ itemID) && (di_lease_token i ≟ Some leaseToken)
                      && (di_status i ≟ DiDeleting) && sql_gt (di_lease_expires_at i) now)
      (λ i, i <| di_lease_expires_at := Some (now + Milliseconds leaseDuration) |>
              <| di_updated_at := now |>)).

Definition leased_item (itemID leaseToken : string) (i : DeletionItem) : bool :=
  (di_id i ≟ itemID) && (di_lease_token i ≟ Some leaseToken) && (di_status i ≟ DiDeleting).

Definition in_job (jobID : string) (ss : list DeletionStatus) (i : DeletionItem) : bool :=
  (di_job_id i ≟ jobID) && (di_status i ∈? ss).

Definition update_deletion_state (artifactID state : string) (now : Z) : Tx unit :=
  row ← select_one (λ a, ta_id a ≟ artifactID);
  a ← of_option row ErrNoRows;
  exec_update (λ t, (vt_task_id t ≟ ta_task_id a) && negb (vt_live t))
    (λ t, t <| vt_deletion_state := state |> <| vt_updated_at := now |>
            <| vt_version := vt_version t + 1 |>) ;;
  mret tt.

Definition FailDeletionItem (e : Env) (itemID leaseToken code message : string)
    (nextAttemptMS : Z) (terminal : bool) : DB → (error + unit) * DB :=
  let now := nowMillis e in
  immediate (
    row ← select_one (leased_item itemID leaseToken);
    item ← of_option row ErrNoClaimableDeletion;
    exec_update (λ i, di_id i ≟ itemID)
      (λ i, i <| di_status := if terminal then DiFailed else DiRetryWait |>
              <| di_next_attempt_at := if terminal then None else Some nextAttemptMS |>
              <| di_lease_token := None |> <| di_lease_expires_at := None |>
              <| di_last_error_code := Some code |> <| di_last_error_message := Some message |>
              <| di_updated_at := now |>) ;;
    exec_update (λ l, al_id l ≟ di_location_id item)
      (λ l, l <| al_state := "delete_failed" |>) ;;
    pending ← select_count (λ i, (di_job_id i ≟ di_job_id item)
      && negb (di_status i ∈? [DiDeleted; DiAlreadyAbsent; DiSkipped; DiFailed]));
    succeeded ← select_count (in_job (di_job_id item) [DiDeleted; DiAlreadyAbsent]);
    let closed := terminal && (pending =? 0) in
    failed ← select_count (in_job (di_job_id item) [DiFailed]);
    exec_update (λ j, dj_id j ≟ di_job_id item)
      (λ j, j <| dj_status := if closed
                              then if 0 <? succeeded then "partial_failed" else "failed"
                              else "running" |>
              <| dj_failed_count := failed |>
              <| dj_finished_at := if closed then Some now else None |>
              <| dj_updated_at := now |>) ;;
    update_deletion_state (di_artifact_id item)
      (if closed then if 0 <? succeeded then "partial" else "failed" else "pending") now).

Definition CompleteDeletionItem (e : Env) (itemID leaseToken : string) (absent : bool)
    (deletedBytes : Z) : DB → (error + unit) * DB :=
  let now := nowMillis e in
  immediate (
    row ← select_one (leased_item itemID leaseToken);
    item ← of_option row ErrNoClaimableDeletion;
    exec_update (λ i, di_id i ≟ itemID)
      (λ i, i <| di_status := if absent then DiAlreadyAbsent else DiDeleted |>
              <| di_deleted_bytes := deletedBytes |> <| di_deleted_at := Some now |>
              <| di_lease_token := None |> <| di_lease_expires_at := None |>
              <| di_updated_at := now |>) ;;
    exec_update (λ l, al_id l ≟ di_location_id item)
      (λ l, l <| al_state := if absent then "missing" else "deleted" |>
              <| al_is_primary := false |> <| al_deleted_at := Some now |>) ;;
    remaining ← select_count (λ l, (al_artifact_id l ≟ di_artifact_id item)
                                   && negb (al_state l ∈? gone));
    (if remaining =? 0
     then exec_update (λ a, ta_id a ≟ di_artifact_id item)
            (λ a, a <| ta_state := "deleted" |> <| ta_deleted_at := Some now |>) ;; mret tt
     else mret tt) ;;
    total ← select_count (λ i, di_job_id i ≟ di_job_id item);
    succeeded ← select_count (in_job (di_job_id item) [DiDeleted; DiAlreadyAbsent]);
    failed ← select_count (in_job (di_job_id item) [DiFailed]);
    let closed := succeeded + failed =? total in
    exec_update (λ j, dj_id j ≟ di_job_id item)
      (λ j, j <| dj_status := if closed
                              then if 0 <? failed then "partial_failed" else "succeeded"
                              else "running" |>
              <| dj_succeeded_count := succeeded |> <| dj_failed_count := failed |>
              <| dj_deleted_bytes := dj_deleted_bytes j + deletedBytes |>
              <| dj_finished_at := if closed then Some now else None |>
              <| dj_updated_at := now |>) ;;
    row ← select_one (λ a, ta_id a ≟ di_artifact_id item);
    a ← of_option row ErrNoRows;
    taskRemaining ← ask (λ db, Z.of_nat (length (task_copies (ta_task_id a) db)));
    taskFailed ← ask (λ db, Z.of_nat (length
      (join_on (λ i a', (ta_id a' ≟ di_artifact_id i) && (ta_task_id a' ≟ ta_task_id a)
                        && (di_status i ≟ DiFailed))
        (db_deletion_items db) (db_artifacts db))));
    update_deletion_state (di_artifact_id item)
      (if taskRemaining =? 0 then "deleted"
       else if 0 <? taskFailed then if succeeded =? 0 then "failed" else "partial"
       else "pending") now).

(** ** Purging *)

(** domain.TaskArtifactLocation *)
Record TaskArtifactLocation := mkTaskLocation {
  tl_ID : string;
  tl_TaskID : string;
  tl_NodeID : string;
  tl_NodeArtifactID : string;
  tl_State : string
}.
#[export] Instance TaskArtifactLocation_eq_dec : EqDecision TaskArtifactLocation.
Proof. solve_decision. Defined.

Definition listTaskArtifactLocationsWithConn (taskID : string) (db : DB)
    : list TaskArtifactLocation :=
  map (λ al, mkTaskLocation (al_id al.2) (ta_task_id al.1) (al_node_id al.2)
               (al_node_artifact_id al.2) (al_state al.2)) (task_copies taskID db).

(** [byID] keeps the last location of an ID. *)
Definition sameTaskArtifactLocations (a b : list TaskArtifactLocation) : bool :=
  (length a =? length b)%nat
  && forallb (λ x, match List.find (λ y, tl_ID y ≟ tl_ID x) (rev a) with
                   | Some y => y ≟ x
                   | None => false
                   end) b.

Definition profile_refs (taskID : string) (db : DB) : Z :=
  let ids := map ta_id (List.filter (λ a, ta_task_id a ≟ taskID) (db_artifacts db)) in
  count_where (λ r, match r with Some id => id ∈? ids | None => false end)
    (db_profile_test_artifacts db).

Definition EnsureTaskPurgeReady (taskID : string) (db : DB) : error + unit :=
  match List.find (live_task taskID) (db_video_tasks db) with
  | None => inl ErrTaskNotFound
  | Some t =>
      if negb (AdminCanDelete (vt_status t)) then inl ErrTaskNotOperable
      else if negb (count_where (λ b, nb_task_id b ≟ taskID) (db_barriers db) =? 0)
      then inl ErrCancelReconcilePending
      else if negb (profile_refs taskID db =? 0) then inl ErrStateConflict
      else inr tt
  end.
