(* ===== verification/Remote.v ===== *)
(** * Remote runs (internal/store/sqlite/remote_task_store.go)

    A task of the TK2SD protocol is submitted to a remote service and polled.
    Its run records how far the submission got, so that a crash between
    submitting and recording neither loses nor repeats a submission. *)

From S2P Require Import Prelude Domain Tx Database Sql GoStrings Catalog Paging TaskRouting Callbacks Queue.

Definition Seconds (d : Z) : Z := Z.quot d Second.

Definition GetRemoteRun (taskID : string) (db : DB) : error + RemoteRun :=
  match List.find (λ r, rr_task_id r ≟ taskID) (db_remote_runs db) with
  | Some r => inr r
  | None => inl ErrTaskNotFound
  end.

(** ** Claiming *)

(** domain.TK2SDAdmission *)
Record TK2SDAdmission := mkAdmission {
  ad_Capacity : Z;
  ad_Occupied : Z;
  ad_Cooling : Z;
  ad_Queued : Z;
  ad_CanDispatch : bool;
  ad_LeasedTaskIDs : list string
}.

(** Tasks that hold a slot of the node. *)
Definition slot_of (nodeID : string) (t : Task) : bool :=
  (vt_upstream_id t ≟ Some nodeID) && vt_upstream_slot_active t.

Definition admission_open (a : TK2SDAdmission) : bool :=
  negb (negb (ad_CanDispatch a) || (0 <? ad_Queued a) || (ad_Capacity a <? 1)
        || (ad_Occupied a <? 0) || (ad_Cooling a <? 0) || (ad_Capacity a <? ad_Occupied a)
        || (ad_Capacity a - ad_Occupied a <? ad_Cooling a)).

(** Slots of the node whose remote task the service reports as leased; a slot
    without a remote task is the empty string, which is never leased. *)
Definition admission_overlap (nodeID : string) (a : TK2SDAdmission) (db : DB) : Z :=
  count_where (λ t,
      let id := default "" (remote_run_of db t ≫= rr_upstream_task_id) in
      negb (id ≟ "") && (id ∈? ad_LeasedTaskIDs a))
    (List.filter (slot_of nodeID) (db_video_tasks db)).

(** The capacity left to the claim: at most the argument, the configured one,
    and what the remote service admits. *)
Definition admitted_capacity (nodeID : string) (admission : list TK2SDAdmission) (capacity : Z) (db : DB)
    : error + Z :=
  match admission with
  | [] => inr capacity
  | [a] =>
      if negb (admission_open a) then inl ErrUpstreamBusy
      else
        let overlap := admission_overlap nodeID a db in
        if ad_Occupied a <? overlap then inl ErrUpstreamBusy
        else inr (Z.min capacity (ad_Capacity a - ad_Occupied a - ad_Cooling a + overlap))
  | _ => inl ErrStateConflict
  end.

(** The join of the candidate query, without its ORDER BY. *)
Definition remote_candidate (db : DB) (nodeID fingerprint : string) (now : Z) (t : Task)
    (m : NodeModelRow) : bool :=
  (nm_node_id m ≟ nodeID) && (nm_model_id m ≟ vt_model (vt_request t))
  && (vt_protocol_version t ≟ Some ProtocolTK2SD) && (vt_route_state t ≟ RouteReady)
  && has_status queued_statuses t && vt_live t && negb (vt_upstream_slot_active t)
  && nm_enabled m && nm_present m
  && exists_where (λ c, (nc_node_id c ≟ nm_node_id m) && negb (is_null (nc_last_success_at c))
                        && (nc_connection_fingerprint c ≟ fingerprint)
                        && (negb (nc_source c ≟ "discovered") || sql_gt (nc_valid_until c) now))
       (db_catalogs db)
  && (now <? vt_expires t)
  && negb (exists_where (λ r, rr_task_id r ≟ vt_task_id t) (db_remote_runs db)).

Definition remote_accepts (t : Task) (m : NodeModelRow) : bool :=
  match vt_routing_snapshot_json t ≫= unmarshal, unmarshal (nm_capabilities_json m) with
  | Some route, Some caps =>
      (rs_Model route ≟ vt_model (vt_request t)) && (rs_ProtocolVersion route ≟ ProtocolTK2SD)
      && Accepts caps (rs_Requirements route)
  | _, _ => false
  end.

Definition next_remote (nodeID fingerprint : string) (now : Z) (db : DB) : option Task :=
  fst <$> List.find (λ tm, remote_accepts tm.1 tm.2)
    (order_by (λ tm, vt_queue_seq tm.1)
      (join_on (remote_candidate db nodeID fingerprint now) (db_video_tasks db)
        (db_node_models db))).

Definition CR : Ascii.ascii := Ascii.ascii_of_nat 13.
Definition LF : Ascii.ascii := Ascii.ascii_of_nat 10.

Definition submission_key (instance taskID : string) : string :=
  String.concat "" ["proxy:"; instance; ":"; taskID].

Definition ClaimNextRemote (e : Env) (o : Options) (nodeID : string) (nodeVersion capacity : Z)
    (admission : list TK2SDAdmission) (db : DB) : (error + Task) * DB :=
  if capacity <? 1 then (inl ErrUpstreamBusy, db)
  else immediate (
    row ← select_one (λ n, (mn_id n ≟ nodeID) && (mn_version n =? nodeVersion) && mn_enabled n
                           && is_null (mn_deleted_at n)
                           && (mn_protocol_version n ≟ ProtocolTK2SD));
    node ← of_option row ErrNodeConfigStale;
    let capacity := Z.min capacity (mn_max_concurrency node) in
    active ← select_count (slot_of nodeID);
    capacity ← query (admitted_capacity nodeID admission capacity);
    ensure (active <? capacity) ErrUpstreamBusy ;;
    let now := nowUnix e in
    let fingerprint := env_sha256_hex e (String.concat NUL
      [ProtocolTK2SD; mn_service_url node; coalesce_str (mn_api_key_fingerprint node)]) in
    found ← ask (next_remote nodeID fingerprint now);
    ensure (negb ((vt_task_id <$> found) ∈? [None; Some ""])) ErrQueueEmpty ;;
    task ← of_option found ErrQueueEmpty;
    instance ← ask db_instance_id;
    let key := submission_key instance (vt_task_id task) in
    ensure (negb ((instance ≟ "") || (200 <? len key) || ContainsByte key CR
                  || ContainsByte key LF)) ErrStateConflict ;;
    n ← exec_update (λ t, (vt_task_id t ≟ vt_task_id task) && has_status queued_statuses t)
      (λ t, t <| vt_status := StatusDispatching |> <| vt_cancel_locked := true |>
              <| vt_upstream_id := Some nodeID |> <| vt_upstream_slot_active := true |>
              <| vt_upstream_node_version := nodeVersion |>
              <| vt_delivery_required := mn_replace_result_url node |>
              <| vt_dispatch_snapshot_json := Some (mkDispatch nodeID nodeVersion ProtocolTK2SD
                   (mn_service_url node) (vt_model (vt_request task))) |>
              <| vt_started_at := coalesce (vt_started_at t) now |>
              <| vt_attempt_started_at := Some now |>
              <| vt_updated_at := now |> <| vt_version := vt_version t + 1 |>);
    oneRow n ;;
    exec_insert (mkRemoteRun (vt_task_id task) nodeID RemotePreparing key None None None None
      CancelNone false 0 None None None "" now now) ;;
    rebalance o now ;;
    query (getWith (vt_owner task) (vt_task_id task) now)) db.

Definition QueuedRemoteCount (e : Env) (db : DB) : Z :=
  count_where (λ t, (vt_protocol_version t ≟ Some ProtocolTK2SD) && has_status queued_statuses t
                    && negb (vt_upstream_slot_active t) && vt_live t
                    && (nowUnix e <? vt_expires t)) (db_video_tasks db).

Definition ListActiveRemoteTasks (e : Env) (nodeID : string) (db : DB) : list Task :=
  let now := nowUnix e in
  order_by vt_queue_seq (List.filter (λ t,
      slot_of nodeID t && vt_live t && (vt_protocol_version t ≟ Some ProtocolTK2SD)
      && exists_where (λ r, (rr_task_id r ≟ vt_task_id t) && negb (rr_phase r ≟ RemoteTerminal)
                            && negb (rr_reconciliation_required r)
                            && (coalesce_int (rr_next_poll_at r) <=? now)
                            && (coalesce_int (rr_lease_expires_at r) <=? now))
           (db_remote_runs db)) (db_video_tasks db)).

(** ** Leases *)

(** The run a worker holds under its token, the lease not yet expired. *)
Definition held (r : RemoteRun) (now : Z) (x : RemoteRun) : bool :=
  (rr_task_id x ≟ rr_task_id r) && (rr_node_id x ≟ rr_node_id r)
  && (rr_lease_token x ≟ Some (coalesce_str (rr_lease_token r)))
  && sql_gt (rr_lease_expires_at x) now.

Definition AcquireRemoteLease (e : Env) (taskID nodeID token : string) (ttl : Z) (db : DB)
    : (error + RemoteRun) * DB :=
  if (token ≟ "") || (ttl <? Second) then (inl ErrStateConflict, db)
  else
  let now := nowUnix e in
  immediate (
    tasks ← ask db_video_tasks;
    n ← exec_update
      (λ r, (rr_task_id r ≟ taskID) && (rr_node_id r ≟ nodeID)
            && negb (rr_phase r ≟ RemoteTerminal) && negb (rr_reconciliation_required r)
            && (coalesce_int (rr_lease_expires_at r) <=? now)
            && exists_where (λ t, (vt_task_id t ≟ rr_task_id r) && slot_of (rr_node_id r) t
                                  && vt_live t) tasks)
      (λ r, r <| rr_lease_token := Some token |>
              <| rr_lease_expires_at := Some (now + Seconds ttl) |> <| rr_updated_at := now |>);
    oneRow n ;;
    query (GetRemoteRun taskID)) db.

Definition RenewRemoteLease (e : Env) (r : RemoteRun) (ttl : Z) (db : DB) : (error + unit) * DB :=
  if ttl <? Second then (inl ErrStateConflict, db)
  else
  let now := nowUnix e in
  statement (
    exec_update (λ x, held r now x && negb (rr_phase x ≟ RemoteTerminal))
      (λ x, x <| rr_lease_expires_at := Some (now + Seconds ttl) |> <| rr_updated_at := now |>)) db.

Definition ReleaseRemoteLease (e : Env) (r : RemoteRun) (next : Z) (code : string)
    (reconcile : bool) : DB → (error + unit) * DB :=
  let now := nowUnix e in
  statement (
    exec_update (λ x, held r now x && negb (rr_phase x ≟ RemoteTerminal))
      (λ x, x <| rr_lease_token := None |> <| rr_lease_expires_at := None |>
              <| rr_next_poll_at := Some next |> <| rr_last_error_code := code |>
              <| rr_reconciliation_required := reconcile |> <| rr_updated_at := now |>)).

(** ** Submission *)

Definition PrepareRemoteRequest (e : Env) (r : RemoteRun) (body : string) (db : DB)
    : (error + unit) * DB :=
  if negb (env_json_valid e body) then (inl ErrStateConflict, db)
  else
  let now := nowUnix e in
  statement (
    exec_update (λ x, held r now x && (rr_phase x ≟ RemotePreparing)
                      && (rr_cancel_state x ≟ CancelNone))
      (λ x, x <| rr_phase := RemotePrepared |> <| rr_request_body_json := Some body |>
              <| rr_request_body_hash := Some (env_sha256_hex e body) |>
              <| rr_updated_at := now |>)) db.

Definition BeginRemoteSubmission (e : Env) (r : RemoteRun) : DB → (error + unit) * DB :=
  let now := nowUnix e in
  statement (
    exec_update (λ x, held r now x && negb (rr_reconciliation_required x)
                      && ((rr_phase x ≟ RemoteSubmitIntent)
                          || ((rr_phase x ≟ RemotePrepared) && (rr_cancel_state x ≟ CancelNone))))
      (λ x, x <| rr_phase := RemoteSubmitIntent |>
              <| rr_submit_attempts := rr_submit_attempts x + 1 |> <| rr_updated_at := now |>)).

Definition BindRemoteTask (e : Env) (r : RemoteRun) (id : string) (db : DB)
    : (error + unit) * DB :=
  if id ≟ "" then (inl ErrStateConflict, db)
  else
  let now := nowUnix e in
  immediate (
    n ← exec_update (λ x, held r now x && (rr_phase x ≟ RemoteSubmitIntent))
      (λ x, x <| rr_phase := RemoteSubmitted |> <| rr_upstream_task_id := Some id |>
              <| rr_upstream_status := Some UpQueued |> <| rr_last_error_code := "" |>
              <| rr_updated_at := now |>);
    oneRow n ;;
    n ← exec_update (λ t, (vt_task_id t ≟ rr_task_id r) && slot_of (rr_node_id r) t
                          && has_status active_statuses t)
      (λ t, t <| vt_upstream_job_id := Some id |>
              <| vt_status := if vt_status t ≟ StatusCancelling then StatusCancelling
                              else StatusRunning |>
              <| vt_updated_at := now |> <| vt_version := vt_version t + 1 |>);
    oneRow n) db.

Definition parse_observed (s : string) : option UpstreamStatus :=
  if s ≟ "queued" then Some UpQueued else if s ≟ "running" then Some UpRunning else None.

Definition ObserveRemoteTask (e : Env) (r : RemoteRun) (status cancelState : string) (db : DB)
    : (error + unit) * DB :=
  match parse_observed status with
  | None => (inl ErrStateConflict, db)
  | Some observed =>
  if negb (cancelState ∈? ["none"; "requested"; "rejected"]) then (inl ErrStateConflict, db)
  else
  let now := nowUnix e in
  immediate (
    n ← exec_update (λ x, held r now x && (rr_phase x ≟ RemoteSubmitted))
      (λ x, x <| rr_upstream_status := Some observed |>
              <| rr_cancel_state := if cancelState ≟ "rejected" then CancelRejected
                                    else rr_cancel_state x |>
              <| rr_updated_at := now |>);
    oneRow n ;;
    (if cancelState ≟ "rejected"
     then exec_update (λ t, (vt_task_id t ≟ rr_task_id r) && (vt_status t ≟ StatusCancelling))
            (λ t, t <| vt_status := StatusRunning |> <| vt_updated_at := now |>
                    <| vt_version := vt_version t + 1 |>) ;; mret tt
     else mret tt)) db
  end.

(** ** Cancellation *)

Definition RequestRemoteCancel (e : Env) (taskID : string) : DB → (error + unit) * DB :=
  let now := nowUnix e in
  immediate (
    r ← query (GetRemoteRun taskID);
    if rr_phase r ≟ RemoteTerminal
    then ensure (rr_upstream_status r ≟ Some UpCancelled) ErrRemoteNotCancellable
    else
      ensure (negb ((rr_upstream_status r ≟ Some UpRunning) || (rr_cancel_state r ≟ CancelRejected)))
        ErrRemoteNotCancellable ;;
      n ← exec_update (λ t, (vt_task_id t ≟ taskID) && vt_upstream_slot_active t && vt_live t
                            && has_status active_statuses t)
        (λ t, t <| vt_status := StatusCancelling |>
                <| vt_cancel_requested_at := coalesce (vt_cancel_requested_at t) now |>
                <| vt_updated_at := now |> <| vt_version := vt_version t + 1 |>);
      oneRow n ;;
      exec_update (λ x, rr_task_id x ≟ taskID)
        (λ x, x <| rr_cancel_state := CancelRequested |> <| rr_next_poll_at := None |>
                <| rr_updated_at := now |>) ;;
      mret tt).

(** ** Assets *)

Definition GetRemoteAsset (taskID nodeID : string) (index : Z) (db : DB) : error + NodeAsset :=
  match List.find (λ a, (na_task_id a ≟ taskID) && (na_node_id a ≟ nodeID)
                        && (na_content_index a =? index)) (db_node_assets db) with
  | Some a => inr a
  | None => inl ErrTaskNotFound
  end.

(** INSERT ... SELECT ... WHERE EXISTS ... ON CONFLICT DO UPDATE ... WHERE: no
    row when the run is not held, one row for a new asset or for the same
    asset again, none for a different asset at the same place. *)
Definition SaveRemoteAsset (e : Env) (r : RemoteRun) (a : NodeAsset) (db : DB)
    : (error + unit) * DB :=
  if negb (na_task_id a ≟ rr_task_id r) || negb (na_node_id a ≟ rr_node_id r)
  then (inl ErrStateConflict, db)
  else
  let now := nowUnix e in
  let same_place x := (na_task_id x ≟ na_task_id a) && (na_node_id x ≟ na_node_id a)
                      && (na_content_index x =? na_content_index a) in
  statement (
    allowed ← ask (λ db, exists_where
      (λ x, held r now x && (rr_phase x ≟ RemotePreparing) && (rr_cancel_state x ≟ CancelNone))
      (db_remote_runs db));
    taken ← ask (λ db, exists_where same_place (db_node_assets db));
    if negb allowed then mret 0
    else if taken : bool
    then
      exec_update (λ x, same_place x && (na_asset_id x ≟ na_asset_id a)
                        && (na_content_type x ≟ na_content_type a) && (na_role x ≟ na_role a)
                        && (na_source_sha256 x ≟ na_source_sha256 a)
                        && (na_size_bytes x =? na_size_bytes a)
                        && (na_metadata_json x ≟ na_metadata_json a))
        (λ x, x <| na_updated_at := now |>)
    else exec_insert (a <| na_created_at := now |> <| na_updated_at := now |>) ;; mret 1) db.

(** ** Completion *)

(** domain.RemoteCompletion; the upload job is its task, its ID and its
    object key. *)
Record RemoteCompletion := mkCompletion {
  co_Status : string;
  co_ResultURL : string;
  co_ResultExpiresAt : Z;
  co_MetadataJSON : string;
  co_MetadataStatus : string;
  co_Ratio : string;
  co_ErrorCode : string;
  co_ErrorMessage : string;
  co_Feedback : option UpstreamFeedback;
  co_UploadJob : option (string * string * string)
}.

Definition parse_terminal (s : string) : option (UpstreamStatus * InternalStatus) :=
  if s ≟ "succeeded" then Some (UpSucceeded, StatusSucceeded)
  else if s ≟ "failed" then Some (UpFailed, StatusFailed)
  else if s ≟ "cancelled" then Some (UpCancelled, StatusCancelled)
  else None.

Definition new_upload_job (id taskID objectKey : string) (ms : Z) : ResultUploadJob :=
  mkUploadJob id taskID objectKey UploadPending 1 0 3 None None None "" "" "" 0 None None ms ms 1.

Definition CompleteRemoteRun (e : Env) (r : RemoteRun) (c : RemoteCompletion) (db : DB)
    : (error + unit) * DB :=
  match parse_terminal (co_Status c) with
  | None => (inl ErrStateConflict, db)
  | Some (upstream, final) =>
  if (co_Status c ≟ "succeeded") && (co_ResultURL c ≟ "") then (inl ErrStateConflict, db)
  else
  let now := nowUnix e in
  let ms := nowMillis e in
  let job := if final ≟ StatusSucceeded then co_UploadJob c else None in
  immediate (
    n ← exec_update (λ x, held r now x && negb (rr_phase x ≟ RemoteTerminal))
      (λ x, x <| rr_phase := RemoteTerminal |> <| rr_upstream_status := Some upstream |>
              <| rr_cancel_state := if upstream ≟ UpCancelled then CancelConfirmed
                                    else if rr_cancel_state x ≟ CancelRequested
                                    then CancelRejected else rr_cancel_state x |>
              <| rr_lease_token := None |> <| rr_lease_expires_at := None |>
              <| rr_next_poll_at := None |> <| rr_last_error_code := co_ErrorCode c |>
              <| rr_updated_at := now |>);
    oneRow n ;;
    n ← exec_update (λ t, (vt_task_id t ≟ rr_task_id r) && slot_of (rr_node_id r) t
                          && vt_live t && has_status active_statuses t)
      (λ t, t <| vt_status := if is_null job then final else StatusReconciling |>
              <| vt_upstream_slot_active := false |>
              <| vt_result_internal_url :=
                   match vt_result_internal_url t with
                   | Some u => Some u | None => nullif_str (co_ResultURL c) end |>
              <| vt_result_public_url := if is_null job then nullif_str (co_ResultURL c) else None |>
              <| vt_latest_result_url := nullif_str (co_ResultURL c) |>
              <| vt_latest_result_expires_at := nullif_int (co_ResultExpiresAt c) |>
              <| vt_result_metadata_json := nullif_str (co_MetadataJSON c) |>
              <| vt_metadata_status := if co_MetadataStatus c ≟ "" then "none"
                                       else co_MetadataStatus c |>
              <| vt_ratio_actual := nullif_str (co_Ratio c) |>
              <| vt_error_code := nullif_str (co_ErrorCode c) |>
              <| vt_error_message := nullif_str (co_ErrorMessage c) |>
              <| vt_upstream_feedback_json := co_Feedback c |>
              <| vt_finished_at := if is_null job then Some now else None |>
              <| vt_updated_at := now |> <| vt_version := vt_version t + 1 |>);
    oneRow n ;;
    match job with
    | Some (jobTask, jobID, objectKey) =>
        ensure (jobTask ≟ rr_task_id r) ErrStateConflict ;;
        exec_insert (new_upload_job jobID (rr_task_id r) objectKey ms)
    | None => createCallbackDeliveryWithConn e 0 (rr_task_id r) (co_Status c) ms
    end) db
  end.

(** domain.RemoteResultUpdate *)
Record RemoteResultUpdate := mkResultUpdate {
  ru_URL : string;
  ru_ExpiresAt : Z;
  ru_MetadataJSON : string;
  ru_MetadataStatus : string
}.

Definition or_else {A} (o o' : option A) : option A :=
  match o with Some x => Some x | None => o' end.

Definition UpdateRemoteResult (e : Env) (taskID nodeID : string) (u : RemoteResultUpdate)
    (db : DB) : (error + unit) * DB :=
  if negb (ru_MetadataStatus u ∈? ["pending"; "ready"; "unavailable"])
  then (inl ErrStateConflict, db)
  else
  statement (
    runs ← ask db_remote_runs;
    exec_update (λ t, (vt_task_id t ≟ taskID) && (vt_upstream_id t ≟ Some nodeID)
                      && (vt_protocol_version t ≟ Some ProtocolTK2SD)
                      && has_status [StatusSucceeded; StatusReconciling] t && vt_live t
                      && exists_where (λ r, (rr_task_id r ≟ vt_task_id t) && (rr_node_id r ≟ nodeID)
                                            && (rr_phase r ≟ RemoteTerminal)
                                            && (rr_upstream_status r ≟ Some UpSucceeded)) runs)
      (λ t, t <| vt_latest_result_url := or_else (nullif_str (ru_URL u)) (vt_latest_result_url t) |>
              <| vt_latest_result_expires_at :=
                   if negb (ru_URL u ≟ "") then nullif_int (ru_ExpiresAt u)
                   else vt_latest_result_expires_at t |>
              <| vt_result_metadata_json :=
                   or_else (nullif_str (ru_MetadataJSON u)) (vt_result_metadata_json t) |>
              <| vt_metadata_status := if vt_metadata_status t ≟ "ready" then "ready"
                                       else ru_MetadataStatus u |>
              <| vt_updated_at := nowUnix e |> <| vt_version := vt_version t + 1 |>)) db.

(** ** Claims *)

Lemma rebalanced_slot nodeID o now l x y :
  rebalanced_row o now l x y → slot_of nodeID y = slot_of nodeID x.
Proof.
  intros (_ & _ & Eu & Es & _)%rebalanced_row_keeps. unfold slot_of. by rewrite Eu, Es.
Qed.

(** The node a claim is for. *)
Definition claiming_node (db : DB) (nodeID protocol : string) (version : Z)
    (n : ModelServiceNode) : Prop :=
  n ∈ db_nodes db ∧ mn_id n = nodeID ∧ mn_version n = version ∧ mn_enabled n = true ∧
  mn_deleted_at n = None ∧ mn_protocol_version n = protocol.

Lemma find_claiming_node db nodeID protocol version n :
  List.find (λ n, (mn_id n ≟ nodeID) && (mn_version n =? version) && mn_enabled n
                  && is_null (mn_deleted_at n) && (mn_protocol_version n ≟ protocol))
    (db_nodes db) = Some n → claiming_node db nodeID protocol version n.
Proof.
  intros [Hin H]%find_elem_of. rewrite !andb_true_iff, !bool_decide_eq_true, Z.eqb_eq in H.
  destruct H as [[[[??]?]Hd]?]. destruct (mn_deleted_at n) eqn:E; [done|]. by split_and!.
Qed.

Lemma next_remote_candidate nodeID fp now db s :
  next_remote nodeID fp now db = Some s →
  s ∈ db_video_tasks db ∧
  ∃ m, m ∈ db_node_models db ∧ remote_candidate db nodeID fp now s m = true ∧
    remote_accepts s m = true ∧
    ∀ s' m', s' ∈ db_video_tasks db → m' ∈ db_node_models db →
      remote_candidate db nodeID fp now s' m' = true → vt_queue_seq s' < vt_queue_seq s →
      remote_accepts s' m' = false.
Proof.
  unfold next_remote. destruct (List.find _ _) as [[s' m]|] eqn:E; [|done]. intros [= ->].
  pose proof E as [Hin Hacc]%find_elem_of. apply order_by_elem, elem_of_join_on in Hin.
  destruct Hin as (Hs & Hm & Hc). split; [done|]. exists m. split_and!; [done..|].
  intros s' m' Hs' Hm' Hc' Hlt. destruct (remote_accepts s' m') eqn:Ea; [|done]. exfalso.
  pose proof (order_by_sorted (λ tm : Task * NodeModelRow, vt_queue_seq tm.1)
    (join_on (remote_candidate db nodeID fp now) (db_video_tasks db) (db_node_models db))) as Hsort.
  assert ((s', m') ∈ order_by (λ tm : Task * NodeModelRow, vt_queue_seq tm.1)
    (join_on (remote_candidate db nodeID fp now) (db_video_tasks db) (db_node_models db))) as Hin'
    by (by apply order_by_elem, elem_of_join_on).
  revert E Hsort Hin'. generalize (order_by (λ tm : Task * NodeModelRow, vt_queue_seq tm.1)
    (join_on (remote_candidate db nodeID fp now) (db_video_tasks db) (db_node_models db))).
  intros l. induction l as [|[t1 m1] l IH]; [done|]. simpl. intros E Hsort Hin'.
  apply StronglySorted_inv in Hsort as [Hsort Hall]. rewrite Forall_forall in Hall.
  destruct (remote_accepts t1 m1) eqn:E1.
  - injection E as -> ->. apply elem_of_cons in Hin' as [[= -> ->]|Hin']; [lia|].
    specialize (Hall _ Hin'). simpl in Hall. lia.
  - apply elem_of_cons in Hin' as [[= -> ->]|Hin']; [congruence|]. by apply IH.
Qed.

Lemma admit_bound nodeID admission capacity db c :
  admitted_capacity nodeID admission capacity db = inr c →
  c ≤ capacity ∧ ∀ a, admission = [a] → admission_open a = true ∧
    c ≤ ad_Capacity a - ad_Occupied a - ad_Cooling a + admission_overlap nodeID a db.
Proof.
  unfold admitted_capacity. destruct admission as [|a [|]]; [|..|done].
  - intros [= <-]. split; [lia|done].
  - destruct (admission_open a) eqn:E; simpl; [|done].
    destruct (_ <? _); [done|]. intros [= <-]. split; [lia|]. intros ? [= <-]. split; [done|lia].
Qed.

(** The row a remote claim writes, and the run it opens. *)
Definition remote_claimed (n : ModelServiceNode) (version now : Z) (s : Task) : Task :=
  s <| vt_status := StatusDispatching |> <| vt_cancel_locked := true |>
    <| vt_upstream_id := Some (mn_id n) |> <| vt_upstream_slot_active := true |>
    <| vt_upstream_node_version := version |>
    <| vt_delivery_required := mn_replace_result_url n |>
    <| vt_dispatch_snapshot_json := Some (mkDispatch (mn_id n) version ProtocolTK2SD
         (mn_service_url n) (vt_model (vt_request s))) |>
    <| vt_started_at := coalesce (vt_started_at s) now |>
    <| vt_attempt_started_at := Some now |>
    <| vt_updated_at := now |> <| vt_version := vt_version s + 1 |>.

Definition new_run (taskID nodeID key : string) (now : Z) : RemoteRun :=
  mkRemoteRun taskID nodeID RemotePreparing key None None None None CancelNone false 0
    None None None "" now now.

Lemma ClaimNextRemote_spec e o node version capacity admission db t db' :
  tbl_valid (db_video_tasks db) = true →
  ClaimNextRemote e o node version capacity admission db = (inr t, db') →
  ∃ n s, claiming_node db node ProtocolTK2SD version n ∧
    next_remote node (env_sha256_hex e (String.concat NUL
      [ProtocolTK2SD; mn_service_url n; coalesce_str (mn_api_key_fingerprint n)]))
      (nowUnix e) db = Some s ∧
    t = remote_claimed n version (nowUnix e) s ∧ t ∈ db_video_tasks db' ∧
    db_remote_runs db' = db_remote_runs db ++
      [new_run (vt_task_id s) node (submission_key (db_instance_id db) (vt_task_id s)) (nowUnix e)] ∧
    let used := count_where (slot_of node) (db_video_tasks db') in
    used = count_where (slot_of node) (db_video_tasks db) + 1 ∧
    used ≤ capacity ∧ used ≤ mn_max_concurrency n ∧
    ∀ a, admission = [a] → admission_open a = true ∧
      used ≤ ad_Capacity a - ad_Occupied a - ad_Cooling a + admission_overlap node a db.
Proof.
  intros (Hid & Hseq & _)%tasks_valid_iff H. unfold ClaimNextRemote in H.
  destruct (capacity <? 1); [done|]. rewrite immediate_inr in H. sql_inv H.
  apply find_claiming_node in H0 as Hn. pose proof Hn as (_ & En & _).
  apply admit_bound in H1 as [Hc Hadm]. rewrite Z.ltb_lt in H2.
  apply next_remote_candidate in H4 as Hcand. destruct Hcand as (Hs & m & _ & Hc' & _).
  unfold remote_candidate in Hc'. rewrite !andb_true_iff, negb_true_iff in Hc'.
  destruct_and! Hc'. apply (bool_decide_eq_true_1 _) in H6.
  apply tasks_valid_iff in Hvalid as (_ & Hseq' & _).
  pose (dbr := db <| db_remote_runs := db_remote_runs db ++
      [new_run (vt_task_id x3) node (submission_key (db_instance_id db) (vt_task_id x3))
         (nowUnix e)] |>).
  eapply (claimed_row _ _ dbr) in H7 as (Et & Ht & (ts & Edb & Hts) & _);
    [| | exact Hseq' | exact Hs | | | | | exact H];
    [|done|by apply andb_true_iff; split; [apply bool_decide_eq_true_2|]|
     by intros y [?%bool_decide_eq_true _]%andb_true_iff|by intros []|by apply queued_live_active].
  assert (count_where (slot_of node) (db_video_tasks db0)
    = count_where (slot_of node) (db_video_tasks db) + 1) as Hcount.
  { rewrite Edb. simpl. erewrite (claimed_count (slot_of node) _ _ _ _ _ _ x3);
      [|by intros; eapply rebalanced_slot|exact H6|exact Hs
      |by apply andb_true_iff; split; [apply bool_decide_eq_true_2|]|exact Hts].
    unfold slot_of at 2 3. simpl. rewrite bool_decide_eq_true_2 by done.
    match goal with E : vt_upstream_slot_active x3 = false |- _ => rewrite E end.
    rewrite andb_false_r. simpl. lia. }
  simpl in H2. exists x, x3. cbv zeta. rewrite Hcount.
  split_and!; [done|done| |exact Ht|by rewrite Edb|reflexivity|lia|lia|].
  - rewrite Et. unfold remote_claimed. by rewrite En.
  - intros a Ha. destruct (Hadm a Ha). split; [done|lia].
Qed.

(** C12: claims of a remote node never exceed its capacity.  When
    [ClaimNextRemote] returns a task, the node is enabled at the expected
    version; the task was the first of the queue that a catalogue entry of
    the node accepts, now holds a slot of the node and has a fresh run in phase
    preparing with the submission key of the proxy instance; and the slots in
    use afterwards are at most the capacity asked for, the configured one, and
    what the remote service admits. *)
Theorem ClaimNextRemote_sound e o node version capacity admission db t db' :
  tbl_valid (db_video_tasks db) = true →
  ClaimNextRemote e o node version capacity admission db = (inr t, db') →
  ∃ n s, claiming_node db node ProtocolTK2SD version n ∧
    next_remote node (env_sha256_hex e (String.concat NUL
      [ProtocolTK2SD; mn_service_url n; coalesce_str (mn_api_key_fingerprint n)]))
      (nowUnix e) db = Some s ∧
    t = remote_claimed n version (nowUnix e) s ∧ t ∈ db_video_tasks db' ∧
    db_remote_runs db' = db_remote_runs db ++
      [new_run (vt_task_id s) node (submission_key (db_instance_id db) (vt_task_id s)) (nowUnix e)] ∧
    let used := count_where (slot_of node) (db_video_tasks db') in
    used = count_where (slot_of node) (db_video_tasks db) + 1 ∧
    used ≤ capacity ∧ used ≤ mn_max_concurrency n ∧
    ∀ a, admission = [a] → admission_open a = true ∧
      used ≤ ad_Capacity a - ad_Occupied a - ad_Cooling a + admission_overlap node a db.
Proof. apply ClaimNextRemote_spec. Qed.

(** ** Leases *)

Lemma runs_valid_NoDup rs : tbl_valid rs = true → NoDup (map rr_task_id rs).
Proof.
  unfold tbl_valid, remote_table. rewrite !andb_true_iff, !distinct_NoDup. tauto.
Qed.

(** The row a lease was acquired on. *)
Lemma AcquireRemoteLease_row e task node token ttl db r db' :
  tbl_valid (db_remote_runs db) = true →
  AcquireRemoteLease e task node token ttl db = (inr r, db') →
  ∃ r0, r0 ∈ db_remote_runs db ∧ rr_task_id r0 = task ∧ rr_node_id r0 = node ∧
    rr_phase r0 ≠ RemoteTerminal ∧
    r = r0 <| rr_lease_token := Some token |>
           <| rr_lease_expires_at := Some (nowUnix e + Seconds ttl) |>
           <| rr_updated_at := nowUnix e |> ∧
    r ∈ db_remote_runs db' ∧ tbl_valid (db_remote_runs db') = true.
Proof.
  intros Hv%runs_valid_NoDup H. unfold AcquireRemoteLease in H.
  destruct (_ || _); [done|]. rewrite immediate_inr in H. sql_inv H.
  apply one_row in H0 as (r0 & Hin & Hr0). simpl in Hin.
  pose proof Hr0 as Hr0'. rewrite !andb_true_iff, !bool_decide_eq_true, negb_true_iff in Hr0'.
  destruct Hr0' as [[[[[Etask Enode] Hph] _] _] _]. apply bool_decide_eq_false in Hph.
  unfold GetRemoteRun in H. destruct (List.find _ _) as [r'|] eqn:Ef; [|done].
  apply (inj inr) in H as ->. subst task.
  apply (update_reread rr_task_id) in Ef as Er; [|done|exact Hin|exact Hr0| |by intros []]; last first.
  { intros z. rewrite !andb_true_iff, bool_decide_eq_true. tauto. }
  exists r0. split_and!; [done..|by apply find_elem_of in Ef as [??]|exact Hvalid].
Qed.

(** A remote lease excludes every other worker.  When [AcquireRemoteLease]
    returns a run, the run is open and leased to the token until now + ttl; any
    further acquisition for the task at a time before that is refused with
    [ErrStateConflict] and changes nothing, whatever its node, token and ttl. *)
Theorem AcquireRemoteLease_exclusive e task node token ttl db r db' :
  tbl_valid (db_remote_runs db) = true →
  AcquireRemoteLease e task node token ttl db = (inr r, db') →
  r ∈ db_remote_runs db' ∧ rr_task_id r = task ∧ rr_node_id r = node ∧
  rr_phase r ≠ RemoteTerminal ∧ rr_lease_token r = Some token ∧
  rr_lease_expires_at r = Some (nowUnix e + Seconds ttl) ∧
  ∀ e' node' token' ttl', nowUnix e' < nowUnix e + Seconds ttl →
    AcquireRemoteLease e' task node' token' ttl' db' = (inl ErrStateConflict, db').
Proof.
  intros Hv H. destruct (AcquireRemoteLease_row _ _ _ _ _ _ _ _ Hv H)
    as (r0 & _ & Et & En & Hph & -> & Hin & Hv').
  split_and!; [done..|]. intros e' node' token' ttl' Hlt.
  unfold AcquireRemoteLease. destruct (_ || _); [done|]. unfold immediate, mbind, tx_bind, ask.
  rewrite exec_update_none; [done| |exact Hv']. intros y Hy. simpl in Hy.
  destruct (decide (rr_task_id y = task)) as [Ey|Ey]; [|by rewrite (bool_decide_eq_false_2 _ Ey)].
  assert (y = _) as -> by (apply (NoDup_map_inj rr_task_id (db_remote_runs db'));
    [by apply runs_valid_NoDup|exact Hy|exact Hin|simpl; congruence]).
  simpl. rewrite (proj2 (Z.leb_gt _ _)) by lia. by rewrite !andb_false_r.
Qed.

(** ** Completion *)

(** The last statement of a completion writes an upload job or a callback. *)
Lemma completion_tail_frame (job : option (string * string * string)) e taskID status ms db u db' :
  match job with
  | Some (jobTask, jobID, objectKey) =>
      ensure (jobTask ≟ taskID) ErrStateConflict ;;
      exec_insert (new_upload_job jobID taskID objectKey ms)
  | None => createCallbackDeliveryWithConn e 0 taskID status ms
  end db = Done u db' →
  db_video_tasks db' = db_video_tasks db ∧ db_remote_runs db' = db_remote_runs db.
Proof.
  destruct job as [[[? ?] ?]|]; intros H.
  - sql_inv H. done.
  - apply createCallback_frame in H as (cs & ->). done.
Qed.

(** The upload job of a completion that succeeded. *)
Definition completion_job (c : RemoteCompletion) : option (string * string * string) :=
  if co_Status c ≟ "succeeded" then co_UploadJob c else None.

Lemma CompleteRemoteRun_again e r c db :
  tbl_valid (db_remote_runs db) = true →
  (∀ x, x ∈ db_remote_runs db → rr_task_id x = rr_task_id r → rr_phase x = RemoteTerminal) →
  CompleteRemoteRun e r c db = (inl ErrStateConflict, db).
Proof.
  intros Hv Hterm. unfold CompleteRemoteRun. destruct (parse_terminal _) as [[up fin]|]; [|done].
  destruct (_ && _); [done|]. unfold immediate, mbind, tx_bind.
  rewrite exec_update_none; [done| |done]. intros x Hx. unfold held.
  destruct (decide (rr_task_id x = rr_task_id r)) as [E|E].
  - rewrite (Hterm x Hx E). by rewrite andb_false_r.
  - by rewrite (bool_decide_eq_false_2 _ E).
Qed.

(** C14: a remote run completes once.  When [CompleteRemoteRun] returns
    without error, the worker held the lease of an open run; afterwards the run
    is terminal with no lease, the slot of the task is released, the task is in
    the state the completion names, or reconciling while its result is still
    to be uploaded, and an original result URL it already had is kept; every
    later completion of the run is refused and changes nothing. *)
Theorem CompleteRemoteRun_once e r c db db' :
  tbl_valid (db_remote_runs db) = true → tbl_valid (db_video_tasks db) = true →
  CompleteRemoteRun e r c db = (inr tt, db') →
  ∃ upstream final run t0 t,
    parse_terminal (co_Status c) = Some (upstream, final) ∧
    run ∈ db_remote_runs db ∧ held r (nowUnix e) run = true ∧ rr_phase run ≠ RemoteTerminal ∧
    (∀ x, x ∈ db_remote_runs db' → rr_task_id x = rr_task_id r →
       rr_phase x = RemoteTerminal ∧ rr_upstream_status x = Some upstream ∧
       rr_lease_token x = None) ∧
    t0 ∈ db_video_tasks db ∧ t ∈ db_video_tasks db' ∧
    vt_task_id t0 = rr_task_id r ∧ slot_of (rr_node_id r) t0 = true ∧
    vt_task_id t = rr_task_id r ∧ vt_upstream_slot_active t = false ∧
    vt_status t = (if is_null (completion_job c) then final else StatusReconciling) ∧
    vt_result_internal_url t = or_else (vt_result_internal_url t0) (nullif_str (co_ResultURL c)) ∧
    count_where (slot_of (rr_node_id r)) (db_video_tasks db') =
      count_where (slot_of (rr_node_id r)) (db_video_tasks db) - 1 ∧
    ∀ e' c', CompleteRemoteRun e' r c' db' = (inl ErrStateConflict, db').
Proof.
  intros Hvr%runs_valid_NoDup (Hid & _)%tasks_valid_iff H. unfold CompleteRemoteRun in H.
  destruct (parse_terminal (co_Status c)) as [[up fin]|] eqn:Ep; [|done].
  destruct (_ && _); [done|]. rewrite immediate_inr in H.
  assert ((if fin ≟ StatusSucceeded then co_UploadJob c else None) = completion_job c) as Ejob.
  { unfold parse_terminal in Ep. unfold completion_job.
    destruct (co_Status c ≟ "succeeded"); [by injection Ep as <- <-|].
    destruct (co_Status c ≟ "failed"); [by injection Ep as <- <-|].
    destruct (co_Status c ≟ "cancelled"); [by injection Ep as <- <-|done]. }
  rewrite Ejob in H. sql_inv H.
  apply completion_tail_frame in H as [ET ER].
  apply one_row in H0 as (run & Hrun & [Hheld Hph%negb_true_iff%bool_decide_eq_false]%andb_true_iff).
  pose proof H1 as (t0 & Ht0 & Hp0)%one_row. simpl in Ht0, ET, ER.
  pose proof Hp0 as Hp1. rewrite !andb_true_iff, bool_decide_eq_true in Hp1.
  destruct Hp1 as [[[Etid Hslot] _] _].
  assert (∀ x, x ∈ db_remote_runs db' → rr_task_id x = rr_task_id r →
    rr_phase x = RemoteTerminal ∧ rr_upstream_status x = Some up ∧ rr_lease_token x = None) as Hterm.
  { intros y Hy Ey. rewrite ER in Hy. apply elem_of_update_where in Hy as (y0 & Hy0 & ->).
    assert (y0 = run) as ->.
    { apply (NoDup_map_inj rr_task_id (db_remote_runs db)); [done..|].
      rewrite proj_if in Ey by done. rewrite Ey. unfold held in Hheld.
      rewrite !andb_true_iff, bool_decide_eq_true in Hheld. destruct_and! Hheld. done. }
    by rewrite Hheld, (bool_decide_eq_false_2 _ Hph). }
  eexists up, fin, run, t0, _. split_and!;
    [exact eq_refl|exact Hrun|exact Hheld|exact Hph|exact Hterm|exact Ht0| |exact Etid|exact Hslot|..].
  - rewrite ET. apply elem_of_update_where. exists t0. rewrite Hp0. done.
  - exact Etid.
  - done.
  - done.
  - done.
  - rewrite ET. erewrite (count_update_one _ _ _ _ t0);
      [|by apply (bool_decide_eq_true_1 _) in H1|done|exact Hp0].
    rewrite Hslot. unfold slot_of at 2. simpl. rewrite andb_false_r. lia.
  - intros e' c'. apply CompleteRemoteRun_again; [rewrite ER; exact Hvalid|].
    intros y Hy Ey. by apply Hterm.
Qed.
