(* ===== verification/Tasks.v ===== *)
(** * The life of a task (internal/store/sqlite/store.go)

    Creation with idempotency and admission limits, the claim of the next
    task for a legacy node, the transitions of a running task, cancellation,
    deletion and retention. *)

From S2P Require Import Prelude Domain Tx Database Sql GoStrings Catalog Paging TaskRouting Callbacks Queue Stages Artifacts Remote.

(** ** Creation *)

(** AUTOINCREMENT: one more than any queue_seq ever used. *)
Definition next_queue_seq (db : DB) : Z :=
  1 + fold_right Z.max (db_task_seq db) (map vt_queue_seq (db_video_tasks db)).

Definition nullif_blob (s : string) : option string := nullif_str s.

(** The row the INSERT of [Create] writes; the columns it does not name have
    the defaults of the schema. *)
Definition new_task_row (o : Options) (inp : NewTask) (seq now : Z) : Task :=
  mkTask seq (nt_TaskID inp)
    (mkTaskRequest (nt_APIKeyID inp) (nt_Model inp) (nt_Scenario inp) (nt_RequestJSON inp)
       (nt_RequestHash inp) (nt_Resolution inp) (nt_Duration inp) (nt_Ratio inp)
       (nt_InputImageCount inp) (nullif_blob (nt_CallbackURLCiphertext inp))
       (nullif_blob (nt_CallbackURLNonce inp)) (nullif_str (nt_ProfileID inp))
       (nullif_int (nt_ProfileVersion inp)) (nullif_str (nt_ConfigSnapshotJSON inp))
       (nullif_str (nt_ConfigHash inp)) now (now + Seconds (opt_Retention o)))
    StatusQueuedOpen false None None None false 0 false (JsonOf []) false 0 None None None
    None None None 0 0 None None None now None None None "not_requested" 1 None None
    None AwaitingRoute None None "legacy-h3-v1" "" None None None "none".

Definition insert_task (o : Options) (inp : NewTask) (now : Z) : Tx unit :=
  seq ← ask next_queue_seq;
  exec_insert (new_task_row o inp seq now) ;;
  modify (λ db, db <| db_task_seq := seq |>).

Definition validateInputSpoolFile (e : Env) (f : InputSpoolFile) : option error :=
  if (sf_id f ≟ "") || (sf_task_id f ≟ "") || (sf_content_index f <? 0) || (sf_role f ≟ "")
     || (sf_media_type f ≟ "") || (sf_extension f ≟ "") || (sf_relative_path f ≟ "")
     || (sf_size_bytes f <=? 0) || negb (len (sf_sha256 f) =? 64)
  then Some (ErrText "输入临时文件元数据无效")
  else if negb (hex_decodes (sf_sha256 f)) then Some (ErrText "输入临时文件 SHA-256 无效")
  else if negb (sf_content_type f ∈? ["image_url"; "video_url"; "audio_url"])
  then Some (ErrText "输入临时文件内容类型无效")
  else if negb ((sf_source_kind f ≟ "") || (sf_source_kind f ≟ "data_uri"))
  then Some (ErrText "输入临时文件来源类型无效")
  else if negb (sf_object_url f ≟ "") && negb (env_object_url_ok e (sf_object_url f))
  then Some (ErrText "对象存储输入 URL 无效")
  else None.

Definition insert_stage (taskID : string) (now : Z) (s : NewTaskStage) : Tx unit :=
  ensure (negb ((ns_ID s ≟ "") || (ns_StageType s ≟ "") || (ns_ConfigSnapshotJSON s ≟ "")
                || (ns_MaxAttempts s <? 1))) (ErrText "任务阶段快照无效") ;;
  exec_insert (mkTaskStage (ns_ID s) taskID (ns_StageOrder s) (ns_StageType s) true StPending
    0 (ns_MaxAttempts s) None None None None (ns_ConfigSnapshotJSON s) None None None None
    None (now * 1000) (now * 1000) None None 1).

Definition insert_spool_file (e : Env) (taskID : string) (now : Z) (f : InputSpoolFile)
    : Tx unit :=
  let f := if sf_task_id f ≟ "" then f <| sf_task_id := taskID |> else f in
  let f := if sf_source_kind f ≟ "" then f <| sf_source_kind := "data_uri" |> else f in
  guard_none (validateInputSpoolFile e f) ;;
  exec_insert (f <| sf_created_at := now * 1000 |> <| sf_updated_at := now * 1000 |>).

Definition unfinished_of (owner : string) (t : Task) : bool :=
  (vt_owner t ≟ owner) && vt_live t && has_status unfinished_statuses t.
Definition unfinished (t : Task) : bool := vt_live t && has_status unfinished_statuses t.

(** The part of [Create] after the idempotency lookup. *)
Definition create_new (e : Env) (o : Options) (inp : NewTask) (keyHash : string)
    (available : bool) : Tx Task :=
  let now := nowUnix e in
  ensure available ErrResourceUnavailable ;;
  (if negb (keyHash ≟ "")
   then exec_delete (λ k, (ik_api_key_id k ≟ nt_APIKeyID inp) && (ik_key_hash k ≟ keyHash)) ;;
        mret tt
   else mret tt) ;;
  count ← select_count (unfinished_of (nt_APIKeyID inp));
  ensure (count <? opt_PerKeyLimit o) ErrPerKeyLimit ;;
  count ← select_count unfinished;
  ensure (count <? opt_GlobalLimit o) ErrGlobalLimit ;;
  inp ← query (prepareTaskRouting e inp);
  insert_task o inp now ;;
  exec_update (λ t, vt_task_id t ≟ nt_TaskID inp)
    (λ t, t <| vt_protocol_version := Some (nt_ProtocolVersion inp) |>
            <| vt_route_state := RouteReady |>
            <| vt_routing_snapshot_json := nt_RoutingSnapshotJSON inp |>
            <| vt_request_normalizer := nt_RequestNormalizer inp |>) ;;
  (if negb (nt_CallbackURLCiphertext inp ≟ "")
   then
     ensure (negb ((nt_CallbackDeliveryID inp ≟ "") || (nt_CallbackRequestBody inp ≟ "")
                   || (nt_CallbackRequestBodyHash inp ≟ "")))
       (ErrText "callback 投递快照不完整") ;;
     exec_insert (mkCallbackDelivery (nt_CallbackDeliveryID inp) (nt_TaskID inp) "queued" 1
       CbPending 0 None (nt_CallbackRequestBodyHash inp) (nt_CallbackRequestBody inp)
       None None (now * 1000) (now * 1000) None None)
   else mret tt) ;;
  each (insert_stage (nt_TaskID inp) now) (nt_Stages inp) ;;
  each (insert_spool_file e (nt_TaskID inp) now) (nt_InputSpoolFiles inp) ;;
  (if negb (keyHash ≟ "")
   then exec_insert (mkIdempotencyKey (nt_APIKeyID inp) keyHash (nt_RequestHash inp)
          (nt_TaskID inp) now (now + Seconds (opt_IdempotencyTTL o)))
   else mret tt) ;;
  rebalance o now ;;
  query (getWith (nt_APIKeyID inp) (nt_TaskID inp) now).

(** [available] is the verdict of the callback of the same name, true when it
    is nil. *)
Definition Create (e : Env) (o : Options) (inp : NewTask) (keyHash : string)
    (available : bool) : DB → (error + Task) * DB :=
  immediate (
    known ← (if negb (keyHash ≟ "")
             then ask (find_idempotent e (nt_APIKeyID inp) keyHash) else mret None);
    match known with
    | Some i =>
        ensure (ik_request_hash i ≟ nt_RequestHash inp) ErrIdempotencyConflict ;;
        query (getWith (nt_APIKeyID inp) (ik_task_id i) (nowUnix e))
    | None => create_new e o inp keyHash available
    end).

(** ** Claiming for a legacy node *)

Definition ClaimNext (e : Env) (o : Options) (upstreamID : string) (expectedVersion : option Z)
    : DB → (error + Task) * DB :=
  let now := nowUnix e in
  immediate (
    (match expectedVersion with
     | Some v =>
         current ← select_count (λ n, (mn_id n ≟ upstreamID) && (mn_version n =? v)
                                      && mn_enabled n && is_null (mn_deleted_at n));
         ensure (current =? 1) ErrNodeConfigStale
     | None => mret tt
     end) ;;
    active ← select_count (λ t, (vt_upstream_id t ≟ Some upstreamID)
                                && has_status active_statuses t);
    ensure (negb (0 <? active)) ErrUpstreamBusy ;;
    selected ← query (nextEligibleTask upstreamID now);
    n ← exec_update (λ t, (vt_task_id t ≟ vt_task_id selected)
                          && (vt_status t ≟ vt_status selected))
      (λ t, t <| vt_status := StatusDispatching |> <| vt_cancel_locked := true |>
              <| vt_upstream_id := Some upstreamID |>
              <| vt_started_at := coalesce (vt_started_at t) now |>
              <| vt_updated_at := now |> <| vt_version := vt_version t + 1 |>);
    ensure (n =? 1) ErrStateConflict ;;
    rebalance o now ;;
    query (getWith (vt_owner selected) (vt_task_id selected) now)).

(** ** Transitions of a running task *)

(** The task a worker of a node holds in one of the statuses. *)
Definition held_task (taskID upstreamID : string) (ss : list InternalStatus) (t : Task) : bool :=
  (vt_task_id t ≟ taskID) && (vt_upstream_id t ≟ Some upstreamID) && has_status ss t.

Definition touch (now : Z) (t : Task) : Task :=
  t <| vt_updated_at := now |> <| vt_version := vt_version t + 1 |>.

Definition MarkRunning (e : Env) (taskID upstreamID : string) : DB → (error + unit) * DB :=
  statement (exec_update (held_task taskID upstreamID [StatusDispatching])
    (λ t, touch (nowUnix e) t <| vt_status := StatusRunning |>)).

Definition MarkReconciling (e : Env) (taskID upstreamID : string) : DB → (error + unit) * DB :=
  statement (exec_update
    (held_task taskID upstreamID [StatusDispatching; StatusRunning; StatusReconciling])
    (λ t, touch (nowUnix e) t <| vt_status := StatusReconciling |>)).

Definition SaveBaseline (e : Env) (taskID upstreamID : string) (urls : list string)
    : DB → (error + unit) * DB :=
  statement (exec_update (held_task taskID upstreamID [StatusDispatching])
    (λ t, touch (nowUnix e) t <| vt_gallery_before_json := Some urls |>)).

Definition SaveSubmissionContext (e : Env) (taskID upstreamID : string) (jobIDs : list string)
    : DB → (error + unit) * DB :=
  statement (exec_update (held_task taskID upstreamID [StatusDispatching])
    (λ t, touch (nowUnix e) t <| vt_upstream_jobs_before_json := JsonOf jobIDs |>
            <| vt_attempt_started_at := Some (nowUnix e) |>)).

Definition BindUpstreamJob (e : Env) (taskID upstreamID jobID : string)
    : DB → (error + unit) * DB :=
  statement (exec_update (held_task taskID upstreamID [StatusDispatching; StatusReconciling])
    (λ t, touch (nowUnix e) t <| vt_upstream_job_id := Some jobID |>
            <| vt_status := StatusRunning |>)).

Definition BeginRetry (e : Env) (taskID upstreamID : string)
    (jobIDsBefore galleryBefore : list string) : DB → (error + unit) * DB :=
  statement (exec_update
    (λ t, held_task taskID upstreamID [StatusRunning; StatusReconciling] t
          && (vt_retry_count t =? 0))
    (λ t, touch (nowUnix e) t <| vt_status := StatusDispatching |> <| vt_retry_count := 1 |>
            <| vt_upstream_job_id := None |>
            <| vt_upstream_jobs_before_json := JsonOf jobIDsBefore |>
            <| vt_gallery_before_json := Some galleryBefore |>
            <| vt_attempt_started_at := Some (nowUnix e) |>
            <| vt_error_code := None |> <| vt_error_message := None |>)).

(** MarkSucceeded, MarkFailed and FinishCancelled do not name their error
    result: an error after the first statement is returned and the
    transaction is committed. *)
Definition finish_task (e : Env) (p : Task → bool) (f : Task → Task) (taskID status : string)
    : DB → (error + unit) * DB :=
  immediate_shadowed (
    n ← exec_update p f;
    then_shadowed (oneRow n) (λ _,
    shadowed (createCallbackDeliveryWithConn e 0 taskID status (nowUnix e * 1000)))).

Definition MarkSucceeded (e : Env) (taskID upstreamID internalURL publicURL ratio : string)
    : DB → (error + unit) * DB :=
  finish_task e
    (held_task taskID upstreamID [StatusDispatching; StatusRunning; StatusReconciling])
    (λ t, touch (nowUnix e) t <| vt_status := StatusSucceeded |>
            <| vt_result_internal_url := Some internalURL |>
            <| vt_result_public_url := Some publicURL |> <| vt_ratio_actual := Some ratio |>
            <| vt_usage_total_seconds := vt_duration (vt_request t) |>
            <| vt_usage_output_seconds := vt_duration (vt_request t) |>
            <| vt_finished_at := Some (nowUnix e) |>)
    taskID "succeeded".

Definition MarkFailed (e : Env) (taskID upstreamID code message : string)
    : DB → (error + unit) * DB :=
  finish_task e
    (held_task taskID upstreamID [StatusDispatching; StatusRunning; StatusReconciling])
    (λ t, touch (nowUnix e) t <| vt_status := StatusFailed |> <| vt_error_code := Some code |>
            <| vt_error_message := Some message |> <| vt_finished_at := Some (nowUnix e) |>)
    taskID "failed".

Definition FinishCancelled (e : Env) (taskID upstreamID : string) : DB → (error + unit) * DB :=
  finish_task e (held_task taskID upstreamID [StatusCancelling])
    (λ t, touch (nowUnix e) t <| vt_status := StatusCancelled |> <| vt_cancel_locked := false |>
            <| vt_finished_at := Some (nowUnix e) |>)
    taskID "cancelled".

Definition Requeue (e : Env) (o : Options) (taskID upstreamID : string)
    : DB → (error + unit) * DB :=
  immediate (
    n ← exec_update (held_task taskID upstreamID [StatusDispatching])
      (λ t, touch (nowUnix e) t <| vt_status := StatusQueuedOpen |> <| vt_cancel_locked := false |>
              <| vt_upstream_id := None |> <| vt_gradio_event_id := None |>
              <| vt_upstream_job_id := None |> <| vt_upstream_jobs_before_json := JsonOf [] |>
              <| vt_official_submission_baseline_saved := false |>
              <| vt_upstream_feedback_json := None |> <| vt_retry_count := 0 |>
              <| vt_attempt_started_at := None |> <| vt_cancel_requested_at := None |>
              <| vt_gallery_before_json := None |> <| vt_started_at := None |>);
    oneRow n ;;
    rebalance o (nowUnix e)).

(** ** Cancellation *)

Definition CancelOrDelete (e : Env) (o : Options) (owner taskID : string) (db : DB)
    : (error + Action) * DB :=
  let now := nowUnix e in
  let deletable := match List.find (λ t, live_task taskID t && (vt_owner t ≟ owner))
                           (db_video_tasks db) with
                   | Some t => AdminCanDelete (vt_status t)
                   | None => false
                   end in
  if deletable
  then match RequestOwnedTaskDeletion e owner taskID db with
       | (inl ErrDeletionNotFound, db') => (inl ErrTaskNotFound, db')
       | (inl err, db') => (inl err, db')
       | (inr _, db') => (inr ActionDeleted, db')
       end
  else
    immediate (
      row ← select_one (visible owner taskID now);
      task ← of_option row ErrTaskNotFound;
      ensure (vt_status task ≟ StatusQueuedOpen) ErrTaskNotOperable ;;
      n ← exec_update (λ t, (vt_task_id t ≟ taskID) && (vt_status t ≟ StatusQueuedOpen))
        (λ t, touch now t <| vt_status := StatusCancelled |> <| vt_cancel_locked := false |>
                <| vt_finished_at := Some now |>);
      ensure (n =? 1) ErrStateConflict ;;
      rebalance o now ;;
      createCallbackDeliveryWithConn e 0 taskID "cancelled" (now * 1000) ;;
      mret ActionCancelled) db.

Definition protocol_of_node (db : DB) (id : string) : string :=
  match List.find (λ n, mn_id n ≟ id) (db_nodes db) with
  | Some n => mn_protocol_version n
  | None => ""
  end.

Definition admin_cancel_local (e : Env) (o : Options) (taskID : string) : Tx unit :=
  let now := nowUnix e in
  row ← select_one (λ t, live_task taskID t && (now <? vt_expires t));
  task ← of_option row ErrTaskNotFound;
  let status := vt_status task in
  let upstreamID := coalesce_str (vt_upstream_id task) in
  let activeStageID := coalesce_str (vt_active_stage_id task) in
  official ← ask (λ db, negb (upstreamID ≟ "")
    && (status ∈? [StatusDispatching; StatusRunning; StatusReconciling])
    && (protocol_of_node db upstreamID ≟ ProtocolOfficial));
  ensure (negb official) ErrOfficialRunningNotCancellable ;;
  hasBarrier ← createNodeDispatchBarrierForTask taskID (now * 1000);
  let stages_end := hasBarrier || negb (activeStageID ≟ "") || (upstreamID ≟ "") in
  match status with
  | StatusQueuedOpen | StatusQueuedLocked =>
      if hasBarrier : bool then finishStageTaskCancellation e taskID now
      else
        n ← exec_update (λ t, (vt_task_id t ≟ taskID) && (vt_status t ≟ status))
          (λ t, touch now t <| vt_status := StatusCancelled |> <| vt_cancel_locked := false |>
                  <| vt_cancel_requested_at := Some now |> <| vt_finished_at := Some now |>);
        oneRow n ;;
        rebalance o now ;;
        createCallbackDeliveryWithConn e 0 taskID "cancelled" (now * 1000)
  | StatusDispatching | StatusRunning | StatusReconciling =>
      if stages_end then finishStageTaskCancellation e taskID now
      else
        n ← exec_update (λ t, (vt_task_id t ≟ taskID) && (vt_status t ≟ status))
          (λ t, touch now t <| vt_status := StatusCancelling |>
                  <| vt_cancel_requested_at := Some now |>);
        oneRow n
  | StatusCancelling =>
      if stages_end then finishStageTaskCancellation e taskID now else mret tt
  | _ => throw ErrTaskNotOperable
  end.

Definition RequestAdminCancel (e : Env) (o : Options) (taskID : string) (db : DB)
    : (error + unit) * DB :=
  let remote := match List.find (live_task taskID) (db_video_tasks db) with
                | Some t => (coalesce_str (vt_protocol_version t) ≟ ProtocolTK2SD)
                            && vt_upstream_slot_active t
                | None => false
                end in
  if remote then RequestRemoteCancel e taskID db
  else immediate (admin_cancel_local e o taskID) db.

(** ** Deletion *)

(** DELETE FROM video_tasks: the statement is refused while a row of a table
    that references the task without ON DELETE CASCADE is left; remote runs
    and node assets go with their task. *)
Definition references_task (db : DB) (taskID : string) : bool :=
  exists_where (λ s, st_task_id s ≟ taskID) (db_task_stages db)
  || exists_where (λ a, ta_task_id a ≟ taskID) (db_artifacts db)
  || exists_where (λ d, cd_task_id d ≟ taskID) (db_callback_deliveries db)
  || exists_where (λ b, nb_task_id b ≟ taskID) (db_barriers db)
  || exists_where (λ f, sf_task_id f ≟ taskID) (db_spool_files db)
  || exists_where (λ j, uj_task_id j ≟ taskID) (db_upload_jobs db).

Definition delete_tasks (p : Task → bool) : Tx Z :=
  ids ← ask (λ db, map vt_task_id (List.filter p (db_video_tasks db)));
  blocked ← ask (λ db, existsb (references_task db) ids);
  ensure (negb blocked) ErrConstraint ;;
  exec_delete (λ r, rr_task_id r ∈? ids) ;;
  exec_delete (λ a, na_task_id a ∈? ids) ;;
  exec_delete p.

(** The references to artifacts the rows of a task hold are cleared first. *)
Definition unlink_task (taskID : string) (version : Z) : Tx unit :=
  exec_update (λ t, (vt_task_id t ≟ taskID) && (vt_version t =? version))
    (λ t, t <| vt_active_stage_id := None |> <| vt_result_artifact_id := None |>) ;;
  exec_update (λ s, st_task_id s ≟ taskID)
    (λ s, s <| st_input_artifact_id := None |> <| st_output_artifact_id := None |>) ;;
  mret tt.

(** Then the rows that depend on it go, in the order of their references. *)
Definition delete_dependents (taskID : string) : Tx unit :=
  exec_delete (λ k, ik_task_id k ≟ taskID) ;;
  exec_delete (λ d, cd_task_id d ≟ taskID) ;;
  artifacts ← ask (λ db, map ta_id (List.filter (λ a, ta_task_id a ≟ taskID) (db_artifacts db)));
  locations ← ask (λ db, map al_id (List.filter (λ l, al_artifact_id l ∈? artifacts)
                                      (db_locations db)));
  let of_task i := (di_artifact_id i ∈? artifacts) || (di_location_id i ∈? locations) in
  jobs ← ask (λ db, remove_dups (map di_job_id (List.filter of_task (db_deletion_items db))));
  exec_delete of_task ;;
  each (λ job,
    items ← ask (λ db, exists_where (λ i, di_job_id i ≟ job) (db_deletion_items db));
    exec_delete (λ j, (dj_id j ≟ job) && negb items) ;; mret tt) jobs ;;
  stages ← ask (λ db, map st_id (List.filter (λ s, st_task_id s ≟ taskID) (db_task_stages db)));
  exec_delete (λ a, sa_stage_id a ∈? stages) ;;
  exec_delete (λ l, al_artifact_id l ∈? artifacts) ;;
  exec_delete (λ a, ta_task_id a ≟ taskID) ;;
  exec_delete (λ s, st_task_id s ≟ taskID) ;;
  exec_delete (λ f, sf_task_id f ≟ taskID) ;;
  mret tt.

(** [purged] is the variadic argument, [None] when it is absent. *)
Definition AdminDelete (taskID : string) (purged : option (list TaskArtifactLocation))
    : DB → (error + unit) * DB :=
  immediate (
    row ← select_one (live_task taskID);
    task ← of_option row ErrTaskNotFound;
    ensure (AdminCanDelete (vt_status task)) ErrTaskNotOperable ;;
    barriers ← select_count (λ b, nb_task_id b ≟ taskID);
    ensure (barriers =? 0) ErrCancelReconcilePending ;;
    refs ← ask (profile_refs taskID);
    ensure (refs =? 0) ErrStateConflict ;;
    same ← ask (λ db, match purged with
                      | Some l => sameTaskArtifactLocations
                                    (listTaskArtifactLocationsWithConn taskID db) l
                      | None => true
                      end);
    ensure same ErrStateConflict ;;
    unlink_task taskID (vt_version task) ;;
    delete_dependents taskID ;;
    n ← delete_tasks (λ t, (vt_task_id t ≟ taskID) && (vt_status t ≟ vt_status task)
                           && (vt_version t =? vt_version task));
    oneRow n).

(** ** Retention *)

(** The loop of [CleanupExpired] over the expired tasks, each deleted in its
    own transaction with the environment [es] gives to that call; it stops at
    the first error. *)
Fixpoint delete_expired (es : nat → Env) (i : nat) (ids : list string) (db : DB)
    : option error * Z * DB :=
  match ids with
  | [] => (None, Z.of_nat i, db)
  | id :: ids =>
      match RequestTaskDeletion (es i) id "retention" "retention-worker" db with
      | (inl err, db') => (Some err, Z.of_nat i, db')
      | (inr _, db') => delete_expired es (S i) ids db'
      end
  end.

Definition expired_task (now : Z) (t : Task) : bool :=
  vt_live t && (vt_expires t <=? now)
  && has_status [StatusSucceeded; StatusFailed; StatusCancelled] t.

(** The key rows are in order of their id, which is their order of insertion. *)
Fixpoint delete_first {A} (p : A → bool) (n : nat) (l : list A) : list A :=
  match n, l with
  | O, _ | _, [] => l
  | S n', x :: l => if p x then delete_first p n' l else x :: delete_first p n l
  end.

Definition CleanupExpired (e : Env) (es : nat → Env) (batchSize : Z) (db : DB)
    : (error + (Z * Z)) * DB :=
  let batch := if batchSize <=? 0 then 100 else batchSize in
  let now := nowUnix e in
  let ids := map vt_task_id (take (Z.to_nat batch)
               (order_by vt_queue_seq (List.filter (expired_task now) (db_video_tasks db)))) in
  match delete_expired es 0 ids db with
  | (Some err, _, db') => (inl err, db')
  | (None, count, db') =>
      let keys := db_idempotency_keys db' in
      let kept := delete_first (λ k, ik_expires_at k <=? now) (Z.to_nat batch) keys in
      (inr (count, Z.of_nat (length keys) - Z.of_nat (length kept)),
       db' <| db_idempotency_keys := kept |>)
  end.

(** ** Claims *)

(** A task a node is working on. *)
Definition working_on (upstreamID : string) (t : Task) : bool :=
  (vt_upstream_id t ≟ Some upstreamID) && has_status active_statuses t.

Definition node_current (db : DB) (id : string) (version : Z) : Prop :=
  ∃ n, n ∈ db_nodes db ∧ mn_id n = id ∧ mn_version n = version ∧ mn_enabled n = true ∧
    mn_deleted_at n = None.

Lemma is_null_true {A} (o : option A) : is_null o = true ↔ o = None.
Proof. by destruct o. Qed.

Lemma ensure_current_Done version id db u db' :
  match version with
  | Some v =>
      current ← select_count (λ n, (mn_id n ≟ id) && (mn_version n =? v)
                                   && mn_enabled n && is_null (mn_deleted_at n));
      ensure (current =? 1) ErrNodeConfigStale
  | None => mret tt
  end db = Done u db' →
  db' = db ∧ ∀ v, version = Some v → node_current db id v.
Proof.
  destruct version as [v|]; intros H; sql_inv H; split; [done| |done|done].
  intros ? [= <-]. apply Z.eqb_eq, count_where_one in H as (l1 & n & l2 & Hl & Hn & _).
  rewrite !andb_true_iff, bool_decide_eq_true, Z.eqb_eq, is_null_true in Hn.
  destruct Hn as [[[??]?]?]. exists n. split_and!; [|done..].
  unfold tbl, nodes_table in Hl. rewrite Hl. set_solver.
Qed.

(** A claim by a legacy node.  When [ClaimNext] returns a task, the node
    was idle and, if a version was expected, configured with it; the task is
    the first one of the queue the node can run, now dispatched to the node;
    it is the only task the node works on, every other row is as [rebalance]
    leaves it, and no other table changed. *)
Theorem ClaimNext_sound e o node version db t db' :
  tbl_valid (db_video_tasks db) = true →
  ClaimNext e o node version db = (inr t, db') →
  (∀ v, version = Some v → node_current db node v) ∧
  (∀ u, u ∈ db_video_tasks db → working_on node u = false) ∧
  (∃ s, next_for_node db node (nowUnix e) s ∧
     t = s <| vt_status := StatusDispatching |> <| vt_cancel_locked := true |>
           <| vt_upstream_id := Some node |>
           <| vt_started_at := coalesce (vt_started_at s) (nowUnix e) |>
           <| vt_updated_at := nowUnix e |> <| vt_version := vt_version s + 1 |>) ∧
  t ∈ db_video_tasks db' ∧
  (∀ u, u ∈ db_video_tasks db' → working_on node u = true → u = t) ∧
  (∃ ts, db' = db <| db_video_tasks := ts |>).
Proof.
  intros (Hid & Hseq & _)%tasks_valid_iff H. unfold ClaimNext in H.
  rewrite immediate_inr in H. sql_inv H.
  apply ensure_current_Done in H0 as [-> Hver].
  rewrite negb_true_iff, Z.ltb_ge in H1.
  assert (∀ u, u ∈ db_video_tasks db → working_on node u = false) as Hidle.
  { apply count_where_zero. pose proof (count_where_nonneg (working_on node) (db_video_tasks db)).
    unfold working_on in *. simpl in H1. lia. }
  apply nextEligibleTask_next in H2 as Hnext; [|done].
  pose proof Hnext as (Hs & Hw & _).
  apply tasks_valid_iff in Hvalid as (_ & Hseq' & _).
  eapply (claimed_row _ _ db) in H4 as (Et & Ht & (ts & Edb & _) & Hall);
    [| | exact Hseq' | exact Hs | | | | | exact H];
    [|done|by rewrite !bool_decide_eq_true_2|
     by intros y [?%bool_decide_eq_true _]%andb_true_iff|by intros []|by apply queued_live_active].
  split_and!; [done..|by exists x1|done| |by exists ts].
  intros y Hy Hwork. destruct (Hall y Hy) as [|(x4 & Hx & _ & Hrow)]; [done|].
  apply andb_true_iff in Hwork as [Hup Hact].
  apply (rebalanced_row_active _ _ _ _ _ _ active_not_queued) in Hrow as ->; [|done].
  specialize (Hidle x4 Hx). unfold working_on in Hidle. by rewrite Hup, Hact in Hidle.
Qed.

(** ** Creation *)

(** What no statement on another table changes. *)
Definition same_tasks (db db' : DB) : Prop :=
  db_video_tasks db' = db_video_tasks db ∧ db_idempotency_keys db' = db_idempotency_keys db.
#[export] Instance same_tasks_preorder : PreOrder same_tasks.
Proof. split; [done|]. unfold same_tasks. intros db1 db2 db3 [??] [??]. split; congruence. Qed.

Lemma insert_stages_frame taskID now ss : tx_rel same_tasks (each (insert_stage taskID now) ss).
Proof. tx_steps. unfold insert_stage. tx_stmts. done. Qed.

Lemma insert_spool_files_frame e taskID now fs :
  tx_rel same_tasks (each (insert_spool_file e taskID now) fs).
Proof. tx_steps. unfold insert_spool_file, guard_none. tx_stmts; done. Qed.

(** The row a new task has before the queue is rebalanced. *)
Definition ready_row (o : Options) (inp : NewTask) (seq now : Z) : Task :=
  (new_task_row o inp seq now)
    <| vt_protocol_version := Some (nt_ProtocolVersion inp) |>
    <| vt_route_state := RouteReady |>
    <| vt_routing_snapshot_json := nt_RoutingSnapshotJSON inp |>
    <| vt_request_normalizer := nt_RequestNormalizer inp |>.

Lemma prepareTaskRouting_row e inp db inp' :
  prepareTaskRouting e inp db = inr inp' →
  ∃ p snapshot, inp' = inp <| nt_ProtocolVersion := p |>
      <| nt_RequestNormalizer := if nt_RequestNormalizer inp ≟ "" then "legacy-h3-v1"
                                 else nt_RequestNormalizer inp |>
      <| nt_RoutingSnapshotJSON := Some (JsonOf snapshot) |> ∧
    rs_ProtocolVersion snapshot = p ∧ rs_Model snapshot = nt_Model inp ∧
    ∀ s, nt_RoutingSnapshotJSON inp = Some (JsonOf s) → snapshot = s.
Proof.
  unfold prepareTaskRouting. rewrite sum_bind_inr. intros (p & _ & H).
  destruct (Lookup p); [|done].
  destruct (default _ _) as [snapshot|] eqn:Es; [|done]. simpl in H.
  destruct (_ || _) eqn:E; [done|].
  rewrite orb_false_iff, !negb_false_iff, !bool_decide_eq_true in E. destruct E as [E1 E2].
  exists p, snapshot. split_and!; [|done..|intros s Hs; rewrite Hs in Es; by injection Es].
  destruct (0 <? _); [|congruence]. destruct (negb _); [done|].
  destruct (routable_nodes _ _ _ _); [done|]. apply sum_bind_inr in H as (cats & _ & H).
  destruct (existsb _ _); congruence.
Qed.

Lemma prepareTaskRouting_input e inp db inp' :
  prepareTaskRouting e inp db = inr inp' →
  nt_TaskID inp' = nt_TaskID inp ∧ nt_APIKeyID inp' = nt_APIKeyID inp ∧
  nt_RequestHash inp' = nt_RequestHash inp ∧ nt_Model inp' = nt_Model inp ∧
  ∃ snapshot, nt_RoutingSnapshotJSON inp' = Some (JsonOf snapshot) ∧
    rs_ProtocolVersion snapshot = nt_ProtocolVersion inp' ∧ rs_Model snapshot = nt_Model inp.
Proof.
  intros (p & snapshot & -> & Ep & Em & _)%prepareTaskRouting_row. destruct inp. simpl in *.
  split_and!; [done..|]. by exists snapshot.
Qed.

Lemma next_queue_seq_gt db t : t ∈ db_video_tasks db → vt_queue_seq t < next_queue_seq db.
Proof.
  unfold next_queue_seq. induction (db_video_tasks db) as [|u l IH]; intros Ht;
    [by apply elem_of_nil in Ht|]. apply elem_of_cons in Ht as [->|Ht]; simpl; [lia|].
  specialize (IH Ht). lia.
Qed.

Definition key_row (o : Options) (inp : NewTask) (keyHash : string) (now : Z) : IdempotencyKey :=
  mkIdempotencyKey (nt_APIKeyID inp) keyHash (nt_RequestHash inp) (nt_TaskID inp) now
    (now + Seconds (opt_IdempotencyTTL o)).

Definition same_key (inp : NewTask) (keyHash : string) (k : IdempotencyKey) : bool :=
  (ik_api_key_id k ≟ nt_APIKeyID inp) && (ik_key_hash k ≟ keyHash).

Lemma update_last {A} (p : A → bool) f l x :
  (∀ y, y ∈ l → p y = false) → p x = true → update_where p f (l ++ [x]) = l ++ [f x].
Proof. intros Hl Hx. rewrite update_where_app, update_where_id by done. simpl. by rewrite Hx. Qed.

Lemma route_update o inp seq now ts :
  NoDup (map vt_task_id (ts ++ [new_task_row o inp seq now])) →
  update_where (λ t, vt_task_id t ≟ nt_TaskID inp)
    (λ t, t <| vt_protocol_version := Some (nt_ProtocolVersion inp) |>
            <| vt_route_state := RouteReady |>
            <| vt_routing_snapshot_json := nt_RoutingSnapshotJSON inp |>
            <| vt_request_normalizer := nt_RequestNormalizer inp |>)
    (ts ++ [new_task_row o inp seq now]) = ts ++ [ready_row o inp seq now].
Proof.
  rewrite map_app. intros (_ & Hid & _)%NoDup_app.
  rewrite update_last; [done| |by apply bool_decide_eq_true].
  intros y Hy. apply bool_decide_eq_false. intros Ey.
  apply (Hid (vt_task_id y)); [by apply list_elem_of_In, in_map, list_elem_of_In|].
  rewrite Ey. by left.
Qed.

Lemma clear_key_Done inp k db u db' :
  (if negb (k ≟ "")
   then exec_delete (λ k0, (ik_api_key_id k0 ≟ nt_APIKeyID inp) && (ik_key_hash k0 ≟ k)) ;;
        mret tt
   else mret tt : Tx unit) db = Done u db' →
  ∃ ks, db' = db <| db_idempotency_keys := ks |> ∧
    (k ≠ "" → ks = delete_where (same_key inp k) (db_idempotency_keys db)).
Proof.
  destruct (decide (k = "")) as [->|Hk].
  - simpl. intros H. sql_inv H. exists (db_idempotency_keys db). by destruct db.
  - rewrite (bool_decide_eq_false_2 _ Hk). simpl. intros H. sql_inv H. by eexists.
Qed.

Lemma write_key_Done o inp k now db u db' :
  (if negb (k ≟ "") then exec_insert (key_row o inp k now) else mret tt : Tx unit) db
  = Done u db' →
  db_video_tasks db' = db_video_tasks db ∧
  (k ≠ "" → db_idempotency_keys db' = db_idempotency_keys db ++ [key_row o inp k now]).
Proof.
  destruct (decide (k = "")) as [->|Hk].
  - simpl. intros H. sql_inv H. done.
  - rewrite (bool_decide_eq_false_2 _ Hk). simpl. intros H. sql_inv H. done.
Qed.

Lemma callback_frame (b c : bool) d err :
  tx_rel same_tasks (if b then ensure c err ;; exec_insert (d : CallbackDelivery) else mret tt).
Proof. tx_stmts; done. Qed.

(** The statements of [create_new], up to the last rebalancing. *)
Lemma create_new_Done e o inp k available db t db' :
  create_new e o inp k available db = Done t db' →
  let now := nowUnix e in
  ∃ inp' db1 u,
    available = true ∧
    count_where (unfinished_of (nt_APIKeyID inp)) (db_video_tasks db) < opt_PerKeyLimit o ∧
    count_where unfinished (db_video_tasks db) < opt_GlobalLimit o ∧
    prepareTaskRouting e inp db = inr inp' ∧
    db_video_tasks db1 = db_video_tasks db ++ [ready_row o inp' (next_queue_seq db) now] ∧
    tbl_valid (db_video_tasks db1) = true ∧
    (k ≠ "" → db_idempotency_keys db1 =
       delete_where (same_key inp k) (db_idempotency_keys db) ++ [key_row o inp' k now]) ∧
    rebalance o now db1 = Done u db' ∧
    getWith (nt_APIKeyID inp) (nt_TaskID inp) now db' = inr t.
Proof.
  intros H. unfold create_new, insert_task in H. sql_inv H.
  apply clear_key_Done in H1 as (ks & -> & Hks).
  apply (tx_rel_Done _ _ _ _ _ (callback_frame _ _ _ _)) in H0 as [T1 K1].
  apply (tx_rel_Done _ _ _ _ _ (insert_stages_frame _ _ _)) in H5 as [T2 K2].
  apply (tx_rel_Done _ _ _ _ _ (insert_spool_files_frame _ _ _ _)) in H6 as [T3 K3].
  apply (write_key_Done o x3) in H7 as [T4 K4].
  pose proof (prepareTaskRouting_input _ _ _ _ H4) as (Eid & Eowner & Ehash & _).
  rewrite Z.ltb_lt in H2, H3. exists x3, db4, x10.
  apply tasks_valid_iff in Hvalid as (Hid & _ & _).
  assert (db_video_tasks db4 = db_video_tasks db
    ++ [ready_row o x3 (next_queue_seq db) (nowUnix e)]) as Et.
  { rewrite T4, T3, T2, T1. apply (route_update o x3 (next_queue_seq db) (nowUnix e)), Hid. }
  split_and!; [done|exact H2|exact H3|exact H4|exact Et| | |exact H8|by rewrite <-Eowner, <-Eid].
  - by rewrite T4, T3, T2, T1.
  - intros Hk. rewrite (K4 Hk), K3, K2, K1. simpl. by rewrite (Hks Hk).
Qed.

Lemma rebalanced_unfinished o now ts x y :
  rebalanced_row o now ts x y →
  unfinished y = unfinished x ∧ ∀ owner, unfinished_of owner y = unfinished_of owner x.
Proof.
  unfold rebalanced_row. destruct (queued_live x) eqn:E; [|by intros ->].
  intros ->. unfold queued_live, has_status in E. apply andb_true_iff in E as [El Es].
  apply bool_decide_eq_true in Es.
  assert (has_status unfinished_statuses x = true) as Hx
    by (apply bool_decide_eq_true; unfold unfinished_statuses; set_solver).
  split; [|intros owner]; unfold unfinished, unfinished_of; rewrite Hx;
    unfold has_status; simpl; destruct (waiting x && _); by destruct x.
Qed.

(** The key is not known, or the request has none. *)
Definition fresh_key (e : Env) (inp : NewTask) (k : string) (db : DB) : Prop :=
  k = "" ∨ find_idempotent e (nt_APIKeyID inp) k db = None.

Lemma Create_fresh e o inp k available db t db' :
  fresh_key e inp k db → Create e o inp k available db = (inr t, db') →
  create_new e o inp k available db = Done t db'.
Proof.
  intros Hk H. unfold Create in H. rewrite immediate_inr, bind_Done in H.
  destruct H as (known & db1 & Hknown & H).
  assert (known = None ∧ db1 = db) as [-> ->]; [|done].
  destruct (decide (k = "")) as [->|Hne].
  - simpl in Hknown. sql_inv Hknown. done.
  - destruct Hk as [|Hk]; [done|]. rewrite (bool_decide_eq_false_2 _ Hne) in Hknown.
    simpl in Hknown. sql_inv Hknown. by rewrite Hk.
Qed.

(** The new task, once the queue is rebalanced. *)
Lemma create_new_row e o inp k available db t db' :
  create_new e o inp k available db = Done t db' →
  ∃ inp', prepareTaskRouting e inp db = inr inp' ∧
    let row := ready_row o inp' (next_queue_seq db) (nowUnix e) in
    t ∈ db_video_tasks db' ∧ NoDup (map vt_task_id (db_video_tasks db')) ∧
    Forall2 (rebalanced_row o (nowUnix e) (db_video_tasks db ++ [row]))
      (db_video_tasks db ++ [row]) (db_video_tasks db') ∧
    rebalanced_row o (nowUnix e) (db_video_tasks db ++ [row]) row t.
Proof.
  intros (inp' & db1 & u & _ & _ & _ & Hp & Ht & Hv & _ & Hreb & Hget)%create_new_Done.
  exists inp'. split; [done|]. intros row.
  apply tasks_valid_iff in Hv as (Hid & Hnd & _).
  destruct (rebalance_rows _ _ _ _ _ Hnd Hreb) as (ts & -> & Hts).
  fold row in Ht. rewrite Ht in Hts, Hid.
  unfold getWith in Hget. destruct (List.find _ _) as [t'|] eqn:Efind; [|done].
  apply (inj inr) in Hget as ->. apply find_elem_of in Efind as [Hin Hvis].
  unfold visible in Hvis. rewrite !andb_true_iff, bool_decide_eq_true in Hvis.
  destruct Hvis as [[[Etid _] _] _].
  assert (map vt_task_id ts = map vt_task_id (db_video_tasks db ++ [row])) as Eids.
  { symmetry. clear -Hts. induction Hts as [|x y l l' Hxy _ IH]; [done|]. simpl.
    apply rebalanced_row_keeps in Hxy as (-> & _). by rewrite IH. }
  split_and!; [done|by simpl; rewrite Eids|done|].
  simpl in Hin. apply (list_elem_of_lookup_1 ts) in Hin as (i & Hi).
  destruct (Forall2_lookup_r _ _ _ _ _ Hts Hi) as (x & Hx & Hxt).
  assert (x = row) as <-; [|done].
  apply (NoDup_map_inj vt_task_id (db_video_tasks db ++ [row]));
    [done|by eapply list_elem_of_lookup_2|set_solver|].
  apply rebalanced_row_keeps in Hxt as (Ex & _). rewrite <-Ex, Etid.
  apply prepareTaskRouting_input in Hp as (Eid' & _). exact (eq_sym Eid').
Qed.

Lemma ready_row_rebalanced o inp seq now ts t :
  let row := ready_row o inp seq now in
  rebalanced_row o now (ts ++ [row]) row t →
  let locked := ahead ts seq <? opt_ProtectedSlots o in
  t = row <| vt_status := if locked then StatusQueuedLocked else StatusQueuedOpen |>
          <| vt_cancel_locked := locked |> <| vt_updated_at := now |> <| vt_version := 2 |>.
Proof.
  intros row. unfold rebalanced_row. change (queued_live row) with true.
  change (waiting row) with true. cbn [andb]. intros ->. unfold ahead.
  rewrite count_where_app, count_where_cons, count_where_nil.
  change (vt_queue_seq row) with seq. rewrite Z.ltb_irrefl, andb_false_r.
  by rewrite !Z.add_0_r.
Qed.

Lemma rebalanced_counts o now ts l l' :
  Forall2 (rebalanced_row o now ts) l l' →
  count_where unfinished l' = count_where unfinished l ∧
  ∀ owner, count_where (unfinished_of owner) l' = count_where (unfinished_of owner) l.
Proof.
  intros H. split; [|intros owner]; symmetry; apply count_where_Forall2;
    eapply Forall2_impl; [exact H| |exact H|];
    intros x y Hxy; apply rebalanced_unfinished in Hxy as [? Ho]; [done|by rewrite Ho].
Qed.

(** C8: what [Create] promises for a request whose idempotency key is unknown.
    It creates the task only while resources are available and both limits
    leave room, so that afterwards neither the key nor the whole proxy has more
    unfinished tasks than its limit; the new task has a fresh id and the last
    place of the queue, waits with a ready route whose snapshot names its
    protocol and model, and is locked exactly if it is among the first
    [ProtectedSlots] waiting tasks. *)
Theorem Create_admits e o inp k available db t db' :
  fresh_key e inp k db → Create e o inp k available db = (inr t, db') →
  available = true ∧
  count_where (unfinished_of (nt_APIKeyID inp)) (db_video_tasks db') ≤ opt_PerKeyLimit o ∧
  count_where unfinished (db_video_tasks db') ≤ opt_GlobalLimit o ∧
  t ∈ db_video_tasks db' ∧ vt_task_id t = nt_TaskID inp ∧ vt_owner t = nt_APIKeyID inp ∧
  (∀ u, u ∈ db_video_tasks db →
     vt_task_id u ≠ vt_task_id t ∧ vt_queue_seq u < vt_queue_seq t) ∧
  waiting t = true ∧
  (∃ snapshot, vt_routing_snapshot_json t = Some (JsonOf snapshot) ∧
     vt_protocol_version t = Some (rs_ProtocolVersion snapshot) ∧
     rs_Model snapshot = vt_model (vt_request t)) ∧
  vt_status t = (if ahead (db_video_tasks db) (vt_queue_seq t) <? opt_ProtectedSlots o
                 then StatusQueuedLocked else StatusQueuedOpen).
Proof.
  intros Hk H%Create_fresh; [|done].
  pose proof (create_new_row _ _ _ _ _ _ _ _ H) as (inp' & Hp & Hin & _ & Hrows & Hrow).
  apply create_new_Done in H as (inp'' & db1 & u & -> & Hper & Hglob & Hp' & Ht & Hv & _).
  rewrite Hp in Hp'. apply (inj inr) in Hp' as <-.
  apply rebalanced_counts in Hrows as [-> ->].
  rewrite !count_where_app, !count_where_cons, !count_where_nil.
  apply ready_row_rebalanced in Hrow. apply tasks_valid_iff in Hv as (Hid & _).
  rewrite Ht, map_app in Hid. apply NoDup_app in Hid as (_ & Hid & _).
  apply prepareTaskRouting_input in Hp as (Eid & Eown & _ & Emod & sn & Esn & Epr & Em).
  split_and!; [done|destruct (unfinished_of _ _); lia|destruct (unfinished _); lia|done|..];
    rewrite Hrow; [exact Eid|exact Eown| |by destruct (_ <? _)| |done].
  - intros v Hv. split; [|by apply next_queue_seq_gt].
    change (vt_task_id v ≠ nt_TaskID inp'). intros E.
    apply (Hid (vt_task_id v)); [by apply list_elem_of_In, in_map, list_elem_of_In|].
    rewrite E. apply list_elem_of_In. left. reflexivity.
  - exists sn. simpl. rewrite Epr, Em. done.
Qed.

Lemma join_on_last {A B} (p : A → B → bool) l x l2 b :
  (∀ a, a ∈ l → ∀ b, p a b = false) → b ∈ l2 → p x b = true →
  fst <$> head (join_on p (l ++ [x]) l2) = Some x.
Proof.
  intros Hl Hb Hp. unfold join_on. rewrite flat_map_app.
  assert (flat_map (λ a, map (λ b, (a, b)) (List.filter (p a) l2)) l = []) as ->.
  { induction l as [|a l IH]; [done|]. simpl. rewrite IH by set_solver. rewrite app_nil_r.
    clear Hb IH. induction l2 as [|c l2 IH2]; [done|]. simpl. rewrite (Hl a) by by left.
    exact IH2. }
  simpl. assert (b ∈ List.filter (p x) l2) as Hin by by apply elem_of_filter_bool.
  destruct (List.filter (p x) l2); [by apply elem_of_nil in Hin|done].
Qed.

(** The key just written is the one a replay finds. *)
Lemma create_new_key e e' o inp k available db t db' :
  k ≠ "" → create_new e o inp k available db = Done t db' →
  nowUnix e' < nowUnix e + Seconds (opt_IdempotencyTTL o) →
  ∃ i, find_idempotent e' (nt_APIKeyID inp) k db' = Some i ∧
    ik_request_hash i = nt_RequestHash inp ∧ ik_task_id i = nt_TaskID inp.
Proof.
  intros Hk H Httl. pose proof (create_new_row _ _ _ _ _ _ _ _ H) as (_ & _ & Hin & _).
  apply create_new_Done in H as (inp' & db1 & u & _ & _ & _ & Hp & _ & Hv & Hkeys & Hreb & Hget).
  apply tasks_valid_iff in Hv as (_ & Hnd & _).
  destruct (rebalance_rows _ _ _ _ _ Hnd Hreb) as (ts & -> & _).
  apply prepareTaskRouting_input in Hp as (Eid & Eown & Ehash & _).
  exists (key_row o inp' k (nowUnix e)). split; [|by rewrite <-Ehash, <-Eid].
  unfold find_idempotent. simpl. rewrite (Hkeys Hk).
  unfold getWith in Hget. destruct (List.find _ _) as [t'|] eqn:Efind; [|done].
  apply (inj inr) in Hget as ->. apply find_elem_of in Efind as [_ Hvis].
  unfold visible in Hvis. rewrite !andb_true_iff, bool_decide_eq_true in Hvis.
  destruct Hvis as [[[Etid _] Hlive] _].
  apply (join_on_last _ _ _ _ t); [|done|].
  - intros i [Hi _]%elem_of_delete_where b. unfold idempotent_match.
    unfold same_key in Hi. destruct (ik_api_key_id i ≟ _), (ik_key_hash i ≟ k); try done;
      by rewrite ?andb_false_r.
  - unfold idempotent_match, key_row. simpl.
    rewrite Hlive, Etid, <-Eid, Eown, !bool_decide_eq_true_2 by done.
    by rewrite (proj2 (Z.ltb_lt _ _)).
Qed.

(** Until it expires, the new task is what its owner reads. *)
Lemma create_new_found e e' o inp k available db t db' :
  create_new e o inp k available db = Done t db' → nowUnix e' < vt_expires t →
  getWith (nt_APIKeyID inp) (nt_TaskID inp) (nowUnix e') db' = inr t.
Proof.
  intros H Hexp. pose proof (create_new_row _ _ _ _ _ _ _ _ H) as (inp' & Hp & Hin & Hnd & _ & Hrow).
  apply ready_row_rebalanced in Hrow. unfold getWith. apply prepareTaskRouting_input in Hp as (Eid & Eo & _).
  rewrite (find_unique vt_task_id _ _ t Hnd Hin); [done|..].
  - unfold visible. rewrite (proj2 (Z.ltb_lt _ _) Hexp).
    rewrite Hrow, <-Eid, <-Eo. by rewrite !bool_decide_eq_true_2.
  - intros y. unfold visible. rewrite !andb_true_iff, bool_decide_eq_true.
    intros [[[-> _] _] _]. by rewrite Hrow, <-Eid.
Qed.

(** C9: idempotency.  Once [Create] has made a task under a key, every later
    [Create] of the same owner under that key, while the key and the task have
    not expired, changes nothing, whatever the limits, the availability and
    the rest of the request: it returns the same task if the request hash is
    the same, and [ErrIdempotencyConflict] otherwise. *)
Theorem Create_replay e o inp k available db t db' e' o' inp' available' :
  k ≠ "" → fresh_key e inp k db → Create e o inp k available db = (inr t, db') →
  nt_APIKeyID inp' = nt_APIKeyID inp →
  nowUnix e' < nowUnix e + Seconds (opt_IdempotencyTTL o) → nowUnix e' < vt_expires t →
  Create e' o' inp' k available' db' =
  (if nt_RequestHash inp' ≟ nt_RequestHash inp then inr t else inl ErrIdempotencyConflict, db').
Proof.
  intros Hk Hfresh H%Create_fresh Eown Httl Hexp; [|done].
  destruct (create_new_key _ e' _ _ _ _ _ _ _ Hk H Httl) as (i & Hi & Ehash & Etid).
  pose proof (create_new_found _ e' _ _ _ _ _ _ _ H Hexp) as Hget.
  unfold Create, immediate. rewrite (bool_decide_eq_false_2 _ Hk).
  unfold mbind, tx_bind, ask, ensure, query. simpl. rewrite Eown, Hi, Ehash, Etid.
  rewrite (bool_decide_ext (nt_RequestHash inp = nt_RequestHash inp')
    (nt_RequestHash inp' = nt_RequestHash inp)) by done.
  destruct (_ ≟ _); simpl; [|done]. by rewrite Hget.
Qed.

(** ** Cancellation *)

Lemma admin_cancel_stages e o taskID db u db' s a :
  NoDup (map vt_task_id (db_video_tasks db)) →
  head (active_attempts taskID db) = Some (s, a) →
  admin_cancel_local e o taskID db = Done u db' →
  ∃ db1, createNodeDispatchBarrierForTask taskID (nowUnix e * 1000) db = Done true db1 ∧
    finishStageTaskCancellation e taskID (nowUnix e) db1 = Done u db'.
Proof.
  intros Hid Hhead H. unfold admin_cancel_local in H. sql_inv H.
  match goal with H : createNodeDispatchBarrierForTask _ _ _ = Done ?b ?d |- _ =>
    pose proof (createBarrier_Done _ _ _ _ _ H) as (Eb & _); rewrite Hhead in Eb;
    simpl in Eb; subst b; exists d; split; [done|] end.
  destruct (vt_status _); try exact H; by sql_inv H.
Qed.

(** Cancelling a task that runs on a node.  When an administrator's
    cancellation of a task with an active attempt succeeds, the task is
    cancelled, all its stages are over and no attempt of them is active, and
    the node of the latest attempt stands behind a dispatch barrier: every
    claim by that node fails until the barrier is resolved. *)
Theorem RequestAdminCancel_barrier e o taskID db db' s a :
  tbl_valid (db_video_tasks db) = true →
  head (active_attempts taskID db) = Some (s, a) →
  (∀ t, t ∈ db_video_tasks db → vt_task_id t = taskID → vt_upstream_slot_active t = false) →
  RequestAdminCancel e o taskID db = (inr tt, db') →
  task_stopped db' taskID ∧
  ∀ e' token duration,
    ClaimStage e' (sa_node_id a) token duration db' = (inl ErrNoClaimableStage, db').
Proof.
  intros (Hid & _)%tasks_valid_iff Hhead Hslot H. unfold RequestAdminCancel in H.
  assert (∀ t, List.find (live_task taskID) (db_video_tasks db) = Some t →
    vt_upstream_slot_active t = false) as Hs.
  { intros t [Ht [E%bool_decide_eq_true _]%andb_true_iff]%find_elem_of. by apply Hslot. }
  assert (immediate (admin_cancel_local e o taskID) db = (inr tt, db')) as H'.
  { destruct (List.find _ _) as [t|]; [|done]. by rewrite Hs, andb_false_r in H. }
  apply immediate_inr, (admin_cancel_stages _ _ _ _ _ _ s a) in H' as (db1 & Hb & Hf); [|done..].
  apply createBarrier_Done in Hb as (_ & Et & _ & _ & Hb). specialize (Hb s a Hhead).
  apply finishStageTaskCancellation_stops in Hf as [Hstop Ebar]; [|by rewrite Et].
  split; [done|]. intros e' token duration. apply ClaimStage_blocked.
  unfold HasNodeDispatchBarrier in *. by rewrite Ebar.
Qed.

(** ** Deletion *)

Lemma delete_tasks_Done p db n db' :
  delete_tasks p db = Done n db' →
  let ids := map vt_task_id (List.filter p (db_video_tasks db)) in
  n = count_where p (db_video_tasks db) ∧ existsb (references_task db) ids = false ∧
  db' = db <| db_video_tasks := delete_where p (db_video_tasks db) |>
           <| db_remote_runs := delete_where (λ r, rr_task_id r ∈? ids) (db_remote_runs db) |>
           <| db_node_assets := delete_where (λ a, na_task_id a ∈? ids) (db_node_assets db) |>.
Proof.
  intros H. unfold delete_tasks in H. sql_inv H. apply negb_true_iff in H0.
  split_and!; [done..|]. by destruct db.
Qed.

(** The loop over the deletion jobs touches their table only. *)
Lemma delete_jobs_frame jobs :
  tx_rel (λ db db', ∃ js, db' = db <| db_deletion_jobs := js |>)
    (each (λ job,
      items ← ask (λ db, exists_where (λ i, di_job_id i ≟ job) (db_deletion_items db));
      exec_delete (λ j, (dj_id j ≟ job) && negb items) ;; mret tt) jobs).
Proof.
  assert (PreOrder (λ db db', ∃ js, db' = db <| db_deletion_jobs := js |>)).
  { split; [intros db; exists (db_deletion_jobs db); by destruct db|].
    intros db1 db2 db3 (js & ->) (js' & ->). by exists js'. }
  tx_stmts. intros db. eexists. reflexivity.
Qed.

Definition absent {A} (key : A → string) (taskID : string) (l : list A) : Prop :=
  ∀ x, x ∈ l → key x ≠ taskID.

Lemma absent_delete {A} (key : A → string) taskID l :
  absent key taskID (delete_where (λ x, key x ≟ taskID) l).
Proof. intros x [E _]%elem_of_delete_where. by apply bool_decide_eq_false in E. Qed.

Lemma unlink_task_Done taskID version db u db' :
  unlink_task taskID version db = Done u db' →
  db' = db <| db_video_tasks :=
               update_where (λ t, (vt_task_id t ≟ taskID) && (vt_version t =? version))
                 (λ t, t <| vt_active_stage_id := None |> <| vt_result_artifact_id := None |>)
                 (db_video_tasks db) |>
           <| db_task_stages :=
               update_where (λ s, st_task_id s ≟ taskID)
                 (λ s, s <| st_input_artifact_id := None |> <| st_output_artifact_id := None |>)
                 (db_task_stages db) |>.
Proof. intros H. unfold unlink_task in H. by sql_inv H. Qed.

Lemma delete_dependents_Done taskID db u db' :
  delete_dependents taskID db = Done u db' →
  ∃ items jobs,
  db' = db
    <| db_idempotency_keys := delete_where (λ k, ik_task_id k ≟ taskID) (db_idempotency_keys db) |>
    <| db_callback_deliveries :=
         delete_where (λ d, cd_task_id d ≟ taskID) (db_callback_deliveries db) |>
    <| db_deletion_items := items |> <| db_deletion_jobs := jobs |>
    <| db_stage_attempts := delete_where (λ a, sa_stage_id a ∈?
         map st_id (List.filter (λ s, st_task_id s ≟ taskID) (db_task_stages db)))
         (db_stage_attempts db) |>
    <| db_locations := delete_where (λ l, al_artifact_id l ∈?
         map ta_id (List.filter (λ a, ta_task_id a ≟ taskID) (db_artifacts db)))
         (db_locations db) |>
    <| db_artifacts := delete_where (λ a, ta_task_id a ≟ taskID) (db_artifacts db) |>
    <| db_task_stages := delete_where (λ s, st_task_id s ≟ taskID) (db_task_stages db) |>
    <| db_spool_files := delete_where (λ f, sf_task_id f ≟ taskID) (db_spool_files db) |>.
Proof.
  intros H. unfold delete_dependents in H. sql_inv H.
  match goal with E : each _ _ _ = Done _ _ |- _ =>
    apply (tx_rel_Done _ _ _ _ _ (delete_jobs_frame _)) in E as (js & ->) end.
  do 2 eexists. reflexivity.
Qed.

Lemma in_ids {A} (key owner : A → string) taskID l x :
  x ∈ l → owner x = taskID → key x ∈ map key (List.filter (λ y, owner y ≟ taskID) l).
Proof.
  intros Hx E. apply list_elem_of_In, in_map, filter_In. rewrite <-list_elem_of_In.
  by rewrite bool_decide_eq_true_2.
Qed.

(** The steps of a deletion that returned. *)
Lemma AdminDelete_steps taskID purged db u db' :
  AdminDelete taskID purged db = (inr u, db') →
  ∃ task db1 db2,
    List.find (live_task taskID) (db_video_tasks db) = Some task ∧
    AdminCanDelete (vt_status task) = true ∧
    count_where (λ b, nb_task_id b ≟ taskID) (db_barriers db) = 0 ∧
    profile_refs taskID db = 0 ∧
    unlink_task taskID (vt_version task) db = Done tt db1 ∧
    delete_dependents taskID db1 = Done tt db2 ∧
    delete_tasks (λ t, (vt_task_id t ≟ taskID) && (vt_status t ≟ vt_status task)
                       && (vt_version t =? vt_version task)) db2 = Done 1 db'.
Proof.
  intros H. unfold AdminDelete in H. rewrite immediate_inr in H. sql_inv H.
  repeat match goal with
  | H : (_ =? _) = true |- _ => apply Z.eqb_eq in H
  | H : (_ ≟ 1) = true |- _ => apply (bool_decide_eq_true_1 _) in H; subst
  end.
  repeat match goal with u : unit |- _ => destruct u end.
  do 3 eexists. split_and!; eassumption.
Qed.

(** The rows the last statement deletes are those of the task. *)
Lemma delete_task_row taskID task (ts : list Task) f :
  NoDup (map vt_task_id ts) → List.find (live_task taskID) ts = Some task →
  (∀ t, vt_task_id (f t) = vt_task_id t ∧ vt_status (f t) = vt_status t ∧
        vt_version (f t) = vt_version t) →
  let ts' := update_where (λ t, (vt_task_id t ≟ taskID) && (vt_version t =? vt_version task)) f ts in
  let p t := (vt_task_id t ≟ taskID) && (vt_status t ≟ vt_status task)
             && (vt_version t =? vt_version task) in
  map vt_task_id (List.filter p ts') = [taskID] ∧
  delete_where p ts' = delete_where (λ t, vt_task_id t ≟ taskID) ts.
Proof.
  intros Hnd [Hin [E%bool_decide_eq_true _]%andb_true_iff]%find_elem_of Hf ts' p.
  assert (∀ x, x ∈ ts → p (if (vt_task_id x ≟ taskID) && (vt_version x =? vt_version task)
    then f x else x) = (vt_task_id x ≟ taskID)) as Hp.
  { intros x Hx. destruct (decide (vt_task_id x = taskID)) as [Ex|Ex].
    - assert (x = task) as -> by (apply (NoDup_map_inj vt_task_id ts); congruence).
      rewrite (bool_decide_eq_true_2 _ Ex), Z.eqb_refl. unfold p. simpl.
      destruct (Hf task) as (-> & -> & ->). by rewrite Z.eqb_refl, !bool_decide_eq_true_2.
    - rewrite (bool_decide_eq_false_2 _ Ex). simpl. unfold p.
      by rewrite (bool_decide_eq_false_2 _ Ex). }
  split.
  - unfold ts'. rewrite (filter_update_where vt_task_id p _ (λ t, vt_task_id t ≟ taskID));
      [|done|intros t; by apply Hf]. rewrite <-E, filter_key_unique by done. done.
  - apply delete_update_where; [done|]. by intros x _ ->.
Qed.

(** The databases after the unlinking, the dependents and the task itself. *)
Lemma AdminDelete_effect taskID purged db u db' :
  NoDup (map vt_task_id (db_video_tasks db)) →
  AdminDelete taskID purged db = (inr u, db') →
  ∃ task db1 db2,
    List.find (live_task taskID) (db_video_tasks db) = Some task ∧
    AdminCanDelete (vt_status task) = true ∧
    count_where (λ b, nb_task_id b ≟ taskID) (db_barriers db) = 0 ∧
    profile_refs taskID db = 0 ∧
    unlink_task taskID (vt_version task) db = Done tt db1 ∧
    delete_dependents taskID db1 = Done tt db2 ∧
    references_task db2 taskID = false ∧
    db' = db2 <| db_video_tasks := delete_where (λ t, vt_task_id t ≟ taskID) (db_video_tasks db) |>
      <| db_remote_runs := delete_where (λ r, rr_task_id r ∈? [taskID]) (db_remote_runs db2) |>
      <| db_node_assets := delete_where (λ a, na_task_id a ∈? [taskID]) (db_node_assets db2) |>.
Proof.
  intros Hid H.
  apply AdminDelete_steps in H as (task & db1 & db2 & Hfind & Hcan & Hbar & Hprof & H1 & H2 & H3).
  exists task, db1, db2. split_and!; [done..| |];
    apply unlink_task_Done in H1 as E1; apply delete_dependents_Done in H2 as (items & jobs & E2);
    apply delete_tasks_Done in H3 as (_ & Href & E3);
    (assert (db_video_tasks db2 = update_where
      (λ t, (vt_task_id t ≟ taskID) && (vt_version t =? vt_version task))
      (λ t, t <| vt_active_stage_id := None |> <| vt_result_artifact_id := None |>)
      (db_video_tasks db)) as ET by by rewrite E2, E1);
    (destruct (delete_task_row taskID task (db_video_tasks db)
      (λ t, t <| vt_active_stage_id := None |> <| vt_result_artifact_id := None |>))
      as [Hids Hdel]; [done..|]);
    rewrite <-ET in Hids, Hdel; cbv zeta in Hids, Hdel.
  - rewrite Hids in Href. simpl in Href. by rewrite orb_false_r in Href.
  - by rewrite Hids, Hdel in E3.
Qed.

Lemma references_upload db taskID j :
  references_task db taskID = false → j ∈ db_upload_jobs db → uj_task_id j ≠ taskID.
Proof.
  unfold references_task. rewrite !orb_false_iff. intros [_ Hu] Hj E.
  rewrite <-not_true_iff_false in Hu. apply Hu, existsb_exists. exists j.
  by rewrite <-list_elem_of_In, bool_decide_eq_true_2.
Qed.


(** C29: finding.  A task that ever had an upload job cannot be deleted by an
    administrator: [AdminDelete] removes no row of result_upload_jobs, whose
    foreign key has no ON DELETE action, so the last DELETE is refused and the
    whole operation is rolled back, for every database. *)
Theorem AdminDelete_upload_job taskID purged db j :
  tbl_valid (db_video_tasks db) = true →
  j ∈ db_upload_jobs db → uj_task_id j = taskID →
  ∃ err, AdminDelete taskID purged db = (inl err, db).
Proof.
  intros (Hid & _)%tasks_valid_iff Hj Ej.
  destruct (AdminDelete taskID purged db) as [[err|[]] db'] eqn:H.
  { exists err. unfold AdminDelete in *. apply immediate_inl in H as E. congruence. }
  exfalso. apply AdminDelete_effect in H
    as (task & db1 & db2 & _ & _ & _ & _ & H1 & H2 & Href & _); [|done].
  apply unlink_task_Done in H1 as E1. apply delete_dependents_Done in H2 as (items & jobs & E2).
  apply (references_upload db2 taskID j Href); [|done]. by rewrite E2, E1.
Qed.
