(* ===== verification/Official.v ===== *)
(** * Tasks of the official protocol (internal/store/sqlite/official_task_store.go)

    A MiniMax V2 node runs several tasks at once, each holding a slot until
    its result or its failure is recorded. *)

From S2P Require Import Prelude Domain Tx Database Sql GoStrings Catalog Paging TaskRouting Callbacks Queue Remote Tasks.

(** The task a worker of an official node holds. *)
Definition official_task (taskID nodeID : string) (ss : list InternalStatus) (t : Task) : bool :=
  (vt_task_id t ≟ taskID) && slot_of nodeID t && has_status ss t
  && (vt_protocol_version t ≟ Some ProtocolOfficial) && (vt_route_state t ≟ RouteReady).

Definition SaveOfficialSubmissionBaseline (e : Env) (taskID nodeID : string)
    (taskIDs : list string) : DB → (error + unit) * DB :=
  statement (exec_update (official_task taskID nodeID [StatusDispatching])
    (λ t, touch (nowUnix e) t <| vt_upstream_jobs_before_json := JsonOf taskIDs |>
            <| vt_official_submission_baseline_saved := true |>)).

Definition ListActiveOfficialTasks (nodeID : string) (db : DB) : list Task :=
  order_by vt_queue_seq (List.filter (λ t, slot_of nodeID t && vt_live t
      && (vt_protocol_version t ≟ Some ProtocolOfficial) && (vt_route_state t ≟ RouteReady)
      && has_status [StatusDispatching; StatusRunning] t) (db_video_tasks db)).

Definition ActiveOfficialCount (nodeID : string) (db : DB) : Z :=
  count_where (slot_of nodeID) (db_video_tasks db).

Definition ClaimNextOfficial (e : Env) (o : Options) (nodeID : string)
    (nodeVersion capacity : Z) (db : DB) : (error + Task) * DB :=
  if capacity <? 1 then (inl ErrUpstreamBusy, db)
  else
  let now := nowUnix e in
  immediate (
    row ← select_one (λ n, (mn_id n ≟ nodeID) && (mn_version n =? nodeVersion) && mn_enabled n
                           && is_null (mn_deleted_at n)
                           && (mn_protocol_version n ≟ ProtocolOfficial));
    node ← of_option row ErrNodeConfigStale;
    let capacity := Z.min capacity (mn_max_concurrency node) in
    active ← select_count (slot_of nodeID);
    ensure (active <? capacity) ErrUpstreamBusy ;;
    selected ← query (nextEligibleTask nodeID now);
    let model := if mn_legacy_model_compat node then mn_upstream_model node
                 else vt_model (vt_request selected) in
    n ← exec_update (λ t, (vt_task_id t ≟ vt_task_id selected)
                          && (vt_status t ≟ vt_status selected))
      (λ t, touch now t <| vt_status := StatusDispatching |> <| vt_cancel_locked := true |>
              <| vt_upstream_id := Some nodeID |> <| vt_upstream_slot_active := true |>
              <| vt_upstream_node_version := nodeVersion |>
              <| vt_delivery_required := mn_replace_result_url node |>
              <| vt_dispatch_snapshot_json := Some (mkDispatch nodeID nodeVersion
                   ProtocolOfficial (mn_service_url node) model) |>
              <| vt_started_at := coalesce (vt_started_at t) now |>
              <| vt_attempt_started_at := Some now |>);
    oneRow n ;;
    rebalance o now ;;
    query (getWith (vt_owner selected) (vt_task_id selected) now)) db.

Definition BindOfficialTask (e : Env) (taskID nodeID upstreamTaskID : string)
    : DB → (error + unit) * DB :=
  statement (exec_update (official_task taskID nodeID [StatusDispatching])
    (λ t, touch (nowUnix e) t <| vt_upstream_job_id := Some upstreamTaskID |>
            <| vt_status := StatusRunning |>)).

(** [uploadJob] is the ID and the object key of the job, when the result is to
    be delivered through the object storage. *)
Definition MarkOfficialGenerated (e : Env) (taskID nodeID originURL ratio : string)
    (uploadJob : option (string * string)) : DB → (error + unit) * DB :=
  let now := nowUnix e in
  let nowMS := nowMillis e in
  immediate (
    n ← exec_update (official_task taskID nodeID [StatusDispatching; StatusRunning])
      (λ t, touch now t
              <| vt_status := if is_null uploadJob then StatusSucceeded else StatusReconciling |>
              <| vt_result_internal_url := Some originURL |>
              <| vt_result_public_url := if is_null uploadJob then nullif_str originURL else None |>
              <| vt_ratio_actual := Some ratio |>
              <| vt_usage_total_seconds := vt_duration (vt_request t) |>
              <| vt_usage_output_seconds := vt_duration (vt_request t) |>
              <| vt_upstream_slot_active := false |>
              <| vt_finished_at := if is_null uploadJob then Some now else None |>);
    oneRow n ;;
    exec_update (λ s, (st_task_id s ≟ taskID) && negb (st_status s ∈? [StSucceeded; StSkipped]))
      (λ s, s <| st_status := if st_stage_type s ≟ "generation" then StSucceeded else StSkipped |>
              <| st_lease_token := None |> <| st_lease_expires_at := None |>
              <| st_next_attempt_at := None |> <| st_updated_at := nowMS |>
              <| st_finished_at := coalesce (st_finished_at s) nowMS |>
              <| st_row_version := st_row_version s + 1 |>) ;;
    match uploadJob with
    | Some (id, objectKey) => exec_insert (new_upload_job id taskID objectKey nowMS)
    | None => createCallbackDeliveryWithConn e 0 taskID "succeeded" nowMS
    end).

Definition MarkOfficialFailed (e : Env) (taskID nodeID code message : string)
    (feedback : option UpstreamFeedback) : DB → (error + unit) * DB :=
  let now := nowUnix e in
  let nowMS := nowMillis e in
  immediate (
    n ← exec_update (official_task taskID nodeID [StatusDispatching; StatusRunning])
      (λ t, touch now t <| vt_status := StatusFailed |> <| vt_error_code := Some code |>
              <| vt_error_message := Some message |> <| vt_upstream_feedback_json := feedback |>
              <| vt_upstream_slot_active := false |> <| vt_finished_at := Some now |>);
    oneRow n ;;
    exec_update (λ s, (st_task_id s ≟ taskID) && negb (st_status s ∈? [StSucceeded; StSkipped]))
      (λ s, s <| st_status := StFailed |> <| st_error_code := Some code |>
              <| st_error_message := Some message |> <| st_lease_token := None |>
              <| st_lease_expires_at := None |> <| st_updated_at := nowMS |>
              <| st_finished_at := Some nowMS |> <| st_row_version := st_row_version s + 1 |>) ;;
    createCallbackDeliveryWithConn e 0 taskID "failed" nowMS).

(** The row a claim of an official node writes. *)
Definition official_claimed (n : ModelServiceNode) (version now : Z) (s : Task) : Task :=
  touch now s <| vt_status := StatusDispatching |> <| vt_cancel_locked := true |>
    <| vt_upstream_id := Some (mn_id n) |> <| vt_upstream_slot_active := true |>
    <| vt_upstream_node_version := version |>
    <| vt_delivery_required := mn_replace_result_url n |>
    <| vt_dispatch_snapshot_json := Some (mkDispatch (mn_id n) version ProtocolOfficial
         (mn_service_url n) (if mn_legacy_model_compat n then mn_upstream_model n
                             else vt_model (vt_request s))) |>
    <| vt_started_at := coalesce (vt_started_at s) now |>
    <| vt_attempt_started_at := Some now |>.

(** Claims of an official node respect its capacity and the queue.  When
    [ClaimNextOfficial] returns a task, the node is enabled at the expected
    version, the task is the first one of the queue it can run and now holds a
    slot, and the slots in use afterwards are at most the capacity asked for
    and the configured one; only video_tasks changed. *)
Theorem ClaimNextOfficial_sound e o node version capacity db t db' :
  tbl_valid (db_video_tasks db) = true →
  ClaimNextOfficial e o node version capacity db = (inr t, db') →
  ∃ n s, claiming_node db node ProtocolOfficial version n ∧
    next_for_node db node (nowUnix e) s ∧ t = official_claimed n version (nowUnix e) s ∧
    t ∈ db_video_tasks db' ∧
    ActiveOfficialCount node db' ≤ capacity ∧
    ActiveOfficialCount node db' ≤ mn_max_concurrency n ∧
    (∃ ts, db' = db <| db_video_tasks := ts |>).
Proof.
  intros (Hid & Hseq & _)%tasks_valid_iff H. unfold ClaimNextOfficial in H.
  destruct (capacity <? 1); [done|]. rewrite immediate_inr in H. sql_inv H.
  apply find_claiming_node in H0 as Hn. pose proof Hn as (_ & En & _). rewrite Z.ltb_lt in H1.
  apply nextEligibleTask_next in H2 as Hnext; [|done]. pose proof Hnext as (Hs & _).
  apply (bool_decide_eq_true_1 _) in H3. apply tasks_valid_iff in Hvalid as (_ & Hseq' & _).
  assert ((vt_task_id x1 ≟ vt_task_id x1) && (vt_status x1 ≟ vt_status x1) = true) as Hp
    by by rewrite !bool_decide_eq_true_2.
  eapply (claimed_row _ _ db) in H4 as (Et & Ht & (ts & Edb & Hts) & _);
    [| | exact Hseq' | exact Hs | exact Hp | | | | exact H];
    [|done|by intros y [?%bool_decide_eq_true _]%andb_true_iff|by intros []
     |by apply queued_live_active].
  assert (ActiveOfficialCount node db0 ≤ ActiveOfficialCount node db + 1) as Hcount.
  { unfold ActiveOfficialCount. rewrite Edb. simpl.
    erewrite (claimed_count (slot_of node) _ _ _ _ (db_video_tasks db) _ x1);
      [|by intros; eapply rebalanced_slot|exact H3|exact Hs|exact Hp|exact Hts].
    destruct (slot_of node x1), (slot_of node (touch _ _)); lia. }
  unfold ActiveOfficialCount in *. simpl in H1. exists x, x1.
  split_and!; [done|done| |exact Ht|lia|lia|by exists ts].
  rewrite Et. unfold official_claimed. by rewrite En.
Qed.
