(* ===== verification/Delivery.v ===== *)
(** * Delivery of results through the object storage
    (the upload jobs of internal/store/sqlite/result_delivery_store.go)

    A job is tried at most three times per round; when the round is used up
    the task fails, and an administrator may start another round. *)

From S2P Require Import Prelude Domain Tx Database Sql GoStrings Catalog Paging TaskRouting Callbacks Queue Stages Remote Tasks.

Definition CreateResultUploadJob (e : Env) (id taskID objectKey : string)
    : DB → (error + unit) * DB :=
  immediate (exec_insert (new_upload_job id taskID objectKey (nowMillis e))).

Definition GetResultUploadJob (taskID : string) (db : DB) : error + ResultUploadJob :=
  match List.find (λ j, uj_task_id j ≟ taskID) (db_upload_jobs db) with
  | Some j => inr j
  | None => inl ErrResultUploadNotFound
  end.

Definition GetResultUploadSource (taskID : string) (db : DB) : error + string :=
  match List.find (live_task taskID) (db_video_tasks db) with
  | None => inl ErrTaskNotFound
  | Some t =>
      let url := coalesce_str (vt_result_internal_url t) in
      if url ≟ "" then inl ErrStateConflict else inr url
  end.

(** [k] numbers the callback of the operation. *)
Definition failDeliveredTask (e : Env) (k : nat) (taskID message : string) (now : Z) : Tx unit :=
  n ← exec_update (λ t, (vt_task_id t ≟ taskID) && (vt_status t ≟ StatusReconciling))
    (λ t, touch (now / 1000) t <| vt_status := StatusFailed |>
            <| vt_error_code := Some "result_upload_failed" |>
            <| vt_error_message := Some message |> <| vt_finished_at := Some (now / 1000) |>);
  if n =? 0 then mret tt else createCallbackDeliveryWithConn e k taskID "failed" now.

(** Jobs that have no attempt left and that nobody holds. *)
Definition exhausted (now : Z) (j : ResultUploadJob) : bool :=
  (uj_max_attempts j <=? uj_attempt_no j)
  && ((uj_status j ∈? [UploadPending; UploadRetryWait])
      || ((uj_status j ≟ UploadUploading) && (coalesce_int (uj_lease_expires_at j) <=? now))).

Definition exhausted_message : string :=
  "结果上传已达到本轮尝试上限且执行租约已过期，请检查对象存储后重新上传".

Definition fail_exhausted (e : Env) (k : nat) (j : ResultUploadJob) : Tx unit :=
  let now := nowMillis e in
  exec_update (λ x, uj_id x ≟ uj_id j)
    (λ x, x <| uj_status := UploadFailed |> <| uj_lease_token := None |>
            <| uj_lease_expires_at := None |> <| uj_next_attempt_at := None |>
            <| uj_last_error_code := "result_upload_attempts_exhausted" |>
            <| uj_last_error_message := exhausted_message |>
            <| uj_finished_at := Some now |> <| uj_updated_at := now |>
            <| uj_version := uj_version x + 1 |>) ;;
  failDeliveredTask e k (uj_task_id j) exhausted_message now.

Definition recoverExhaustedResultUploads (e : Env) : DB → (error + unit) * DB :=
  immediate (
    jobs ← ask (λ db, take 100 (order_by_key (λ j, (uj_created_at j, uj_id j))
      (List.filter (exhausted (nowMillis e)) (db_upload_jobs db))));
    each (λ kj, fail_exhausted e kj.1 kj.2) (imap pair jobs)).

Definition claimable (now : Z) (j : ResultUploadJob) : bool :=
  (uj_attempt_no j <? uj_max_attempts j)
  && ((uj_status j ≟ UploadPending)
      || ((uj_status j ≟ UploadRetryWait) && (coalesce_int (uj_next_attempt_at j) <=? now))
      || ((uj_status j ≟ UploadUploading) && (coalesce_int (uj_lease_expires_at j) <=? now))).

Definition claim_upload (e : Env) (leaseToken : string) (leaseDuration : Z) : Tx ResultUploadJob :=
  let now := nowMillis e in
  row ← ask (λ db, head (order_by_key (λ j, (uj_created_at j, uj_id j))
    (List.filter (claimable now) (db_upload_jobs db))));
  job ← of_option row ErrQueueEmpty;
  n ← exec_update (λ j, (uj_id j ≟ uj_id job) && (uj_version j =? uj_version job))
    (λ j, j <| uj_status := UploadUploading |> <| uj_attempt_no := uj_attempt_no j + 1 |>
            <| uj_lease_token := Some leaseToken |>
            <| uj_lease_expires_at := Some (now + Milliseconds leaseDuration) |>
            <| uj_next_attempt_at := None |>
            <| uj_started_at := coalesce (uj_started_at j) now |>
            <| uj_updated_at := now |> <| uj_version := uj_version j + 1 |>);
  oneRow n ;;
  row ← select_one (λ j, uj_id j ≟ uj_id job);
  of_option row ErrNoRows.

(** The recovery is a transaction of its own, before the claim; [e'] is the
    environment of that transaction. *)
Definition ClaimResultUploadJob (e' e : Env) (leaseToken : string) (leaseDuration : Z) (db : DB)
    : (error + ResultUploadJob) * DB :=
  match recoverExhaustedResultUploads e' db with
  | (inl err, db') => (inl err, db')
  | (inr _, db') => immediate (claim_upload e leaseToken leaseDuration) db'
  end.

Definition uploading (jobID leaseToken : string) (j : ResultUploadJob) : bool :=
  (uj_id j ≟ jobID) && (uj_status j ≟ UploadUploading) && (uj_lease_token j ≟ Some leaseToken).

Definition FailResultUploadAttempt (e : Env) (jobID leaseToken code message : string)
    (retryable : bool) (nextAttemptMS : Z) : DB → (error + unit) * DB :=
  let now := nowMillis e in
  immediate (
    row ← select_one (uploading jobID leaseToken);
    job ← of_option row ErrStateConflict;
    let retry := retryable && (uj_attempt_no job <? uj_max_attempts job) in
    exec_update (λ j, uj_id j ≟ jobID)
      (λ j, j <| uj_status := if retry then UploadRetryWait else UploadFailed |>
              <| uj_next_attempt_at := if retry then Some nextAttemptMS else None |>
              <| uj_lease_token := None |> <| uj_lease_expires_at := None |>
              <| uj_last_error_code := code |> <| uj_last_error_message := message |>
              <| uj_updated_at := now |> <| uj_version := uj_version j + 1 |>) ;;
    if retry then mret tt else failDeliveredTask e 0 (uj_task_id job) message now).

Definition RetryResultUpload (e : Env) (taskID : string) : DB → (error + unit) * DB :=
  let now := nowMillis e in
  immediate (
    raising ErrResultUploadNotRetryable (
      n ← exec_update (λ j, (uj_task_id j ≟ taskID) && (uj_status j ≟ UploadFailed))
        (λ j, j <| uj_status := UploadPending |> <| uj_round_no := uj_round_no j + 1 |>
                <| uj_attempt_no := 0 |> <| uj_next_attempt_at := None |>
                <| uj_lease_token := None |> <| uj_lease_expires_at := None |>
                <| uj_last_error_code := "" |> <| uj_last_error_message := "" |>
                <| uj_started_at := None |> <| uj_finished_at := None |>
                <| uj_updated_at := now |> <| uj_version := uj_version j + 1 |>);
      oneRow n) ;;
    raising ErrResultUploadNotRetryable (
      n ← exec_update (λ t, (vt_task_id t ≟ taskID) && (vt_status t ≟ StatusFailed)
                            && (vt_error_code t ≟ Some "result_upload_failed")
                            && negb (is_null (vt_result_internal_url t)))
        (λ t, touch (now / 1000) t <| vt_status := StatusReconciling |>
                <| vt_error_code := None |> <| vt_error_message := None |>
                <| vt_finished_at := None |>);
      oneRow n)).

Definition CompleteResultUpload (e : Env) (jobID leaseToken publicURL : string)
    (bytesUploaded : Z) : DB → (error + unit) * DB :=
  let nowMS := nowMillis e in
  let now := nowUnix e in
  immediate (
    row ← select_one (uploading jobID leaseToken);
    job ← of_option row ErrStateConflict;
    exec_update (λ j, uj_id j ≟ jobID)
      (λ j, j <| uj_status := UploadSucceeded |> <| uj_public_url := publicURL |>
              <| uj_bytes_uploaded := bytesUploaded |> <| uj_lease_token := None |>
              <| uj_lease_expires_at := None |> <| uj_finished_at := Some nowMS |>
              <| uj_updated_at := nowMS |> <| uj_version := uj_version j + 1 |>) ;;
    n ← exec_update (λ t, (vt_task_id t ≟ uj_task_id job) && (vt_status t ≟ StatusReconciling)
                          && negb (is_null (vt_result_internal_url t)))
      (λ t, touch now t <| vt_status := StatusSucceeded |>
              <| vt_result_public_url := Some publicURL |> <| vt_error_code := None |>
              <| vt_error_message := None |> <| vt_finished_at := Some now |>);
    oneRow n ;;
    createCallbackDeliveryWithConn e 0 (uj_task_id job) "succeeded" nowMS).

(** ** Claims of upload jobs *)

Lemma uploads_valid js :
  tbl_valid js = true →
  NoDup (map uj_id js) ∧ NoDup (map uj_task_id js) ∧
  ∀ j, j ∈ js → 0 ≤ uj_attempt_no j ≤ 3 ∧ uj_max_attempts j = 3.
Proof.
  unfold tbl_valid, uploads_table. rewrite !andb_true_iff, !distinct_NoDup, forallb_forall.
  intros [[[? ?] _] Hall]. split_and!; [done..|]. intros j Hj%list_elem_of_In.
  specialize (Hall j Hj). rewrite !andb_true_iff, !Z.leb_le, Z.eqb_eq in Hall.
  destruct_and! Hall. lia.
Qed.

(** A job that is not exhausted is left alone by the recovery. *)
Definition keeps_job (id : string) (db db' : DB) : Prop :=
  (tbl_valid (db_upload_jobs db) = true → tbl_valid (db_upload_jobs db') = true) ∧
  ∀ j, j ∈ db_upload_jobs db → uj_id j = id → j ∈ db_upload_jobs db'.
#[export] Instance keeps_job_preorder id : PreOrder (keeps_job id).
Proof.
  split; [by split|]. intros db1 db2 db3 [V1 K1] [V2 K2]. split; [tauto|].
  intros j Hj E. by apply K2, E; apply K1.
Qed.

Lemma createCallback_keeps_job id e k taskID status now :
  tx_rel (keeps_job id) (createCallbackDeliveryWithConn e k taskID status now).
Proof. unfold createCallbackDeliveryWithConn. tx_stmts. done. Qed.

Lemma fail_exhausted_keeps id e k j :
  uj_id j ≠ id → tx_rel (keeps_job id) (fail_exhausted e k j).
Proof.
  intros Hne. unfold fail_exhausted, failDeliveredTask. apply tx_rel_bind; [apply _|..].
  - apply tx_rel_update_checked; [apply _|]. intros db _ Hv. split; [done|].
    intros x Hx Ex. simpl. apply elem_of_update_where. exists x. split; [done|].
    by rewrite bool_decide_eq_false_2 by congruence.
  - intros _. tx_stmts; try apply createCallback_keeps_job. done.
Qed.

Lemma recover_keeps id e db db' r j :
  tbl_valid (db_upload_jobs db) = true → recoverExhaustedResultUploads e db = (r, db') →
  j ∈ db_upload_jobs db → uj_id j = id → exhausted (nowMillis e) j = false →
  j ∈ db_upload_jobs db' ∧ tbl_valid (db_upload_jobs db') = true.
Proof.
  intros Hv H Hj Ej Hex. unfold recoverExhaustedResultUploads, immediate in H.
  set (m := ask _ ≫= _) in H.
  assert (keeps_job id db (immediate m db).2) as [HV HK].
  { unfold immediate, m, mbind, tx_bind, ask.
    set (jobs := take 100 _).
    assert (tx_rel (keeps_job id) (each (λ kj, fail_exhausted e kj.1 kj.2) (imap pair jobs))) as Hrel.
    { apply tx_rel_each_in; [apply _|]. intros [k x] Hx. apply fail_exhausted_keeps. simpl.
      apply elem_of_lookup_imap in Hx as (i & y & [= _ ->] & Hy).
      assert (y ∈ jobs) as Hin by by eapply list_elem_of_lookup_2.
      apply elem_of_take in Hin as (i' & Hin & _). apply list_elem_of_lookup_2 in Hin.
      apply order_by_key_elem, elem_of_filter_bool in Hin as [Hey Hy'].
      intros E. apply uploads_valid in Hv as (Hnd & _).
      rewrite (NoDup_map_inj uj_id _ y j Hnd Hy' Hj) in Hey by congruence. congruence. }
    specialize (Hrel db). destruct (each _ _ db); [done|reflexivity]. }
  assert ((immediate m db).2 = db') as <- by (unfold immediate; by destruct (m db); injection H as _ <-).
  auto.
Qed.

Definition keeps_uploads_valid (db db' : DB) : Prop :=
  tbl_valid (db_upload_jobs db) = true → tbl_valid (db_upload_jobs db') = true.
#[export] Instance keeps_uploads_valid_preorder : PreOrder keeps_uploads_valid.
Proof. unfold keeps_uploads_valid. split; [by intros ??|intros db1 db2 db3; auto]. Qed.

Lemma recover_valid e db r db' :
  tbl_valid (db_upload_jobs db) = true → recoverExhaustedResultUploads e db = (r, db') →
  tbl_valid (db_upload_jobs db') = true.
Proof.
  intros Hv H.
  assert (keeps_uploads_valid db (recoverExhaustedResultUploads e db).2) as Hr.
  { unfold recoverExhaustedResultUploads. apply tx_rel_immediate; [apply _|].
    unfold fail_exhausted, failDeliveredTask, createCallbackDeliveryWithConn.
    tx_steps; try (apply tx_rel_update_checked; [apply _|]; intros ? _ ? ?; done); tx_stmts;
      by intros ??. }
  rewrite H in Hr. auto.
Qed.

(** A claimed job. *)
Definition claimed_job (token : string) (now until : Z) (j : ResultUploadJob) : ResultUploadJob :=
  j <| uj_status := UploadUploading |> <| uj_attempt_no := uj_attempt_no j + 1 |>
    <| uj_lease_token := Some token |> <| uj_lease_expires_at := Some until |>
    <| uj_next_attempt_at := None |> <| uj_started_at := coalesce (uj_started_at j) now |>
    <| uj_updated_at := now |> <| uj_version := uj_version j + 1 |>.

Lemma claim_upload_Done e token d db j db' :
  tbl_valid (db_upload_jobs db) = true → claim_upload e token d db = Done j db' →
  ∃ j0, j0 ∈ db_upload_jobs db ∧ claimable (nowMillis e) j0 = true ∧
    j = claimed_job token (nowMillis e) (nowMillis e + Milliseconds d) j0 ∧
    j ∈ db_upload_jobs db' ∧ tbl_valid (db_upload_jobs db') = true.
Proof.
  intros (Hnd & _)%uploads_valid H. unfold claim_upload in H. sql_inv H.
  apply head_Some_elem_of, order_by_key_elem, elem_of_filter_bool in H0 as [Hc Hin].
  pose proof H as [Hj _]%find_elem_of.
  apply (update_reread uj_id) in H as Ej; [|done|exact Hin|..]; [|
    by rewrite Z.eqb_refl, bool_decide_eq_true_2|
    by intros z [?%bool_decide_eq_true _]%andb_true_iff|by intros []].
  eexists. split_and!; [exact Hin|exact Hc|exact Ej|exact Hj|exact Hvalid].
Qed.

(** Upload attempts are bounded and exclusive.  A job returned by
    [ClaimResultUploadJob] had an attempt left: it is its first, second or
    third of the round; it is leased to the caller, and until the lease runs
    out no other claim, with the recovery of exhausted jobs that precedes it,
    returns the same job. *)
Theorem ClaimResultUploadJob_exclusive e' e token d db j db' :
  tbl_valid (db_upload_jobs db) = true →
  ClaimResultUploadJob e' e token d db = (inr j, db') →
  j ∈ db_upload_jobs db' ∧ 1 ≤ uj_attempt_no j ≤ uj_max_attempts j ∧ uj_max_attempts j = 3 ∧
  uj_status j = UploadUploading ∧ uj_lease_token j = Some token ∧
  uj_lease_expires_at j = Some (nowMillis e + Milliseconds d) ∧
  ∀ e1 e2 token' d' j' db'',
    nowMillis e1 < nowMillis e + Milliseconds d → nowMillis e2 < nowMillis e + Milliseconds d →
    ClaimResultUploadJob e1 e2 token' d' db' = (inr j', db'') → uj_id j' ≠ uj_id j.
Proof.
  intros Hv H. unfold ClaimResultUploadJob in H.
  destruct (recoverExhaustedResultUploads e' db) as [[|] db1] eqn:Erec; [done|].
  apply (recover_valid _ _ _ _ Hv) in Erec as Hv1.
  apply immediate_inr, claim_upload_Done in H as (j0 & Hj0 & Hc & Ej & Hj & Hv'); [|done].
  pose proof (uploads_valid _ Hv1) as (_ & _ & Hb). specialize (Hb _ Hj0).
  pose proof Hc as [Hlt%Z.ltb_lt _]%andb_true_iff.
  split_and!; [done|rewrite Ej; simpl; lia|rewrite Ej; simpl; lia|rewrite Ej; simpl; lia|
    by rewrite Ej..|].
  intros e1 e2 token' d' j' db'' H1 H2 H. unfold ClaimResultUploadJob in H.
  destruct (recoverExhaustedResultUploads e1 db') as [[|] db2] eqn:Erec2; [done|].
  assert (∀ now, now < nowMillis e + Milliseconds d →
    (coalesce_int (uj_lease_expires_at j) <=? now) = false) as Hlease.
  { intros now Hnow. rewrite Ej. simpl. apply Z.leb_gt. lia. }
  assert (uj_status j = UploadUploading) as Es by by rewrite Ej.
  apply (recover_keeps (uj_id j) e1 db' db2 _ j Hv') in Erec2 as [Hj2 Hv2]; [|done|done|].
  2:{ unfold exhausted. rewrite Hlease, Es by done. by rewrite andb_false_r. }
  apply immediate_inr, claim_upload_Done in H as (j1 & Hj1 & Hc1 & Ej1 & _ & _); [|done].
  intros E. assert (j1 = j) as ->.
  { apply uploads_valid in Hv2 as (Hnd & _). apply (NoDup_map_inj uj_id _ _ _ Hnd); [done..|].
    rewrite <-E, Ej1. done. }
  unfold claimable in Hc1. rewrite Hlease, Es in Hc1 by done. by rewrite andb_false_r in Hc1.
Qed.

(** ** The end of an attempt *)

Lemma uploading_iff id token j :
  uploading id token j = true ↔
  uj_id j = id ∧ uj_status j = UploadUploading ∧ uj_lease_token j = Some token.
Proof. unfold uploading. rewrite !andb_true_iff, !bool_decide_eq_true. tauto. Qed.

(** Every row of the job's table under an update by its id. *)
Lemma job_rows id f js j :
  NoDup (map uj_id js) → j ∈ js → uj_id j = id → (∀ x, uj_id (f x) = uj_id x) →
  ∀ x, x ∈ update_where (λ x, uj_id x ≟ id) f js → uj_id x = id → x = f j.
Proof.
  intros Hnd Hj Ej Hf x (x0 & Hx0 & ->)%elem_of_update_where Ex.
  assert (x0 = j) as ->.
  { apply (NoDup_map_inj uj_id js); [done..|]. rewrite proj_if in Ex by done. congruence. }
  by rewrite bool_decide_eq_true_2.
Qed.

Lemma not_uploading_conflict e id token url bytes db :
  (∀ x, x ∈ db_upload_jobs db → uj_id x = id → uj_status x ≠ UploadUploading) →
  CompleteResultUpload e id token url bytes db = (inl ErrStateConflict, db).
Proof.
  intros H. unfold CompleteResultUpload, immediate, mbind, tx_bind, select_one, ask. simpl.
  rewrite (proj2 (find_none_iff _ _)); [done|]. intros x Hx.
  destruct (uploading id token x) eqn:E; [|done]. apply uploading_iff in E as (E & Es & _).
  by apply H in Es.
Qed.

(** A finished upload publishes the result once.  When
    [CompleteResultUpload] returns without error, the caller held the lease of
    the job and the task was reconciling with an original result; the task is
    now succeeded with the public URL, its original URL unchanged, and the job
    succeeded; every later completion of the job is refused and changes
    nothing. *)
Theorem CompleteResultUpload_once e id token url bytes db db' :
  tbl_valid (db_upload_jobs db) = true → tbl_valid (db_video_tasks db) = true →
  CompleteResultUpload e id token url bytes db = (inr tt, db') →
  ∃ j t0 t,
    j ∈ db_upload_jobs db ∧ uploading id token j = true ∧
    t0 ∈ db_video_tasks db ∧ vt_task_id t0 = uj_task_id j ∧
    vt_status t0 = StatusReconciling ∧ vt_result_internal_url t0 ≠ None ∧
    t ∈ db_video_tasks db' ∧ vt_task_id t = uj_task_id j ∧ vt_status t = StatusSucceeded ∧
    vt_result_public_url t = Some url ∧
    vt_result_internal_url t = vt_result_internal_url t0 ∧
    (∀ x, x ∈ db_upload_jobs db' → uj_id x = id → uj_status x = UploadSucceeded) ∧
    ∀ e' token' url' bytes',
      CompleteResultUpload e' id token' url' bytes' db' = (inl ErrStateConflict, db').
Proof.
  intros (Hnd & _)%uploads_valid (Hid & _)%tasks_valid_iff H. unfold CompleteResultUpload in H.
  rewrite immediate_inr in H. sql_inv H. apply createCallback_frame in H as (cs & ->).
  pose proof H0 as [Hj Hup]%find_elem_of. pose proof Hup as (Ej & _)%uploading_iff.
  apply one_row in H1 as (t0 & Ht0 & Hp0). simpl in Ht0.
  pose proof Hp0 as Hp1. rewrite !andb_true_iff, !bool_decide_eq_true, negb_true_iff in Hp1.
  destruct Hp1 as [[Etid Est] Hurl].
  eexists x, t0, _. split_and!; [exact Hj|exact Hup|exact Ht0|exact Etid|exact Est|
    by intros E; rewrite E in Hurl| |..].
  - simpl. apply elem_of_update_where. exists t0. rewrite Hp0. done.
  - exact Etid.
  - done.
  - done.
  - done.
  - intros y Hy Ey. simpl in Hy. apply (job_rows id _ _ x) in Hy as ->; [done..|by intros []|done].
  - intros e' token' url' bytes'. apply not_uploading_conflict. intros y Hy Ey. simpl in Hy.
    apply (job_rows id _ _ x) in Hy as ->; [done..|by intros []|done].
Qed.

(** What a failed attempt does.  [FailResultUploadAttempt] keeps the job
    for another attempt, and the task as it is, exactly if the error is
    retryable and the round has an attempt left; otherwise the job fails, and
    the task with it if it was waiting for the upload. *)
Theorem FailResultUploadAttempt_outcome e id token code message retryable next db db' :
  tbl_valid (db_upload_jobs db) = true → tbl_valid (db_video_tasks db) = true →
  FailResultUploadAttempt e id token code message retryable next db = (inr tt, db') →
  ∃ j, j ∈ db_upload_jobs db ∧ uploading id token j = true ∧
    let retry := retryable && (uj_attempt_no j <? uj_max_attempts j) in
    (∀ x, x ∈ db_upload_jobs db' → uj_id x = id →
       uj_status x = (if retry then UploadRetryWait else UploadFailed) ∧
       uj_next_attempt_at x = (if retry then Some next else None) ∧
       uj_lease_token x = None ∧ uj_attempt_no x = uj_attempt_no j) ∧
    if retry then db_video_tasks db' = db_video_tasks db
    else Forall2 (λ t t',
      if (vt_task_id t ≟ uj_task_id j) && (vt_status t ≟ StatusReconciling)
      then vt_task_id t' = vt_task_id t ∧ vt_status t' = StatusFailed ∧
           vt_error_code t' = Some "result_upload_failed" ∧ vt_error_message t' = Some message ∧
           vt_result_internal_url t' = vt_result_internal_url t
      else t' = t) (db_video_tasks db) (db_video_tasks db').
Proof.
  intros (Hnd & _)%uploads_valid (Hid & _)%tasks_valid_iff H. unfold FailResultUploadAttempt in H.
  rewrite immediate_inr in H. sql_inv H.
  pose proof H0 as [Hj Hup]%find_elem_of. pose proof Hup as (Ej & _)%uploading_iff.
  exists x. split_and!; [done..|]. set (retry := retryable && _) in *.
  assert (db_upload_jobs db' = update_where (λ j, uj_id j ≟ id)
       (λ j, j <| uj_status := if retry then UploadRetryWait else UploadFailed |>
              <| uj_next_attempt_at := if retry then Some next else None |>
              <| uj_lease_token := None |> <| uj_lease_expires_at := None |>
              <| uj_last_error_code := code |> <| uj_last_error_message := message |>
              <| uj_updated_at := nowMillis e |> <| uj_version := uj_version j + 1 |>)
       (db_upload_jobs db) ∧
     db_video_tasks db' = if retry then db_video_tasks db else
       update_where (λ t, (vt_task_id t ≟ uj_task_id x) && (vt_status t ≟ StatusReconciling))
         (λ t, touch (nowMillis e / 1000) t <| vt_status := StatusFailed |>
            <| vt_error_code := Some "result_upload_failed" |>
            <| vt_error_message := Some message |> <| vt_finished_at := Some (nowMillis e / 1000) |>)
         (db_video_tasks db)) as [Ejs Ets].
  { destruct retry; [by sql_inv H|]. unfold failDeliveredTask in H. sql_inv H.
    destruct (_ =? 0); [by sql_inv H|]. apply createCallback_frame in H as (cs & ->). done. }
  split_and!; rewrite ?Ejs, ?Ets.
  - intros y Hy Ey. apply (job_rows id _ _ x) in Hy as ->; [done..|by intros []|done].
  - destruct retry; [done|]. apply Forall2_map_r. intros t _. by destruct (_ && _).
Qed.
