(* ===== verification/Nodes.v ===== *)
(** * Configuration of model service nodes (internal/store/sqlite/model_node.go)

    Nodes are changed under optimistic locking, and what a node that has
    work may change is restricted. *)

From S2P Require Import Prelude Domain Tx Database Sql GoStrings Catalog.

Definition UsesNodeAPI (n : ModelNodeInput) : bool := ni_ProtocolVersion n ≟ ProtocolH3.
Definition UsesOfficialV2 (n : ModelNodeInput) : bool := ni_ProtocolVersion n ≟ ProtocolOfficial.
Definition UsesTK2SD (n : ModelNodeInput) : bool := ni_ProtocolVersion n ≟ ProtocolTK2SD.

(** ** Reading *)

Definition ListModelNodes (db : DB) : list ModelServiceNode :=
  order_by_text (λ n, (mn_id n, ""))
    (List.filter (λ n, is_null (mn_deleted_at n)) (db_nodes db)).

Definition GetModelNode (id : string) (db : DB) : error + ModelServiceNode :=
  match List.find (live_node id) (db_nodes db) with
  | Some n => inr n
  | None => inl ErrNodeNotFound
  end.

(** ** Persisted values *)

Definition in_ms (d : Z) : Z := Z.quot d Millisecond.

(** nodePersistenceValues and the columns of the INSERT and the UPDATE: the
    row [r] with the connection of the input. *)
Definition nodePersistenceValues (n : ModelNodeInput) (r : ModelServiceNode) : ModelServiceNode :=
  let r := r <| mn_poll_interval_ms := in_ms (ni_PollInterval n) |>
             <| mn_request_timeout_ms := in_ms (ni_RequestTimeout n) |>
             <| mn_enabled := ni_Enabled n |> in
  if UsesNodeAPI n || UsesOfficialV2 n || UsesTK2SD n
  then
    let apiName := if UsesOfficialV2 n then "minimax_v2" else "node_v1" in
    r <| mn_service_url := ni_ServiceURL n |> <| mn_protocol_version := ni_ProtocolVersion n |>
      <| mn_api_key_fingerprint := Some (ni_APIKeyFingerprint n) |>
      <| mn_base_url := ni_ServiceURL n |> <| mn_jobs_base_url := ni_ServiceURL n |>
      <| mn_public_base_url := ni_ServiceURL n |>
      <| mn_health_path := if UsesOfficialV2 n then "/v2/query/video_generation"
                           else "/internal/v1/health" |>
      <| mn_submit_api_name := apiName |> <| mn_check_api_name := apiName |>
      <| mn_upstream_model := ni_UpstreamModel n |>
      <| mn_max_concurrency := if UsesNodeAPI n || (ni_MaxConcurrency n =? 0) then 1
                               else ni_MaxConcurrency n |>
      <| mn_replace_result_url := ni_ReplaceResultURL n |>
  else
    r <| mn_service_url := ni_BaseURL n |> <| mn_protocol_version := ProtocolLegacy |>
      <| mn_api_key_fingerprint := None |>
      <| mn_base_url := ni_BaseURL n |> <| mn_jobs_base_url := ni_JobsBaseURL n |>
      <| mn_public_base_url := ni_PublicBaseURL n |> <| mn_health_path := ni_HealthPath n |>
      <| mn_submit_api_name := ni_SubmitAPIName n |> <| mn_check_api_name := ni_CheckAPIName n |>
      <| mn_upstream_model := "" |> <| mn_max_concurrency := 1 |>
      <| mn_replace_result_url := false |>.

(** [input.ProtocolVersion, input.ServiceURL = values...] *)
Definition persisted_input (n : ModelNodeInput) (r : ModelServiceNode) : ModelNodeInput :=
  n <| ni_ProtocolVersion := mn_protocol_version r |> <| ni_ServiceURL := mn_service_url r |>.

Definition blank_node (id : string) (now : Z) : ModelServiceNode :=
  mkNode id "" "" None "" 1 false false "" "" "" "" "" "" 0 0 false 1 now now None.

(** ** Guards *)

Definition activeTaskCount (nodeID : string) (db : DB) : Z :=
  count_where (λ t, (vt_upstream_id t ≟ Some nodeID) && has_status active_statuses t && vt_live t)
    (db_video_tasks db)
  + count_where (λ b, nb_node_id b ≟ nodeID) (db_barriers db).

Definition retainedRemoteResults (nodeID : string) (now : Z) (db : DB) : Z :=
  count_where (λ t, (vt_upstream_id t ≟ Some nodeID)
                    && (vt_protocol_version t ≟ Some ProtocolTK2SD) && vt_live t
                    && (now <? vt_expires t) && (vt_status t ≟ StatusSucceeded)
                    && (negb (vt_delivery_required t)
                        || (coalesce_str (vt_result_public_url t) ≟ "")))
    (db_video_tasks db).

Definition sameNodeConnection (l r : ModelNodeInput) : bool :=
  if negb (UsesNodeAPI l) && negb (UsesNodeAPI r) && negb (UsesOfficialV2 l)
     && negb (UsesOfficialV2 r) && negb (UsesTK2SD l) && negb (UsesTK2SD r)
  then
    (ni_BaseURL l ≟ ni_BaseURL r) && (ni_JobsBaseURL l ≟ ni_JobsBaseURL r)
    && (ni_PublicBaseURL l ≟ ni_PublicBaseURL r) && (ni_HealthPath l ≟ ni_HealthPath r)
    && (ni_SubmitAPIName l ≟ ni_SubmitAPIName r) && (ni_CheckAPIName l ≟ ni_CheckAPIName r)
    && (ni_PollInterval l =? ni_PollInterval r) && (ni_RequestTimeout l =? ni_RequestTimeout r)
  else if negb (ni_ServiceURL l ≟ ni_ServiceURL r)
          || negb (ni_ProtocolVersion l ≟ ni_ProtocolVersion r)
          || negb (ni_APIKeyFingerprint l ≟ ni_APIKeyFingerprint r)
          || negb (ni_PollInterval l =? ni_PollInterval r)
          || negb (ni_RequestTimeout l =? ni_RequestTimeout r)
  then false
  else if UsesOfficialV2 l || UsesOfficialV2 r || UsesTK2SD l || UsesTK2SD r
  then (ni_UpstreamModel l ≟ ni_UpstreamModel r)
       && (ni_MaxConcurrency l =? ni_MaxConcurrency r)
       && eqb (ni_ReplaceResultURL l) (ni_ReplaceResultURL r)
  else true.

Definition sameDirectConnectionExceptCapacity (l r : ModelNodeInput) : bool :=
  (ni_ServiceURL l ≟ ni_ServiceURL r) && (ni_ProtocolVersion l ≟ ni_ProtocolVersion r)
  && (ni_APIKeyFingerprint l ≟ ni_APIKeyFingerprint r)
  && (ni_PollInterval l =? ni_PollInterval r) && (ni_RequestTimeout l =? ni_RequestTimeout r)
  && (ni_UpstreamModel l ≟ ni_UpstreamModel r)
  && eqb (ni_ReplaceResultURL l) (ni_ReplaceResultURL r).

(** What may change on a node that has work: switching it off, saving the
    same connection, a new key of a remote service, a larger capacity. *)
Definition allowed_while_active (current input : ModelNodeInput) : bool :=
  (ni_Enabled current && negb (ni_Enabled input) && sameNodeConnection current input)
  || (sameNodeConnection current input && eqb (ni_Enabled current) (ni_Enabled input)
      && eqb (ni_LegacyModelCompat current) (ni_LegacyModelCompat input))
  || (UsesTK2SD current && (ni_ProtocolVersion input ≟ ni_ProtocolVersion current)
      && (ni_ServiceURL input ≟ ni_ServiceURL current)
      && eqb (ni_LegacyModelCompat input) (ni_LegacyModelCompat current)
      && negb (ni_APIKeyFingerprint input ≟ ni_APIKeyFingerprint current))
  || (ni_Enabled current && ni_Enabled input && (UsesOfficialV2 current || UsesTK2SD current)
      && (ni_ProtocolVersion input ≟ ni_ProtocolVersion current)
      && sameDirectConnectionExceptCapacity current input
      && (ni_MaxConcurrency current <? ni_MaxConcurrency input)).

(** ** Operations *)

Definition reread_node (id : string) : Tx ModelServiceNode :=
  row ← select_one (live_node id);
  of_option row ErrNoRows.

Definition CreateModelNode (e : Env) (input : ModelNodeInput)
    : DB → (error + ModelServiceNode) * DB :=
  let now := nowUnix e in
  immediate (
    known ← select_count (λ n, mn_id n ≟ ni_ID input);
    ensure (negb (0 <? known)) ErrNodeIDConflict ;;
    let row := nodePersistenceValues input (blank_node (ni_ID input) now) in
    exec_insert row ;;
    writeNodeCatalog e (persisted_input input row) now ;;
    reread_node (ni_ID input)).

(** The nodes of the configuration file are imported once, in order of their
    identifiers, and only while there are none. *)
Definition LegacyNodeImportPending (db : DB) : bool := is_null (db_node_bootstrap db).

Definition import_node (e : Env) (now : Z) (input : ModelNodeInput) : Tx unit :=
  let row := nodePersistenceValues input (blank_node (ni_ID input) now) in
  exec_insert row ;;
  writeNodeCatalog e (persisted_input input row) now.

Definition ImportLegacyNodes (e : Env) (inputs : list ModelNodeInput)
    : DB → (error + (Z * bool)) * DB :=
  immediate (
    done ← ask db_node_bootstrap;
    match done with
    | Some importedCount => mret (importedCount, false)
    | None =>
        existing ← select_count (R:=ModelServiceNode) (λ _, true);
        (if existing =? 0
         then each (import_node e (nowUnix e)) (order_by_text (λ i, (ni_ID i, "")) inputs)
         else mret tt) ;;
        let importedCount := if existing =? 0 then Z.of_nat (length inputs) else 0 in
        modify (λ db, db <| db_node_bootstrap := Some importedCount |>) ;;
        mret (importedCount, existing =? 0)
    end).

Definition UpdateModelNode (e : Env) (id : string) (expectedVersion : Z) (input : ModelNodeInput)
    : DB → (error + ModelServiceNode) * DB :=
  let now := nowUnix e in
  immediate (
    row ← select_one (live_node id);
    current ← of_option row ErrNodeNotFound;
    ensure (mn_version current =? expectedVersion) ErrNodeVersionConflict ;;
    let cur := node_input_of_row current in
    dependent ← ask (retainedRemoteResults id now);
    ensure (negb (UsesTK2SD cur
                  && (negb (ni_ProtocolVersion cur ≟ ni_ProtocolVersion input)
                      || negb (ni_ServiceURL cur ≟ ni_ServiceURL input))
                  && (0 <? dependent))) ErrNodeHasActiveTask ;;
    active ← ask (activeTaskCount id);
    ensure (negb ((0 <? active) && negb (allowed_while_active cur input))) ErrNodeHasActiveTask ;;
    n ← exec_update (λ r, live_node id r && (mn_version r =? expectedVersion))
      (λ r, nodePersistenceValues input r <| mn_version := mn_version r + 1 |>
              <| mn_updated_at := now |>);
    ensure (n ≟ 1) ErrNodeVersionConflict ;;
    ensure (negb (ni_LegacyModelCompat cur && negb (ni_LegacyModelCompat input) && (0 <? active)))
      ErrNodeHasActiveTask ;;
    ensure (negb (negb (ni_LegacyModelCompat cur) && ni_LegacyModelCompat input)) ErrStateConflict ;;
    exec_update (λ r, mn_id r ≟ id)
      (λ r, r <| mn_legacy_model_compat := ni_LegacyModelCompat input |>) ;;
    writeNodeCatalog e (persisted_input (input <| ni_ID := id |>)
      (nodePersistenceValues input current)) now ;;
    reread_node id).

Definition DeleteModelNode (e : Env) (id : string) (expectedVersion : Z)
    : DB → (error + unit) * DB :=
  let now := nowUnix e in
  immediate (
    row ← select_one (live_node id);
    current ← of_option row ErrNodeNotFound;
    ensure (mn_version current =? expectedVersion) ErrNodeVersionConflict ;;
    ensure (negb (mn_enabled current)) ErrNodeMustBeDisabled ;;
    active ← ask (activeTaskCount id);
    ensure (negb (0 <? active)) ErrNodeHasActiveTask ;;
    dependent ← ask (retainedRemoteResults id now);
    ensure (negb (0 <? dependent)) ErrNodeHasActiveTask ;;
    n ← exec_update (λ r, live_node id r && (mn_version r =? expectedVersion))
      (λ r, r <| mn_deleted_at := Some now |> <| mn_updated_at := now |>
              <| mn_version := mn_version r + 1 |>);
    ensure (n ≟ 1) ErrNodeVersionConflict ;;
    bumpRouting).

(** ** Guards of a node in use *)

Lemma count_where_sum_zero a b : negb (0 <? a + b) = true → 0 ≤ a → 0 ≤ b → a = 0 ∧ b = 0.
Proof. rewrite negb_true_iff, Z.ltb_ge. lia. Qed.

(** Deleting a node loses no work.  When [DeleteModelNode] returns without
    error, the node was disabled and at the expected version, no live task was
    active on it, no dispatch barrier was left on it and no unexpired remote
    result still had to be fetched from it; the node is marked deleted and the
    routing revision moves on. *)
Theorem DeleteModelNode_safe e id version db db' :
  tbl_valid (db_nodes db) = true →
  DeleteModelNode e id version db = (inr tt, db') →
  (∃ n, n ∈ db_nodes db ∧ mn_id n = id ∧ mn_version n = version ∧ mn_enabled n = false ∧
     mn_deleted_at n = None) ∧
  (∀ t, t ∈ db_video_tasks db → vt_upstream_id t = Some id → vt_live t = true →
     vt_status t ∉ active_statuses) ∧
  (∀ b, b ∈ db_barriers db → nb_node_id b ≠ id) ∧
  retainedRemoteResults id (nowUnix e) db = 0 ∧
  (∀ n, n ∈ db_nodes db' → mn_id n = id →
     mn_version n = version + 1 ∧ mn_deleted_at n = Some (nowUnix e)) ∧
  db_routing_revision db' = db_routing_revision db + 1.
Proof.
  intros Hv H. unfold DeleteModelNode, bumpRouting in H. rewrite immediate_inr in H. sql_inv H.
  apply find_elem_of in H0 as [Hn Hlive]. pose proof Hlive as [En%bool_decide_eq_true Hd]%andb_true_iff.
  apply Z.eqb_eq in H1. apply negb_true_iff in H2.
  unfold activeTaskCount in H3. apply count_where_sum_zero in H3 as [Ht Hb]; [|apply count_where_nonneg..].
  rewrite count_where_zero in Ht. rewrite count_where_zero in Hb.
  split_and!.
  - exists x. split_and!; [done..|]. by destruct (mn_deleted_at x).
  - intros t Hin Eu Hl Hs. specialize (Ht t Hin). unfold has_status in Ht.
    rewrite Hl, (bool_decide_eq_true_2 _ Eu), (bool_decide_eq_true_2 _ Hs) in Ht. done.
  - intros b Hin. by apply (bool_decide_eq_false_1 _), Hb.
  - rewrite negb_true_iff, Z.ltb_ge in H4.
    pose proof (count_where_nonneg (λ t, (vt_upstream_id t ≟ Some id)
                    && (vt_protocol_version t ≟ Some ProtocolTK2SD) && vt_live t
                    && (nowUnix e <? vt_expires t) && (vt_status t ≟ StatusSucceeded)
                    && (negb (vt_delivery_required t)
                        || (coalesce_str (vt_result_public_url t) ≟ ""))) (db_video_tasks db)).
    unfold retainedRemoteResults in *. lia.
  - intros n Hin Eid. simpl in Hin. apply elem_of_update_where in Hin as (n0 & Hn0 & ->).
    rewrite proj_if in Eid by done.
    unfold tbl_valid, nodes_table in Hv. rewrite !andb_true_iff, distinct_NoDup in Hv.
    destruct Hv as [[Hnd _] _].
    assert (n0 = x) as ->
      by (apply (NoDup_map_inj mn_id (db_nodes db)); [done|done|exact Hn|congruence]).
    by rewrite Hlive, H1, Z.eqb_refl.
  - done.
Qed.

Lemma uses_protocol p :
  Lookup p ≠ None → p ≠ ProtocolLegacy →
  (p ≟ ProtocolH3) || (p ≟ ProtocolOfficial) || (p ≟ ProtocolTK2SD) = true.
Proof.
  intros Hl Hn. unfold Lookup, Definitions in Hl. simpl in Hl.
  rewrite !(bool_decide_ext (ProtocolH3 = p) (p = ProtocolH3)),
    !(bool_decide_ext (ProtocolOfficial = p) (p = ProtocolOfficial)),
    !(bool_decide_ext (ProtocolTK2SD = p) (p = ProtocolTK2SD)),
    !(bool_decide_ext (ProtocolLegacy = p) (p = ProtocolLegacy)) in Hl by done.
  destruct (p ≟ ProtocolH3), (p ≟ ProtocolOfficial), (p ≟ ProtocolTK2SD); try done.
  by rewrite (bool_decide_eq_false_2 _ Hn) in Hl.
Qed.

(** Saving the same connection writes the same address. *)
Lemma same_connection_address old input r :
  Lookup (mn_protocol_version old) ≠ None →
  sameNodeConnection (node_input_of_row old) input = true ∨
  ((mn_protocol_version old ≟ ProtocolLegacy) = false ∧
   ni_ProtocolVersion input = mn_protocol_version old ∧
   ni_ServiceURL input = mn_service_url old) →
  let n := nodePersistenceValues input r in
  mn_protocol_version n = mn_protocol_version old ∧
  if mn_protocol_version old ≟ ProtocolLegacy then mn_base_url n = mn_base_url old
  else mn_service_url n = mn_service_url old.
Proof.
  intros Hl Hsame n. subst n.
  destruct (decide (mn_protocol_version old = ProtocolLegacy)) as [El|El].
  - rewrite (bool_decide_eq_true_2 _ El). destruct Hsame as [Hs|[? _]];
      [|by rewrite (bool_decide_eq_true_2 _ El) in *].
    unfold sameNodeConnection, nodePersistenceValues, UsesNodeAPI, UsesOfficialV2, UsesTK2SD in *.
    simpl in Hs. rewrite El in Hs. simpl in Hs.
    destruct (ni_ProtocolVersion input ≟ ProtocolH3) eqn:E1,
      (ni_ProtocolVersion input ≟ ProtocolOfficial) eqn:E2,
      (ni_ProtocolVersion input ≟ ProtocolTK2SD) eqn:E3; simpl in *;
      try (rewrite !andb_true_iff, !bool_decide_eq_true in Hs; destruct_and! Hs; by rewrite El);
      exfalso; destruct (ProtocolLegacy ≟ ni_ProtocolVersion input) eqn:E4;
      try (by rewrite !orb_true_r in Hs); apply bool_decide_eq_true in E4; rewrite <-E4 in *; done.
  - rewrite (bool_decide_eq_false_2 _ El).
    assert (ni_ProtocolVersion input = mn_protocol_version old ∧
      ni_ServiceURL input = mn_service_url old) as [Ep Eu].
    { destruct Hsame as [Hs|(_ & ? & ?)]; [|done]. pose proof (uses_protocol _ Hl El) as Hu.
      unfold sameNodeConnection, UsesNodeAPI, UsesOfficialV2, UsesTK2SD in Hs. simpl in Hs.
      destruct (ni_ProtocolVersion input ≟ mn_protocol_version old) eqn:E1,
        (mn_service_url old ≟ ni_ServiceURL input) eqn:E2.
      - by apply bool_decide_eq_true in E1, E2.
      - exfalso. destruct (mn_protocol_version old ≟ ProtocolH3),
          (mn_protocol_version old ≟ ProtocolOfficial),
          (mn_protocol_version old ≟ ProtocolTK2SD); simpl in *;
          rewrite ?andb_false_r in Hs; done.
      - exfalso. rewrite (bool_decide_ext _ (mn_protocol_version old = ni_ProtocolVersion input)) in E1
          by done. rewrite E1 in Hs. simpl in Hs.
        destruct (mn_protocol_version old ≟ ProtocolH3),
          (mn_protocol_version old ≟ ProtocolOfficial),
          (mn_protocol_version old ≟ ProtocolTK2SD); simpl in *;
          rewrite ?andb_false_r in Hs; done.
      - exfalso. destruct (mn_protocol_version old ≟ ProtocolH3),
          (mn_protocol_version old ≟ ProtocolOfficial),
          (mn_protocol_version old ≟ ProtocolTK2SD); simpl in *;
          rewrite ?andb_false_r in Hs; done. }
    unfold nodePersistenceValues, UsesNodeAPI, UsesOfficialV2, UsesTK2SD.
    rewrite Ep, (uses_protocol _ Hl El). simpl. by rewrite Eu.
Qed.

Lemma allowed_address old input r :
  Lookup (mn_protocol_version old) ≠ None →
  allowed_while_active (node_input_of_row old) input = true →
  let n := nodePersistenceValues input r in
  mn_protocol_version n = mn_protocol_version old ∧
  if mn_protocol_version old ≟ ProtocolLegacy then mn_base_url n = mn_base_url old
  else mn_service_url n = mn_service_url old.
Proof.
  intros Hl H. apply same_connection_address; [done|]. unfold allowed_while_active in H.
  rewrite !orb_true_iff, !andb_true_iff in H.
  destruct H as [[[[_ H]|[[H _] _]]|[[[[Ht Hp] Hs] _] _]]|[[[[[_ _] Ht] Hp] Hs] _]];
    [by left|by left|right..].
  - unfold UsesTK2SD in Ht. simpl in *. apply bool_decide_eq_true in Ht, Hp, Hs.
    by rewrite Ht, Hp, Hs.
  - unfold sameDirectConnectionExceptCapacity in Hs. rewrite !andb_true_iff in Hs. destruct_and! Hs.
    unfold UsesTK2SD, UsesOfficialV2 in Ht. simpl in *. rewrite !bool_decide_eq_true in *.
    apply orb_true_iff in Ht. rewrite !bool_decide_eq_true in Ht. split_and!; [|congruence..].
    by destruct Ht as [->| ->].
Qed.

Definition same_nodes (db db' : DB) : Prop := db_nodes db' = db_nodes db.
#[export] Instance same_nodes_preorder : PreOrder same_nodes.
Proof. unfold same_nodes. split; [done|]. intros db1 db2 db3. congruence. Qed.

Lemma writeNodeCatalog_nodes e n now : tx_rel same_nodes (writeNodeCatalog e n now).
Proof.
  unfold writeNodeCatalog, replace_catalog, write_catalog_row, hide_models, writeNodeModel,
    syncModelRoutes, bumpRouting, guard_none. tx_stmts; done.
Qed.

(** The connection of a node in use does not move.  When
    [UpdateModelNode] succeeds on a node that has an active task or a barrier,
    the protocol is unchanged and so is the address the workers talk to: the
    service URL, or the base URL of a legacy node. *)
Theorem UpdateModelNode_connection e id version input db n db' old :
  tbl_valid (db_nodes db) = true →
  List.find (live_node id) (db_nodes db) = Some old →
  Lookup (mn_protocol_version old) ≠ None →
  0 < activeTaskCount id db →
  UpdateModelNode e id version input db = (inr n, db') →
  mn_id n = id ∧ mn_version n = version + 1 ∧
  mn_protocol_version n = mn_protocol_version old ∧
  if mn_protocol_version old ≟ ProtocolLegacy then mn_base_url n = mn_base_url old
  else mn_service_url n = mn_service_url old.
Proof.
  intros Hv Hold Hknown Hact H. unfold UpdateModelNode in H. rewrite immediate_inr in H. sql_inv H.
  simpl in H0. rewrite Hold in H0. injection H0 as <-.
  rewrite (proj2 (Z.ltb_lt _ _) Hact) in H3. simpl in H3. rewrite negb_involutive in H3.
  apply (tx_rel_Done _ _ _ _ _ (writeNodeCatalog_nodes _ _ _)) in H7. unfold same_nodes in H7.
  unfold reread_node in H. sql_inv H. simpl in H. rewrite H7 in H. simpl in H. clear H7.
  apply find_elem_of in Hold as [Hin Hlive]. apply Z.eqb_eq in H1.
  pose proof Hlive as [Eid%bool_decide_eq_true _]%andb_true_iff.
  unfold tbl_valid, nodes_table in Hv. rewrite !andb_true_iff, distinct_NoDup in Hv.
  destruct Hv as [[Hnd _] _].
  apply find_elem_of in H as [Hn [En%bool_decide_eq_true _]%andb_true_iff].
  apply elem_of_update_where in Hn as (n1 & Hn1 & ->). rewrite proj_if in En by done.
  apply elem_of_update_where in Hn1 as (n0 & Hn0 & ->).
  assert (∀ r, mn_id (nodePersistenceValues input r) = mn_id r ∧
    mn_version (nodePersistenceValues input r) = mn_version r) as Hpv.
  { intros r. unfold nodePersistenceValues. by destruct (_ || _ || UsesTK2SD input). }
  assert (n0 = old) as ->.
  { apply (NoDup_map_inj mn_id (db_nodes db)); [done..|].
    rewrite proj_if in En by exact (proj1 (Hpv _)). congruence. }
  rewrite Hlive, H1, Z.eqb_refl in En |- *. cbn [andb] in En |- *.
  rewrite (bool_decide_eq_true_2 _ En). cbn.
  pose proof (allowed_address old input (old <| mn_version := mn_version old + 1 |>
    <| mn_updated_at := nowUnix e |>) Hknown H3) as Haddr. cbv zeta in Haddr.
  destruct (Hpv (old <| mn_version := version + 1 |> <| mn_updated_at := nowUnix e |>)) as [-> ->].
  rewrite H1 in Haddr. split_and!; [done|done|apply Haddr..].
Qed.
