(* ===== verification/Config.v ===== *)
(** * Configuration (internal/config)

    What a node of the model service must look like before it is stored or
    used (model_node.go), and the configuration file: defaults, the migration of
    old generation profiles, the checks, and the keys and nodes of older files
    (config.go).  Reading YAML is a library's; a decoded file is a [rawConfig]. *)

From stdpp Require Import gmap strings.
From S2P Require Import Prelude Domain Tx Database Sql Workers GoStrings GoNet Catalog Paging TaskRouting Callbacks Queue Stages Artifacts Remote Tasks Official Delivery Nodes.

(** ** Nodes *)

Record UpstreamConfig := mkUpstream {
  uc_ID : string;
  uc_ServiceURL : option URL;
  uc_ProtocolVersion : string;
  uc_BaseURL : option URL;
  uc_JobsBaseURL : option URL;
  uc_PublicBaseURL : option URL;
  uc_HealthPath : string;
  uc_SubmitAPIName : string;
  uc_CheckAPIName : string;
  uc_PollInterval : Z;
  uc_RequestTimeout : Z;
  uc_UpstreamModel : string;
  uc_MaxConcurrency : Z;
  uc_ReplaceResultURL : bool
}.

(** [[A-Za-z0-9._-]] *)
Definition name_char (c : Ascii.ascii) : bool :=
  let b := byte_of c in
  in_range 65 90 b || in_range 97 122 b || in_range 48 57 b || (b =? 46) || (b =? 95) || (b =? 45).
Definition name_chars (s : string) : bool := forallb name_char (String.list_ascii_of_string s).

Definition ValidModelNodeID (id : string) : bool :=
  negb (id ≟ ".") && negb (id ≟ "..") && name_chars id && (1 <=? len id) && (len id <=? 64).
Definition validAPIName (value : string) : bool :=
  (1 <=? len value) && (len value <=? 128) && name_chars value.

Definition validateNodeDurations (input : ModelNodeInput) : error + unit :=
  if (ni_PollInterval input <? Second) || (5 * 60 * Second <? ni_PollInterval input)
  then inl (ErrText "poll_interval 必须在 1s 到 5m 之间")
  else if (ni_RequestTimeout input <? Second) || (5 * 60 * Second <? ni_RequestTimeout input)
  then inl (ErrText "request_timeout 必须在 1s 到 5m 之间")
  else inr tt.

Section model_node.
(** [url.Parse]; [URL.EscapedPath] as a function of the path and the raw path,
    [URL.String] and [strings.EqualFold]. *)
Context (url_Parse : string → option URL) (escaped_path : string → string → string).
Context (url_String : URL → string) (EqualFold : string → string → bool).

(** An assignment to [u.Path]. *)
Definition set_Path (u : URL) (path : string) : URL :=
  u <| url_Path := path |> <| url_EscapedPath := escaped_path path (url_RawPath u) |>.

Definition parseURL (value : string) : error + URL :=
  match url_Parse value with
  | None => inl (ErrText "必须是完整的 HTTP/HTTPS URL")
  | Some u =>
      if (url_Host u ≟ "") || negb (url_Scheme u ∈? ["http"; "https"])
      then inl (ErrText "必须是完整的 HTTP/HTTPS URL")
      else if url_User u || negb (url_RawQuery u ≟ "") || negb (url_Fragment u ≟ "")
      then inl (ErrText "不得包含凭据、查询参数或片段")
      else inr (set_Path u (TrimSuffix (url_Path u) "/"))
  end.

Definition tk2sd_url_error (u : URL) : option error :=
  if url_ForceQuery u || negb (url_RawPath u ≟ "") || ContainsByte (url_Path u) backslash
     || ContainsByte (url_Path u) percent
     || (negb (url_Path u ≟ "") && negb (path_Clean (url_Path u) ≟ url_Path u))
  then Some (ErrText "tk2sd service_url 必须使用服务根地址")
  else if existsb (λ segment, segment ∈? ["ui"; "tasks"; "generations"])
            (split_byte slash (ToLower (url_Path u)))
  then Some (ErrText "tk2sd service_url 不能使用 /ui 或任务路径")
  else None.

Definition default_protocol (input : ModelNodeInput) : ModelNodeInput :=
  if ni_ProtocolVersion input ≟ "" then input <| ni_ProtocolVersion := ProtocolH3 |> else input.

(** The fields only some protocols have. *)
Definition protocol_fields (input : ModelNodeInput) : error + ModelNodeInput :=
  if ni_ProtocolVersion input ≟ ProtocolH3
  then
    if negb (TrimSpace (ni_UpstreamModel input) ≟ "") || (1 <? ni_MaxConcurrency input)
       || ni_ReplaceResultURL input
    then inl (ErrText "官方协议专属字段不能用于 h3-node-v1")
    else inr (input <| ni_UpstreamModel := "" |> <| ni_MaxConcurrency := 1 |>
                    <| ni_ReplaceResultURL := false |>)
  else
    let model := TrimSpace (ni_UpstreamModel input) in
    let count := RuneCountInString model in
    if (negb (ni_UpstreamModel input ≟ "") && (count =? 0)) || (128 <? count)
       || existsb (λ r, IsControl (ru_rune r)) (runes model)
    then inl (ErrText "upstream_model 必须是 1 至 128 个无控制字符的文本")
    else if (ni_MaxConcurrency input <? 1) || (100 <? ni_MaxConcurrency input)
    then inl (ErrText "max_concurrency 必须在 1 到 100 之间")
    else inr (input <| ni_UpstreamModel := model |>).

(** [fmt.Errorf("field: %w",err)] *)
Definition in_field (field : string) (err : error) : error :=
  match err with
  | ErrText m => ErrText (String.concat "" [field; ": "; m])
  | err => err
  end.

Definition normalizeNodeAPIModelNode (input : ModelNodeInput)
    : error + (ModelNodeInput * UpstreamConfig) :=
  match parseURL (TrimSpace (ni_ServiceURL input)) with
  | inl err => inl (in_field "service_url" err)
  | inr u =>
      if EqualFold (TrimRight_slash (url_EscapedPath u)) "/ui"
      then inl (ErrText "service_url 不能使用 /ui 页面路径，请填写 Node API 根地址")
      else
      let input := default_protocol input in
      if negb (ni_ProtocolVersion input ∈? [ProtocolH3; ProtocolOfficial; ProtocolTK2SD])
      then inl (ErrText "protocol_version 仅支持 h3-node-v1、minimax-v2 或 tk2sd-v1")
      else if (ni_ProtocolVersion input ≟ ProtocolOfficial) && negb (url_Scheme u ≟ "https")
      then inl (ErrText "minimax-v2 service_url 必须使用 HTTPS")
      else
      match (if ni_ProtocolVersion input ≟ ProtocolTK2SD then tk2sd_url_error u else None) with
      | Some err => inl err
      | None =>
          input ← protocol_fields input;
          validateNodeDurations input ;;
          let input := input <| ni_ServiceURL := url_String u |> in
          mret (input, mkUpstream (ni_ID input) (Some u) (ni_ProtocolVersion input) None None None
                         "" "" "" (ni_PollInterval input) (ni_RequestTimeout input)
                         (ni_UpstreamModel input) (ni_MaxConcurrency input)
                         (ni_ReplaceResultURL input))
      end
  end.

Definition health_path_ok (path : string) : bool :=
  negb (len path =? 0) && (len path <=? 256) && HasPrefix path "/"
  && negb (ContainsByte path (Ascii.ascii_of_nat 63)) && negb (ContainsByte path (Ascii.ascii_of_nat 35)).

Definition url_field (field value : string) : error + URL :=
  match parseURL (TrimSpace value) with inl err => inl (in_field field err) | inr u => inr u end.

Definition normalizeLegacyModelNode (input : ModelNodeInput)
    : error + (ModelNodeInput * UpstreamConfig) :=
  base ← url_field "base_url" (ni_BaseURL input);
  jobs ← url_field "jobs_base_url" (ni_JobsBaseURL input);
  public ← url_field "public_base_url" (ni_PublicBaseURL input);
  if negb (health_path_ok (ni_HealthPath input))
  then inl (ErrText "health_path 必须是以 / 开头且不含查询参数或片段的路径")
  else if negb (validAPIName (ni_SubmitAPIName input))
  then inl (ErrText "submit_api_name 格式无效")
  else if negb (validAPIName (ni_CheckAPIName input))
  then inl (ErrText "check_api_name 格式无效")
  else
  validateNodeDurations input ;;
  let input := input <| ni_BaseURL := url_String base |> <| ni_JobsBaseURL := url_String jobs |>
                     <| ni_PublicBaseURL := url_String public |> in
  mret (input, mkUpstream (ni_ID input) None "" (Some base) (Some jobs) (Some public)
                 (ni_HealthPath input) (ni_SubmitAPIName input) (ni_CheckAPIName input)
                 (ni_PollInterval input) (ni_RequestTimeout input) "" 0 false).

Definition NormalizeModelNode (input : ModelNodeInput) : error + (ModelNodeInput * UpstreamConfig) :=
  if negb (ValidModelNodeID (ni_ID input))
  then inl (ErrText "节点 ID 仅支持 1 至 64 位字母、数字、点、下划线或短横线")
  else if negb (ni_ProtocolVersion input ≟ ProtocolLegacy)
          && (negb (TrimSpace (ni_ServiceURL input) ≟ "")
              || negb (TrimSpace (ni_ProtocolVersion input) ≟ ""))
  then normalizeNodeAPIModelNode input
  else normalizeLegacyModelNode input.
End model_node.

(** ** The configuration file *)

Record Dimension := mkDimension { dm_Width : Z; dm_Height : Z }.
#[export] Instance Dimension_eq_dec : EqDecision Dimension.
Proof. solve_decision. Defined.

Record GenerationProfile := mkGenProfile {
  gp_ModelMode : string;
  gp_CustomModel : string;
  gp_CustomModelHigh : string;
  gp_FPS : Z;
  gp_EasyCache : bool;
  gp_Steps : Z;
  gp_Dimensions : gmap string Dimension
}.
#[export] Instance GenerationProfile_eta : Eta GenerationProfile := λ r,
  mkGenProfile (gp_ModelMode r) (gp_CustomModel r) (gp_CustomModelHigh r) (gp_FPS r) (gp_EasyCache r)
    (gp_Steps r) (gp_Dimensions r).

Record APIKeyConfig := mkAPIKey {
  ak_ID : string;
  ak_Key : string;
  ak_Enabled : bool;
  ak_EnabledRaw : string
}.
#[export] Instance APIKeyConfig_eta : Eta APIKeyConfig := λ r,
  mkAPIKey (ak_ID r) (ak_Key r) (ak_Enabled r) (ak_EnabledRaw r).

Record LegacyUpstreamConfig := mkLegacyUpstream {
  lu_ID : string;
  lu_BaseURL : string;
  lu_JobsBaseURL : string;
  lu_PublicBaseURL : string;
  lu_HealthPath : string;
  lu_SubmitAPIName : string;
  lu_CheckAPIName : string;
  lu_PollInterval : string;
  lu_RequestTimeout : string
}.

(** [rawConfig]: the file as it is decoded. *)
Record rawConfig := mkRaw {
  rc_Address : string;
  rc_ReadTimeout : string;
  rc_WriteTimeout : string;
  rc_Username : option string;
  rc_Password : option string;
  rc_SessionTTL : option string;
  rc_MonitorInterval : option string;
  rc_SecureCookie : option bool;
  rc_DatabasePath : string;
  rc_ProtectedSlots : option Z;
  rc_PerKeyUnfinishedLimit : option Z;
  rc_GlobalUnfinishedLimit : option Z;
  rc_Retention : string;
  rc_IdempotencyTTL : string;
  rc_ExecutionTimeout : string;
  rc_APIKeys : list APIKeyConfig;
  rc_Upstreams : list LegacyUpstreamConfig;
  rc_GenerationProfiles : gmap string GenerationProfile
}.

Record Config := mkConf {
  cf_Address : string;
  cf_ReadTimeout : Z;
  cf_WriteTimeout : Z;
  cf_Username : string;
  cf_Password : string;
  cf_SessionTTL : Z;
  cf_MonitorInterval : Z;
  cf_SecureCookie : bool;
  cf_DatabasePath : string;
  cf_ProtectedSlots : Z;
  cf_PerKeyUnfinishedLimit : Z;
  cf_GlobalUnfinishedLimit : Z;
  cf_Retention : Z;
  cf_IdempotencyTTL : Z;
  cf_ExecutionTimeout : Z;
  cf_APIKeys : list APIKeyConfig;
  cf_LegacyUpstreams : list LegacyUpstreamConfig;
  cf_GenerationProfiles : gmap string GenerationProfile
}.

Definition requiredRatios : list string := ["adaptive"; "21:9"; "16:9"; "4:3"; "1:1"; "3:4"; "9:16"].
Definition requiredResolutions : list string := ["480P"; "768P"; "2K"].

Definition dimensions480P : gmap string Dimension :=
  list_to_map [("adaptive", mkDimension 832 480); ("21:9", mkDimension 1120 480);
               ("16:9", mkDimension 832 480); ("4:3", mkDimension 640 480);
               ("1:1", mkDimension 480 480); ("3:4", mkDimension 480 640);
               ("9:16", mkDimension 480 832)].
Definition dimensions768P : gmap string Dimension :=
  list_to_map [("adaptive", mkDimension 1344 768); ("21:9", mkDimension 1792 768);
               ("16:9", mkDimension 1344 768); ("4:3", mkDimension 1024 768);
               ("1:1", mkDimension 768 768); ("3:4", mkDimension 768 1024);
               ("9:16", mkDimension 768 1344)].

(** A key that is missing reads as the zero value. *)
Definition dimensionsEqual (got want : gmap string Dimension) : bool :=
  bool_decide (size got = size want)
  && forallb (λ rd, default (mkDimension 0 0) (got !! rd.1) ≟ rd.2) (map_to_list want).

Definition default_fps (p : GenerationProfile) : GenerationProfile :=
  if gp_FPS p =? 0 then p <| gp_FPS := 24 |> else p.
Definition fix_1104 (p : GenerationProfile) : GenerationProfile :=
  if gp_Dimensions p !! "21:9" ≟ Some (mkDimension 1104 480)
  then p <| gp_Dimensions := <["21:9" := mkDimension 1120 480]> (gp_Dimensions p) |> else p.
Definition fix_1080 (d : Dimension) : Dimension :=
  mkDimension (if dm_Width d =? 1080 then 1088 else dm_Width d)
              (if dm_Height d =? 1080 then 1088 else dm_Height d).
(** A 768P profile with the dimensions of 480P becomes both. *)
Definition split_768P (profiles : gmap string GenerationProfile) : gmap string GenerationProfile :=
  match profiles !! "480P", profiles !! "768P" with
  | None, Some p =>
      if dimensionsEqual (gp_Dimensions p) dimensions480P
      then <["768P" := p <| gp_Dimensions := dimensions768P |>]> (<["480P" := p]> profiles)
      else profiles
  | _, _ => profiles
  end.
Definition migrateLegacyGenerationProfiles (profiles : gmap string GenerationProfile)
    : gmap string GenerationProfile :=
  let profiles := default_fps <$> profiles in
  let profiles := alter fix_1104 "768P" profiles in
  let profiles := alter (λ p, p <| gp_Dimensions := fix_1080 <$> gp_Dimensions p |>) "2K" profiles in
  split_768P profiles.

(** [${NAME}] at the head of a text: the name and what follows. *)
Definition env_first (c : Ascii.ascii) : bool :=
  in_range 65 90 (byte_of c) || in_range 97 122 (byte_of c) || (byte_of c =? 95).
Fixpoint env_name (s : string) : option (string * string) :=
  match s with
  | EmptyString => None
  | String c s' =>
      if byte_of c =? 125 then Some ("", s')
      else if env_first c || in_range 48 57 (byte_of c)
      then '(name, rest) ← env_name s'; Some (String c name, rest)
      else None
  end.
Definition env_token (s : string) : option (string * string) :=
  match s with
  | String d (String b (String c _ as s')) =>
      if (byte_of d =? 36) && (byte_of b =? 123) && env_first c then env_name s' else None
  | _ => None
  end.

Definition ParseBool (s : string) : option bool :=
  if s ∈? ["1"; "t"; "T"; "TRUE"; "true"; "True"] then Some true
  else if s ∈? ["0"; "f"; "F"; "FALSE"; "false"; "False"] then Some false
  else None.

Section config.
Context (url_Parse : string → option URL) (escaped_path : string → string → string).
Context (url_String : URL → string) (EqualFold : string → string → bool).
(** [time.ParseDuration] and [os.LookupEnv]. *)
Context (ParseDuration : string → option Z) (LookupEnv : string → option string).
(** [strconv.Quote], [strings.ToLower], and [validateWritableDirectory] of the
    directory of a path. *)
Context (Quote : string → string).
Context (fold : string → string) (directory : string → error + unit).

(** The text with its tokens replaced, and the last name without a value.  One
    step reads at least a byte. *)
Fixpoint expand_tokens (fuel : nat) (s : string) : string * option string :=
  match fuel, s with
  | O, _ | _, EmptyString => ("", None)
  | S fuel, String c s' =>
      match env_token s with
      | Some (name, rest) =>
          let '(text, missing) := expand_tokens fuel rest in
          let value := default "" (LookupEnv name) in
          if value ≟ ""
          then (String.concat "" ["${"; name; "}"; text], Some (default name missing))
          else (String.append value text, missing)
      | None => let '(text, missing) := expand_tokens fuel s' in (String c text, missing)
      end
  end.
Definition expandEnvironment (input : string) : error + string :=
  match expand_tokens (String.length input) input with
  | (_, Some missing) => inl (ErrText (String.concat "" ["环境变量 "; missing; " 未配置或为空"]))
  | (result, None) => inr result
  end.

Definition parseDuration (value : string) (fallback : Z) (field : string) : error + Z :=
  if value ≟ "" then inr fallback
  else match ParseDuration value with
       | Some d => if d <=? 0 then inl (ErrText (String.append field " 必须是正数时长")) else inr d
       | None => inl (ErrText (String.append field " 必须是正数时长"))
       end.
Definition parseOptionalDuration (value : option string) (fallback : Z) (field : string) : error + Z :=
  match value with
  | None => inr fallback
  | Some value =>
      if TrimSpace value ≟ "" then inl (ErrText (String.append field " 必须是正数时长"))
      else parseDuration value fallback field
  end.

Definition Hour : Z := 3600 * Second.

Definition normalize (raw : rawConfig) : error + Config :=
  readTimeout ← parseDuration (rc_ReadTimeout raw) (60 * Second) "server.read_timeout";
  writeTimeout ← parseDuration (rc_WriteTimeout raw) (120 * Second) "server.write_timeout";
  sessionTTL ← parseOptionalDuration (rc_SessionTTL raw) (12 * Hour) "admin.session_ttl";
  monitor ← parseOptionalDuration (rc_MonitorInterval raw) (5 * Second) "admin.monitor_interval";
  retention ← parseDuration (rc_Retention raw) (7 * 24 * Hour) "task.retention";
  idempotency ← parseDuration (rc_IdempotencyTTL raw) (24 * Hour) "task.idempotency_ttl";
  execution ← parseDuration (rc_ExecutionTimeout raw) (600 * Second) "task.execution_timeout";
  mret (mkConf (if rc_Address raw ≟ "" then ":8080" else rc_Address raw) readTimeout writeTimeout
    (default "admin" (rc_Username raw)) (default "123" (rc_Password raw)) sessionTTL monitor
    (default false (rc_SecureCookie raw)) (rc_DatabasePath raw)
    (default 3 (rc_ProtectedSlots raw)) (default 10 (rc_PerKeyUnfinishedLimit raw))
    (default 100 (rc_GlobalUnfinishedLimit raw)) retention idempotency execution
    (rc_APIKeys raw) (rc_Upstreams raw)
    (migrateLegacyGenerationProfiles (rc_GenerationProfiles raw))).

(** ** Checks *)

Fixpoint validate_keys (ids keys : list string) (ks : list APIKeyConfig) : error + unit :=
  match ks with
  | [] => inr tt
  | k :: ks =>
      if (ak_ID k ≟ "") || (ak_Key k ≟ "") then inl (ErrText "API Key 的 id 和 key 不能为空")
      else if ak_ID k ∈? ids
      then inl (ErrText (String.concat "" ["API Key id "; Quote (ak_ID k); " 重复"]))
      else if ak_Key k ∈? keys then inl (ErrText "API Key 值重复")
      else validate_keys (ak_ID k :: ids) (ak_Key k :: keys) ks
  end.

Definition profile_error (resolution what : string) : error :=
  ErrText (String.concat "" ["generation_profiles."; resolution; what]).

Fixpoint validate_ratios (resolution : string) (p : GenerationProfile) (ratios : list string)
    : error + unit :=
  match ratios with
  | [] => inr tt
  | ratio :: ratios =>
      match gp_Dimensions p !! ratio with
      | None => inl (profile_error resolution (String.concat "" [" 缺少 "; ratio; " 尺寸"]))
      | Some d =>
          if (dm_Width d <=? 0) || (dm_Height d <=? 0)
          then inl (profile_error resolution (String.concat "" ["."; ratio; " 尺寸无效"]))
          else if negb (Z.rem (dm_Width d) 32 =? 0) || negb (Z.rem (dm_Height d) 32 =? 0)
          then inl (profile_error resolution
                      (String.concat "" ["."; ratio; " 的宽高必须是 32 的倍数"]))
          else validate_ratios resolution p ratios
      end
  end.

Fixpoint validate_profiles (profiles : gmap string GenerationProfile) (resolutions : list string)
    : error + unit :=
  match resolutions with
  | [] => inr tt
  | resolution :: resolutions =>
      match profiles !! resolution with
      | None => inl (ErrText (String.append "generation_profiles 缺少 " resolution))
      | Some p =>
          if (gp_ModelMode p ≟ "") || (gp_Steps p <=? 0)
          then inl (profile_error resolution " 的 model_mode/steps 无效")
          else if (gp_FPS p <? 10) || (60 <? gp_FPS p)
          then inl (profile_error resolution " 的 fps 必须为 10 到 60")
          else validate_ratios resolution p requiredRatios ;; validate_profiles profiles resolutions
      end
  end.

Definition validate (cfg : Config) : error + unit :=
  if TrimSpace (cf_Username cfg) ≟ "" then inl (ErrText "admin.username 不能为空")
  else if TrimSpace (cf_Password cfg) ≟ "" then inl (ErrText "admin.password 不能为空")
  else if cf_DatabasePath cfg ≟ "" then inl (ErrText "database.path 不能为空")
  else
  directory (cf_DatabasePath cfg) ;;
  if (cf_ProtectedSlots cfg <? 0) || (cf_PerKeyUnfinishedLimit cfg <=? 0)
     || (cf_GlobalUnfinishedLimit cfg <=? 0)
  then inl (ErrText "队列限制配置无效")
  else if cf_GlobalUnfinishedLimit cfg <? cf_PerKeyUnfinishedLimit cfg
  then inl (ErrText "每 Key 上限不得超过全局上限")
  else
  validate_keys [] [] (cf_APIKeys cfg) ;;
  if bool_decide (size (cf_GenerationProfiles cfg) = O) then inr tt
  else validate_profiles (cf_GenerationProfiles cfg) requiredResolutions.

(** [Load] from the decoded file on. *)
Definition Load (raw : rawConfig) : error + Config :=
  cfg ← normalize raw; validate cfg ;; mret cfg.

(** ** Keys and nodes of older files *)

Fixpoint parse_keys (ids keys : list string) (items : list APIKeyConfig) : error + list APIKeyConfig :=
  match items with
  | [] => inr []
  | item :: items =>
      id ← expandEnvironment (ak_ID item);
      key ← expandEnvironment (ak_Key item);
      let item := item <| ak_ID := TrimSpace id |> <| ak_Key := key |> in
      item ← (if ak_EnabledRaw item ≟ "" then inr item
              else
                raw ← expandEnvironment (ak_EnabledRaw item);
                match ParseBool raw with
                | None => inl (ErrText "API Key enabled 必须是布尔值")
                | Some enabled => inr (item <| ak_Enabled := enabled |>)
                end);
      if (ak_ID item ≟ "") || (ak_Key item ≟ "") then inl (ErrText "API Key 的 id 和 key 不能为空")
      else if fold (ak_ID item) ∈? ids
      then inl (ErrText (String.concat "" ["API Key id "; Quote (ak_ID item); " 重复"]))
      else if ak_Key item ∈? keys then inl (ErrText "API Key 值重复")
      else
        rest ← parse_keys (fold (ak_ID item) :: ids) (ak_Key item :: keys) items;
        mret (item :: rest)
  end.
Definition ParseLegacyAPIKeys (items : list APIKeyConfig) : error + list APIKeyConfig :=
  parse_keys [] [] items.

Definition expandLegacyUpstream (item : LegacyUpstreamConfig) : error + LegacyUpstreamConfig :=
  id ← expandEnvironment (lu_ID item);
  base ← expandEnvironment (lu_BaseURL item);
  jobs ← expandEnvironment (lu_JobsBaseURL item);
  public ← expandEnvironment (lu_PublicBaseURL item);
  health ← expandEnvironment (lu_HealthPath item);
  submit ← expandEnvironment (lu_SubmitAPIName item);
  check ← expandEnvironment (lu_CheckAPIName item);
  poll ← expandEnvironment (lu_PollInterval item);
  timeout ← expandEnvironment (lu_RequestTimeout item);
  mret (mkLegacyUpstream id base jobs public health submit check poll timeout).

Definition or_else (value fallback : string) : string := if value ≟ "" then fallback else value.

Definition legacy_input (item : LegacyUpstreamConfig) : error + ModelNodeInput :=
  poll ← parseDuration (lu_PollInterval item) (3 * Second) "upstream.poll_interval";
  timeout ← parseDuration (lu_RequestTimeout item) (30 * Second) "upstream.request_timeout";
  mret (mkNodeInput (lu_ID item) "" "" "" "" 0 false false None (lu_BaseURL item) (lu_JobsBaseURL item)
    (lu_PublicBaseURL item) (or_else (lu_HealthPath item) "/")
    (or_else (lu_SubmitAPIName item) "submit_minimax_from_slots")
    (or_else (lu_CheckAPIName item) "check_and_get_video") poll timeout true).

Fixpoint parse_upstreams (ids : list string) (items : list LegacyUpstreamConfig)
    : error + list UpstreamConfig :=
  match items with
  | [] => inr []
  | raw :: items =>
      item ← expandLegacyUpstream raw;
      if TrimSpace (lu_ID item) ≟ "" then inl (ErrText "upstream.id 不能为空")
      else
      input ← legacy_input item;
      match NormalizeModelNode url_Parse escaped_path url_String EqualFold input with
      | inl err => inl (in_field (String.append "upstream " (Quote (lu_ID item))) err)
      | inr (normalized, upstream) =>
          if ni_ID normalized ∈? ids
          then inl (ErrText (String.concat "" ["upstream id "; Quote (ni_ID normalized); " 重复"]))
          else
            rest ← parse_upstreams (ni_ID normalized :: ids) items;
            mret (upstream :: rest)
      end
  end.
Definition ParseLegacyUpstreams (items : list LegacyUpstreamConfig) : error + list UpstreamConfig :=
  parse_upstreams [] items.
End config.

(** ** What a normalized node looks like *)

(** A URL a client may be built on. *)
Definition service_url_ok (u : URL) : Prop :=
  url_Host u ≠ "" ∧ url_Scheme u ∈ ["http"; "https"] ∧ url_User u = false ∧ url_RawQuery u = "" ∧
  url_Fragment u = "".

Definition node_api_ok (n : ModelNodeInput) (u : URL) : Prop :=
  service_url_ok u ∧ ni_ProtocolVersion n ∈ [ProtocolH3; ProtocolOfficial; ProtocolTK2SD] ∧
  1 ≤ ni_MaxConcurrency n ≤ 100 ∧ RuneCountInString (ni_UpstreamModel n) ≤ 128 ∧
  (ni_ProtocolVersion n = ProtocolH3 →
     ni_MaxConcurrency n = 1 ∧ ni_UpstreamModel n = "" ∧ ni_ReplaceResultURL n = false) ∧
  (ni_ProtocolVersion n = ProtocolOfficial → url_Scheme u = "https").

Section normalized.
Context (url_Parse : string → option URL) (escaped_path : string → string → string).
Context (url_String : URL → string) (EqualFold : string → string → bool).
#[local] Abbreviation NormalizeModelNode := (NormalizeModelNode url_Parse escaped_path url_String EqualFold).
#[local] Abbreviation parseURL := (parseURL url_Parse escaped_path).

Lemma parseURL_inr value u : parseURL value = inr u → service_url_ok u.
Proof.
  unfold Config.parseURL. intros H. repeat case_match; try done. injection H as <-.
  rewrite ?orb_false_iff, ?negb_false_iff, ?bool_decide_eq_true, ?bool_decide_eq_false in *.
  unfold service_url_ok. simpl. naive_solver.
Qed.

Lemma validateNodeDurations_inr n u :
  validateNodeDurations n = inr u →
  Second ≤ ni_PollInterval n ≤ 300 * Second ∧ Second ≤ ni_RequestTimeout n ≤ 300 * Second.
Proof.
  unfold validateNodeDurations. intros H. repeat case_match; try done.
  rewrite !orb_false_iff, !Z.ltb_ge in *. lia.
Qed.

Lemma default_protocol_ID n : ni_ID (default_protocol n) = ni_ID n.
Proof. unfold default_protocol. by destruct (ni_ProtocolVersion n ≟ ""). Qed.

Lemma protocol_fields_inr n n' :
  protocol_fields n = inr n' →
  ni_ID n' = ni_ID n ∧ ni_ProtocolVersion n' = ni_ProtocolVersion n ∧
  1 ≤ ni_MaxConcurrency n' ≤ 100 ∧ RuneCountInString (ni_UpstreamModel n') ≤ 128 ∧
  (ni_ProtocolVersion n' = ProtocolH3 →
     ni_MaxConcurrency n' = 1 ∧ ni_UpstreamModel n' = "" ∧ ni_ReplaceResultURL n' = false).
Proof.
  unfold protocol_fields. intros H. repeat case_match; try done; injection H as <-; simpl.
  - split_and!; (done || lia).
  - rewrite !orb_false_iff, !Z.ltb_ge in *. rewrite bool_decide_eq_false in *. split_and!; try done; lia.
Qed.

(** [NormalizeModelNode] lets through only nodes a client can be built on.
    A node that it accepts keeps its ID, which is a valid one; its intervals lie
    between a second and five minutes; a node of one of the API protocols has a
    service URL with a host, over HTTP or HTTPS, without credentials, query or
    fragment, between 1 and 100 slots (exactly one, and no model name, on the H3
    protocol), and HTTPS on the official one; any other node is one of the
    legacy protocol with three such URLs. *)
Theorem NormalizeModelNode_sound input n u :
  NormalizeModelNode input = inr (n, u) →
  ni_ID n = ni_ID input ∧ uc_ID u = ni_ID n ∧ ValidModelNodeID (ni_ID n) = true ∧
  Second ≤ ni_PollInterval n ≤ 300 * Second ∧ Second ≤ ni_RequestTimeout n ≤ 300 * Second ∧
  ((∃ s, uc_ServiceURL u = Some s ∧ ni_ServiceURL n = url_String s ∧ node_api_ok n s) ∨
   ((ni_ProtocolVersion input = ProtocolLegacy ∨
     TrimSpace (ni_ServiceURL input) = "" ∧ TrimSpace (ni_ProtocolVersion input) = "") ∧
    ∃ b j p, uc_BaseURL u = Some b ∧ uc_JobsBaseURL u = Some j ∧ uc_PublicBaseURL u = Some p ∧
      Forall service_url_ok [b; j; p])).
Proof.
  unfold Config.NormalizeModelNode. destruct (ValidModelNodeID _) eqn:Eid; [|done]. simpl.
  destruct (negb (_ ≟ ProtocolLegacy) && _) eqn:Epath; intros H.
  - unfold normalizeNodeAPIModelNode in H.
    destruct (Config.parseURL _ _ _) as [|s] eqn:Es; [done|]. apply parseURL_inr in Es.
    destruct (EqualFold _ _); [done|]. cbv zeta in H.
    set (i := default_protocol input) in *.
    pose proof (default_protocol_ID input) as Ei. fold i in Ei.
    destruct (negb (ni_ProtocolVersion i ∈? _)) eqn:Ep; [done|]. 
    destruct ((ni_ProtocolVersion i ≟ ProtocolOfficial) && negb (url_Scheme s ≟ "https")) eqn:Eo; [done|].
    destruct (if ni_ProtocolVersion i ≟ ProtocolTK2SD then _ else _); [done|].
    destruct (protocol_fields i) as [|i'] eqn:Ef; [done|].
    apply protocol_fields_inr in Ef as (Ei' & Ep' & ? & ? & ?). simpl in H.
    destruct (validateNodeDurations i') eqn:Ed; [done|]. apply validateNodeDurations_inr in Ed as [??].
    injection H as <- <-. simpl. rewrite Ei', Ei.
    split_and!; try done; try lia. left. exists s. split_and!; [done..|].
    apply negb_false_iff, bool_decide_eq_true in Ep.
    unfold node_api_ok. simpl. rewrite Ep'. split_and!; try done; try lia; [rewrite <-Ep'; done|].
    intros E. rewrite E in Eo. simpl in Eo. by apply negb_false_iff, bool_decide_eq_true in Eo.
  - unfold normalizeLegacyModelNode, url_field in H.
    destruct (Config.parseURL _ _ (TrimSpace (ni_BaseURL _))) as [|b] eqn:Eb; [done|].
    destruct (Config.parseURL _ _ (TrimSpace (ni_JobsBaseURL _))) as [|j] eqn:Ej; [done|].
    destruct (Config.parseURL _ _ (TrimSpace (ni_PublicBaseURL _))) as [|p] eqn:Epp; [done|]. simpl in H.
    destruct (negb (health_path_ok _)); [done|]. destruct (negb (validAPIName _)); [done|].
    destruct (negb (validAPIName _)); [done|].
    destruct (validateNodeDurations _) eqn:Ed; [done|]. apply validateNodeDurations_inr in Ed as [??].
    injection H as <- <-. simpl. split_and!; try done; try lia. right. split.
    { apply andb_false_iff in Epath as [Hl|Hs]; [left|right].
      - by apply negb_false_iff, bool_decide_eq_true in Hl.
      - by rewrite orb_false_iff, !negb_false_iff, !bool_decide_eq_true in Hs. }
    exists b, j, p. split_and!; [done..|]. rewrite !Forall_cons. split_and!; [by eapply parseURL_inr..|constructor].
Qed.
End normalized.

(** ** What a loaded configuration guarantees *)

(** Dimensions a generation may have. *)
Definition dimension_ok (d : Dimension) : Prop :=
  0 < dm_Width d ∧ 0 < dm_Height d ∧ (32 | dm_Width d) ∧ (32 | dm_Height d).
Definition profile_ok (p : GenerationProfile) : Prop :=
  gp_ModelMode p ≠ "" ∧ 0 < gp_Steps p ∧ 10 ≤ gp_FPS p ≤ 60 ∧
  ∀ ratio, ratio ∈ requiredRatios → ∃ d, gp_Dimensions p !! ratio = Some d ∧ dimension_ok d.

Record config_ok (cfg : Config) : Prop := {
  ok_durations : Forall (λ d, 0 < d)
    [cf_ReadTimeout cfg; cf_WriteTimeout cfg; cf_SessionTTL cfg; cf_MonitorInterval cfg;
     cf_Retention cfg; cf_IdempotencyTTL cfg; cf_ExecutionTimeout cfg];
  ok_queue : 0 ≤ cf_ProtectedSlots cfg ∧
    0 < cf_PerKeyUnfinishedLimit cfg ≤ cf_GlobalUnfinishedLimit cfg;
  ok_keys : NoDup (map ak_ID (cf_APIKeys cfg)) ∧ NoDup (map ak_Key (cf_APIKeys cfg)) ∧
    Forall (λ k, ak_ID k ≠ "" ∧ ak_Key k ≠ "") (cf_APIKeys cfg);
  ok_profiles : cf_GenerationProfiles cfg = ∅ ∨
    ∀ resolution, resolution ∈ requiredResolutions →
      ∃ p, cf_GenerationProfiles cfg !! resolution = Some p ∧ profile_ok p
}.

Section loaded.
Context (ParseDuration : string → option Z) (Quote : string → string) (directory : string → error + unit).
#[local] Abbreviation Load := (Load ParseDuration Quote directory).

Lemma parseDuration_pos value fallback field d :
  0 < fallback → parseDuration ParseDuration value fallback field = inr d → 0 < d.
Proof.
  unfold parseDuration. intros Hf H. repeat case_match; try done; injection H as <-; [done|].
  by apply Z.leb_gt.
Qed.
Lemma parseOptionalDuration_pos value fallback field d :
  0 < fallback → parseOptionalDuration ParseDuration value fallback field = inr d → 0 < d.
Proof.
  unfold parseOptionalDuration. intros Hf H. repeat case_match; try done; [|by injection H as <-].
  by eapply parseDuration_pos.
Qed.

Lemma normalize_durations raw cfg :
  normalize ParseDuration raw = inr cfg →
  Forall (λ d, 0 < d)
    [cf_ReadTimeout cfg; cf_WriteTimeout cfg; cf_SessionTTL cfg; cf_MonitorInterval cfg;
     cf_Retention cfg; cf_IdempotencyTTL cfg; cf_ExecutionTimeout cfg].
Proof.
  unfold normalize. rewrite sum_bind_inr. intros (? & ?%parseDuration_pos & H); [|done].
  apply sum_bind_inr in H as (? & ?%parseDuration_pos & H); [|done].
  apply sum_bind_inr in H as (? & ?%parseOptionalDuration_pos & H); [|done].
  apply sum_bind_inr in H as (? & ?%parseOptionalDuration_pos & H); [|done].
  do 3 (apply sum_bind_inr in H as (? & ?%parseDuration_pos & H); [|done]).
  injection H as <-. simpl. by repeat constructor.
Qed.

Lemma validate_keys_inr ids keys ks u :
  validate_keys Quote ids keys ks = inr u →
  NoDup (map ak_ID ks) ∧ NoDup (map ak_Key ks) ∧ Forall (λ k, ak_ID k ≠ "" ∧ ak_Key k ≠ "") ks ∧
  Forall (λ k, ak_ID k ∉ ids ∧ ak_Key k ∉ keys) ks.
Proof.
  revert ids keys. induction ks as [|k ks IH]; intros ids keys H; simpl in *.
  { split_and!; constructor. }
  repeat case_match; try done. rewrite ?orb_false_iff, ?bool_decide_eq_false in *.
  apply IH in H as (Hi & Hk & Hne & Hout). rewrite Forall_forall in Hout.
  split_and!; try (constructor; [|done]); try tauto.
  - intros (k' & E & Hin)%list_elem_of_fmap. destruct (Hout _ Hin). set_solver.
  - intros (k' & E & Hin)%list_elem_of_fmap. destruct (Hout _ Hin). set_solver.
  - constructor; [done|]. apply Forall_forall. intros k' Hin. destruct (Hout _ Hin). set_solver.
Qed.

Lemma validate_ratios_inr resolution p ratios u :
  validate_ratios resolution p ratios = inr u →
  ∀ ratio, ratio ∈ ratios → ∃ d, gp_Dimensions p !! ratio = Some d ∧ dimension_ok d.
Proof.
  induction ratios as [|r ratios IH]; simpl; intros H ratio Hin; [set_solver|].
  repeat case_match; try done.
  rewrite ?orb_false_iff, ?negb_false_iff, ?Z.leb_gt, ?Z.eqb_eq, ?Z.rem_divide in * by lia.
  apply elem_of_cons in Hin as [->|Hin]; [|auto]. unfold dimension_ok. naive_solver.
Qed.

Lemma validate_profiles_inr profiles resolutions u :
  validate_profiles profiles resolutions = inr u →
  ∀ resolution, resolution ∈ resolutions → ∃ p, profiles !! resolution = Some p ∧ profile_ok p.
Proof.
  induction resolutions as [|r rs IH]; cbn [validate_profiles]; intros H resolution Hin; [set_solver|].
  destruct (profiles !! r) as [p|] eqn:Ep; [|done].
  destruct ((gp_ModelMode p ≟ "") || (gp_Steps p <=? 0)) eqn:E1; [done|].
  destruct ((gp_FPS p <? 10) || (60 <? gp_FPS p)) eqn:E2; [done|].
  apply sum_bind_inr in H as ([] & Er & H).
  apply elem_of_cons in Hin as [->|Hin]; [|auto]. exists p. split; [done|].
  rewrite ?orb_false_iff, ?bool_decide_eq_false, ?Z.leb_gt, ?Z.ltb_ge in *.
  unfold profile_ok. split_and!; try tauto; try lia. by eapply validate_ratios_inr.
Qed.

(** A configuration that [Load] accepts is one the rest of the program can
    rely on: every interval is positive, the limits of the queue are positive
    and ordered, the keys and their ids are distinct and not empty, and unless
    there are no generation profiles at all, each of the three resolutions has
    one with a frame rate from 10 to 60 and, for each of the seven ratios,
    positive dimensions that are multiples of 32. *)
Theorem Load_sound raw cfg : Load raw = inr cfg → config_ok cfg.
Proof.
  unfold Config.Load. rewrite sum_bind_inr. intros (c & En & ([] & Ev & H)%sum_bind_inr). injection H as ->.
  apply normalize_durations in En. unfold validate in Ev.
  destruct (TrimSpace _ ≟ ""); [done|]. destruct (TrimSpace _ ≟ ""); [done|].
  destruct (cf_DatabasePath cfg ≟ ""); [done|]. apply sum_bind_inr in Ev as (? & _ & Ev).
  destruct ((cf_ProtectedSlots cfg <? 0) || (cf_PerKeyUnfinishedLimit cfg <=? 0)
    || (cf_GlobalUnfinishedLimit cfg <=? 0)) eqn:Eq; [done|].
  destruct (cf_GlobalUnfinishedLimit cfg <? _) eqn:El; [done|].
  apply sum_bind_inr in Ev as (? & Ek & Ev).
  apply validate_keys_inr in Ek as (? & ? & ? & _).
  rewrite !orb_false_iff, !Z.leb_gt, !Z.ltb_ge in *. split; try done; try lia.
  destruct (bool_decide (size _ = O)) eqn:Es; [left|right].
  - apply bool_decide_eq_true in Es. by apply map_size_empty_iff.
  - by eapply validate_profiles_inr.
Qed.
End loaded.

(** ** Migrating twice *)

(** A profile that the first two steps leave alone. *)
Definition migrated (resolution : string) (p : GenerationProfile) : Prop :=
  default_fps p = p ∧ (resolution = "768P" → fix_1104 p = p) ∧
  (resolution = "2K" → fix_1080 <$> gp_Dimensions p = gp_Dimensions p).

Lemma migrated_fix (profiles : gmap string GenerationProfile) :
  map_Forall migrated profiles →
  migrateLegacyGenerationProfiles profiles = split_768P profiles.
Proof.
  intros H. unfold migrateLegacyGenerationProfiles. f_equal. apply map_eq. intros k.
  destruct (decide (k = "2K")) as [->|H2].
  - rewrite lookup_alter_eq, lookup_alter_ne, lookup_fmap by done.
    destruct (profiles !! "2K") as [p|] eqn:E; [|done]. destruct (H _ _ E) as (H1 & _ & H3). simpl.
    rewrite H1. f_equal. destruct p; simpl in *. by rewrite H3.
  - rewrite lookup_alter_ne by done. destruct (decide (k = "768P")) as [->|H7].
    + rewrite lookup_alter_eq, lookup_fmap. destruct (profiles !! "768P") as [p|] eqn:E; [|done].
      destruct (H _ _ E) as (H1 & H3 & _). simpl. by rewrite H1, H3.
    + rewrite lookup_alter_ne, lookup_fmap by done. destruct (profiles !! k) as [p|] eqn:E; [|done].
      simpl. by rewrite (proj1 (H _ _ E)).
Qed.

Lemma default_fps_idem p : default_fps (default_fps p) = default_fps p.
Proof. unfold default_fps. destruct (gp_FPS p =? 0) eqn:E; simpl; [done|by rewrite E]. Qed.
Lemma default_fps_fix p : default_fps p = p ↔ gp_FPS p ≠ 0.
Proof.
  unfold default_fps. destruct (Z.eqb_spec (gp_FPS p) 0) as [E|E]; [|done].
  split; [|done]. intros H%(f_equal gp_FPS). simpl in H. lia.
Qed.
Lemma fix_1104_fps p : default_fps (fix_1104 p) = fix_1104 (default_fps p).
Proof.
  unfold default_fps, fix_1104.
  destruct (gp_FPS p =? 0) eqn:E1, (gp_Dimensions p !! "21:9" ≟ Some (mkDimension 1104 480)) eqn:E2;
    simpl; by rewrite ?E1, ?E2.
Qed.
Lemma fix_1104_idem p : fix_1104 (fix_1104 p) = fix_1104 p.
Proof.
  unfold fix_1104 at 2 3. destruct (_ ≟ _) eqn:E; unfold fix_1104; [|by rewrite E].
  simpl. by rewrite lookup_insert_eq.
Qed.
Lemma fix_1080_idem d : fix_1080 (fix_1080 d) = fix_1080 d.
Proof.
  unfold fix_1080. destruct d as [w h]; simpl.
  destruct (w =? 1080) eqn:E1, (h =? 1080) eqn:E2; simpl; by rewrite ?E1, ?E2.
Qed.

Lemma base_migrated (profiles : gmap string GenerationProfile) :
  map_Forall migrated (alter (λ p, p <| gp_Dimensions := fix_1080 <$> gp_Dimensions p |>) "2K"
    (alter fix_1104 "768P" (default_fps <$> profiles))).
Proof.
  intros k p. destruct (decide (k = "2K")) as [->|H2].
  - rewrite lookup_alter_eq, lookup_alter_ne, lookup_fmap by done.
    destruct (profiles !! "2K") as [q|]; [|done]. simpl. intros [= <-]. split_and!; [|done|].
    + apply default_fps_fix. simpl. by apply default_fps_fix, default_fps_idem.
    + intros _. simpl. rewrite <-map_fmap_compose. apply map_fmap_ext. intros ? d _. apply fix_1080_idem.
  - rewrite lookup_alter_ne by done. destruct (decide (k = "768P")) as [->|H7].
    + rewrite lookup_alter_eq, lookup_fmap. destruct (profiles !! "768P") as [q|]; [|done].
      simpl. intros [= <-]. split_and!; [|intros _; apply fix_1104_idem|done].
      by rewrite fix_1104_fps, default_fps_idem.
    + rewrite lookup_alter_ne, lookup_fmap by done. destruct (profiles !! k) as [q|]; [|done].
      simpl. intros [= <-]. split_and!; [apply default_fps_idem|done..].
Qed.

Lemma split_migrated profiles : map_Forall migrated profiles → map_Forall migrated (split_768P profiles).
Proof.
  intros H. unfold split_768P. destruct (profiles !! "480P") eqn:E4; [done|].
  destruct (profiles !! "768P") as [p|] eqn:E7; [|done]. destruct (dimensionsEqual _ _); [|done].
  destruct (H _ _ E7) as (Hf & _). apply map_Forall_insert_2; [|apply map_Forall_insert_2; [by split_and!|done]].
  split_and!; [|done..]. apply default_fps_fix. simpl. by apply default_fps_fix.
Qed.

Lemma split_idem profiles : split_768P (split_768P profiles) = split_768P profiles.
Proof.
  unfold split_768P at 2 3. destruct (profiles !! "480P") eqn:E4; [unfold split_768P; by rewrite E4|].
  destruct (profiles !! "768P") as [p|] eqn:E7; [|unfold split_768P; by rewrite E4, E7].
  destruct (dimensionsEqual _ _) eqn:Ed; unfold split_768P; [|by rewrite E4, E7, Ed].
  by rewrite lookup_insert_ne, lookup_insert_eq.
Qed.

(** Migrating the generation profiles of an old file a second time changes
    nothing: the steps do not undo or repeat one another. *)
Lemma migrate_idempotent profiles :
  migrateLegacyGenerationProfiles (migrateLegacyGenerationProfiles profiles)
  = migrateLegacyGenerationProfiles profiles.
Proof.
  rewrite migrated_fix; [apply split_idem|]. apply split_migrated, base_migrated.
Qed.
