(* ===== verification/NodeAPI.v ===== *)
(** * The client of an H3 node (internal/upstream/nodeapi)

    Every call is one HTTP request to the node; an answer is decoded only if it
    is not longer than a limit.  The client is built on the service URL of the
    node and follows no redirect. *)

From S2P Require Import Prelude Domain Tx Database Sql Workers GoStrings GoFloat GoNet GoHttp Catalog Paging TaskRouting Callbacks Queue Stages Artifacts Remote Tasks Official Delivery Nodes Config.

(** ** Types (types.go) *)

Definition ProtocolVersion : string := "h3-node-v1".

Record HealthRuntime := mkRuntime {
  hr_QueueRunning : option Z;
  hr_QueuePending : option Z;
  hr_MemoryTotalBytes : option Z;
  hr_MemoryFreeBytes : option Z;
  hr_VRAMTotalBytes : option Z;
  hr_VRAMFreeBytes : option Z;
  hr_CPUPercent : option float64;
  hr_GPUPercent : option float64
}.
Record Health := mkHealth {
  ht_Status : string;
  ht_ProtocolVersion : string;
  ht_Runtime : option HealthRuntime
}.
Record InputArtifact := mkInputArtifact { ia_ArtifactID : string; ia_Role : string }.
Record ExpectedMedia := mkExpected {
  em_FPSMultiplier : option Z;
  em_PreserveTimeline : bool;
  em_PreserveAudio : bool
}.
(** [Parameters] is a raw JSON text, empty when it is absent. *)
Record ExecutionRequest := mkExecutionRequest {
  er_OperationID : string;
  er_ExternalTaskID : string;
  er_StageID : string;
  er_StageType : string;
  er_InputArtifacts : list InputArtifact;
  er_Parameters : string;
  er_ExpectedMedia : ExpectedMedia
}.
#[export] Instance ExecutionRequest_eta : Eta ExecutionRequest := λ r,
  mkExecutionRequest (er_OperationID r) (er_ExternalTaskID r) (er_StageID r) (er_StageType r)
    (er_InputArtifacts r) (er_Parameters r) (er_ExpectedMedia r).
Record ExecutionReference := mkReference {
  ef_ExecutionID : string;
  ef_Status : string;
  ef_OperationID : string
}.
Record NodeError := mkNodeError { nx_Code : string; nx_Message : string; nx_Retryable : bool }.
Record Execution := mkExecution {
  ex_ExecutionID : string;
  ex_OperationID : string;
  ex_Status : string;
  ex_ResultArtifactID : string;
  ex_Error : option NodeError
}.
(** [MediaManifest] is a raw JSON text. *)
Record Artifact := mkNodeArtifact {
  na_ArtifactID : string;
  na_Kind : string;
  na_SizeBytes : Z;
  na_SHA256 : string;
  na_MediaManifest : string;
  na_State : string
}.
(** [ArtifactContent], its body with what reading it yields. *)
Record ArtifactContent := mkContent {
  ac_StatusCode : Z;
  ac_ContentLength : Z;
  ac_ContentRange : string;
  ac_ContentType : string;
  ac_ETag : string
}.
Record ImportArtifactRequest := mkImport {
  im_OperationID : string;
  im_SourceArtifactID : string;
  im_ExternalTaskID : string;
  im_ExpectedSize : Z;
  im_ExpectedSHA256 : string;
  im_Kind : string;
  im_Filename : string
}.

(** ** Errors *)

Record NodeHTTPError := mkNodeHTTP { nh_StatusCode : Z; nh_Code : string; nh_Message : string }.
(** What a call of the client fails with; [detail] is the text of the cause. *)
Inductive node_error :=
  | NodeHTTP (h : NodeHTTPError)
  | NodeEncode                     (** json.Marshal *)
  | NodeBadRequest                 (** http.NewRequestWithContext *)
  | NodeTransport (detail : string)
  | NodeRead (detail : string)
  | NodeTooLarge
  | NodeUnknownField
  | NodeDecode
  | NodeIncompatible (version : string).

(** [errors.As(err,*HTTPError)] *)
Definition as_HTTPError (err : node_error) : option NodeHTTPError :=
  match err with NodeHTTP h => Some h | _ => None end.

(** ** Calls *)

(** A request to a node, and one whose body streams a content: how many bytes
    of the content were read by then and their SHA-256. *)
Inductive NodeE : Type → Type :=
  | NodeDo (nodeID : string) (r : http_request) : NodeE (string + http_response)
  | NodeStream (nodeID : string) (r : http_request) : NodeE ((string + http_response) * (Z * string)).

(** ** The client (client.go) *)

Record Client := mkClient {
  cl_NodeID : string;      (** the node it was built for *)
  cl_baseURL : URL;
  cl_apiKey : string;
  cl_maxBody : Z
}.

Definition NewClient (nodeID : string) (baseURL : URL) (apiKey : string) (maxBody : Z) : Client :=
  mkClient nodeID (baseURL <| url_RawQuery := "" |> <| url_Fragment := "" |>) apiKey
    (if maxBody <=? 0 then 2 ^ 20 else maxBody).

(** What a JSON decoder says: an unknown field, another error, or a value. *)
Inductive json_failure := UnknownField | BadJson.

Section client.
(** [URL.EscapedPath], [URL.String], [http.NewRequest] on a URL, and JSON. *)
Context (escaped_path : string → string → string) (url_String : URL → string).
Context (request_ok : string → bool).
Context (request_json : ExecutionRequest → option string).
Context (decode_health : string → json_failure + Health).
(** The object of capabilities, and the protocol version it has when it is read
    again as [Capabilities]. *)
Context (decode_raw : string → json_failure + list (string * any)).
Context (capabilities_version : list (string * any) → option string).
Context (decode_reference : string → json_failure + ExecutionReference).
Context (decode_execution : string → json_failure + Execution).
Context (decode_artifact : string → json_failure + Artifact).
Context (decode_envelope : string → option (string * string)).
Context (c : Client).

Definition endpoint (parts : list string) : string :=
  let u := (cl_baseURL c) <| url_RawPath := "" |> <| url_RawQuery := "" |> <| url_Fragment := "" |> in
  url_String (set_Path escaped_path u (path_Join (url_Path (cl_baseURL c) :: parts))).

Definition newRequest (method : string) (parts : list string) (requestID idempotencyKey : string)
    (body : http_body) (contentType : string) : node_error + http_request :=
  if request_ok (endpoint parts)
  then inr (mkHttpRequest method (endpoint parts) (String.append "Bearer " (cl_apiKey c))
              (match body with NoBody => "" | _ => contentType end) requestID idempotencyKey "" body)
  else inl NodeBadRequest.

(** The first [maxBody + 1] bytes of the body. *)
Definition read_limited (r : http_response) : node_error + string :=
  if cl_maxBody c <? len (hp_Body r) then inl NodeTooLarge
  else match hp_Failure r with
       | Some detail => inl (NodeRead detail)
       | None => inr (hp_Body r)
       end.

Definition decodeResponse {A} (zero : A) (decode : string → json_failure + A) (r : http_response)
    : node_error + A :=
  data ← read_limited r;
  if TrimSpace data ≟ "" then mret zero
  else match decode data with
       | inl UnknownField => inl NodeUnknownField
       | inl BadJson => inl NodeDecode
       | inr a => inr a
       end.

Definition responseError (r : http_response) : node_error :=
  match read_limited r with
  | inl err => err
  | inr data =>
      match decode_envelope data with
      | Some (code, message) =>
          if code ≟ "" then NodeHTTP (mkNodeHTTP (hp_StatusCode r) "" "")
          else NodeHTTP (mkNodeHTTP (hp_StatusCode r) code message)
      | None => NodeHTTP (mkNodeHTTP (hp_StatusCode r) "" "")
      end
  end.

Definition is_success (r : http_response) : bool :=
  (200 <=? hp_StatusCode r) && (hp_StatusCode r <? 300).

(** What a call makes of the answer. *)
Definition conclude {A} (zero : A) (decode : string → json_failure + A) (answer : string + http_response)
    : node_error + A :=
  match answer with
  | inl detail => inl (NodeTransport detail)
  | inr r => if is_success r then decodeResponse zero decode r else inl (responseError r)
  end.

Definition request {A} (method : string) (parts : list string) (requestID idempotencyKey : string)
    (body : http_body) (zero : A) (decode : string → json_failure + A) : Prog NodeE (node_error + A) :=
  match newRequest method parts requestID idempotencyKey body "application/json" with
  | inl err => mret (inl err)
  | inr r =>
      answer ← call (NodeDo (cl_NodeID c) r);
      mret (conclude zero decode answer)
  end.

Definition zero_reference : ExecutionReference := mkReference "" "" "".
Definition zero_artifact : Artifact := mkNodeArtifact "" "" 0 "" "" "".

Definition GetHealth (requestID : string) : Prog NodeE (node_error + Health) :=
  try! health ← request "GET" ["internal"; "v1"; "health"] requestID "" NoBody
                  (mkHealth "" "" None) decode_health;
  if ht_ProtocolVersion health ≟ ProtocolVersion then mret (inr health)
  else mret (inl (NodeIncompatible (ht_ProtocolVersion health))).

(** Of [Capabilities] only [Raw] is used. *)
Definition GetCapabilities (requestID : string) : Prog NodeE (node_error + list (string * any)) :=
  try! raw ← request "GET" ["internal"; "v1"; "capabilities"] requestID "" NoBody [] decode_raw;
  mret match capabilities_version raw with
       | None => inl NodeDecode
       | Some version => if version ≟ ProtocolVersion then inr raw else inl (NodeIncompatible version)
       end.

Definition CreateExecution (requestID : string) (input : ExecutionRequest)
    : Prog NodeE (node_error + ExecutionReference) :=
  match request_json input with
  | None => mret (inl NodeEncode)
  | Some text =>
      request "POST" ["internal"; "v1"; "executions"] requestID (er_OperationID input)
        (JsonBody text) zero_reference decode_reference
  end.

Definition GetExecution (requestID executionID : string) : Prog NodeE (node_error + Execution) :=
  request "GET" ["internal"; "v1"; "executions"; executionID] requestID "" NoBody
    (mkExecution "" "" "" "" None) decode_execution.

Definition CancelExecution (requestID executionID operationID : string)
    : Prog NodeE (node_error + ExecutionReference) :=
  request "POST" ["internal"; "v1"; "executions"; executionID; "cancel"] requestID operationID NoBody
    zero_reference decode_reference.

Definition GetNodeArtifact (requestID artifactID : string) : Prog NodeE (node_error + Artifact) :=
  request "GET" ["internal"; "v1"; "artifacts"; artifactID] requestID "" NoBody
    zero_artifact decode_artifact.

Definition GetArtifactContent (requestID artifactID rangeHeader : string)
    : Prog NodeE (node_error + ArtifactContent) :=
  match newRequest "GET" ["internal"; "v1"; "artifacts"; artifactID; "content"] requestID "" NoBody "" with
  | inl err => mret (inl err)
  | inr r =>
      answer ← call (NodeDo (cl_NodeID c)
        (mkHttpRequest (hq_Method r) (hq_URL r) (hq_Authorization r) (hq_ContentType r)
           (hq_RequestID r) (hq_IdempotencyKey r) rangeHeader (hq_Body r)));
      mret match answer with
           | inl detail => inl (NodeTransport detail)
           | inr p =>
               if hp_StatusCode p ∈? [200; 206]
               then inr (mkContent (hp_StatusCode p) (hp_ContentLength p) (hp_ContentRange p)
                           (hp_ContentType p) (hp_ETag p))
               else inl (responseError p)
           end
  end.

(** [writeImportMultipart] *)
Definition import_fields (i : ImportArtifactRequest) : list (string * string) :=
  List.filter (λ f, negb (f.2 ≟ ""))
    [("operation_id", im_OperationID i); ("source_artifact_id", im_SourceArtifactID i);
     ("expected_size", Itoa (im_ExpectedSize i)); ("expected_sha256", im_ExpectedSHA256 i);
     ("kind", im_Kind i); ("external_task_id", im_ExternalTaskID i)].
(** [path.Base] *)
Definition path_Base (path : string) : string :=
  if path ≟ "" then "."
  else let p := TrimRight_slash path in
       if p ≟ "" then "/" else List.last (split_byte slash p) "".
Definition import_filename (i : ImportArtifactRequest) : string :=
  let name := path_Base (im_Filename i) in
  if name ∈? ["."; "/"; ""] then "artifact.bin" else name.

(** The content is given; besides the result, what was read of it. *)
Definition ImportArtifact (requestID : string) (input : ImportArtifactRequest)
    : Prog NodeE ((node_error + Artifact) * (Z * string)) :=
  match newRequest "POST" ["internal"; "v1"; "artifacts"; "import"] requestID (im_OperationID input)
          (MultipartBody (import_fields input) (import_filename input)) "multipart/form-data" with
  | inl err => mret (inl err, (0, ""))
  | inr r =>
      answer ← call (NodeStream (cl_NodeID c) r);
      mret (conclude zero_artifact decode_artifact answer.1, answer.2)
  end.
End client.

(** ** What a call comes to *)

Section facts.
Context (decode_envelope : string → option (string * string)).
#[local] Abbreviation conclude := (conclude decode_envelope).

(** An answer that is not a success is never taken for a result, and an error
    with a status carries that of the answer. *)
Lemma conclude_success {A} c (zero : A) decode answer a :
  conclude c zero decode answer = inr a →
  ∃ r, answer = inr r ∧ is_success r = true ∧ len (hp_Body r) ≤ cl_maxBody c ∧
    (a = zero ∨ decode (hp_Body r) = inr a).
Proof.
  unfold NodeAPI.conclude. destruct answer as [|r]; [done|]. destruct (is_success r) eqn:Es; [|done].
  unfold decodeResponse, read_limited. destruct (_ <? _) eqn:El; [done|]. apply Z.ltb_ge in El.
  destruct (hp_Failure r); [done|]. simpl. intros H. exists r. split_and!; [done..|].
  destruct (_ ≟ ""); [left; by injection H|]. destruct (decode _) as [[]|]; [done..|].
  right. injection H as ->. done.
Qed.

Lemma conclude_status {A} c (zero : A) decode answer h :
  conclude c zero decode answer = inl (NodeHTTP h) →
  ∃ r, answer = inr r ∧ is_success r = false ∧ nh_StatusCode h = hp_StatusCode r.
Proof.
  unfold NodeAPI.conclude. destruct answer as [|r]; [done|]. destruct (is_success r) eqn:Es.
  - unfold decodeResponse, read_limited. repeat case_match; simplify_eq/=; repeat case_match; done.
  - intros [= H]. exists r. split_and!; [done..|]. unfold responseError, read_limited in H.
    repeat case_match; simplify_eq/=; done.
Qed.
End facts.
