(* ===== verification/ArtifactService.v ===== *)
(** * The artifact service (internal/artifact)

    Signed download URLs on the node that has the video, downloads through the
    proxy with their limits, and the migration of an artifact from one node to
    another (service.go); and the test whether a historical result URL may be
    shown (legacy_url.go). *)

From stdpp Require Import gmap strings relations.
From S2P Require Import Prelude Domain Tx Database Sql Workers GoStrings GoFloat GoNet GoHttp Netguard Catalog Paging TaskRouting Callbacks Queue Stages Artifacts Remote Tasks Official Delivery Nodes Config NodeAPI.

(** ** Errors *)

Inductive artifact_error :=
  | ErrNotFound | ErrUnauthorized | ErrExpired | ErrUnavailable | ErrIntegrity | ErrInvalidRange
  | ErrBusy
  | ArtifactStore (err : error)          (** an error of the store, as it is *)
  | ArtifactContext
  | ArtifactText (message : string).

(** ** Checks on an answer of a node *)

Definition quote : Ascii.ascii := Ascii.ascii_of_nat 34.
(** [strings.Trim] with a cutset of one byte. *)
Definition trim_byte (b : Ascii.ascii) (s : string) : string :=
  String.string_of_list_ascii
    (rev (drop_while (λ c, c ≟ b) (rev (drop_while (λ c, c ≟ b) (String.list_ascii_of_string s))))).

Definition validETag (etag digest : string) : bool :=
  if (etag ≟ "") || (digest ≟ "") then false
  else trim_byte quote (TrimPrefix etag "W/") ≟ digest.

(** A range header: the first byte, and the last one if it is given. *)
Definition requested_range (requested : string) (total : Z) : option (Z * Z) :=
  let '(startText, endText, found) := Cut (TrimPrefix requested "bytes=") dash in
  if negb found || (startText ≟ "") || ContainsByte endText (Ascii.ascii_of_nat 44) then None
  else
    start ← ParseInt64 startText;
    if endText ≟ "" then Some (start, wrap64 (total - 1))
    else last ← ParseInt64 endText; Some (start, last).

(** [Content-Range: bytes first-last/total] *)
Definition content_range (value : string) : option (Z * Z * Z) :=
  if negb (HasPrefix value "bytes ") then None
  else
    let '(span, totalText, ok1) := Cut (TrimPrefix value "bytes ") slash in
    if negb ok1 then None
    else
      let '(startText, endText, ok2) := Cut span dash in
      if negb ok2 then None
      else
        first ← ParseInt64 startText;
        last ← ParseInt64 endText;
        total ← ParseInt64 totalText;
        Some (first, last, total).

Definition validContentRange (content : ArtifactContent) (requested : string) (total : Z) : bool :=
  if requested ≟ ""
  then (ac_StatusCode content =? 200) && (ac_ContentLength content =? total)
       && (ac_ContentRange content ≟ "")
  else if negb (ac_StatusCode content =? 206) then false
  else match content_range (ac_ContentRange content) with
       | None => false
       | Some (first, last, declared) =>
           if (first <? 0) || (last <? first) || negb (declared =? total)
              || negb (ac_ContentLength content =? wrap64 (last - first + 1))
           then false
           else match requested_range requested total with
                | None => false
                | Some (start, end_) => (start =? first) && (end_ =? last)
                end
       end.

Definition safeContentType (value : string) : string :=
  let value := ToLower (TrimSpace (let '(before, _, _) := Cut value (Ascii.ascii_of_nat 59) in before)) in
  if value ∈? ["video/mp4"; "video/webm"; "video/quicktime"] then value else "application/octet-stream".

Definition nodeKind (kind : string) : string :=
  if kind ∈? ["final_video"; "intermediate_video"; "test_output"] then "video"
  else if kind ≟ "audio_source" then "audio"
  else if kind ≟ "media_manifest" then "manifest"
  else kind.

Definition ParseExpires (value : string) : artifact_error + Z :=
  match ParseInt64 value with
  | Some parsed => if parsed <=? 0 then inl (ArtifactText "expires 无效") else inr parsed
  | None => inl (ArtifactText "expires 无效")
  end.

(** ** Historical result URLs (legacy_url.go) *)

Fixpoint allDigitsInBase (value : string) (base : Z) : bool :=
  match value with
  | EmptyString => true
  | String c value =>
      ((in_range 48 57 (byte_of c) && (byte_of c - 48 <? base))
       || ((base =? 16) && in_range 97 102 (byte_of c)))
      && allDigitsInBase value base
  end.

Definition number_part (part : string) : bool :=
  if part ≟ "" then false
  else
    let '(digits, base) :=
      if (2 <? len part) && HasPrefix part "0x" then (String.substring 2 (String.length part) part, 16)
      else if (1 <? len part) && HasPrefix part "0" then (String.substring 1 (String.length part) part, 8)
      else (part, 10) in
    negb (digits ≟ "") && allDigitsInBase digits base.

Definition looksLikeIPv4NumberHost (hostname : string) : bool :=
  let parts := split_byte dot hostname in
  if (length parts <? 1)%nat || (4 <? length parts)%nat then false else forallb number_part parts.

(** ** Limits on concurrent downloads *)

(** [keyedLimiter.active] *)
Abbreviation Active := (gmap string Z).
Definition active_of (l : Active) (key : string) : Z := default 0 (l !! key).

Definition acquire (limit : Z) (key : string) (l : Active) : bool * Active :=
  if limit <=? active_of l key then (false, l) else (true, <[key := active_of l key + 1]> l).
(** The function that [acquire] returns. *)
Definition release (key : string) (l : Active) : Active :=
  let n := active_of l key - 1 in
  if n =? 0 then delete key l else <[key := n]> l.

(** ** The service *)

Record Authorization := mkAuthorization {
  au_BearerOwner : string;
  au_Expires : Z;
  au_Signature : string;
  au_Method : string
}.
Record MigrationRequest := mkMigration {
  mr_OperationID : string;
  mr_ArtifactID : string;
  mr_SourceNodeID : string;
  mr_TargetNodeID : string;
  mr_TargetLocationID : string;
  mr_Filename : string
}.
Record Content := mkServiceContent {
  ct_StatusCode : Z;
  ct_ContentLength : Z;
  ct_ContentRange : string;
  ct_ContentType : string;
  ct_ETag : string;
  ct_ArtifactID : string;
  ct_release : string * string   (** the owner and the node whose slots its body holds *)
}.
Record Service := mkService {
  as_signingKey : string;
  as_ttl : Z;
  as_maxJSONBody : Z
}.

Definition NewService (signingKey : string) (ttl maxJSONBody : Z) : artifact_error + Service :=
  if len signingKey <? 32 then inl (ArtifactText "产物下载签名密钥至少需要 32 字节")
  else inr (mkService signingKey (if ttl <=? 0 then 15 * 60 * Second else ttl)
              (if maxJSONBody <=? 0 then 2 ^ 20 else maxJSONBody)).

(** The interactions: requests to nodes, and the two limiters, shared by all
    downloads. *)
Inductive limiter := OwnerLimiter | NodeLimiter.
#[export] Instance limiter_eq_dec : EqDecision limiter.
Proof. solve_decision. Defined.
Inductive ArtifactE : Type → Type :=
  | ArtifactNode {X} (c : NodeE X) : ArtifactE X
  | Acquire (l : limiter) (key : string) : ArtifactE bool
  | Release (l : limiter) (key : string) : ArtifactE unit.

Definition LF : string := String (Ascii.ascii_of_nat 10) EmptyString.

Section service.
Context (url_Parse : string → option URL) (escaped_path : string → string → string).
Context (url_String : URL → string) (EqualFold : string → string → bool).
(** [url.PathEscape], [url.QueryEscape], HMAC-SHA256 of a text under a key,
    [base64.RawURLEncoding] and the secret box on the key of a node. *)
Context (PathEscape QueryEscape : string → string).
Context (hmac : string → string → string) (RawURLEncoding : string → string).
Context (Open_key : ModelServiceNode → option string).
(** [json.Marshal] of what [json.Unmarshal] reads. *)
Context (canonical : string → option string).
Context (request_ok : string → bool).
Context (decode_artifact : string → json_failure + Artifact).
Context (decode_envelope : string → option (string * string)).
Context (s : Service).

Definition equalJSON (left right : string) : bool :=
  if (left ≟ "") || (right ≟ "") || (right ≟ "null") then false
  else match canonical left, canonical right with
       | Some l, Some r => l ≟ r
       | _, _ => false
       end.

Definition artifactMatches (logical : TaskArtifact) (candidate : Artifact) : bool :=
  if negb (na_State candidate ≟ "active") || negb (na_SizeBytes candidate =? ta_size_bytes logical)
     || negb (na_SHA256 candidate ≟ coalesce_str (ta_sha256 logical))
     || negb (nodeKind (ta_kind logical) ≟ na_Kind candidate)
  then false
  else if negb (na_Kind candidate ≟ "video") then true
  else equalJSON (coalesce_str (ta_media_json logical)) (na_MediaManifest candidate).

Definition LegacyPublicURL (value : string) : option string :=
  if (value ≟ "") || negb (TrimSpace value ≟ value) then None
  else
  match url_Parse value with
  | None => None
  | Some u =>
      if negb (url_Opaque u ≟ "") || (url_Host u ≟ "") || (url_Hostname u ≟ "") || url_User u
         || negb (url_Fragment u ≟ "")
      then None
      else if negb (EqualFold (url_Scheme u) "http") && negb (EqualFold (url_Scheme u) "https") then None
      else
      let hostname := ToLower (TrimSuffix (url_Hostname u) ".") in
      match ParseAddr hostname with
      | Some a => if IsProtectedAddress (Unmap a) then None else Some value
      | None =>
          if (hostname ≟ "localhost") || HasSuffix hostname ".localhost" || HasSuffix hostname ".local"
             || negb (ContainsByte hostname dot) || looksLikeIPv4NumberHost hostname
          then None else Some value
      end
  end.

(** *** Signed URLs *)

Definition nodeDownloadSignature (apiKey artifactID : string) (expires : Z) : string :=
  RawURLEncoding (hmac (hmac apiKey "minimax-h3-node-artifact-download-v1")
    (String.concat LF ["v1"; "GET"; artifactID; Itoa expires])).

Definition signature (method artifactID ownerID : string) (expires : Z) : string :=
  RawURLEncoding (hmac (as_signingKey s) (String.concat LF ["v1"; method; artifactID; ownerID; Itoa expires])).

Definition parseNodePublicBaseURL (value : string) : option URL :=
  match url_Parse value with
  | None => None
  | Some base =>
      if (url_Host base ≟ "") || negb (url_Scheme base ∈? ["http"; "https"]) || url_User base
         || negb (url_RawQuery base ≟ "") || negb (url_Fragment base ≟ "")
         || negb (trim_byte slash (url_EscapedPath base) ≟ "")
      then None
      else Some (base <| url_Path := "" |> <| url_RawPath := "" |> <| url_EscapedPath := escaped_path "" "" |>)
  end.

Definition validateAccess (now : Z) (artifact : TaskArtifact) (task : Task) : artifact_error + unit :=
  if negb (vt_status task ≟ StatusSucceeded) || negb (coalesce_int (vt_deleted_at task) =? 0)
     || negb (ta_state artifact ≟ "active") || negb (ta_kind artifact ≟ "final_video")
  then inl ErrNotFound
  else if (0 <? ta_expires_at artifact) && (ta_expires_at artifact <=? now) then inl ErrExpired
  else inr tt.

Definition public_path (id : string) : string :=
  String.concat "" ["/public/v1/artifacts/"; id; "/content"].

Definition signed_url (base : URL) (apiKey nodeArtifactID : string) (expires : Z) : string :=
  let path := public_path nodeArtifactID in
  let raw := public_path (PathEscape nodeArtifactID) in
  url_String (base <| url_Path := path |> <| url_RawPath := raw |>
    <| url_EscapedPath := escaped_path path raw |>
    <| url_RawQuery := String.concat "" ["expires="; QueryEscape (Itoa expires); "&signature=";
         QueryEscape (nodeDownloadSignature apiKey nodeArtifactID expires)] |>).

(** [GetArtifactAccess], with the errors its callers make of it. *)
Definition access (artifactID : string)
    : Prog ArtifactE (artifact_error + (TaskArtifact * ArtifactLocation * Task)) :=
  r ← store (reading (λ _, GetArtifactAccess artifactID));
  mret match r with
       | inl ErrArtifactNotFound => inl ErrNotFound
       | inl err => inl (ArtifactStore err)
       | inr a => inr a
       end.

Definition SignURL (artifactID ownerID : string) : Prog ArtifactE (artifact_error + string) :=
  if (artifactID ≟ "") || (ownerID ≟ "") then mret (inl ErrUnauthorized)
  else
  try! alt ← access artifactID;
  let '(artifact, location, task) := alt : TaskArtifact * ArtifactLocation * Task in
  if negb (vt_api_key_id (vt_request task) ≟ ownerID) then mret (inl ErrUnauthorized)
  else
  e ← environment;
  try! _ ← mret (validateAccess (nowMillis e) artifact task);
  node ← store (reading (λ _, GetModelNode (al_node_id location)));
  match node with
  | inl _ => mret (inl ErrUnavailable)
  | inr node =>
      if negb (UsesNodeAPI (node_input_of_row node)) then mret (inl ErrUnavailable)
      else
      match parseNodePublicBaseURL (mn_service_url node), Open_key node with
      | Some base, Some apiKey =>
          if apiKey ≟ "" then mret (inl ErrUnavailable)
          else
          e ← environment;
          mret (inr (signed_url base apiKey (al_node_artifact_id location)
                       ((env_now e * Millisecond + 48 * Hour) / Second)))
      | _, _ => mret (inl ErrUnavailable)
      end
  end.

(** *** Downloads *)

Definition authorize (ownerID artifactID : string) (auth : Authorization)
    : Prog ArtifactE (artifact_error + unit) :=
  if negb (au_BearerOwner auth ≟ "")
  then mret (if au_BearerOwner auth ≟ ownerID then inr tt else inl ErrUnauthorized)
  else
  let method := if au_Method auth ≟ "" then "GET" else au_Method auth in
  e1 ← environment;
  e2 ← environment;
  mret (if (au_Expires auth <=? nowUnix e1)
           || ((env_now e2 * Millisecond + (as_ttl s + 60 * Second)) / Second <? au_Expires auth)
           || negb (signature method artifactID ownerID (au_Expires auth) ≟ au_Signature auth)
        then inl ErrUnauthorized else inr tt).

Definition nodeClient (nodeID : string) : Prog ArtifactE (artifact_error + Client) :=
  node ← store (reading (λ _, GetModelNode nodeID));
  mret match node with
  | inl _ => inl ErrUnavailable
  | inr node =>
      if negb (mn_enabled node) || negb (UsesNodeAPI (node_input_of_row node)) then inl ErrUnavailable
      else
      match NormalizeModelNode url_Parse escaped_path url_String EqualFold (node_input_of_row node) with
      | inr (_, upstream) =>
          match uc_ServiceURL upstream, Open_key node with
          | Some base, Some key => inr (NewClient nodeID base key (as_maxJSONBody s))
          | _, _ => inl ErrUnavailable
          end
      | inl _ => inl ErrUnavailable
      end
  end.

Definition content_error (err : node_error) : artifact_error :=
  match as_HTTPError err with
  | Some h => if nh_StatusCode h ∈? [404; 410] then ErrExpired
              else if nh_StatusCode h =? 416 then ErrInvalidRange else ErrUnavailable
  | None => ErrUnavailable
  end.

Definition get_content (c : Client) (requestID artifactID rangeHeader : string) :
    Prog ArtifactE (node_error + ArtifactContent) :=
  translate (@ArtifactNode)
    (GetArtifactContent escaped_path url_String request_ok decode_envelope c requestID artifactID rangeHeader).

(** A content that is returned still holds both slots; closing its body
    releases them. *)
Definition Open (requestID artifactID rangeHeader : string) (auth : Authorization)
    : Prog ArtifactE (artifact_error + Content) :=
  try! alt ← access artifactID;
  let '(artifact, location, task) := alt : TaskArtifact * ArtifactLocation * Task in
  let owner := vt_api_key_id (vt_request task) in
  try! _ ← authorize owner artifactID auth;
  e ← environment;
  try! _ ← mret (validateAccess (nowMillis e) artifact task);
  ok ← call (Acquire OwnerLimiter owner);
  if negb ok then mret (inl ErrBusy)
  else
  ok ← call (Acquire NodeLimiter (al_node_id location));
  if negb ok then call (Release OwnerLimiter owner) ;; mret (inl ErrBusy)
  else
  let fail err := call (Release NodeLimiter (al_node_id location)) ;; call (Release OwnerLimiter owner) ;;
                  mret (inl err) in
  client ← nodeClient (al_node_id location);
  match client with
  | inl _ => fail ErrUnavailable
  | inr client =>
      result ← get_content client requestID (al_node_artifact_id location) rangeHeader;
      match result with
      | inl err => fail (content_error err)
      | inr content =>
          if negb (validETag (ac_ETag content) (coalesce_str (ta_sha256 artifact)))
             || negb (validContentRange content rangeHeader (ta_size_bytes artifact))
          then fail ErrIntegrity
          else mret (inr (mkServiceContent (ac_StatusCode content) (ac_ContentLength content)
                 (ac_ContentRange content) (safeContentType (ac_ContentType content))
                 (ac_ETag content) artifactID (owner, al_node_id location)))
      end
  end.

(** The first [releaseReadCloser.Close]. *)
Definition Close (content : Content) : Prog ArtifactE unit :=
  call (Release NodeLimiter (ct_release content).2) ;; call (Release OwnerLimiter (ct_release content).1).

(** *** Migration *)

Definition migration_valid (i : MigrationRequest) : bool :=
  negb ((mr_OperationID i ≟ "") || (mr_ArtifactID i ≟ "") || (mr_SourceNodeID i ≟ "")
        || (mr_TargetNodeID i ≟ "") || (mr_TargetLocationID i ≟ "")
        || (mr_SourceNodeID i ≟ mr_TargetNodeID i)).

Definition or_error {A} (err : artifact_error) (r : error + A) : artifact_error + A :=
  match r with inl _ => inl err | inr a => inr a end.
Definition of_store {A} (r : error + A) : artifact_error + A :=
  match r with inl err => inl (ArtifactStore err) | inr a => inr a end.

(** The location the artifact is imported into: the one that is there, or a new
    one in state importing. *)
Definition target_location (i : MigrationRequest) (logical : TaskArtifact)
    : Prog ArtifactE (artifact_error + ArtifactLocation) :=
  let digest := coalesce_str (ta_sha256 logical) in
  existing ← store (reading (λ _, GetArtifactLocation (mr_TargetLocationID i)));
  match existing with
  | inr l =>
      if negb (al_artifact_id l ≟ mr_ArtifactID i) || negb (al_node_id l ≟ mr_TargetNodeID i)
         || negb (al_size_bytes l =? ta_size_bytes logical) || negb (al_sha256 l ≟ digest)
      then mret (inl ErrIntegrity) else mret (inr l)
  | inl ErrArtifactNotFound =>
      let l := mkLocation (mr_TargetLocationID i) (mr_ArtifactID i) (mr_TargetNodeID i)
                 (String.append "importing:" (mr_TargetLocationID i)) None "importing" false
                 (ta_size_bytes logical) digest 0 None None in
      r ← store (λ e, CreateArtifactLocation e l);
      mret (match r with inl err => inl (ArtifactStore err) | inr _ => inr l end)
  | inl err => mret (inl (ArtifactStore err))
  end.

(** The transfer: from the body of the source into an import on the target. *)
Definition transfer (requestID : string) (i : MigrationRequest) (logical : TaskArtifact)
    (source location : ArtifactLocation) (sourceClient targetClient : Client)
    : Prog ArtifactE (artifact_error + Artifact) :=
  let size := ta_size_bytes logical in
  let digest := coalesce_str (ta_sha256 logical) in
  content ← get_content sourceClient requestID (al_node_artifact_id source) "";
  match content with
  | inl _ => mret (inl ErrUnavailable)
  | inr content =>
      if negb (ac_StatusCode content =? 200) || negb (ac_ContentLength content =? size)
         || negb (validETag (ac_ETag content) digest)
      then mret (inl ErrIntegrity)
      else
      imported ← translate (@ArtifactNode)
        (ImportArtifact escaped_path url_String request_ok decode_artifact decode_envelope targetClient
          requestID (mkImport (mr_OperationID i) (al_node_artifact_id source) "" size digest
                       (nodeKind (ta_kind logical)) (mr_Filename i)));
      let '(target, (counted, transferred)) := imported : (node_error + Artifact) * (Z * string) in
      mret match target with
      | inl _ => inl ErrUnavailable
      | inr target =>
          if negb (counted =? size) || negb (transferred ≟ digest) || negb (artifactMatches logical target)
          then inl ErrIntegrity
          else if (na_ArtifactID target ≟ "")
                  || (negb (al_node_artifact_id location ≟ "")
                      && negb (HasPrefix (al_node_artifact_id location) "importing:")
                      && negb (al_node_artifact_id location ≟ na_ArtifactID target))
          then inl ErrIntegrity
          else inr target
      end
  end.

(** One migration at a time in the process ([migrationMu]). *)
Definition Migrate (requestID : string) (i : MigrationRequest)
    : Prog ArtifactE (artifact_error + ArtifactLocation) :=
  stop ← stopped;
  if stop : bool then mret (inl ArtifactContext)
  else if negb (migration_valid i) then mret (inl (ArtifactText "产物迁移参数无效"))
  else
  logical ← store (reading (λ _, GetArtifact (mr_ArtifactID i)));
  try! logical ← mret (or_error ErrNotFound logical);
  let digest := coalesce_str (ta_sha256 logical) in
  if negb (ta_state logical ≟ "active") || (ta_size_bytes logical <=? 0) || (digest ≟ "")
  then mret (inl ErrNotFound)
  else
  source ← store (reading (λ _, GetActiveArtifactLocation (mr_ArtifactID i) (mr_SourceNodeID i)));
  try! source ← mret (or_error ErrIntegrity source);
  if negb (al_size_bytes source =? ta_size_bytes logical) || negb (al_sha256 source ≟ digest)
  then mret (inl ErrIntegrity)
  else
  try! sourceClient ← nodeClient (mr_SourceNodeID i);
  metadata ← translate (@ArtifactNode)
    (GetNodeArtifact escaped_path url_String request_ok decode_artifact decode_envelope sourceClient
      requestID (al_node_artifact_id source));
  if match metadata with inl _ => true | inr m => negb (artifactMatches logical m) end
  then mret (inl ErrIntegrity)
  else
  try! targetClient ← nodeClient (mr_TargetNodeID i);
  try! location ← target_location i logical;
  try! target ← transfer requestID i logical source location sourceClient targetClient;
  updated ← store (λ e, UpdateImportingArtifactLocation (al_id location) (na_ArtifactID target)
                          (ta_size_bytes logical) digest);
  try! _ ← mret (of_store updated);
  activated ← store (λ e, ActivatePrimaryArtifactLocation e (mr_ArtifactID i) (al_id location)
                            (ta_size_bytes logical) digest);
  try! _ ← mret (of_store activated);
  mret (inr (location <| al_node_artifact_id := na_ArtifactID target |> <| al_state := "active" |>
                      <| al_is_primary := true |>)).
End service.

(** ** Ranges *)

(** A range that reaches past the end of the artifact is refused if the node
    answers it as HTTP has it, with the bytes up to the end. *)
Lemma range_past_end_refused content requested total start last first last' :
  requested ≠ "" → requested_range requested total = Some (start, last) → total ≤ last →
  content_range (ac_ContentRange content) = Some (first, last', total) → last' < total →
  validContentRange content requested total = false.
Proof.
  intros Hne Hr Hlast Hc Hl. unfold validContentRange. rewrite (bool_decide_eq_false_2 _ Hne), Hr, Hc.
  destruct (negb (ac_StatusCode content =? 206)); [done|].
  destruct ((first <? 0) || _ || _ || _); [done|].
  destruct (Z.eqb_spec last last'); [lia|]. by rewrite andb_false_r.
Qed.

(** ** The slots of concurrent downloads *)

Abbreviation slot := (limiter * string)%type.

(** [slots held p Q]: whatever the answers are, the program [p], which holds the
    slots [held], releases only slots that it holds and ends in a result and
    slots that satisfy [Q]. *)
Fixpoint slots {A} (held : list slot) (p : Prog ArtifactE A) (Q : A → list slot → Prop) : Prop :=
  match p with
  | Ret a => Q a held
  | Now k => ∀ e, slots held (k e) Q
  | Ctx k => ∀ b, slots held (k b) Q
  | Store _ k => ∀ x, slots held (k x) Q
  | Call c k =>
      match c in ArtifactE X return (X → Prog ArtifactE A) → (X → list slot → Prop) → Prop with
      | ArtifactNode _ => λ k rec, ∀ x, rec x held
      | Acquire l key => λ k rec, rec false held ∧ rec true ((l, key) :: held)
      | Release l key => λ k rec, ∃ rest, held ≡ₚ (l, key) :: rest ∧ rec tt rest
      end k (λ x held, slots held (k x) Q)
  end.

Lemma slots_bind {A B} held (p : Prog ArtifactE A) (k : A → Prog ArtifactE B) Q :
  slots held p (λ a held', slots held' (k a) Q) → slots held (p ≫= k) Q.
Proof.
  unfold mbind, prog_bind. revert held. induction p as [a|f IH|f IH|X op f IH|X c f IH]; simpl; auto.
  intros held. destruct c; simpl; [auto|naive_solver|].
  intros (rest & ? & ?). exists rest. auto.
Qed.

Lemma slots_mono {A} held (p : Prog ArtifactE A) (Q Q' : A → list slot → Prop) :
  (∀ a held, Q a held → Q' a held) → slots held p Q → slots held p Q'.
Proof.
  intros HQ. revert held. induction p as [a|f IH|f IH|X op f IH|X c f IH]; simpl; auto.
  intros held. destruct c; simpl; [auto|naive_solver|]. intros (rest & ? & ?). exists rest. auto.
Qed.

Lemma slots_node {A} held (p : Prog NodeE A) (Q : A → list slot → Prop) :
  (∀ a, Q a held) → slots held (translate (@ArtifactNode) p) Q.
Proof. intros HQ. induction p as [a|f IH|f IH|X op f IH|X c f IH]; simpl; auto. Qed.

Lemma slots_ret {A} (a : A) held (Q : A → list slot → Prop) : Q a held → slots held (mret a) Q.
Proof. done. Qed.
Lemma slots_acquire l key held (Q : bool → list slot → Prop) :
  Q false held → Q true ((l, key) :: held) → slots held (call (Acquire l key)) Q.
Proof. done. Qed.
Lemma slots_release l key held rest (Q : unit → list slot → Prop) :
  held ≡ₚ (l, key) :: rest → Q tt rest → slots held (call (Release l key)) Q.
Proof. intros Hp HQ. by exists rest. Qed.

(** A download: opening, copying the body out, closing it. *)
Section downloads.
Context (url_Parse : string → option URL) (escaped_path : string → string → string).
Context (url_String : URL → string) (EqualFold : string → string → bool).
Context (hmac : string → string → string) (RawURLEncoding : string → string).
Context (Open_key : ModelServiceNode → option string).
Context (request_ok : string → bool).
Context (decode_envelope : string → option (string * string)).
Context (s : Service).
#[local] Abbreviation Open := (Open url_Parse escaped_path url_String EqualFold hmac RawURLEncoding
  Open_key request_ok decode_envelope s).

Definition download (requestID artifactID rangeHeader : string) (auth : Authorization)
    : Prog ArtifactE unit :=
  r ← Open requestID artifactID rangeHeader auth;
  match r with
  | inl _ => mret tt
  | inr content => _ ← stopped; Close content
  end.

Definition open_slots (r : artifact_error + Content) (held : list slot) : Prop :=
  match r with
  | inl _ => held = []
  | inr c => held = [(NodeLimiter, (ct_release c).2); (OwnerLimiter, (ct_release c).1)]
  end.

Lemma slots_try {E B C} held (p : Prog ArtifactE (E + B)) (k : B → Prog ArtifactE (E + C)) Q :
  slots held p (λ r held', match r with inl err => Q (inl err) held' | inr b => slots held' (k b) Q end) →
  slots held (try p k) Q.
Proof. intros H. apply slots_bind. eapply slots_mono; [|exact H]. by intros [err|b] held'. Qed.

Lemma slots_access held id Q : (∀ r, Q r held) → slots held (access id) Q.
Proof. intros H x. apply H. Qed.
Lemma slots_authorize held owner id auth Q :
  (∀ r, Q r held) → slots held (authorize hmac RawURLEncoding s owner id auth) Q.
Proof. intros H. unfold authorize. destruct (negb _); simpl; auto. Qed.
Lemma slots_nodeClient held node Q :
  (∀ r, Q r held) →
  slots held (nodeClient url_Parse escaped_path url_String EqualFold Open_key s node) Q.
Proof. intros H x. apply H. Qed.

Lemma Open_slots requestID artifactID rangeHeader auth :
  slots [] (Open requestID artifactID rangeHeader auth) open_slots.
Proof.
  unfold ArtifactService.Open. apply slots_try, slots_access. intros [err|[[artifact location] task]]; [done|].
  apply slots_try, slots_authorize. intros [err|_]; [done|]. apply slots_bind. intros e.
  apply slots_try, slots_ret. destruct (validateAccess _ _ _); [done|].
  apply slots_bind, slots_acquire; [done|]. apply slots_bind, slots_acquire.
  { apply slots_bind. by eapply slots_release. }
  cbn [negb]. set (held := [_; _]).
  assert (∀ err, slots held (call (Release NodeLimiter (al_node_id location)) ;;
    call (Release OwnerLimiter (vt_api_key_id (vt_request task))) ;; mret (inl err)) open_slots) as Hfail.
  { intros err. unfold held. do 2 (apply slots_bind; eapply slots_release; [reflexivity|]). done. }
  apply slots_bind, slots_nodeClient. intros [err|client]; [apply Hfail|].
  apply slots_bind, slots_node. intros [err|content]; [apply Hfail|].
  destruct (_ || _); [apply Hfail|]. done.
Qed.

Lemma download_slots requestID artifactID rangeHeader auth :
  slots [] (download requestID artifactID rangeHeader auth) (λ _ held, held = []).
Proof.
  apply slots_bind. eapply slots_mono; [|apply Open_slots]. intros [err|content] held ->; [done|].
  simpl. intros _. eexists. split; [reflexivity|]. eexists. split; reflexivity.
Qed.

(** Downloads that run concurrently over the two limiters. *)
Record downloads := mkDownloads {
  dl_running : list (Prog ArtifactE unit);
  dl_active : limiter → Active
}.
Definition set_active (f : limiter → Active) (l : limiter) (a : Active) (l' : limiter) : Active :=
  if l' ≟ l then a else f l'.

Lemma set_active_eq f l a : set_active f l a l = a.
Proof. unfold set_active. by rewrite bool_decide_eq_true_2. Qed.
Lemma set_active_ne f l a l' : l' ≠ l → set_active f l a l' = f l'.
Proof. intros H. unfold set_active. by rewrite bool_decide_eq_false_2. Qed.

(** One interaction of a download, whatever the store and the nodes answer. *)
Inductive advance (limit : limiter → Z) :
    Prog ArtifactE unit → (limiter → Active) → Prog ArtifactE unit → (limiter → Active) → Prop :=
  | advance_now k e f : advance limit (Now k) f (k e) f
  | advance_ctx k b f : advance limit (Ctx k) f (k b) f
  | advance_store {X} (op : Env → DB → (error + X) * DB) k x f : advance limit (Store op k) f (k x) f
  | advance_node {X} (c : NodeE X) k x f : advance limit (Call (ArtifactNode c) k) f (k x) f
  | advance_acquire l key k f ok a :
      acquire (limit l) key (f l) = (ok, a) →
      advance limit (Call (Acquire l key) k) f (k ok) (set_active f l a)
  | advance_release l key k f :
      advance limit (Call (Release l key) k) f (k tt) (set_active f l (release key (f l))).

Inductive downloading (limit : limiter → Z) : downloads → downloads → Prop :=
  | download_starts requestID artifactID rangeHeader auth ps f :
      downloading limit (mkDownloads ps f)
        (mkDownloads (download requestID artifactID rangeHeader auth :: ps) f)
  | download_advances ps1 p p' ps2 f f' :
      advance limit p f p' f' →
      downloading limit (mkDownloads (ps1 ++ p :: ps2) f) (mkDownloads (ps1 ++ p' :: ps2) f').

(** The limiters count exactly the slots that are held: [held] by one download,
    [rest] by the others. *)
Definition exact (limit : limiter → Z) (f : limiter → Active) (rest : slot → Z) (held : list slot) : Prop :=
  ∀ l key, active_of (f l) key = rest (l, key) + count_where (λ x, x ≟ (l, key)) held ∧
    active_of (f l) key ≤ Z.max 0 (limit l) ∧ f l !! key ≠ Some 0.

Lemma active_insert (a : Active) key n key' :
  active_of (<[key := n]> a) key' = if key' ≟ key then n else active_of a key'.
Proof.
  unfold active_of. destruct (decide (key' = key)) as [->|H].
  - by rewrite lookup_insert_eq, bool_decide_eq_true_2.
  - by rewrite lookup_insert_ne, bool_decide_eq_false_2 by done.
Qed.
Lemma active_release (a : Active) key key' :
  active_of (release key a) key' = if key' ≟ key then active_of a key - 1 else active_of a key'.
Proof.
  unfold release. cbv zeta. destruct (Z.eqb_spec (active_of a key - 1) 0) as [E|E]; [|apply active_insert].
  unfold active_of at 1. destruct (decide (key' = key)) as [->|H].
  - rewrite lookup_delete_eq, bool_decide_eq_true_2 by done. simpl. lia.
  - by rewrite lookup_delete_ne, bool_decide_eq_false_2 by done.
Qed.

Lemma exact_acquire limit f rest held l key a :
  (∀ x, 0 ≤ rest x) → acquire (limit l) key (f l) = (true, a) → exact limit f rest held →
  exact limit (set_active f l a) rest ((l, key) :: held).
Proof.
  unfold acquire. destruct (limit l <=? active_of (f l) key) eqn:El; [done|].
  intros Hrest [= <-] H l' key'. apply Z.leb_gt in El. rewrite count_where_cons.
  destruct (H l' key') as (H1 & H2 & H3). destruct (decide (l' = l)) as [->|Hl].
  - rewrite set_active_eq, active_insert.
    pose proof (count_where_nonneg (λ x, x ≟ (l, key)) held).
    destruct (decide (key' = key)) as [->|Hk].
    + rewrite !bool_decide_eq_true_2, lookup_insert_eq by done. specialize (Hrest (l, key)).
      split_and!; [lia|lia|]. intros [= ?]. lia.
    + rewrite !(bool_decide_eq_false_2 (_ = _)) by congruence. rewrite lookup_insert_ne by done.
      split_and!; (lia || done).
  - rewrite set_active_ne, !(bool_decide_eq_false_2 (_ = _)) by congruence. split_and!; (lia || done).
Qed.

Lemma exact_release limit f rest held l key :
  (∀ x, 0 ≤ rest x) → exact limit f rest ((l, key) :: held) →
  exact limit (set_active f l (release key (f l))) rest held.
Proof.
  intros Hrest H l' key'. destruct (H l' key') as (H1 & H2 & H3). rewrite count_where_cons in H1.
  destruct (decide (l' = l)) as [->|Hl].
  - rewrite set_active_eq, active_release.
    destruct (decide (key' = key)) as [->|Hk].
    + rewrite !bool_decide_eq_true_2 in * by done. split_and!; [lia|lia|].
      unfold release. cbv zeta. destruct (Z.eqb_spec (active_of (f l) key - 1) 0).
      * by rewrite lookup_delete_eq.
      * rewrite lookup_insert_eq. congruence.
    + rewrite (bool_decide_eq_false_2 ((l, key) = _)) in H1 by congruence.
      rewrite (bool_decide_eq_false_2 (key' = key)) by done. split_and!; [lia|done|].
      unfold release. cbv zeta. destruct (_ =? 0); [by rewrite lookup_delete_ne|by rewrite lookup_insert_ne].
  - rewrite (bool_decide_eq_false_2 ((l, key) = _)) in H1 by congruence.
    rewrite set_active_ne by done. split_and!; (lia || done).
Qed.

Lemma exact_perm limit f rest held held' : held ≡ₚ held' → exact limit f rest held → exact limit f rest held'.
Proof.
  intros Hp H l key. destruct (H l key) as (H1 & H2 & H3). split_and!; [|done..]. rewrite H1. f_equal.
  unfold count_where. f_equal. apply Permutation_length. clear -Hp.
  induction Hp; simpl; repeat case_match; eauto using Permutation.
Qed.

Lemma advance_exact limit p f p' f' rest held (Q : unit → list slot → Prop) :
  (∀ x, 0 ≤ rest x) → advance limit p f p' f' → slots held p Q → exact limit f rest held →
  ∃ held', slots held' p' Q ∧ exact limit f' rest held'.
Proof.
  intros Hrest Ha. destruct Ha as [k e f|k b f|X op k x f|X c k x f|l key k f ok a E|l key k f];
    simpl; intros Hs Hc; try (exists held; split; [apply Hs|done]; fail).
  - destruct ok.
    + exists ((l, key) :: held). split; [apply Hs|]. by apply (exact_acquire limit f).
    + exists held. split; [apply Hs|]. unfold acquire in E. destruct (_ <=? _); [|done].
      injection E as <-. intros l' key'.
      destruct (decide (l' = l)) as [->|Hl]; [rewrite set_active_eq|rewrite set_active_ne by done]; apply Hc.
  - destruct Hs as (held' & Hp & Hs). exists held'. split; [done|].
    apply exact_release; [done|]. by apply (exact_perm _ _ _ held).
Qed.

Definition counted (limit : limiter → Z) (d : downloads) : Prop :=
  ∃ helds, Forall2 (λ p held, slots held p (λ _ held', held' = [])) (dl_running d) helds ∧
    exact limit (dl_active d) (λ _, 0) (concat helds).

Lemma exact_split limit f rest held held' :
  exact limit f rest (held ++ held') ↔
  exact limit f (λ x, rest x + count_where (λ y, y ≟ x) held') held.
Proof.
  unfold exact. setoid_rewrite count_where_app. split; intros H l key;
    destruct (H l key) as (H1 & H2 & H3); cbv beta in *; split_and!; (lia || done).
Qed.

Lemma downloading_counted limit d d' : downloading limit d d' → counted limit d → counted limit d'.
Proof.
  intros Hd (helds & Hs & Hc). destruct Hd as [requestID id range auth ps f|ps1 p p' ps2 f f' Ha]; simpl in *.
  - exists ([] :: helds). split; [|done]. constructor; [apply download_slots|exact Hs].
  - apply Forall2_app_inv_l in Hs as (h1 & h2' & Hs1 & (held & h2 & Hp & Hs2 & ->)%Forall2_cons_inv_l & ->).
    assert (∀ h : list slot, concat (h1 ++ h :: h2) ≡ₚ h ++ concat (h1 ++ h2)) as Hperm.
    { intros h. rewrite !concat_app. simpl. solve_Permutation. }
    apply (exact_perm _ _ _ _ _ (Hperm held)), exact_split in Hc.
    eapply (advance_exact _ _ _ _ _ _ held) in Ha as (held' & Hp' & Hc'); [|intros x|done..].
    2: { pose proof (count_where_nonneg (λ y, y ≟ x) (concat (h1 ++ h2))). lia. }
    exists (h1 ++ held' :: h2). split; [by apply Forall2_app; [|constructor]|].
    eapply exact_perm; [symmetry; apply Hperm|]. by apply exact_split.
Qed.

(** C22: downloads through the proxy never exceed their limits and never leak a
    slot.  Whatever downloads start, interleave and fail, whatever the store and
    the nodes answer, a limiter's count for an owner or a node is never above
    the limit, and once every download has ended both maps are empty again. *)
Theorem downloads_bounded_slots limit d :
  rtc (downloading limit) (mkDownloads [] (λ _, ∅)) d →
  (∀ l key, 0 ≤ active_of (dl_active d l) key ≤ Z.max 0 (limit l)) ∧
  ((∀ p, p ∈ dl_running d → ∃ u, p = Ret u) → ∀ l, dl_active d l = ∅).
Proof.
  destruct d as [running f]. intros Hd. assert (counted limit (mkDownloads running f)) as (helds & Hs & Hc).
  { revert Hd. generalize (mkDownloads running f). apply rtc_ind_r.
    - exists []. split; [constructor|]. intros l key. unfold active_of. simpl. rewrite lookup_empty. split_and!; simpl; (done || lia).
    - intros d1 d2 _ H. by apply downloading_counted. }
  simpl in *. split.
  - intros l key. destruct (Hc l key) as (H1 & H2 & _).
    pose proof (count_where_nonneg (λ x, x ≟ (l, key)) (concat helds)). lia.
  - intros Hret l. assert (concat helds = []) as E.
    { clear Hc Hd. induction Hs as [|p held ps hs Hp _ IH]; [done|]. simpl.
      destruct (Hret p) as [u ->]; [left|]. simpl in Hp. rewrite Hp. simpl. apply IH.
      intros q Hq. apply Hret. by right. }
    apply map_empty. intros key. destruct (Hc l key) as (H1 & _ & H3). rewrite E in H1. simpl in H1.
    unfold active_of in H1. destruct (f l !! key) as [n|]; [|done]. simpl in H1.
    exfalso. apply H3. f_equal. done.
Qed.
End downloads.

(** ** Who may download *)

Section guarded.
Context (url_Parse : string → option URL) (escaped_path : string → string → string).
Context (url_String : URL → string) (EqualFold : string → string → bool).
Context (hmac : string → string → string) (RawURLEncoding : string → string).
Context (Open_key : ModelServiceNode → option string).
Context (request_ok : string → bool).
Context (decode_envelope : string → option (string * string)).
Context (s : Service).
#[local] Abbreviation Open := (Open url_Parse escaped_path url_String EqualFold hmac RawURLEncoding
  Open_key request_ok decode_envelope s).

(** The caller is the owner, or has a signature of the service for this method,
    artifact and owner that has not expired and does not expire too late. *)
Definition may_open (owner artifactID : string) (auth : Authorization) : Prop :=
  (au_BearerOwner auth ≠ "" ∧ au_BearerOwner auth = owner) ∨
  (au_BearerOwner auth = "" ∧
   au_Signature auth = signature hmac RawURLEncoding s (if au_Method auth ≟ "" then "GET" else au_Method auth)
                         artifactID owner (au_Expires auth) ∧
   ∃ e1 e2, nowUnix e1 < au_Expires auth ≤ (env_now e2 * Millisecond + (as_ttl s + 60 * Second)) / Second).

Lemma authorize_inr owner id auth db tr r db' :
  plays (authorize hmac RawURLEncoding s owner id auth) db tr r db' →
  tr = [] ∧ db' = db ∧ (r = inr tt → may_open owner id auth).
Proof.
  unfold authorize. destruct (au_BearerOwner auth ≟ "") eqn:Eb; simpl.
  - apply bool_decide_eq_true in Eb. intros (e1 & e2 & -> & -> & ->). split_and!; [done..|].
    destruct (_ || _) eqn:E; [done|]. intros _. right.
    rewrite !orb_false_iff, negb_false_iff, bool_decide_eq_true, Z.leb_gt, Z.ltb_ge in E.
    destruct E as [[? ?] ?]. split_and!; [done..|]. by exists e1, e2.
  - apply bool_decide_eq_false in Eb. intros (-> & -> & ->). split_and!; [done..|].
    destruct (_ ≟ owner) eqn:E; [|done]. apply bool_decide_eq_true in E. intros _. by left.
Qed.

Lemma access_plays id db tr r db' :
  plays (access id) db tr r db' → tr = [] ∧ db' = db ∧ ∀ alt, r = inr alt → GetArtifactAccess id db = inr alt.
Proof.
  unfold access. rewrite plays_bind. intros (tr1 & x & db1 & tr2 & Hx & (-> & -> & ->) & ->). simpl in Hx.
  destruct Hx as [(e & -> & -> & ->)|(f & Hf & -> & -> & ->)].
  - unfold reading. simpl. split_and!; [done..|]. intros alt.
    destruct (GetArtifactAccess id db) as [[]|a]; try done. by intros [= ->].
  - split_and!; [done..|]. by destruct Hf.
Qed.

Lemma nodeClient_plays node db tr r db' :
  plays (nodeClient url_Parse escaped_path url_String EqualFold Open_key s node) db tr r db' → db' = db.
Proof.
  unfold nodeClient. rewrite plays_bind. intros (tr1 & x & db1 & tr2 & Hx & (-> & -> & ->) & ->). simpl in Hx.
  by destruct Hx as [(e & -> & -> & ->)|(f & Hf & -> & -> & ->)].
Qed.

Lemma get_content_plays c rid id range db tr r db' :
  plays (get_content escaped_path url_String request_ok decode_envelope c rid id range) db tr r db' → db' = db.
Proof.
  unfold get_content, GetArtifactContent. destruct (newRequest _ _ _ _ _ _ _ _ _); simpl.
  - by intros (-> & -> & ->).
  - by intros (x & tr' & -> & -> & -> & ->).
Qed.

Lemma Open_spec rid id range auth db tr r db' :
  plays (Open rid id range auth) db tr r db' → tr ≠ [] →
  db' = db ∧ ∃ artifact location task, GetArtifactAccess id db = inr (artifact, location, task) ∧
    vt_status task = StatusSucceeded ∧ coalesce_int (vt_deleted_at task) = 0 ∧
    ta_kind artifact = "final_video" ∧ may_open (vt_api_key_id (vt_request task)) id auth ∧
    ∀ content, r = inr content →
      validETag (ct_ETag content) (coalesce_str (ta_sha256 artifact)) = true ∧
      (range = "" → ct_StatusCode content = 200 ∧ ct_ContentLength content = ta_size_bytes artifact).
Proof.
  unfold ArtifactService.Open. rewrite plays_try.
  intros [(err & (-> & _)%access_plays & ->)|(tr1 & alt & db1 & tr2 & (-> & -> & Ha)%access_plays & H & ->)]; [done|].
  destruct alt as [[artifact location] task]. specialize (Ha _ eq_refl). simpl app.
  apply plays_try in H.
  destruct H as [(err & (-> & _)%authorize_inr & ->)|(tr1 & [] & db1 & tr3 & (-> & -> & Hm)%authorize_inr & H & ->)];
    [done|]. specialize (Hm eq_refl). simpl app.
  apply plays_bind in H as (tr1 & e & db1 & tr4 & (e' & -> & -> & ->) & H & ->). simpl app.
  apply plays_try in H.
  destruct H as [(err & (_ & _ & ->) & ->)|(tr1 & [] & db1 & tr5 & (Hv & -> & ->) & H & ->)]; [done|]. simpl app.
  intros _. unfold validateAccess in Hv. destruct (_ || negb (ta_kind artifact ≟ "final_video")) eqn:Ev; [done|].
  rewrite !orb_false_iff, !negb_false_iff, !bool_decide_eq_true, Z.eqb_eq in Ev.
  destruct Ev as [[[Es Ed] _] Ek]. clear Hv.
  assert (db' = db ∧ ∀ content, r = inr content →
    validETag (ct_ETag content) (coalesce_str (ta_sha256 artifact)) = true ∧
    (range = "" → ct_StatusCode content = 200 ∧ ct_ContentLength content = ta_size_bytes artifact)) as [-> Hc].
  2: { split; [done|]. exists artifact, location, task. split_and!; done. }
  apply plays_bind in H as (t1 & ok & d1 & t2 & (x & t' & -> & <- & -> & ->) & H & ->).
  destruct ok; [|by destruct H as (-> & -> & _)]. cbn [negb] in H.
  apply plays_bind in H as (t1 & ok & d1 & t3 & (x' & t' & -> & <- & -> & ->) & H & ->).
  destruct ok; [|by destruct H as ([] & ? & -> & -> & -> & _)]. cbn [negb] in H.
  apply plays_bind in H as (? & client & ? & ? & ->%nodeClient_plays & H & ->).
  destruct client as [err|client]; [by destruct H as ([] & ? & -> & [] & ? & -> & -> & -> & ->)|].
  apply plays_bind in H as (? & content & ? & ? & ->%get_content_plays & H & ->).
  destruct content as [err|content]; [by destruct H as ([] & ? & -> & [] & ? & -> & -> & -> & ->)|].
  destruct (negb (validETag _ _) || _) eqn:Ei.
  { by destruct H as ([] & ? & -> & [] & ? & -> & -> & -> & ->). }
  destruct H as (-> & -> & ->). split; [done|]. intros c [= <-]. simpl.
  apply orb_false_iff in Ei as [Ee%negb_false_iff Er%negb_false_iff]. split; [done|].
  intros ->. unfold validContentRange in Er. simpl in Er. rewrite !andb_true_iff, !Z.eqb_eq in Er. tauto.
Qed.

(** A content that is returned has been asked for. *)
Lemma Open_calls rid id range auth db c db' : ¬ plays (Open rid id range auth) db [] (inr c) db'.
Proof.
  unfold ArtifactService.Open. rewrite plays_try. intros [(err & _ & ?)|(t1 & [[ar lo] ta] & d1 & t2 & _ & H & E)]; [done|].
  symmetry in E. apply app_nil in E as [-> ->]. apply plays_try in H as [(err & _ & ?)|(t1 & [] & d2 & t2 & _ & H & E)]; [done|].
  symmetry in E. apply app_nil in E as [-> ->]. apply plays_bind in H as (t1 & e & d3 & t2 & _ & H & E).
  symmetry in E. apply app_nil in E as [-> ->]. apply plays_try in H as [(err & _ & ?)|(t1 & [] & d4 & t2 & _ & H & E)]; [done|].
  symmetry in E. apply app_nil in E as [-> ->]. by apply plays_bind in H as (t1 & ok & d5 & t2 & (y & t' & -> & _) & _ & E).
Qed.

(** A download through the proxy reaches the limits and the node only for a
    caller who may have it, and only for a finished task.  Whenever [Open] makes
    any call at all, the artifact is the result of a task that has succeeded and
    is not deleted, and the caller is the owner or has a signature of the service
    that is in force; and when it returns a content, the entity tag is the digest
    that is recorded, and a download that asked for no range is the whole file. *)
Theorem Open_guarded rid id range auth db tr r db' :
  plays (Open rid id range auth) db tr r db' → tr ≠ [] →
  db' = db ∧ ∃ artifact location task, GetArtifactAccess id db = inr (artifact, location, task) ∧
    vt_status task = StatusSucceeded ∧ coalesce_int (vt_deleted_at task) = 0 ∧
    ta_kind artifact = "final_video" ∧ may_open (vt_api_key_id (vt_request task)) id auth ∧
    ∀ content, r = inr content →
      validETag (ct_ETag content) (coalesce_str (ta_sha256 artifact)) = true ∧
      (range = "" → ct_StatusCode content = 200 ∧ ct_ContentLength content = ta_size_bytes artifact).
Proof. apply Open_spec. Qed.
End guarded.
