(* ===== verification/Normalize.v ===== *)
(** * Validation and normalization of requests
    (internal/protocol/h3.go, registry.go, tk2sd.go)

    A request is checked, its roles and ratio are completed, and what it asks
    of a model is summed up as requirements. *)

From S2P Require Import Prelude Domain Tx Database GoStrings Catalog.

Definition MiB : Z := 2 ^ 20.
Definition MaxDecodedImageBytes : Z := 30 * MiB.
Definition MaxDecodedVideoBytes : Z := 50 * MiB.
Definition MaxDecodedAudioBytes : Z := 15 * MiB.

(** ** base64.StdEncoding.Strict() *)

(** The value of a character of the alphabet. *)
Definition base64_value (c : Ascii.ascii) : option Z :=
  let n := byte_of c in
  if in_range 65 90 n then Some (n - 65)
  else if in_range 97 122 n then Some (n - 71)
  else if in_range 48 57 n then Some (n + 4)
  else if n =? 43 then Some 62
  else if n =? 47 then Some 63
  else None.

Definition is_pad (c : Ascii.ascii) : bool := byte_of c =? 61.

(** The number of bytes the text decodes to.  The last group may be padded,
    and the bits it leaves unused must be zero. *)
Fixpoint base64_quads (cs : list Ascii.ascii) : option Z :=
  match cs with
  | [] => Some 0
  | [c1; c2; c3; c4] =>
      match base64_value c1, base64_value c2, base64_value c3, base64_value c4 with
      | Some _, Some _, Some _, Some _ => Some 3
      | Some _, Some _, Some v3, None =>
          if is_pad c4 && (Z.land v3 3 =? 0) then Some 2 else None
      | Some _, Some v2, None, None =>
          if is_pad c3 && is_pad c4 && (Z.land v2 15 =? 0) then Some 1 else None
      | _, _, _, _ => None
      end
  | c1 :: c2 :: c3 :: c4 :: cs =>
      match base64_value c1, base64_value c2, base64_value c3, base64_value c4 with
      | Some _, Some _, Some _, Some _ => Z.add 3 <$> base64_quads cs
      | _, _, _, _ => None
      end
  | _ => None
  end.

(** [DecodeString] skips line breaks. *)
Definition base64_decoded_len (s : string) : option Z :=
  base64_quads (List.filter (λ c, negb ((byte_of c =? 13) || (byte_of c =? 10)))
    (String.list_ascii_of_string s)).

Definition base64_encoded_len (n : Z) : Z := (n + 2) / 3 * 4.

(** ** Media sources *)

Definition comma : Ascii.ascii := Ascii.ascii_of_nat 44.
Definition semicolon : Ascii.ascii := Ascii.ascii_of_nat 59.

(** [strings.EqualFold(s, "base64")]: besides ASCII case, U+017F folds to s. *)
Definition fold_rune (r : rune) : string :=
  if ru_rune r =? 383 then "s" else lower_rune r.
Definition is_base64 (s : string) : bool :=
  String.concat "" (map fold_rune (runes s)) ≟ "base64".

Inductive data_error := DataFormat | DataType | DataTooLarge.

(** parseDataURI; the media type it returns is not used by the validators. *)
Definition parseDataURI (value : string) (maxBytes : Z) (supported : list string)
    : option data_error :=
  let '(header, encoded, ok) := Cut value comma in
  if negb ok || (encoded ≟ "") then Some DataFormat
  else
    let '(mediaType, encoding, ok) := Cut (TrimPrefix header "data:") semicolon in
    if negb ok || negb (is_base64 encoding) then Some DataFormat
    else if negb (ToLower mediaType ∈? supported) then Some DataType
    else if base64_encoded_len maxBytes <? len encoded then Some DataTooLarge
    else match base64_decoded_len encoded with
         | None => Some DataFormat
         | Some n => if maxBytes <? n then Some DataTooLarge else None
         end.

Definition data_message (label type_message too_large : string) (d : data_error) : error :=
  ErrText match d with
          | DataFormat => String.append label " Base64 格式无效"
          | DataType => type_message
          | DataTooLarge => too_large
          end.

Section sources.
(** Whether [url.Parse] reads the text as an http or https URL with a host
    and without credentials. *)
Context (media_url_ok : string → bool).

Definition validate_url (message value : string) : option error :=
  if HasPrefix value "mm_file://"
  then if TrimSpace (TrimPrefix value "mm_file://") ≟ ""
       then Some (ErrText "mm_file 媒体地址缺少文件标识") else None
  else if media_url_ok value then None else Some (ErrText message).

Definition validateImageSource (value : string) : option error :=
  if HasPrefix value "data:"
  then data_message "图片" "图片 Base64 类型不支持" "图片 Base64 单张不能超过 30 MiB"
       <$> parseDataURI value MaxDecodedImageBytes
             ["image/jpeg"; "image/jpg"; "image/png"; "image/webp"]
  else validate_url "媒体 URL 必须是无凭据的 HTTP/HTTPS 地址" value.

Definition validateAccessibleMediaURL (value : string) : option error :=
  validate_url "音频视频必须要上传可以访问的url。" value.

Definition validateVideoSource (value : string) : option error :=
  if HasPrefix value "data:"
  then data_message "视频" "视频 Base64 类型仅支持 MP4" "视频 Base64 单段不能超过 50 MiB"
       <$> parseDataURI value MaxDecodedVideoBytes ["video/mp4"]
  else validateAccessibleMediaURL value.

Definition validateAudioSource (value : string) : option error :=
  if HasPrefix value "data:"
  then data_message "音频" "音频 Base64 类型仅支持 WAV 或 MP3" "音频 Base64 单段不能超过 15 MiB"
       <$> parseDataURI value MaxDecodedAudioBytes ["audio/wav"; "audio/mpeg"; "audio/mp3"]
  else validateAccessibleMediaURL value.

(** ** H3 and official requests *)

Definition failwith {A} (message : string) : error + A := inl (ErrText message).
Definition check (o : option error) : error + unit :=
  match o with Some err => inl err | None => inr tt end.

Definition is_nil (o : option string) : bool := is_null o.

(** One element of the loop of [ValidateCreate]: the element with its role
    completed. *)
Definition check_item (c : GenerationContent) : error + GenerationContent :=
  if gc_Type c ≟ "text" then
    if (TrimSpace (gc_Text c) ≟ "") || (14000 <? RuneCountInString (gc_Text c))
    then failwith "content 必须包含 1 个非空且不超过 14000 字符的 text"
    else if negb (is_nil (gc_ImageURL c)) || negb (is_nil (gc_VideoURL c))
            || negb (is_nil (gc_AudioURL c)) || negb (gc_Role c ≟ "")
    then failwith "text 元素包含不允许的字段"
    else inr c
  else if gc_Type c ≟ "image_url" then
    match gc_ImageURL c with
    | Some u =>
        if negb (is_nil (gc_VideoURL c)) || negb (is_nil (gc_AudioURL c))
           || negb (gc_Text c ≟ "")
        then failwith "image_url 元素结构无效"
        else
          _ ← check (validateImageSource u);
          let role := if gc_Role c ≟ "" then "first_frame" else gc_Role c in
          if role ∈? ["first_frame"; "last_frame"; "reference_image"]
          then inr (c <| gc_Role := role |>)
          else failwith "image_url role 无效"
    | None => failwith "image_url 元素结构无效"
    end
  else if gc_Type c ≟ "video_url" then
    match gc_VideoURL c with
    | Some u =>
        if negb (is_nil (gc_ImageURL c)) || negb (is_nil (gc_AudioURL c))
           || negb (gc_Text c ≟ "") || negb (gc_Role c ≟ "reference_video")
        then failwith "video_url 必须使用 reference_video role"
        else _ ← check (validateVideoSource u); inr c
    | None => failwith "video_url 必须使用 reference_video role"
    end
  else if gc_Type c ≟ "audio_url" then
    match gc_AudioURL c with
    | Some u =>
        if negb (is_nil (gc_ImageURL c)) || negb (is_nil (gc_VideoURL c))
           || negb (gc_Text c ≟ "") || negb (gc_Role c ≟ "reference_audio")
        then failwith "audio_url 必须使用 reference_audio role"
        else _ ← check (validateAudioSource u); inr c
    | None => failwith "audio_url 必须使用 reference_audio role"
    end
  else failwith "content.type 无效".

(** The counters of the loop, on the completed elements. *)
Definition count_type (ty : string) : list GenerationContent → Z :=
  count_where (λ c, gc_Type c ≟ ty).
Definition count_role (ty role : string) : list GenerationContent → Z :=
  count_where (λ c, (gc_Type c ≟ ty) && (gc_Role c ≟ role)).

(** [Prompt] is the last text. *)
Definition last_text (cs : list GenerationContent) : string :=
  default "" (gc_Text <$> List.find (λ c, gc_Type c ≟ "text") (rev cs)).

Definition validRatio (r : string) : bool :=
  r ∈? ["adaptive"; "21:9"; "16:9"; "4:3"; "1:1"; "3:4"; "9:16"].

Record ValidatedRequest := mkValidated {
  vr_Request : GenerationRequest;
  vr_Scenario : string;
  vr_Prompt : string;
  vr_Width : Z;
  vr_Height : Z;
  vr_InputImageCount : Z
}.

(** config.GenerationProfile: the dimensions of a ratio. *)
Definition profiles := list (string * list (string * (Z * Z))).
Definition assoc {A} (k : string) (l : list (string * A)) : option A :=
  snd <$> List.find (λ kv, kv.1 ≟ k) l.

Definition scenario_of (frames references : bool) (ratio : string)
    : error + (string * string) :=
  if frames then inr ("i2va", "adaptive")
  else if references then inr ("r2va", if ratio ≟ "" then "adaptive" else ratio)
  else if (ratio ≟ "") || (ratio ≟ "adaptive")
  then failwith "t2va 的 ratio 必填且不能为 adaptive"
  else inr ("t2va", ratio).

Definition dimensions_of (ps : option profiles) (resolution ratio : string)
    : error + (Z * Z) :=
  match ps with
  | None => inr (0, 0)
  | Some ps =>
      match assoc resolution ps with
      | None => failwith "resolution 仅支持 480P、768P 或 2K"
      | Some dims =>
          match assoc ratio dims with
          | None => failwith "ratio 未配置尺寸映射"
          | Some d => inr d
          end
      end
  end.

Definition ValidateCreate (request : GenerationRequest) (ps : option profiles)
    : error + ValidatedRequest :=
  if negb (gr_Model request ≟ "MiniMax-H3") then failwith "model 仅支持 MiniMax-H3"
  else if negb (in_range 1 16 (Z.of_nat (length (gr_Content request))))
  then failwith "content 数量必须为 1-16"
  else if negb (in_range 4 15 (gr_Duration request)) then failwith "duration 必须为 4-15 的整数"
  else if (match gr_CallbackURL request with
           | Some u => TrimSpace u ≟ "" | None => false end)
  then failwith "callback_url 不能为空"
  else
    content ← collect check_item (gr_Content request);
    let first := count_role "image_url" "first_frame" content in
    let last := count_role "image_url" "last_frame" content in
    let images := count_role "image_url" "reference_image" content in
    let videos := count_type "video_url" content in
    let audios := count_type "audio_url" content in
    if negb (count_type "text" content =? 1)
    then failwith "content 必须包含且只能包含 1 个 text"
    else if (1 <? first) || (1 <? last) then failwith "首帧和尾帧最多各 1 张"
    else if (9 <? images) || (3 <? videos) || (3 <? audios)
    then failwith "参考媒体数量超过限制"
    else
      let frames := 0 <? first + last in
      let references := 0 <? images + videos + audios in
      if frames && references then failwith "图生视频与多模态参考角色互斥"
      else
        sr ← scenario_of frames references (gr_Ratio request);
        let '(scenario, ratio) := sr : string * string in
        if negb (validRatio ratio) then failwith "ratio 无效"
        else
          dims ← dimensions_of ps (gr_Resolution request) ratio;
          mret (mkValidated (request <| gr_Content := content |> <| gr_Ratio := ratio |>)
                  scenario (last_text content) dims.1 dims.2 (first + last + images)).

(** ** Requirements *)

Record NormalizedRequest := mkNormalized {
  nr_Request : GenerationRequest;
  nr_Scenario : string;
  nr_Prompt : string;
  nr_NormalizerVersion : string;
  nr_InputImageCount : Z;
  nr_Requirements : TaskRequirements
}.

Definition is_media (c : GenerationContent) : bool := negb (gc_Type c ≟ "text").

Definition source_of (c : GenerationContent) : option string :=
  (λ u, (Cut u colon).1.1) <$> Media c.

Definition normalized (r : GenerationRequest) (scenario prompt : string) (images : Z)
    (version : string) : NormalizedRequest :=
  let media := List.filter is_media (gr_Content r) in
  mkNormalized r scenario prompt version images
    (mkRequirements scenario (gr_Duration r) (gr_Resolution r) (map gc_Role media)
       (omap source_of media) (Z.of_nat (length media))).

(** ** TK2SD requests *)

Definition default_role (c : GenerationContent) (mediaCount : Z) (caps : ModelCapability)
    : string :=
  if (gc_Type c ≟ "image_url") && (mediaCount =? 1) && HasMode caps "i2va"
  then "first_frame"
  else String.append "reference_" (TrimSuffix (gc_Type c) "_url").

Definition check_tk2sd_item (mediaCount : Z) (caps : ModelCapability) (c : GenerationContent)
    : error + GenerationContent :=
  if gc_Type c ≟ "text" then
    if (TrimSpace (gc_Text c) ≟ "") || (14000 <? RuneCountInString (gc_Text c))
       || negb (gc_Role c ≟ "") || negb (is_nil (gc_ImageURL c))
       || negb (is_nil (gc_VideoURL c)) || negb (is_nil (gc_AudioURL c))
    then failwith "text 元素无效"
    else inr c
  else match Media c with
  | None => failwith "媒体元素结构无效"
  | Some url =>
      if negb (gc_Text c ≟ "") then failwith "媒体元素结构无效"
      else if HasPrefix url "mm_file:" || HasPrefix url "asset:" || HasPrefix url "proxy-input:"
      then failwith "tk2sd 不接受节点专属媒体引用"
      else
        let c := if gc_Role c ≟ "" then c <| gc_Role := default_role c mediaCount caps |> else c in
        if gc_Type c ≟ "image_url" then
          if negb (is_nil (gc_VideoURL c)) || negb (is_nil (gc_AudioURL c))
          then failwith "image_url 结构无效"
          else if negb (gc_Role c ∈? ["first_frame"; "reference_image"])
          then failwith "tk2sd 不支持该图片角色"
          else _ ← check (validateImageSource url); inr c
        else if gc_Type c ≟ "video_url" then
          if negb (is_nil (gc_ImageURL c)) || negb (is_nil (gc_AudioURL c))
             || negb (gc_Role c ≟ "reference_video")
          then failwith "video_url 结构无效"
          else _ ← check (validateVideoSource url); inr c
        else if gc_Type c ≟ "audio_url" then
          if negb (is_nil (gc_ImageURL c)) || negb (is_nil (gc_VideoURL c))
             || negb (gc_Role c ≟ "reference_audio")
          then failwith "audio_url 结构无效"
          else _ ← check (validateAudioSource url); inr c
        else failwith "content.type 无效"
  end.

Definition normalizeTK2SD (r : GenerationRequest) (caps : ModelCapability)
    : error + NormalizedRequest :=
  let r := if (gr_Duration r =? 0) && negb (gr_DurationPresent r)
           then r <| gr_Duration := 5 |> else r in
  if gr_Duration r <=? 0 then failwith "duration 必须为正整数"
  else if negb (in_range 1 13 (Z.of_nat (length (gr_Content r))))
  then failwith "content 数量必须为 1-13"
  else if (32 <? RuneCountInString (gr_Resolution r)) || (32 <? RuneCountInString (gr_Ratio r))
  then failwith "resolution 或 ratio 过长"
  else if (match gr_CallbackURL r with Some u => TrimSpace u ≟ "" | None => false end)
  then failwith "callback_url 不能为空"
  else
    let mediaCount := count_where is_media (gr_Content r) in
    content ← collect (check_tk2sd_item mediaCount caps) (gr_Content r);
    let first := count_role "image_url" "first_frame" content in
    let images := count_type "image_url" content in
    let videos := count_type "video_url" content in
    let audios := count_type "audio_url" content in
    if negb (count_type "text" content =? 1) || (9 <? images) || (3 <? videos)
       || (3 <? audios) || (12 <? mediaCount)
    then failwith "文本或参考媒体数量无效"
    else if (0 <? first) && (negb (first =? 1) || negb (mediaCount =? 1))
    then failwith "首帧模式仅支持单张图片"
    else
      let scenario := if 0 <? first then "i2va" else if 0 <? mediaCount then "r2va" else "t2va" in
      let got := normalized (r <| gr_Content := content |>) scenario (last_text content)
                   images ProtocolTK2SD in
      if Accepts caps (nr_Requirements got) then inr got else inl ErrModelInput.

Definition Normalize (id : string) (r : GenerationRequest) (caps : ModelCapability)
    : error + NormalizedRequest :=
  match Lookup id with
  | None => failwith "未知节点协议"
  | Some _ =>
      if negb (ValidModelID (gr_Model r)) then failwith "model ID 无效"
      else if id ≟ ProtocolTK2SD then normalizeTK2SD r caps
      else if gr_Resolution r ≟ "" then failwith "resolution 必填"
      else if negb (id ≟ ProtocolOfficial) && negb (gr_Model r ≟ "MiniMax-H3")
      then inl ErrUnsupportedModel
      else
        v ← ValidateCreate (r <| gr_Model := "MiniMax-H3" |>) None;
        let got := normalized ((vr_Request v) <| gr_Model := gr_Model r |>) (vr_Scenario v)
                     (vr_Prompt v) (vr_InputImageCount v) id in
        if Accepts caps (nr_Requirements got) then inr got else inl ErrModelInput
  end.
End sources.

(** ** Properties of the validation *)

Section validation.
Context (media_url_ok : string → bool).

(** The shape of a checked element: one of the four kinds, with only its own
    fields and a role of its kind. *)
Definition item_shape (c : GenerationContent) : Prop :=
  (gc_Type c = "text" ∧ gc_ImageURL c = None ∧ gc_VideoURL c = None ∧ gc_AudioURL c = None ∧
   gc_Role c = "" ∧ RuneCountInString (gc_Text c) ≤ 14000) ∨
  (gc_Type c = "image_url" ∧ gc_ImageURL c ≠ None ∧ gc_VideoURL c = None ∧ gc_AudioURL c = None ∧
   gc_Text c = "" ∧ gc_Role c ∈ ["first_frame"; "last_frame"; "reference_image"]) ∨
  (gc_Type c = "video_url" ∧ gc_VideoURL c ≠ None ∧ gc_ImageURL c = None ∧ gc_AudioURL c = None ∧
   gc_Text c = "" ∧ gc_Role c = "reference_video") ∨
  (gc_Type c = "audio_url" ∧ gc_AudioURL c ≠ None ∧ gc_ImageURL c = None ∧ gc_VideoURL c = None ∧
   gc_Text c = "" ∧ gc_Role c = "reference_audio").

Lemma is_nil_false o : negb (is_nil o) = false → o = None.
Proof. by destruct o. Qed.

(** A checked element has its shape, and checking it again changes nothing. *)
Lemma check_item_stable c c' :
  check_item media_url_ok c = inr c' →
  item_shape c' ∧ check_item media_url_ok c' = inr c' ∧ gc_Type c' = gc_Type c.
Proof.
  unfold check_item.
  destruct (gc_Type c ≟ "text") eqn:Et.
  { destruct (_ || _) eqn:E1; [done|]. destruct (_ || negb (gc_Role c ≟ "")) eqn:E2; [done|].
    intros [= <-]. rewrite Et, E1, E2. split_and!; [|done..].
    rewrite !orb_false_iff in E1. rewrite !orb_false_iff in E2. destruct E1 as [_ E1%Z.ltb_ge], E2 as [[[H1 H2] H3] H4].
    apply bool_decide_eq_true in Et. apply negb_false_iff, bool_decide_eq_true in H4.
    left. by rewrite (is_nil_false _ H1), (is_nil_false _ H2), (is_nil_false _ H3). }
  destruct (gc_Type c ≟ "image_url") eqn:Ei.
  { destruct (gc_ImageURL c) as [u|] eqn:Eu; [|done].
    destruct (_ || negb (gc_Text c ≟ "")) eqn:E1; [done|].
    destruct (check (validateImageSource media_url_ok u)) as [|[]] eqn:Ec; [done|]. simpl.
    destruct (_ ∈? _) eqn:Er; [|done]. intros [= <-]. simpl.
    rewrite Et, Ei, Eu, E1, Ec. simpl.
    rewrite !orb_false_iff in E1. destruct E1 as [[H1 H2] H3].
    apply bool_decide_eq_true in Ei, Er. apply negb_false_iff, bool_decide_eq_true in H3.
    assert ((if gc_Role c ≟ "" then "first_frame" else gc_Role c) ≠ "") as Hne.
    { destruct (decide (gc_Role c = "")) as [E|E]; [by rewrite (bool_decide_eq_true_2 _ E)|].
      by rewrite (bool_decide_eq_false_2 _ E). }
    rewrite (bool_decide_eq_false_2 _ Hne), (bool_decide_eq_true_2 _ Er).
    split_and!; [right; left; simpl; by rewrite Eu, (is_nil_false _ H1), (is_nil_false _ H2)|
      by destruct c|done]. }
  destruct (gc_Type c ≟ "video_url") eqn:Ev.
  { destruct (gc_VideoURL c) as [u|] eqn:Eu; [|done].
    destruct (_ || negb (gc_Role c ≟ "reference_video")) eqn:E1; [done|].
    destruct (check (validateVideoSource media_url_ok u)) as [|[]] eqn:Ec; [done|]. simpl.
    intros [= <-]. rewrite Et, Ei, Ev, Eu, E1, Ec. split_and!; [|done..].
    rewrite !orb_false_iff in E1. destruct E1 as [[[H1 H2] H3] H4].
    apply bool_decide_eq_true in Ev. apply negb_false_iff, bool_decide_eq_true in H3, H4.
    right; right; left. by rewrite Eu, (is_nil_false _ H1), (is_nil_false _ H2). }
  destruct (gc_Type c ≟ "audio_url") eqn:Ea; [|done].
  destruct (gc_AudioURL c) as [u|] eqn:Eu; [|done].
  destruct (_ || negb (gc_Role c ≟ "reference_audio")) eqn:E1; [done|].
  destruct (check (validateAudioSource media_url_ok u)) as [|[]] eqn:Ec; [done|]. simpl.
  intros [= <-]. rewrite Et, Ei, Ev, Ea, Eu, E1, Ec. split_and!; [|done..].
  rewrite !orb_false_iff in E1. destruct E1 as [[[H1 H2] H3] H4].
  apply bool_decide_eq_true in Ea. apply negb_false_iff, bool_decide_eq_true in H3, H4.
  right; right; right. by rewrite Eu, (is_nil_false _ H1), (is_nil_false _ H2).
Qed.

Lemma collect_stable cs cs' :
  collect (check_item media_url_ok) cs = inr cs' →
  collect (check_item media_url_ok) cs' = inr cs' ∧ length cs' = length cs ∧
  ∀ c, c ∈ cs' → item_shape c.
Proof.
  rewrite !collect_inr. intros H. induction H as [|c c' cs cs' Hc _ (IH1 & IH2 & IH3)].
  { split_and!; [constructor|done|]. intros c Hc. by apply elem_of_nil in Hc. }
  apply check_item_stable in Hc as (Hs & Hc & _). split_and!; [by constructor|simpl; lia|].
  intros x [->|Hx]%elem_of_cons; auto.
Qed.
End validation.

Section validate_create.
Context (media_url_ok : string → bool).

(** The media of a request agree with its scenario. *)
Definition scenario_fits (scenario ratio : string) (frames refs : Z) : Prop :=
  (scenario = "i2va" ∧ 0 < frames ∧ refs = 0 ∧ ratio = "adaptive") ∨
  (scenario = "r2va" ∧ frames = 0 ∧ 0 < refs) ∨
  (scenario = "t2va" ∧ frames = 0 ∧ refs = 0 ∧ ratio ≠ "adaptive").

Lemma scenario_of_fits frames refs ratio scenario ratio' :
  0 ≤ frames → 0 ≤ refs → (0 <? frames) && (0 <? refs) = false →
  scenario_of (0 <? frames) (0 <? refs) ratio = inr (scenario, ratio') →
  scenario_fits scenario ratio' frames refs ∧
  scenario_of (0 <? frames) (0 <? refs) ratio' = inr (scenario, ratio').
Proof.
  intros Hf Hr. unfold scenario_of, scenario_fits.
  destruct (Z.ltb_spec 0 frames), (Z.ltb_spec 0 refs); simpl; [done|..]; intros _.
  - intros [= <- <-]. split; [left; split_and!; [done..|lia|done]|done].
  - intros [= <- <-]. split; [right; left; split_and!; [done|lia|done]|].
    destruct (decide (ratio = "")) as [->|E]; [done|].
    by rewrite !(bool_decide_eq_false_2 _ E).
  - destruct (ratio ≟ "") eqn:E1; [done|]. destruct (ratio ≟ "adaptive") eqn:E2; [done|].
    simpl. intros [= <- <-]. rewrite E1, E2. apply bool_decide_eq_false in E2.
    split; [|done]. right; right. split_and!; [done|lia|lia|done].
Qed.

Definition frames_of (cs : list GenerationContent) : Z :=
  count_role "image_url" "first_frame" cs + count_role "image_url" "last_frame" cs.
Definition refs_of (cs : list GenerationContent) : Z :=
  count_role "image_url" "reference_image" cs + count_type "video_url" cs
  + count_type "audio_url" cs.

(** What an accepted request satisfies. *)
Definition valid_request (r : GenerationRequest) (scenario : string) : Prop :=
  gr_Model r = "MiniMax-H3" ∧ 4 ≤ gr_Duration r ≤ 15 ∧
  1 ≤ Z.of_nat (length (gr_Content r)) ≤ 16 ∧
  (∀ c, c ∈ gr_Content r → item_shape c) ∧
  count_type "text" (gr_Content r) = 1 ∧
  count_role "image_url" "first_frame" (gr_Content r) ≤ 1 ∧
  count_role "image_url" "last_frame" (gr_Content r) ≤ 1 ∧
  count_role "image_url" "reference_image" (gr_Content r) ≤ 9 ∧
  count_type "video_url" (gr_Content r) ≤ 3 ∧ count_type "audio_url" (gr_Content r) ≤ 3 ∧
  scenario_fits scenario (gr_Ratio r) (frames_of (gr_Content r)) (refs_of (gr_Content r)) ∧
  validRatio (gr_Ratio r) = true.

Lemma ValidateCreate_spec r ps v :
  ValidateCreate media_url_ok r ps = inr v →
  valid_request (vr_Request v) (vr_Scenario v) ∧
  ValidateCreate media_url_ok (vr_Request v) ps = inr v.
Proof.
  unfold ValidateCreate.
  destruct (negb (gr_Model r ≟ _)) eqn:Em; [done|].
  destruct (negb (in_range 1 16 _)) eqn:El; [done|].
  destruct (negb (in_range 4 15 _)) eqn:Ed; [done|].
  destruct (match gr_CallbackURL r with Some _ => _ | None => _ end) eqn:Ecb; [done|].
  rewrite sum_bind_inr. intros (cs & Hcs & H).
  apply collect_stable in Hcs as (Hst & Hlen & Hshape).
  destruct (negb (count_type "text" cs =? 1)) eqn:E1; [done|].
  destruct (_ || (1 <? _)) eqn:E2; [done|].
  destruct (_ || (3 <? count_type "audio_url" cs)) eqn:E3; [done|].
  destruct (_ && (0 <? _)) eqn:E4; [done|].
  apply sum_bind_inr in H as ([scenario ratio] & Hsc & H).
  destruct (negb (validRatio ratio)) eqn:E5; [done|].
  apply sum_bind_inr in H as ([w h] & Hdim & H). injection H as <-. simpl.
  assert (∀ p, 0 ≤ count_where p cs) as Hnn by (intros; apply count_where_nonneg).
  apply scenario_of_fits in Hsc as [Hfit Hsc];
    [|unfold count_role, count_type; pose proof Hnn; repeat apply Z.add_nonneg_nonneg; auto..|done].
  split.
  - apply negb_false_iff in Em, El, Ed, E1, E5. apply bool_decide_eq_true in Em.
    apply Z.eqb_eq in E1. apply orb_false_iff in E2 as [E2a%Z.ltb_ge E2b%Z.ltb_ge].
    rewrite !orb_false_iff in E3. destruct E3 as [[E3a%Z.ltb_ge E3b%Z.ltb_ge] E3c%Z.ltb_ge].
    unfold in_range in El, Ed. apply andb_true_iff in El as [? ?], Ed as [? ?].
    unfold valid_request. simpl. rewrite Hlen. split_and!; try done; lia.
  - rewrite Em, Hlen, El, Ed, Ecb, Hst. simpl. rewrite E1, E2, E3, E4, Hsc. simpl.
    rewrite E5, Hdim. simpl. by destruct r.
Qed.

(** What validation guarantees.  A request [ValidateCreate] accepts has
    the model, a duration of 4 to 15 seconds and 1 to 16 elements, each with
    the fields and a role of its kind; exactly one text; at most one first
    and one last frame, nine reference images, three videos and three audio
    clips; frames and references never together; and a scenario and ratio
    that fit the media. *)
Theorem ValidateCreate_sound r ps v :
  ValidateCreate media_url_ok r ps = inr v →
  valid_request (vr_Request v) (vr_Scenario v).
Proof. intros H. by apply ValidateCreate_spec in H as [? _]. Qed.

(** Validation is idempotent.  The completed request of an accepted
    request, with its default roles and ratio filled in, is accepted again
    and is not changed any more. *)
Theorem ValidateCreate_idempotent r ps v :
  ValidateCreate media_url_ok r ps = inr v →
  ValidateCreate media_url_ok (vr_Request v) ps = inr v.
Proof. intros H. by apply ValidateCreate_spec in H as [_ ?]. Qed.
End validate_create.

Section normalize.
Context (media_url_ok : string → bool).

(** What a request asks of a model, read off its media. *)
Definition requirements_of (r : GenerationRequest) (scenario : string) : TaskRequirements :=
  let media := List.filter is_media (gr_Content r) in
  mkRequirements scenario (gr_Duration r) (gr_Resolution r) (map gc_Role media)
    (omap source_of media) (Z.of_nat (length media)).

Lemma normalizeTK2SD_spec r caps n :
  normalizeTK2SD media_url_ok r caps = inr n →
  gr_Model (nr_Request n) = gr_Model r ∧ nr_NormalizerVersion n = ProtocolTK2SD ∧
  Accepts caps (nr_Requirements n) = true ∧
  nr_Requirements n = requirements_of (nr_Request n) (nr_Scenario n) ∧
  count_type "text" (gr_Content (nr_Request n)) = 1 ∧ 0 < gr_Duration (nr_Request n).
Proof.
  unfold normalizeTK2SD. cbv zeta. set (r' := if (gr_Duration r =? 0) && _ then _ else r).
  assert (gr_Model r' = gr_Model r) as Em by (unfold r'; by destruct (_ && _)).
  destruct (gr_Duration r' <=? 0) eqn:Ed; [done|].
  destruct (negb (in_range 1 13 _)); [done|]. destruct (_ || (32 <? _)); [done|].
  destruct (match gr_CallbackURL r' with Some _ => _ | None => _ end); [done|].
  rewrite sum_bind_inr. intros (cs & _ & H).
  destruct (_ || (12 <? _)) eqn:Et; [done|]. destruct (_ && (_ || _)); [done|].
  destruct (Accepts _ _) eqn:Ea; [|done]. injection H as <-. simpl.
  rewrite !orb_false_iff in Et. destruct Et as [[[[Et _] _] _] _].
  apply negb_false_iff, Z.eqb_eq in Et. apply Z.leb_gt in Ed. by split_and!.
Qed.

Lemma Normalize_spec id r caps n :
  Normalize media_url_ok id r caps = inr n →
  Lookup id ≠ None ∧ ValidModelID (gr_Model r) = true ∧
  gr_Model (nr_Request n) = gr_Model r ∧ nr_NormalizerVersion n = id ∧
  Accepts caps (nr_Requirements n) = true ∧
  nr_Requirements n = requirements_of (nr_Request n) (nr_Scenario n) ∧
  count_type "text" (gr_Content (nr_Request n)) = 1 ∧ 0 < gr_Duration (nr_Request n).
Proof.
  unfold Normalize. destruct (Lookup id); [|done].
  destruct (ValidModelID (gr_Model r)) eqn:Ev; [|done]. simpl.
  destruct (id ≟ ProtocolTK2SD) eqn:Et.
  { apply bool_decide_eq_true in Et as ->. intros H%normalizeTK2SD_spec. naive_solver. }
  destruct (gr_Resolution r ≟ ""); [done|]. destruct (_ && _); [done|].
  rewrite sum_bind_inr. intros (v & Hv & H).
  destruct (Accepts _ _) eqn:Ea; [|done]. injection H as <-. simpl.
  apply ValidateCreate_spec in Hv as [(_ & ? & _ & _ & ? & _) _].
  split_and!; [done..|lia].
Qed.

(** C32: a normalized request fits the model it was normalized for.  The
    protocol is known and the model id well formed; the result keeps the model
    of the request and has exactly one text; its requirements are those of its
    own content, and the capability of the model accepts them. *)
Theorem Normalize_sound id r caps n :
  Normalize media_url_ok id r caps = inr n →
  Lookup id ≠ None ∧ ValidModelID (gr_Model r) = true ∧
  gr_Model (nr_Request n) = gr_Model r ∧ nr_NormalizerVersion n = id ∧
  Accepts caps (nr_Requirements n) = true ∧
  nr_Requirements n = requirements_of (nr_Request n) (nr_Scenario n) ∧
  count_type "text" (gr_Content (nr_Request n)) = 1 ∧ 0 < gr_Duration (nr_Request n).
Proof. apply Normalize_spec. Qed.
End normalize.
