(* ===== verification/Router.v ===== *)
(** * The router (internal/routing/service.go) and the migration of legacy
    tasks ([BindLegacyTaskRoute] of task_routing_store.go)

    [Resolve] turns a request into a routing decision with what the store
    shows it; the store checks the decision again when it creates the task. *)

From S2P Require Import Prelude Domain Tx Database Sql GoStrings Catalog Paging TaskRouting Callbacks Queue Nodes Normalize.

(** routing.Store: the operations the router needs. *)
Record RouteStore := mkRouteStore {
  GetModelRoute : string → error + (ModelRoute * Z);
  ListNodes : list ModelServiceNode;
  GetModelCatalog : string → error + ModelCatalog
}.

(** The implementation by the SQLite store. *)
Definition sqlite_store (db : DB) : RouteStore :=
  mkRouteStore (λ model, routeWith model db) (ListModelNodes db) (λ id, catalogWith id db).

Record Decision_ := mkDecision {
  dc_Snapshot : RouteSnapshot;
  dc_Normalized : NormalizedRequest
}.

Section router.
Context (media_url_ok : string → bool).

(** The inner loop over the items of a catalogue: the decision, or whether
    an item fitted the request and the last validation error. *)
Fixpoint try_items (protocol : string) (healthy : bool) (r : GenerationRequest)
    (items : list NodeModel) (has : bool) (verr : option error)
    : NormalizedRequest + (bool * option error) :=
  match items with
  | [] => inr (has, verr)
  | m :: items =>
      if negb (nmd_ModelID m ≟ gr_Model r) || negb (nmd_Enabled m) || negb (nmd_Present m)
      then try_items protocol healthy r items has verr
      else match Normalize media_url_ok protocol r (nmd_Capabilities m) with
           | inl err => try_items protocol healthy r items has (Some err)
           | inr n => if healthy then inl n else try_items protocol healthy r items true verr
           end
  end.

Definition catalog_stale (now : Z) (c : ModelCatalog) : bool :=
  (cat_Source c ≟ "discovered")
  && ((cat_ValidUntil c <=? now) || (cat_LastSuccessAt c =? 0)).

(** The loop over the nodes. *)
Fixpoint try_nodes (st : RouteStore) (healthy : string → bool) (now : Z) (protocol : string)
    (r : GenerationRequest) (nodes : list ModelServiceNode) (has : bool) (verr : option error)
    : error + (NormalizedRequest + (bool * option error)) :=
  match nodes with
  | [] => inr (inr (has, verr))
  | n :: nodes =>
      if negb (mn_enabled n) || negb (mn_protocol_version n ≟ protocol)
      then try_nodes st healthy now protocol r nodes has verr
      else
        cat ← GetModelCatalog st (mn_id n);
        if catalog_stale now cat then try_nodes st healthy now protocol r nodes has verr
        else match try_items protocol (healthy (mn_id n)) r (cat_Items cat) has verr with
             | inl d => inr (inl d)
             | inr (has, verr) => try_nodes st healthy now protocol r nodes has verr
             end
  end.

(** [healthy] is constantly true when the service has no health check; a
    validation error joined to [ErrModelInput] is that error. *)
Definition Resolve (st : RouteStore) (healthy : string → bool) (now : Z)
    (r : GenerationRequest) : error + Decision_ :=
  rr ← GetModelRoute st (gr_Model r);
  let '(route, revision) := rr : ModelRoute * Z in
  let protocol := ro_ProtocolVersion route in
  if (protocol ≟ "") || (ro_SelectionMode route ≟ "unresolved") then inl ErrRouteAmbiguous
  else if negb (ro_SelectionMode route ≟ "manual")
          && existsb (λ c, negb (rc_ProtocolVersion c ≟ protocol)) (ro_Candidates route)
  then inl ErrRouteAmbiguous
  else match Lookup protocol with
  | None => inl ErrRouteUnavailable
  | Some d =>
      outcome ← try_nodes st healthy now protocol r (ListNodes st) false None;
      match outcome with
      | inl n =>
          inr (mkDecision (mkSnapshot 1 (gr_Model r) protocol (ro_Version route) revision
                 (ro_SelectionMode route) (pd_ParameterPlan d) (nr_NormalizerVersion n)
                 (nr_Requirements n)) n)
      | inr (has, verr) =>
          if negb has && negb (is_null verr) then inl ErrModelInput else inl ErrRouteUnavailable
      end
  end.

(** ** Routing a legacy task by hand *)

Definition replace_media (c : GenerationContent) (url : string) : GenerationContent :=
  if gc_Type c ≟ "image_url" then c <| gc_ImageURL := Some url |>
  else if gc_Type c ≟ "video_url" then c <| gc_VideoURL := Some url |>
  else c <| gc_AudioURL := Some url |>.

(** Inputs kept by the proxy must be recorded for the task; they stand for
    an https input in the check that follows. *)
Fixpoint resolve_inputs (db : DB) (taskID : string) (index : Z) (cs : list GenerationContent)
    : error + list GenerationContent :=
  match cs with
  | [] => inr []
  | c :: cs =>
      c' ← match Media c with
           | Some url =>
               if (14 <? len url) && HasPrefix url "proxy-input://"
               then if spool_refs db taskID index c url =? 1
                    then inr (replace_media c "https://migration.invalid/input")
                    else inl ErrModelInput
               else inr c
           | None => inr c
           end;
      cs' ← resolve_inputs db taskID (index + 1) cs;
      mret (c' :: cs')
  end.

Definition first_normalized (protocol : string) (r : GenerationRequest) (model : string)
    (c : ModelCatalog) : option NormalizedRequest :=
  head (omap (λ m, if negb (nmd_ModelID m ≟ model) || negb (nmd_Enabled m) || negb (nmd_Present m)
                   then None
                   else match Normalize media_url_ok protocol r (nmd_Capabilities m) with
                        | inr n => Some n | inl _ => None end) (cat_Items c)).

(** The last node that can take the request decides. *)
Fixpoint last_normalized (db : DB) (protocol : string) (r : GenerationRequest) (model : string)
    (ids : list string) (chosen : option NormalizedRequest)
    : error + option NormalizedRequest :=
  match ids with
  | [] => inr chosen
  | id :: ids =>
      cat ← catalogWith id db;
      last_normalized db protocol r model ids
        (match first_normalized protocol r model cat with Some n => Some n | None => chosen end)
  end.

Definition BindLegacyTaskRoute (e : Env) (o : Options) (taskID nodeProtocol : string)
    (version revision : Z) : DB → (error + Task) * DB :=
  immediate (
    row ← select_one (live_task taskID);
    task ← of_option row ErrTaskNotFound;
    ensure (negb (negb (vt_version task =? version) || negb (vt_route_state task ≟ AwaitingRoute)
                  || negb (has_status queued_statuses task)
                  || negb (coalesce_str (vt_upstream_job_id task) ≟ "")
                  || negb (coalesce_str (vt_gradio_event_id task) ≟ "")
                  || vt_official_submission_baseline_saved task
                  || (0 <? coalesce_int (vt_attempt_started_at task)))) ErrStateConflict ;;
    evidence ← ask (λ db,
      Z.of_nat (length (join_on (λ a s, (st_id s ≟ sa_stage_id a) && (st_task_id s ≟ taskID))
                          (db_stage_attempts db) (db_task_stages db)))
      + count_where (λ b, nb_task_id b ≟ taskID) (db_barriers db)
      + count_where (λ r, rr_task_id r ≟ taskID) (db_remote_runs db));
    ensure (negb (0 <? evidence)) ErrStateConflict ;;
    let model := vt_model (vt_request task) in
    rr ← query (routeWith model);
    let '(r, rev) := rr : ModelRoute * Z in
    ensure (revision =? rev) ErrRouteChanged ;;
    ensure (existsb (λ c, rc_ProtocolVersion c ≟ nodeProtocol) (ro_Candidates r))
      ErrRouteUnavailable ;;
    request ← of_option (unmarshal (vt_request_json (vt_request task))) ErrUnmarshal;
    content ← query (λ db, resolve_inputs db taskID 0 (gr_Content request));
    let ids := flat_map rc_NodeIDs
                 (List.filter (λ c, rc_ProtocolVersion c ≟ nodeProtocol) (ro_Candidates r)) in
    found ← query (λ db, last_normalized db nodeProtocol (request <| gr_Content := content |>)
                           model ids None);
    chosen ← of_option found ErrModelInput;
    let plan := match Lookup nodeProtocol with Some d => pd_ParameterPlan d | None => "" end in
    ensure (negb ((plan ≟ "h3_profile")
                  && (coalesce_str (vt_config_snapshot_json (vt_request task)) ≟ "")))
      ErrModelInput ;;
    exec_update (λ t, (vt_task_id t ≟ taskID) && (vt_version t =? version))
      (λ t, t <| vt_protocol_version := Some nodeProtocol |> <| vt_route_state := RouteReady |>
              <| vt_routing_snapshot_json := Some (JsonOf (mkSnapshot 1 model nodeProtocol
                   (ro_Version r) rev "manual" plan (vt_request_normalizer task)
                   (nr_Requirements chosen))) |>
              <| vt_routing_wait_reason := "" |> <| vt_updated_at := nowUnix e |>
              <| vt_version := vt_version t + 1 |>) ;;
    rebalance o (nowUnix e) ;;
    row ← select_one (λ t, vt_task_id t ≟ taskID);
    of_option row ErrNoRows).
End router.

(** ** What a decision rests on *)

Section decisions.
Context (media_url_ok : string → bool).

Lemma try_items_found protocol healthy r items has verr n :
  try_items media_url_ok protocol healthy r items has verr = inl n →
  healthy = true ∧ ∃ m, m ∈ items ∧ nmd_ModelID m = gr_Model r ∧ nmd_Enabled m = true ∧
    nmd_Present m = true ∧ Normalize media_url_ok protocol r (nmd_Capabilities m) = inr n.
Proof.
  revert has verr. induction items as [|m items IH]; intros has verr; [done|]. simpl.
  destruct (negb (nmd_ModelID m ≟ _) || _ || _) eqn:E.
  { intros (? & m' & ? & ?)%IH. split; [done|]. exists m'. set_solver. }
  rewrite !orb_false_iff, !negb_false_iff, bool_decide_eq_true in E. destruct E as [[E1 E2] E3].
  destruct (Normalize _ _ _ _) as [err|n'] eqn:En.
  { intros (? & m' & ? & ?)%IH. split; [done|]. exists m'. set_solver. }
  destruct healthy.
  - intros [= <-]. split; [done|]. exists m. split_and!; [by left|done..].
  - intros (? & m' & ? & ?)%IH. split; [done|]. exists m'. set_solver.
Qed.

(** The node, catalogue and item a routing decision was made from. *)
Definition chosen (st : RouteStore) (healthy : string → bool) (now : Z) (protocol : string)
    (r : GenerationRequest) (n : NormalizedRequest) : Prop :=
  ∃ node cat m, node ∈ ListNodes st ∧ mn_enabled node = true ∧
    mn_protocol_version node = protocol ∧ healthy (mn_id node) = true ∧
    GetModelCatalog st (mn_id node) = inr cat ∧ catalog_stale now cat = false ∧
    m ∈ cat_Items cat ∧ nmd_ModelID m = gr_Model r ∧ nmd_Enabled m = true ∧
    nmd_Present m = true ∧ Normalize media_url_ok protocol r (nmd_Capabilities m) = inr n ∧
    Accepts (nmd_Capabilities m) (nr_Requirements n) = true.

Lemma try_nodes_found st healthy now protocol r nodes has verr n :
  (∀ x, x ∈ nodes → x ∈ ListNodes st) →
  try_nodes media_url_ok st healthy now protocol r nodes has verr = inr (inl n) →
  chosen st healthy now protocol r n.
Proof.
  revert has verr. induction nodes as [|x nodes IH]; intros has verr Hsub; [done|]. simpl.
  assert (∀ y, y ∈ nodes → y ∈ ListNodes st) as Hsub' by set_solver.
  destruct (negb (mn_enabled x) || _) eqn:E; [by apply IH|].
  rewrite orb_false_iff, !negb_false_iff, bool_decide_eq_true in E. destruct E as [E1 E2].
  rewrite sum_bind_inr. intros (cat & Hcat & H).
  destruct (catalog_stale now cat) eqn:Es; [by apply IH in H|].
  destruct (try_items _ _ _ _ _ _ _) as [d|[has' verr']] eqn:Et; [|by apply IH in H].
  injection H as ->. apply try_items_found in Et as (Hh & m & ? & ? & ? & ? & ?).
  exists x, cat, m. split_and!; try done; [apply Hsub; by left|].
  by eapply Normalize_spec.
Qed.

(** What a decision records. *)
Definition justified (st : RouteStore) (healthy : string → bool) (now : Z)
    (r : GenerationRequest) (d : Decision_) : Prop :=
  ∃ route revision def,
    GetModelRoute st (gr_Model r) = inr (route, revision) ∧
    ro_ProtocolVersion route ≠ "" ∧ ro_SelectionMode route ≠ "unresolved" ∧
    (ro_SelectionMode route = "manual" ∨
     ∀ c, c ∈ ro_Candidates route → rc_ProtocolVersion c = ro_ProtocolVersion route) ∧
    Lookup (ro_ProtocolVersion route) = Some def ∧
    chosen st healthy now (ro_ProtocolVersion route) r (dc_Normalized d) ∧
    dc_Snapshot d = mkSnapshot 1 (gr_Model r) (ro_ProtocolVersion route) (ro_Version route)
      revision (ro_SelectionMode route) (pd_ParameterPlan def)
      (nr_NormalizerVersion (dc_Normalized d)) (nr_Requirements (dc_Normalized d)).

Lemma Resolve_justified st healthy now r d :
  Resolve media_url_ok st healthy now r = inr d → justified st healthy now r d.
Proof.
  unfold Resolve. rewrite sum_bind_inr. intros ([route revision] & Hr & H). cbv beta iota in H.
  destruct (_ || (ro_SelectionMode route ≟ "unresolved")) eqn:E1; [done|].
  apply orb_false_iff in E1 as [E1%bool_decide_eq_false E1'%bool_decide_eq_false].
  destruct (negb (ro_SelectionMode route ≟ "manual") && _) eqn:E2; [done|].
  destruct (Lookup _) as [def|] eqn:El; [|done].
  apply sum_bind_inr in H as (oc & Hn & H). destruct oc as [n|[[] []]]; try done.
  injection H as <-. exists route, revision, def. simpl. split_and!; try done.
  - destruct (decide (ro_SelectionMode route = "manual")) as [|Hm]; [by left|right].
    rewrite (bool_decide_eq_false_2 _ Hm) in E2. simpl in E2. intros c Hc.
    rewrite <-not_true_iff_false, existsb_exists in E2.
    destruct (decide (rc_ProtocolVersion c = ro_ProtocolVersion route)) as [|Hne]; [done|].
    destruct E2. exists c. rewrite <-list_elem_of_In. by rewrite (bool_decide_eq_false_2 _ Hne).
  - by eapply try_nodes_found; [|exact Hn].
Qed.

(** A routing decision is justified.  Against any implementation of the
    router's store interface, [Resolve] returns a decision only if the model
    has a resolved route whose protocol is known and undisputed, unless an
    administrator chose it; some enabled and healthy node of that protocol has
    a catalogue that is not stale with the model enabled and present, and the
    request was normalized for that node's capability, which accepts its
    requirements; the snapshot records the route and these requirements. *)
Theorem Resolve_sound st healthy now r d :
  Resolve media_url_ok st healthy now r = inr d → justified st healthy now r d.
Proof. apply Resolve_justified. Qed.

(** ** The store accepts what the router decides *)

Lemma catalogWith_row nodeID db c :
  catalogWith nodeID db = inr c →
  ∃ x, x ∈ db_catalogs db ∧ nc_node_id x = nodeID ∧ nc_source x = cat_Source c ∧
    cat_ValidUntil c = coalesce_int (nc_valid_until x).
Proof.
  unfold catalogWith. destruct (List.find _ _) as [x|] eqn:E; [|done].
  rewrite sum_bind_inr. intros (items & _ & [= <-]).
  apply find_elem_of in E as [Hx Ex%bool_decide_eq_true]. by exists x.
Qed.

(** The chosen node is one the store would route to. *)
Lemma chosen_routable e db healthy protocol r n :
  0 ≤ nowUnix e → chosen (sqlite_store db) healthy (nowUnix e) protocol r n →
  ∃ id cat, id ∈ routable_nodes e protocol (gr_Model r) db ∧ catalogWith id db = inr cat ∧
    catalog_accepts (gr_Model r) (nr_Requirements n) cat = true.
Proof.
  intros Hnow (node & cat & m & Hnode & Hen & Ep & _ & Hcat & Hst & Hm & Emod & Hmen & Hmp & _ & Hacc).
  simpl in Hnode, Hcat. exists (mn_id node), cat. split_and!; [|done|].
  - unfold ListModelNodes in Hnode.
    apply order_by_text_elem, elem_of_filter_bool in Hnode as [Hdel Hnode].
    destruct (catalogWith_item _ _ _ _ Hcat Hm) as (row & Hrow & Enode & Erow).
    destruct (catalogWith_row _ _ _ Hcat) as (c & Hc & Ecn & Esrc & Evu).
    unfold node_model_of_row in Erow. destruct (unmarshal _) as [caps|]; [|done].
    injection Erow as <-. simpl in *.
    unfold routable_nodes. apply list_elem_of_In, in_map_iff. exists (row, node, c). split; [done|].
    apply list_elem_of_In, elem_of_join_on. split_and!; [|done|].
    + apply elem_of_filter_bool. simpl. rewrite !bool_decide_eq_true_2 by done. split; [done|].
      apply elem_of_join_on. split_and!; [done..|].
      by rewrite Hmen, Hmp, Hen, Hdel, bool_decide_eq_true_2.
    + simpl. rewrite (bool_decide_eq_true_2 _ Ecn). simpl. unfold catalog_stale in Hst.
      rewrite Esrc. destruct (cat_Source cat ≟ "discovered"); [|done]. simpl in *.
      apply orb_false_iff in Hst as [Hst _]. rewrite Evu in Hst.
      destruct (nc_valid_until c); simpl in *; apply Z.leb_gt in Hst; [by apply Z.ltb_lt|lia].
  - unfold catalog_accepts. apply existsb_exists. exists m. rewrite <-list_elem_of_In.
    split; [done|]. by rewrite Hmen, Hmp, Hacc, bool_decide_eq_true_2.
Qed.

Lemma collect_total {E A B} (f : A → E + B) l :
  (∀ x, x ∈ l → ∃ b, f x = inr b) → ∃ bs, collect f l = inr bs.
Proof.
  induction l as [|x l IH]; intros H; [by exists []|]. cbn [collect].
  destruct (H x (list_elem_of_here _ _)) as (b & ->). destruct IH as (bs & ->); [set_solver|].
  by exists (b :: bs).
Qed.

(** C30: the router and the store agree.  If the router resolves a request
    against the database, then a task built from its decision passes the check
    [Create] repeats in its transaction on the same database, provided the
    routing revision is positive and the catalogues of the nodes the store
    would route to can be read: the task gets the decided protocol and
    snapshot. *)
Theorem Resolve_prepare e healthy r d inp db :
  Resolve media_url_ok (sqlite_store db) healthy (nowUnix e) r = inr d →
  0 ≤ nowUnix e → 0 < db_routing_revision db →
  (∀ id, id ∈ routable_nodes e (rs_ProtocolVersion (dc_Snapshot d)) (gr_Model r) db →
     ∃ c, catalogWith id db = inr c) →
  nt_Model inp = gr_Model r →
  nt_ProtocolVersion inp = rs_ProtocolVersion (dc_Snapshot d) →
  nt_RoutingSnapshotJSON inp = Some (JsonOf (dc_Snapshot d)) →
  nt_RoutingRevision inp = rs_RoutingRevision (dc_Snapshot d) →
  ∃ inp', prepareTaskRouting e inp db = inr inp' ∧
    nt_ProtocolVersion inp' = rs_ProtocolVersion (dc_Snapshot d) ∧
    nt_RoutingSnapshotJSON inp' = Some (JsonOf (dc_Snapshot d)).
Proof.
  intros (route & revision & def & Hroute & Hne & _ & _ & Hlook & Hch & Esn)%Resolve_justified
    Hnow Hrev Hcats Emod Epr Ejson Erev.
  assert (revision = db_routing_revision db) as ->.
  { simpl in Hroute. unfold routeWith in Hroute. destruct (List.find _ _); [|done]. congruence. }
  apply chosen_routable in Hch as (id & cat & Hid & Hcat & Hacc); [|done].
  rewrite Esn in *. simpl in *.
  unfold prepareTaskRouting, route_protocol. rewrite Epr, (bool_decide_eq_false_2 _ Hne). simpl.
  rewrite Hlook, Ejson. simpl. rewrite Emod, !bool_decide_eq_true_2 by done. simpl.
  rewrite Erev, (proj2 (Z.ltb_lt _ _) Hrev), Z.eqb_refl. simpl.
  destruct (routable_nodes e (ro_ProtocolVersion route) (gr_Model r) db) as [|id0 ids] eqn:Eids;
    [by apply elem_of_nil in Hid|].
  destruct (collect_total (λ id, catalogWith id db) (id0 :: ids)) as (cats & Hcs); [done|].
  rewrite Hcs. simpl.
  assert (existsb (catalog_accepts (gr_Model r) (nr_Requirements (dc_Normalized d))) cats = true)
    as ->; [|by eexists].
  apply existsb_exists. exists cat. split; [|done]. apply list_elem_of_In.
  apply collect_inr in Hcs. apply list_elem_of_lookup in Hid as (i & Hi).
  destruct (Forall2_lookup_l _ _ _ _ _ Hcs Hi) as (cat' & Hi' & Ec).
  apply list_elem_of_lookup. exists i. rewrite Hi'. congruence.
Qed.
End decisions.
