(* ===== verification/InputSpool.v ===== *)
(** * Input spooling (internal/inputspool/spooler.go, restorer.go)

    Media that arrive inline as data URIs are written to files before a task is
    stored; the request then refers to them as proxy-input://TASK/INPUT.  A
    worker of an official node puts them back before it submits.  The request
    is read here as its decoded form; the files under the spool directory are a
    map from relative paths to contents. *)

From stdpp Require Import gmap.
From S2P Require Import Prelude Domain Tx Database Sql GoStrings GoNet Normalize.

(** ** Queries (internal/store/sqlite/input_spool_store.go) *)

Definition ListInputSpoolFiles (taskID : string) (db : DB) : list InputSpoolFile :=
  order_by_key (λ f, (sf_content_index f, sf_id f)) (List.filter (λ f, sf_task_id f ≟ taskID) (db_spool_files db)).

(** The newest task with the same request that has an uploaded input; of tasks
    created in the same second, the first stored. *)
Definition reusable_task (apiKeyID requestHash : string) (db : DB) (t : Task) : bool :=
  (vt_owner t ≟ apiKeyID) && (vt_request_hash (vt_request t) ≟ requestHash) && vt_live t
  && exists_where (λ f, (sf_task_id f ≟ vt_task_id t) && negb (sf_object_url f ≟ ""))
       (db_spool_files db).

Definition FindReusableInputObjects (apiKeyID requestHash : string) (db : DB)
    : error + (json_text GenerationRequest * list InputSpoolFile) :=
  match order_by (λ t, - vt_created_at (vt_request t))
          (List.filter (reusable_task apiKeyID requestHash db) (db_video_tasks db)) with
  | [] => inl ErrTaskNotFound
  | t :: _ =>
      let files := ListInputSpoolFiles (vt_task_id t) db in
      if existsb (λ f, sf_object_url f ≟ "") files then inl ErrTaskNotFound
      else inr (vt_request_json (vt_request t), files)
  end.

Definition ListInputSpoolTaskIDs (db : DB) : list string :=
  remove_dups (map vt_task_id (List.filter vt_live (db_video_tasks db)) ++ map sf_task_id (db_spool_files db)).

(** ** base64.StdEncoding *)

Definition bytes_of (s : string) : list Z := map byte_of (String.list_ascii_of_string s).
Definition text_of (bs : list Z) : string :=
  String.string_of_list_ascii (map (λ b, Ascii.ascii_of_nat (Z.to_nat b)) bs).

(** The character of a value of six bits. *)
Definition base64_char (v : Z) : Ascii.ascii :=
  Ascii.ascii_of_nat (Z.to_nat
    (if v <? 26 then v + 65 else if v <? 52 then v + 71 else if v <? 62 then v - 4
     else if v =? 62 then 43 else 47)).
Definition pad : Ascii.ascii := Ascii.ascii_of_nat 61.

Fixpoint encode_bytes (bs : list Z) : list Ascii.ascii :=
  match bs with
  | a :: b :: c :: bs =>
      [base64_char (Z.shiftr a 2);
       base64_char (Z.lor (Z.shiftl (Z.land a 3) 4) (Z.shiftr b 4));
       base64_char (Z.lor (Z.shiftl (Z.land b 15) 2) (Z.shiftr c 6));
       base64_char (Z.land c 63)] ++ encode_bytes bs
  | [a; b] =>
      [base64_char (Z.shiftr a 2);
       base64_char (Z.lor (Z.shiftl (Z.land a 3) 4) (Z.shiftr b 4));
       base64_char (Z.shiftl (Z.land b 15) 2); pad]
  | [a] =>
      [base64_char (Z.shiftr a 2); base64_char (Z.shiftl (Z.land a 3) 4); pad; pad]
  | [] => []
  end.
Definition EncodeToString (payload : string) : string :=
  String.string_of_list_ascii (encode_bytes (bytes_of payload)).

Definition bytes3 (v1 v2 v3 v4 : Z) : list Z :=
  [Z.lor (Z.shiftl v1 2) (Z.shiftr v2 4);
   Z.lor (Z.shiftl (Z.land v2 15) 4) (Z.shiftr v3 2);
   Z.lor (Z.shiftl (Z.land v3 3) 6) v4].

(** [Strict().DecodeString], with the bytes [base64_quads] counts. *)
Fixpoint decode_quads (cs : list Ascii.ascii) : option (list Z) :=
  match cs with
  | [] => Some []
  | [c1; c2; c3; c4] =>
      match base64_value c1, base64_value c2, base64_value c3, base64_value c4 with
      | Some v1, Some v2, Some v3, Some v4 => Some (bytes3 v1 v2 v3 v4)
      | Some v1, Some v2, Some v3, None =>
          if is_pad c4 && (Z.land v3 3 =? 0) then Some (take 2 (bytes3 v1 v2 v3 0)) else None
      | Some v1, Some v2, None, None =>
          if is_pad c3 && is_pad c4 && (Z.land v2 15 =? 0) then Some (take 1 (bytes3 v1 v2 0 0))
          else None
      | _, _, _, _ => None
      end
  | c1 :: c2 :: c3 :: c4 :: cs =>
      match base64_value c1, base64_value c2, base64_value c3, base64_value c4 with
      | Some v1, Some v2, Some v3, Some v4 => app (bytes3 v1 v2 v3 v4) <$> decode_quads cs
      | _, _, _, _ => None
      end
  | _ => None
  end.
Definition DecodeString (s : string) : option string :=
  text_of <$> decode_quads (List.filter (λ c, negb ((byte_of c =? 13) || (byte_of c =? 10)))
    (String.list_ascii_of_string s)).

(** ** Media types *)

Definition prefix_bytes (bs : list Z) (payload : string) : bool :=
  bool_decide (take (length bs) (bytes_of payload) = bs).
Definition at_offset (n : nat) (bs : list Z) (payload : string) : bool :=
  bool_decide (take (length bs) (drop n (bytes_of payload)) = bs).
Definition mpeg_frame (payload : string) : bool :=
  match bytes_of payload with
  | b0 :: b1 :: _ => (b0 =? 255) && (Z.land b1 224 =? 224)
  | _ => false
  end.

Definition detectMediaType (payload : string) : string :=
  if prefix_bytes [137; 80; 78; 71; 13; 10; 26; 10] payload then "image/png"
  else if prefix_bytes [255; 216; 255] payload then "image/jpeg"
  else if prefix_bytes (bytes_of "RIFF") payload && at_offset 8 (bytes_of "WEBP") payload
  then "image/webp"
  else if prefix_bytes (bytes_of "RIFF") payload && at_offset 8 (bytes_of "WAVE") payload
  then "audio/wav"
  else if (12 <=? len payload) && at_offset 4 (bytes_of "ftyp") payload then "video/mp4"
  else if prefix_bytes (bytes_of "ID3") payload then "audio/mpeg"
  else if mpeg_frame payload then "audio/mpeg"
  else "".

Definition normalizeMediaType (mediaType : string) : string :=
  if mediaType ≟ "image/jpg" then "image/jpeg"
  else if mediaType ≟ "audio/mp3" then "audio/mpeg"
  else if mediaType ≟ "audio/x-wav" then "audio/wav"
  else mediaType.

Definition chooseMediaType (contentType declared detected : string) : string :=
  let wantPrefix := String.append (TrimSuffix contentType "_url") "/" in
  if negb (detected ≟ "")
  then if negb (HasPrefix detected wantPrefix) then "" else normalizeMediaType detected
  else if HasPrefix declared wantPrefix then normalizeMediaType declared
  else "".

Definition mediaExtension (mediaType : string) : string :=
  let m := normalizeMediaType mediaType in
  if m ≟ "image/jpeg" then ".jpg"
  else if m ≟ "image/png" then ".png"
  else if m ≟ "image/webp" then ".webp"
  else if m ≟ "audio/wav" then ".wav"
  else if m ≟ "audio/mpeg" then ".mp3"
  else if m ≟ "video/mp4" then ".mp4"
  else ".bin".

Definition maxDecodedBytes (contentType : string) : Z :=
  if contentType ≟ "image_url" then 30 * MiB
  else if contentType ≟ "video_url" then 50 * MiB
  else if contentType ≟ "audio_url" then 15 * MiB
  else 0.

Record DecodedDataURI := mkDecoded {
  dd_Payload : string;
  dd_DeclaredMIME : string;
  dd_DetectedMIME : string;
  dd_MediaType : string;
  dd_Extension : string;
  dd_SHA256 : string
}.

Definition declared_mime (header : string) : string :=
  ToLower (TrimSuffix (TrimPrefix header "data:") ";base64").

Definition DecodeDataURI (e : Env) (contentType rawURL : string) : error + DecodedDataURI :=
  let '(header, encoded, ok) := Cut rawURL comma in
  if negb ok || (encoded ≟ "") || negb (HasSuffix (ToLower header) ";base64")
  then inl (ErrText "素材 Data URI 无效")
  else
  let declared := declared_mime header in
  match DecodeString encoded with
  | None => inl (ErrText "illegal base64 data")
  | Some payload =>
      if payload ≟ "" then inl (ErrText "输入素材为空")
      else
      let detected := detectMediaType payload in
      let mediaType := chooseMediaType contentType declared detected in
      if mediaType ≟ "" then inl (ErrText "媒体文件格式与声明类型不匹配")
      else inr (mkDecoded payload (normalizeMediaType declared) (normalizeMediaType detected)
                  mediaType (mediaExtension mediaType) (env_sha256_hex e payload))
  end.

(** ** The spool directory *)

Definition Disk := gmap string string.

(** Lexical paths: [filepath.Clean] on the components of a path below the
    components of the root, and [safeUnder]. *)
Fixpoint clean (stack comps : list string) : list string :=
  match comps with
  | [] => rev stack
  | c :: comps =>
      if (c ≟ "") || (c ≟ ".") then clean stack comps
      else if c ≟ ".." then clean (tail stack) comps
      else clean (c :: stack) comps
  end.
Definition safeUnder (root path : list string) : bool :=
  bool_decide (take (length root) path = root)
  && match drop (length root) path with
     | [] => false
     | c :: _ => negb (HasPrefix c "..")
     end.

Definition media_types : list string := ["image_url"; "video_url"; "audio_url"].

(** Set the URL of the medium an element carries. *)
Definition set_media (c : GenerationContent) (u : string) : GenerationContent :=
  if gc_Type c ≟ "image_url" then c <| gc_ImageURL := Some u |>
  else if gc_Type c ≟ "video_url" then c <| gc_VideoURL := Some u |>
  else if gc_Type c ≟ "audio_url" then c <| gc_AudioURL := Some u |>
  else c.

Section spool.
(** The clock, SHA-256 and so on, the components of the spool root, which
    operations of the file system succeed, [url.Parse], and the length of a
    request as JSON. *)
Context (e : Env) (root : list string) (os_ok : string → string → bool).
Context (url_Parse : string → option URL) (json_len : json_text GenerationRequest → Z).

Definition stableInputID (taskID : string) (index : Z) (source : string) : string :=
  let NUL := String (Ascii.ascii_of_nat 0) "" in
  String.append "input_"
    (String.substring 0 32 (env_sha256_hex e
      (String.concat NUL [taskID; Itoa index; source]))).

Definition roleOf (c : GenerationContent) : string :=
  if gc_Role c ≟ "" then "input" else gc_Role c.

(** The file of an input, and the disk with it: the payload is written to a
    .part file that is then renamed. *)
Definition writeDataURI (taskID : string) (index : Z) (contentType role rawURL : string)
    (disk : Disk) : (error + InputSpoolFile) * Disk :=
  match DecodeDataURI e contentType rawURL with
  | inl err => (inl err, disk)
  | inr decoded =>
      let '(header, _, _) := Cut rawURL comma in
      let inputID := stableInputID taskID index rawURL in
      let name := String.append inputID (dd_Extension decoded) in
      let relativePath := String.concat "/" [taskID; name] in
      let partPath := String.append relativePath ".part" in
      if negb (safeUnder (root ++ [taskID]) (clean [] (root ++ [taskID; name])))
      then (inl (ErrText "输入临时文件路径无效"), disk)
      else if negb (os_ok "mkdir" taskID) then (inl (ErrText "mkdir"), disk)
      else if negb (os_ok "write" partPath) then (inl (ErrText "write"), disk)
      else
      let disk := <[partPath := dd_Payload decoded]> disk in
      if negb (os_ok "rename" relativePath)
      then (inl (ErrText "rename"), delete partPath disk)
      else
      (inr (mkSpoolFile inputID taskID index contentType role "data_uri" (declared_mime header)
              (detectMediaType (dd_Payload decoded)) (dd_MediaType decoded) (dd_Extension decoded)
              relativePath "" (len (dd_Payload decoded)) (dd_SHA256 decoded) 0 0),
       <[relativePath := dd_Payload decoded]> (delete partPath disk))
  end.

(** [prepared.Cleanup]: RemoveAll of the directory of the task. *)
Definition cleanup (taskID : string) (disk : Disk) : Disk :=
  filter (λ kv, negb (HasPrefix kv.1 (String.append taskID "/")) = true) disk.

Definition proxy_input (taskID inputID : string) : string :=
  String.concat "" ["proxy-input://"; taskID; "/"; inputID].

(** The loop over the content; the context is not cancelled. *)
Fixpoint spool_content (taskID : string) (index : Z) (cs : list GenerationContent) (disk : Disk)
    : (error + (list GenerationContent * list InputSpoolFile)) * Disk :=
  match cs with
  | [] => (inr ([], []), disk)
  | c :: cs =>
      let rawURL := default "" (Media c) in
      if negb (gc_Type c ∈? media_types) || negb (HasPrefix rawURL "data:")
      then
        match spool_content taskID (index + 1) cs disk with
        | (inr (cs', fs), disk) => (inr (c :: cs', fs), disk)
        | r => r
        end
      else
        match writeDataURI taskID index (gc_Type c) (roleOf c) rawURL disk with
        | (inl err, disk) => (inl err, disk)
        | (inr file, disk) =>
            match spool_content taskID (index + 1) cs disk with
            | (inr (cs', fs), disk) =>
                (inr (set_media c (proxy_input taskID (sf_id file)) :: cs', file :: fs), disk)
            | r => r
            end
        end
  end.

Definition PrepareRequest (taskID : string) (request : json_text GenerationRequest) (disk : Disk)
    : (error + (GenerationRequest * list InputSpoolFile)) * Disk :=
  if (taskID ≟ "") || ContainsByte taskID slash || ContainsByte taskID backslash
     || (taskID ≟ ".") || (taskID ≟ "..")
  then (inl (ErrText "task_id 无效"), disk)
  else
  match unmarshal request with
  | None => (inl ErrUnmarshal, disk)
  | Some r =>
      match spool_content taskID 0 (gr_Content r) disk with
      | (inl err, disk) => (inl err, cleanup taskID disk)
      | (inr (cs, fs), disk) => (inr (r <| gr_Content := cs |>, fs), disk)
      end
  end.

(** ** Restoring

    The task's rows of task_input_spool_files are [files]. *)

Definition parseProxyInputReference (rawURL taskID : string) : error + string :=
  let invalid := inl (ErrText "输入暂存引用无效") in
  match url_Parse rawURL with
  | None => invalid
  | Some parsed =>
      if negb (url_Scheme parsed ≟ "proxy-input") || negb (url_Host parsed ≟ taskID)
         || url_User parsed || negb (url_RawQuery parsed ≟ "") || negb (url_Fragment parsed ≟ "")
      then invalid
      else
      let inputID := TrimPrefix (url_EscapedPath parsed) "/" in
      if (inputID ≟ "") || ContainsByte inputID slash
         || negb (inputID ≟ String.substring 1 (String.length (url_Path parsed)) (url_Path parsed))
      then invalid
      else inr inputID
  end.

(** [filepath.Ext]: from the last dot of the last component. *)
Definition Ext (name : string) : string :=
  match rev (split_byte dot name) with
  | [] | [_] => ""
  | w :: _ => String.append "." w
  end.

Definition readVerified (file : InputSpoolFile) (disk : Disk) : error + string :=
  let path := sf_relative_path file in
  if negb (safeUnder root (clean [] (root ++ split_byte slash path))) || ContainsByte path backslash
  then inl (ErrText "输入暂存文件路径无效")
  else if negb (Ext path ≟ sf_extension file)
  then inl (ErrText "输入暂存文件扩展名不匹配")
  else
  match disk !! path with
  | None => inl (ErrText "输入暂存文件不可读")
  | Some payload =>
      if negb (len payload =? sf_size_bytes file) || (len payload <=? 0)
         || (maxDecodedBytes (sf_content_type file) <? len payload)
      then inl (ErrText "输入暂存文件大小不匹配")
      else if negb (os_ok "read" path) then inl (ErrText "读取输入暂存文件失败")
      else if negb (env_sha256_hex e payload ≟ ToLower (sf_sha256 file))
      then inl (ErrText "输入暂存文件校验失败")
      else
      let detected := normalizeMediaType (detectMediaType payload) in
      if (detected ≟ "") || negb (detected ≟ normalizeMediaType (sf_media_type file))
      then inl (ErrText "输入暂存文件类型不匹配")
      else inr payload
  end.

Definition GetInputSpoolFile (taskID inputID : string) (files : list InputSpoolFile)
    : error + InputSpoolFile :=
  match List.find (λ f, (sf_task_id f ≟ taskID) && (sf_id f ≟ inputID)) files with
  | Some f => inr f
  | None => inl ErrTaskNotFound
  end.

Definition restore_item (taskID : string) (index : Z) (c : GenerationContent)
    (files : list InputSpoolFile) (disk : Disk) : error + GenerationContent :=
  let rawURL := default "" (Media c) in
  if negb (gc_Type c ∈? media_types) || negb (HasPrefix rawURL "proxy-input://") then inr c
  else
    inputID ← parseProxyInputReference rawURL taskID;
    file ← GetInputSpoolFile taskID inputID files;
    if negb (sf_id file ≟ inputID) || negb (sf_task_id file ≟ taskID)
       || negb (sf_content_index file =? index) || negb (sf_content_type file ≟ gc_Type c)
       || negb (sf_role file ≟ gc_Role c) || negb (sf_source_kind file ≟ "data_uri")
    then inl (ErrText "输入暂存元数据与请求不匹配")
    else
      payload ← readVerified file disk;
      inr (set_media c (String.concat "" ["data:"; sf_media_type file; ";base64,";
                                          EncodeToString payload])).

Fixpoint restore_content (taskID : string) (index : Z) (cs : list GenerationContent)
    (files : list InputSpoolFile) (disk : Disk) : error + list GenerationContent :=
  match cs with
  | [] => inr []
  | c :: cs =>
      c ← restore_item taskID index c files disk;
      cs ← restore_content taskID (index + 1) cs files disk;
      inr (c :: cs)
  end.

Definition maxOfficialRequestBytes : Z := 64 * MiB.

(** The restored request; the length of the result is checked only when
    something changed. *)
Definition Restore (taskID : string) (request : json_text GenerationRequest)
    (files : list InputSpoolFile) (disk : Disk) : error + json_text GenerationRequest :=
  if maxOfficialRequestBytes <? json_len request then inl (ErrText "官方请求体不能超过 64 MiB")
  else
  match unmarshal request with
  | None => inl (ErrText "官方请求 JSON 无效")
  | Some r =>
      cs ← restore_content taskID 0 (gr_Content r) files disk;
      let restored := JsonOf (r <| gr_Content := cs |>) in
      let changed := existsb (λ c, (gc_Type c ∈? media_types)
                                   && HasPrefix (default "" (Media c)) "proxy-input://")
                       (gr_Content r) in
      if changed && (maxOfficialRequestBytes <? json_len restored)
      then inl (ErrText "官方请求体不能超过 64 MiB")
      else inr restored
  end.
End spool.
