(* ===== verification/Gradio.v ===== *)
(** * The client of a legacy node (internal/upstream/gradio)

    A legacy node is a Gradio application: a call posts its arguments, is given
    the id of an event and reads the result from a stream of server-sent events;
    a second API lists and cancels the jobs of its queue.  The state of the node
    and the videos it has made are read from the outputs of a call. *)

From stdpp Require Import list.
From Stdlib Require Import SpecFloat.
From S2P Require Import Prelude Domain Tx Database Sql Workers GoStrings GoFloat GoNet GoHttp Netguard Monitor Catalog Paging TaskRouting Callbacks Queue Stages Artifacts Remote Tasks Official Delivery Nodes Config Normalize InputSpool.

(** ** Arguments (mapping.go) *)

(** [FileData]: a path or a URL, the other one empty. *)
Record FileData := mkFileData { fd_Path : string; fd_URL : string }.
(** The values in an argument list. *)
Inductive argument :=
  | ArgNil
  | ArgText (s : string)
  | ArgInt (z : Z)
  | ArgBool (b : bool)
  | ArgFile (f : FileData).

Definition fileData (value : string) : FileData := mkFileData value "".
Definition imageData (value : string) : FileData :=
  if HasPrefix value "data:image/" then mkFileData "" value else fileData value.

Definition mode_of (scenario : string) : string :=
  if scenario ≟ "t2va" then "文生视频"
  else if scenario ≟ "i2va" then "图生视频（首帧/可选尾帧）"
  else if scenario ≟ "r2va" then "全能参考生成视频"
  else "".

(** The arguments and the next slots for an image, a video and an audio. *)
Record slots := mkSlots { sl_args : list argument; sl_image : nat; sl_video : nat; sl_audio : nat }.

(** A validated item has the URL of its role. *)
Definition place (s : slots) (item : GenerationContent) : slots :=
  let image := default "" (gc_ImageURL item) in
  if gc_Role item ≟ "first_frame"
  then mkSlots (<[5%nat := ArgFile (imageData image)]> (sl_args s)) (sl_image s) (sl_video s) (sl_audio s)
  else if gc_Role item ≟ "last_frame"
  then mkSlots (<[6%nat := ArgFile (imageData image)]> (sl_args s)) (sl_image s) (sl_video s) (sl_audio s)
  else if gc_Role item ≟ "reference_image"
  then mkSlots (<[sl_image s := ArgFile (imageData image)]> (sl_args s))
         (S (sl_image s)) (sl_video s) (sl_audio s)
  else if gc_Role item ≟ "reference_video"
  then mkSlots (<[sl_video s := ArgFile (fileData (default "" (gc_VideoURL item)))]> (sl_args s))
         (sl_image s) (S (sl_video s)) (sl_audio s)
  else if gc_Role item ≟ "reference_audio"
  then mkSlots (<[sl_audio s := ArgFile (fileData (default "" (gc_AudioURL item)))]> (sl_args s))
         (sl_image s) (sl_video s) (S (sl_audio s))
  else s.

Definition fixed_arguments (r : ValidatedRequest) (profile : GenerationProfile) : list argument :=
  let custom s := ArgText (if s ≟ "" then "__follow_model_mode__" else s) in
  [ArgText (mode_of (vr_Scenario r)); ArgText (vr_Prompt r); ArgText "批量单图视频"; ArgNil; ArgText "";
   ArgNil; ArgNil;
   ArgText "match"; ArgText (gp_ModelMode profile); custom (gp_CustomModel profile);
   custom (gp_CustomModelHigh profile); ArgBool (gp_EasyCache profile);
   ArgInt (vr_Width r); ArgInt (vr_Height r); ArgInt (gr_Duration (vr_Request r));
   ArgInt (gp_Steps profile); ArgInt (-1)]
  ++ replicate 15 ArgNil.

(** [None] for a scenario or a frame rate that the node does not know. *)
Definition BuildArguments (r : ValidatedRequest) (profile : GenerationProfile) : option (list argument) :=
  if mode_of (vr_Scenario r) ≟ "" then None
  else if negb (gp_FPS profile =? 0) && negb (gp_FPS profile =? 24) then None
  else Some (sl_args (fold_left place (gr_Content (vr_Request r))
                        (mkSlots (fixed_arguments r profile) 17 26 29))).

(** ** Jobs (jobs.go) *)

Inductive JobStatus := JobPending | JobInProgress | JobCompleted | JobFailed | JobCancelled.
#[export] Instance JobStatus_eq_dec : EqDecision JobStatus.
Proof. solve_decision. Defined.
(** A job as decoded; its status is [None] when it is not one of the five. *)
Record raw_job := mkRawJob { rj_ID : string; rj_Status : option JobStatus }.
Record Job := mkJob { jb_ID : string; jb_Status : JobStatus }.

(** [^[0-9a-f]{8}-[0-9a-f]{4}-[0-9a-f]{4}-[0-9a-f]{4}-[0-9a-f]{12}$] *)
Definition lower_hex (c : Ascii.ascii) : bool :=
  in_range 48 57 (byte_of c) || in_range 97 102 (byte_of c).
Definition hex_group (n : nat) (s : string) : bool :=
  (String.length s =? n)%nat && forallb lower_hex (String.list_ascii_of_string s).
Definition canonicalJobID (s : string) : bool :=
  match split_byte dash s with
  | [a; b; c; d; e] => hex_group 8 a && hex_group 4 b && hex_group 4 c && hex_group 4 d && hex_group 12 e
  | _ => false
  end.

Inductive gradio_error :=
  | ErrRequestRejected
  | ErrJobNotFound
  | GradioOther.
Definition is_rejected (err : gradio_error) : bool :=
  match err with ErrRequestRejected => true | _ => false end.
Definition is_not_found (err : gradio_error) : bool :=
  match err with ErrJobNotFound => true | _ => false end.

Definition validateJob (job : raw_job) : gradio_error + Job :=
  if negb (canonicalJobID (rj_ID job)) then inl GradioOther
  else match rj_Status job with
       | Some status => inr (mkJob (rj_ID job) status)
       | None => inl GradioOther
       end.
Fixpoint validateJobs (jobs : list raw_job) : gradio_error + list Job :=
  match jobs with
  | [] => inr []
  | job :: jobs => j ← validateJob job; js ← validateJobs jobs; mret (j :: js)
  end.

(** ** The stream of events (client.go decodeSSE) *)

Definition LF : Ascii.ascii := Ascii.ascii_of_nat 10.
Definition CR : Ascii.ascii := Ascii.ascii_of_nat 13.

(** The lines [bufio.ScanLines] yields: a line ends at a line feed, a carriage
    return before it is dropped, and what is left at the end is a line unless it is
    empty. *)
Definition drop_CR (s : string) : string := TrimSuffix s (String CR EmptyString).
Fixpoint drop_empty_last (l : list string) : list string :=
  match l with
  | [] => []
  | [s] => if s ≟ "" then [] else [s]
  | s :: l => s :: drop_empty_last l
  end.
Definition scan_lines (data : string) : list string :=
  map drop_CR (drop_empty_last (split_byte LF data)).

Section gradio.
Context (url_Parse : string → option URL) (escaped_path : string → string → string).
Context (url_String : URL → string) (EqualFold : string → string → bool).
(** [strings.ToLower] on a host, [http.NewRequest] on a URL. *)
Context (lower : string → string) (request_ok : string → bool).
(** JSON: the body of a call, the id of an event, an output, jobs, a job, whether a
    job was cancelled, and paths. *)
Context (call_json : list argument → option string).
Context (event_of_json : string → option string) (output_of_json : string → option (list any)).
Context (jobs_of_json : string → option (list raw_job)) (job_of_json : string → option raw_job).
Context (cancelled_of_json : string → option bool) (paths_of_json : string → option (list string)).
(** [strconv.ParseFloat], [int(x)] out of range, and the regular expressions: the
    number of a queue, of a resource with or without amounts, and of a percentage. *)
Context (ParseFloat : string → option float64) (overflow : float64 → Z).
Context (queue_match : string → option string).
Context (resource_match : bool → string → string → option string).
Context (percent_match : string → option string).

(** What has been read of the current event, and the result of the first one that
    ends the stream. *)
Record sse := mkSSE {
  sse_event : string;
  sse_data : list string;
  sse_result : option (gradio_error + list any)
}.
Definition flush (event : string) (data : list string) : option (gradio_error + list any) :=
  if event ≟ "error" then Some (inl ErrRequestRejected)
  else if negb (event ≟ "complete") then None
  else Some (match output_of_json (String.concat (String LF EmptyString) data) with
             | Some output => inr output
             | None => inl GradioOther
             end).
Definition end_event (s : sse) : sse :=
  mkSSE "" [] (match sse_result s with
               | Some r => Some r
               | None => flush (sse_event s) (sse_data s)
               end).
Definition sse_line (s : sse) (line : string) : sse :=
  if line ≟ "" then end_event s
  else
  let event := if HasPrefix line "event:" then TrimSpace (TrimPrefix line "event:") else sse_event s in
  let data := if HasPrefix line "data:" then sse_data s ++ [TrimSpace (TrimPrefix line "data:")]
              else sse_data s in
  mkSSE event data (sse_result s).

(** A line that fills the buffer of the scanner, 64 KiB or the limit and one. *)
Definition line_too_long (limit : Z) (data : string) : bool :=
  (65536 <=? limit + 1) && (len data =? limit + 1) && negb (ContainsByte data LF).

Definition decodeSSE (limit : Z) (body : string) (failure : option string) : gradio_error + list any :=
  let data := String.substring 0 (Z.to_nat (limit + 1)) body in
  if line_too_long limit data then inl GradioOther
  else if match failure with Some _ => len body <? limit + 1 | None => false end
  then inl GradioOther
  else
  match sse_result (end_event (fold_left sse_line (scan_lines data) (mkSSE "" [] None))) with
  | Some r => r
  | None => inl GradioOther
  end.

(** ** Calls *)

Inductive HttpE : Type → Type :=
  | HttpDo (r : http_request) : HttpE (string + http_response)
  | HttpUpload (r : http_request) (content : string) : HttpE (string + http_response).

Record GradioClient := mkGradioClient {
  gc_baseURL : URL;
  gc_jobsBaseURL : URL;
  gc_maxBody : Z
}.
Definition NewClientWithJobs (baseURL jobsBaseURL : URL) (maxBody : Z) : GradioClient :=
  mkGradioClient baseURL jobsBaseURL (if maxBody <=? 0 then 2 ^ 23 else maxBody).

Definition gradio_endpoint (base : URL) (parts : list string) (query : string) : string :=
  let u := base <| url_RawPath := "" |> <| url_RawQuery := query |> <| url_Fragment := "" |> in
  url_String (set_Path escaped_path u (path_Join (url_Path base :: parts))).

Definition decodeLimited {A} (limit : Z) (decode : string → option A) (r : http_response)
    : gradio_error + A :=
  if (hp_StatusCode r <? 200) || (300 <=? hp_StatusCode r) then inl GradioOther
  else if limit <? len (hp_Body r) then inl GradioOther
  else match hp_Failure r with
       | Some _ => inl GradioOther
       | None => match decode (hp_Body r) with Some a => inr a | None => inl GradioOther end
       end.

Definition http_request_of (method url contentType : string) (body : http_body)
    : option http_request :=
  if request_ok url then Some (mkHttpRequest method url "" contentType "" "" "" body) else None.

(** [strings.Trim(s,"/")] *)
Fixpoint TrimLeft_slash (s : string) : string :=
  match s with
  | EmptyString => ""
  | String c s' => if c ≟ slash then TrimLeft_slash s' else s
  end.

Definition Call_ (c : GradioClient) (apiName : string) (data : list argument)
    : Prog HttpE (gradio_error + list any) :=
  let apiName := TrimRight_slash (TrimLeft_slash apiName) in
  if (apiName ≟ "") || ContainsByte apiName slash then mret (inl GradioOther)
  else
  let path := ["gradio_api"; "call"; apiName] in
  match call_json data with
  | None => mret (inl GradioOther)
  | Some payload =>
      match http_request_of "POST" (gradio_endpoint (gc_baseURL c) path "") "application/json"
              (JsonBody payload) with
      | None => mret (inl GradioOther)
      | Some request =>
          answer ← call (HttpDo request);
          match answer with
          | inl _ => mret (inl GradioOther)
          | inr response =>
              match decodeLimited (gc_maxBody c) event_of_json response with
              | inl err => mret (inl err)
              | inr event =>
                  if event ≟ "" then mret (inl GradioOther)
                  else
                  match http_request_of "GET" (gradio_endpoint (gc_baseURL c) (path ++ [event]) "")
                          "" NoBody with
                  | None => mret (inl GradioOther)
                  | Some get =>
                      answer ← call (HttpDo get);
                      mret match answer with
                           | inl _ => inl GradioOther
                           | inr r =>
                               if (hp_StatusCode r <? 200) || (300 <=? hp_StatusCode r)
                               then inl GradioOther
                               else decodeSSE (gc_maxBody c) (hp_Body r) (hp_Failure r)
                           end
                  end
              end
          end
      end
  end.

Definition Healthy (c : GradioClient) (healthPath : string) : Prog HttpE (gradio_error + unit) :=
  let endpoint := set_Path escaped_path
    ((gc_baseURL c) <| url_RawQuery := "" |> <| url_Fragment := "" |>)
    (path_Join [url_Path (gc_baseURL c); healthPath]) in
  match http_request_of "GET" (url_String endpoint) "" NoBody with
  | None => mret (inl GradioOther)
  | Some request =>
      answer ← call (HttpDo request);
      mret match answer with
           | inl _ => inl GradioOther
           | inr r => if (hp_StatusCode r <? 200) || (400 <=? hp_StatusCode r) then inl GradioOther else inr tt
           end
  end.

Definition jobsRequest {A} (c : GradioClient) (method : string) (parts : list string) (query : string)
    (decode : string → option A) : Prog HttpE (gradio_error + A) :=
  match http_request_of method (gradio_endpoint (gc_jobsBaseURL c) parts query) "" NoBody with
  | None => mret (inl GradioOther)
  | Some request =>
      answer ← call (HttpDo request);
      mret match answer with
           | inl _ => inl GradioOther
           | inr r =>
               if hp_StatusCode r =? 404 then inl ErrJobNotFound
               else decodeLimited (gc_maxBody c) decode r
           end
  end.

Definition ListJobs (c : GradioClient) : Prog HttpE (gradio_error + list Job) :=
  r ← jobsRequest c "GET" ["api"; "jobs"] "limit=256" jobs_of_json;
  mret (jobs ← r; validateJobs jobs).
Definition GetJob (c : GradioClient) (jobID : string) : Prog HttpE (gradio_error + Job) :=
  if negb (canonicalJobID jobID) then mret (inl GradioOther)
  else r ← jobsRequest c "GET" ["api"; "jobs"; jobID] "" job_of_json; mret (job ← r; validateJob job).
Definition CancelJob (c : GradioClient) (jobID : string) : Prog HttpE (gradio_error + bool) :=
  if negb (canonicalJobID jobID) then mret (inl GradioOther)
  else jobsRequest c "POST" ["api"; "jobs"; jobID; "cancel"] "" cancelled_of_json.

(** ** Uploads (upload.go) *)

(** The media type and the bytes of a data URI; [inr None] for another value. *)
Definition ParseAudioDataURI (value : string) : error + option (string * string) :=
  if negb (HasPrefix value "data:") then inr None
  else
  match validateAudioSource (λ _, false) value with
  | Some err => inl err
  | None =>
      let '(header, encoded, _) := Cut value comma in
      let '(mediaType, _, _) := Cut (TrimPrefix header "data:") semicolon in
      match DecodeString encoded with
      | Some content => inr (Some (ToLower mediaType, content))
      | None => inl (ErrText "音频 Base64 格式无效")
      end
  end.

Definition upload (c : GradioClient) (filename content : string) : Prog HttpE (option string) :=
  match http_request_of "POST" (gradio_endpoint (gc_baseURL c) ["gradio_api"; "upload"] "")
          "multipart/form-data" (MultipartBody [] filename) with
  | None => mret None
  | Some request =>
      answer ← call (HttpUpload request content);
      mret match answer with
           | inl _ => None
           | inr r => match decodeLimited (gc_maxBody c) paths_of_json r with
                      | inr [path] => if path ≟ "" then None else Some path
                      | _ => None
                      end
           end
  end.

Fixpoint upload_audio (c : GradioClient) (index : Z) (items : list GenerationContent)
    : Prog HttpE (option (list GenerationContent)) :=
  match items with
  | [] => mret (Some [])
  | item :: items =>
      prepared ← match gc_AudioURL item with
                 | None => mret (Some item)
                 | Some url =>
                     match ParseAudioDataURI url with
                     | inl _ => mret None
                     | inr None => mret (Some item)
                     | inr (Some (mediaType, content)) =>
                         let extension := if mediaType ≟ "audio/wav" then ".wav" else ".mp3" in
                         path ← upload c (String.concat "" ["reference-audio-"; Itoa index; extension])
                                  content;
                         mret ((λ path, item <| gc_AudioURL := Some path |>) <$> path)
                     end
                 end;
      match prepared with
      | None => mret None
      | Some item => rest ← upload_audio c (index + 1) items; mret (cons item <$> rest)
      end
  end.

Definition PrepareArguments (c : GradioClient) (r : ValidatedRequest) (profile : GenerationProfile)
    : Prog HttpE (option (list argument)) :=
  content ← upload_audio c 0 (gr_Content (vr_Request r));
  mret (content ← content;
        BuildArguments (mkValidated ((vr_Request r) <| gr_Content := content |>) (vr_Scenario r)
          (vr_Prompt r) (vr_Width r) (vr_Height r) (vr_InputImageCount r)) profile).

(** ** Videos (mapping.go) *)

(** [path.Ext] *)
Definition path_Ext (path : string) : string :=
  match rev (split_byte dot (List.last (split_byte slash path) "")) with
  | ext :: _ :: _ => String dot ext
  | _ => ""
  end.

Definition isVideoURL (value : string) : bool :=
  match url_Parse value with
  | None => false
  | Some u =>
      negb (url_Host u ≟ "") && (url_Scheme u ∈? ["http"; "https"])
      && (ToLower (path_Ext (url_Path u)) ∈? [".mp4"; ".mov"])
  end.

(** The texts under "url" and "path" that are URLs of videos. *)
Fixpoint collectURLs (value : any) : list string :=
  match value with
  | AnyList l => concat (map collectURLs l)
  | AnyMap m =>
      concat (map (λ kv,
        match kv.2 with
        | AnyString text => if ((kv.1 ≟ "url") || (kv.1 ≟ "path")) && isVideoURL text then [text] else []
        | _ => []
        end ++ collectURLs kv.2) m)
  | _ => []
  end.

Definition GalleryURLs (gallery : any) : list string :=
  order_by_text (λ s, (s, "")) (remove_dups (collectURLs gallery)).

Definition normalizeVideoURL (value : string) : option string :=
  match url_Parse value with
  | None => None
  | Some u =>
      if url_Host u ≟ "" then None
      else Some (url_String (set_Path escaped_path
             (u <| url_Scheme := ToLower (url_Scheme u) |> <| url_Host := lower (url_Host u) |>
                <| url_Fragment := "" |>) (path_Clean (url_Path u))))
  end.

Definition new_videos (before : list string) (gallery : any) : list string :=
  let old := omap normalizeVideoURL before in
  List.filter (λ value, match normalizeVideoURL value with
                        | Some normalized => negb (normalized ∈? old)
                        | None => false
                        end) (GalleryURLs gallery).
Definition UniqueNewVideo (before : list string) (gallery : any) : option string :=
  match new_videos before gallery with [video] => Some video | _ => None end.

Definition RewritePublicURL (value : string) (privateBase publicBase : URL) : option string :=
  match url_Parse value with
  | None => None
  | Some internal =>
      if (url_Host internal ≟ "") || negb (EqualFold (url_Host internal) (url_Host privateBase))
      then None
      else
      let path := path_Join [url_Path publicBase; url_Path internal] in
      let path := if HasSuffix (url_Path internal) "/" then String.append path "/" else path in
      Some (url_String (set_Path escaped_path
        (publicBase <| url_RawPath := "" |> <| url_RawQuery := url_RawQuery internal |>
                    <| url_Fragment := "" |>) path))
  end.

(** ** The state of a node (observation.go) *)

Inductive ObservationStatus := ObservationUnknown | ObservationIdle | ObservationRunning | ObservationFailed.
#[export] Instance ObservationStatus_eq_dec : EqDecision ObservationStatus.
Proof. solve_decision. Defined.
Record Observation := mkObservation {
  ob_Status : ObservationStatus;
  ob_PrivateQueue : option Z;
  ob_CPUPercent : option float64;
  ob_MemoryPercent : option float64;
  ob_GPUPercent : option float64;
  ob_VRAMPercent : option float64
}.
#[export] Instance Observation_eta : Eta Observation := λ r,
  mkObservation (ob_Status r) (ob_PrivateQueue r) (ob_CPUPercent r) (ob_MemoryPercent r)
    (ob_GPUPercent r) (ob_VRAMPercent r).

Definition containsAny (value : string) (markers : list string) : bool :=
  existsb (Contains_str value) markers.

Definition failure_markers : list string := ["失败"; "错误"; "异常"; "failed"; "failure"; "error"].
Definition containsFailureKeyword (value : any) : bool :=
  match value with AnyString text => containsAny (ToLower text) failure_markers | _ => false end.

Definition parseObservationStatus (value : any) : ObservationStatus :=
  match value with
  | AnyString text =>
      let text := ToLower text in
      if containsAny text failure_markers then ObservationFailed
      else if containsAny text ["运行"; "生成中"; "处理中"; "工作中"; "running"; "processing"; "working"; "busy"]
      then ObservationRunning
      else if containsAny text ["空闲"; "闲置"; "无任务"; "等待任务"; "等待提交"; "完成"; "idle"; "ready";
                                "complete"; "finished"]
      then ObservationIdle
      else ObservationUnknown
  | _ => ObservationUnknown
  end.

(** [number > float64(maxint)], which is 2^63. *)
Definition integerFloat (x : float64) : option Z :=
  if negb (finite x) || SFltb x (of_int 0) || negb (is_integer x) || SFltb (of_int (2 ^ 63)) x
  then None else Some (to_int overflow x).
Definition nonNegativeInteger (value : any) : option Z :=
  match value with AnyNumber x => integerFloat x | _ => None end.
Definition parseQueue (value : any) : option Z :=
  match nonNegativeInteger value with
  | Some n => Some n
  | None =>
      match value with
      | AnyString text => number ← queue_match text; x ← ParseFloat number; integerFloat x
      | _ => None
      end
  end.

Definition validPercent (x : float64) : option float64 :=
  if negb (finite x) || SFltb x (of_int 0) || SFltb (of_int 100) x then None else Some x.
Definition parsePercent (value : string) : option float64 := x ← ParseFloat value; validPercent x.
Definition percentValue (value : any) : option float64 :=
  match value with
  | AnyString text => number ← percent_match text; parsePercent number
  | AnyNumber x => validPercent x
  | _ => None
  end.

Definition setResource (kind : string) (value : option float64) (o : Observation) : Observation :=
  match value with
  | None => o
  | Some x =>
      if kind ≟ "cpu" then o <| ob_CPUPercent := Some x |>
      else if kind ≟ "memory" then o <| ob_MemoryPercent := Some x |>
      else if kind ≟ "gpu" then o <| ob_GPUPercent := Some x |>
      else if kind ≟ "vram" then o <| ob_VRAMPercent := Some x |>
      else o
  end.

Definition normalizeResourceKey (key : string) : string :=
  String.string_of_list_ascii (map (λ c, if (byte_of c =? 45) || (byte_of c =? 32)
                                         then Ascii.ascii_of_nat 95 else c)
    (String.list_ascii_of_string (ToLower (TrimSpace key)))).
Definition classifyResourceKey (key : string) : string :=
  if containsAny key ["vram"; "显存"; "gpu_memory"; "gpu_mem"]
     || (Contains_str key "gpu" && containsAny key [".memory"; ".mem"]) then "vram"
  else if containsAny key ["cpu"; "处理器"] then "cpu"
  else if containsAny key ["gpu"; "显卡"] && containsAny key ["usage"; "util"; "load"; "rate"; "percent"]
  then "gpu"
  else if (key ≟ "gpu") || (key ≟ "显卡") then "gpu"
  else if containsAny key ["memory"; "ram"; "内存"] then "memory"
  else "".

(** Over the entries in the order the map yields them. *)
Fixpoint parseResourceMap (value : any) (parent : string) (o : Observation) : Observation :=
  match value with
  | AnyMap m =>
      fold_left (λ o kv,
        let key := normalizeResourceKey kv.1 in
        let path := if parent ≟ "" then key else String.concat "" [parent; "."; key] in
        match kv.2 with
        | AnyMap _ => parseResourceMap kv.2 path o
        | v => let kind := classifyResourceKey path in
               if kind ≟ "" then o else setResource kind (percentValue v) o
        end) m o
  | _ => o
  end.

Definition parseResources (value : any) (o : Observation) : Observation :=
  match value with
  | AnyString text =>
      let from usage kind o :=
        match resource_match usage kind text with
        | Some number => setResource kind (parsePercent number) o
        | None => o
        end in
      let o := from true "vram" (from true "memory" o) in
      from false "vram" (from false "gpu" (from false "memory" (from false "cpu" o)))
  | AnyMap _ => parseResourceMap value "" o
  | _ => o
  end.

Definition ParseObservation (result : list any) : Observation :=
  let o := mkObservation ObservationUnknown None None None None None in
  let o := match result !! 1%nat with
           | Some v => o <| ob_Status := parseObservationStatus v |> | None => o end in
  let o := match result !! 2%nat with Some v => o <| ob_PrivateQueue := parseQueue v |> | None => o end in
  let o := match result !! 3%nat with Some v => parseResources v o | None => o end in
  match result !! 4%nat with
  | Some v => if containsFailureKeyword v then o <| ob_Status := ObservationFailed |> else o
  | None => o
  end.
End gradio.

(** ** Reading what a server writes *)

#[local] Arguments String.append !_ _ /.

Lemma append_assoc s t u : String.append (String.append s t) u = String.append s (String.append t u).
Proof. induction s as [|c s IH]; simpl; [done|]. by rewrite IH. Qed.

Lemma prefix_append p s : HasPrefix (String.append p s) p = true.
Proof.
  unfold HasPrefix. induction p as [|c p IH]; simpl; [by destruct s|].
  destruct (Ascii.ascii_dec c c); [done|congruence].
Qed.
Lemma substring_all n s : (String.length s ≤ n)%nat → String.substring 0 n s = s.
Proof.
  revert n. induction s as [|c s IH]; intros [|n] H; simpl in *; try done; [lia|]. f_equal. apply IH. lia.
Qed.
Lemma TrimPrefix_append p s : TrimPrefix (String.append p s) p = s.
Proof.
  unfold TrimPrefix. rewrite prefix_append.
  assert (∀ n, (String.length s ≤ n)%nat →
    String.substring (String.length p) n (String.append p s) = s) as H.
  { induction p as [|c p IH]; intros n Hn; simpl; [by apply substring_all|by apply IH]. }
  apply H. clear. induction p as [|c p IH]; simpl; lia.
Qed.

Lemma TrimSpace_space s : TrimSpace (String.append " " s) = TrimSpace s.
Proof.
  unfold TrimSpace. change (String.append " " s) with (String (Ascii.ascii_of_nat 32) s).
  cbn [runes]. reflexivity.
Qed.

Definition no_byte (b : Ascii.ascii) (s : string) : Prop := ContainsByte s b = false.
Lemma split_byte_app sep s t :
  no_byte sep s → split_byte sep (String.append s (String sep t)) = s :: split_byte sep t.
Proof.
  unfold no_byte, ContainsByte. induction s as [|c s IH]; simpl; intros H.
  - by rewrite bool_decide_eq_true_2.
  - apply orb_false_iff in H as [-> H]. by rewrite (IH H).
Qed.

(** A server writes an event as its name, its lines of data and an empty line. *)
Definition newline : string := String LF EmptyString.
Definition sse_lines (ev : string * list string) : list string :=
  String.append "event: " ev.1 :: map (String.append "data: ") ev.2 ++ [""].
Definition sse_text (evs : list (string * list string)) : string :=
  String.concat "" (map (λ l, String.append l newline) (concat (map sse_lines evs))).

(** Names and lines of data without line breaks and without space around them. *)
Definition plain (s : string) : Prop := TrimSpace s = s ∧ no_byte LF s ∧ no_byte CR s.
Definition plain_event (ev : string * list string) : Prop := plain ev.1 ∧ Forall plain ev.2.

Lemma concat_nil_append l s : String.concat "" (s :: l) = String.append s (String.concat "" l).
Proof. destruct l; simpl; [|done]. induction s; simpl; congruence. Qed.

Lemma drop_empty_last_cons s l : l ≠ [] → drop_empty_last (s :: l) = s :: drop_empty_last l.
Proof. by destruct l. Qed.
Lemma split_byte_ne sep s : split_byte sep s ≠ [].
Proof. destruct s; simpl; [done|]. repeat case_match; done. Qed.

Lemma newline_append t : String.append newline t = String LF t.
Proof. done. Qed.

Lemma scan_written ls :
  Forall (λ l, no_byte LF l ∧ drop_CR l = l) ls →
  scan_lines (String.concat "" (map (λ l, String.append l newline) ls)) = ls.
Proof.
  unfold scan_lines. induction 1 as [|l ls [Hl Hc] _ IH]; [done|]. cbn [map]. rewrite concat_nil_append.
  rewrite append_assoc, newline_append.
  rewrite split_byte_app by done. rewrite drop_empty_last_cons by apply split_byte_ne.
  cbn [map]. by rewrite Hc, IH.
Qed.

Lemma no_byte_append b s t : no_byte b s → no_byte b t → no_byte b (String.append s t).
Proof.
  unfold no_byte, ContainsByte. intros Hs Ht. induction s as [|c s IH]; simpl in *; [done|].
  apply orb_false_iff in Hs as [-> Hs]. auto.
Qed.
Lemma drop_CR_plain s : no_byte CR s → drop_CR s = s.
Proof.
  unfold drop_CR, TrimSuffix, HasSuffix. intros H. destruct (_ && _) eqn:E; [|done].
  apply andb_true_iff in E as [_ E%bool_decide_eq_true]. exfalso.
  assert (∀ n m, String.substring n m s = String CR "" → ContainsByte s CR = true) as Hin.
  { clear. unfold ContainsByte. induction s as [|c s IH]; intros n m E; simpl in *; [by destruct n, m|].
    destruct n as [|n].
    - destruct m; [done|]. injection E as -> _. by rewrite bool_decide_eq_true_2.
    - rewrite (IH _ _ E). apply orb_true_r. }
  unfold no_byte in H. rewrite (Hin _ _ E) in H. done.
Qed.

Section written.
Context (output_of_json : string → option (list any)).
#[local] Abbreviation flush := (flush output_of_json).
#[local] Abbreviation sse_line := (sse_line output_of_json).
#[local] Abbreviation end_event := (end_event output_of_json).
#[local] Abbreviation decodeSSE := (decodeSSE output_of_json).

(** The first event that ends the stream. *)
Definition outcome (evs : list (string * list string)) : option (gradio_error + list any) :=
  head (omap (λ ev, flush ev.1 ev.2) evs).

Lemma sse_line_data s d :
  sse_line s (String.append "data: " d)
  = mkSSE (sse_event s) (sse_data s ++ [TrimSpace d]) (sse_result s).
Proof.
  unfold Gradio.sse_line. rewrite bool_decide_eq_false_2 by done.
  change (String.append "data: " d) with (String.append "data:" (String.append " " d)).
  rewrite prefix_append, TrimPrefix_append, TrimSpace_space. reflexivity.
Qed.
Lemma sse_line_event s name :
  sse_line s (String.append "event: " name) = mkSSE (TrimSpace name) (sse_data s) (sse_result s).
Proof.
  unfold Gradio.sse_line. rewrite bool_decide_eq_false_2 by done.
  change (String.append "event: " name) with (String.append "event:" (String.append " " name)).
  rewrite prefix_append, TrimPrefix_append, TrimSpace_space. reflexivity.
Qed.

Lemma read_data ds name read result :
  Forall plain ds →
  fold_left sse_line (map (String.append "data: ") ds) (mkSSE name read result)
  = mkSSE name (read ++ ds) result.
Proof.
  intros H. revert read. induction H as [|d ds [Hd _] _ IH]; intros read; cbn [map fold_left].
  - by rewrite app_nil_r.
  - rewrite sse_line_data, Hd, IH. cbn. by rewrite <-(assoc_L (++)).
Qed.

Lemma read_event ev result :
  plain_event ev →
  fold_left sse_line (sse_lines ev) (mkSSE "" [] result)
  = mkSSE "" [] (match result with Some r => Some r | None => flush ev.1 ev.2 end).
Proof.
  intros [[Hn _] Hd]. unfold sse_lines. cbn [fold_left]. rewrite sse_line_event, Hn, fold_left_app.
  cbn [sse_data sse_result]. rewrite (read_data _ _ _ _ Hd). reflexivity.
Qed.

Lemma read_events evs result :
  Forall plain_event evs →
  fold_left sse_line (concat (map sse_lines evs)) (mkSSE "" [] result)
  = mkSSE "" [] (match result with Some r => Some r | None => outcome evs end).
Proof.
  intros H. revert result. induction H as [|ev evs Hev _ IH]; intros result; cbn [map concat fold_left].
  - by destruct result.
  - rewrite fold_left_app, (read_event _ _ Hev), IH. unfold outcome. cbn [omap list_omap].
    destruct result; [done|]. by destruct (flush ev.1 ev.2).
Qed.

Lemma sse_lines_scanned ev : plain_event ev → Forall (λ l, no_byte LF l ∧ drop_CR l = l) (sse_lines ev).
Proof.
  intros [(_ & H1 & H2) Hd]. unfold sse_lines. constructor.
  - split; [by apply no_byte_append|]. by apply drop_CR_plain, no_byte_append.
  - apply Forall_app. split; [|by repeat constructor]. apply Forall_map.
    eapply Forall_impl; [exact Hd|]. intros d (_ & H3 & H4).
    split; [by apply no_byte_append|]. by apply drop_CR_plain, no_byte_append.
Qed.

(** C38: reading a stream of events.  When a server writes events without line
    breaks in their fields and within the limit, [decodeSSE] gives exactly what the
    first error or complete event stands for, whatever comes before and after, and
    fails when there is none. *)
Theorem decodeSSE_text limit evs :
  Forall plain_event evs → len (sse_text evs) ≤ limit →
  decodeSSE limit (sse_text evs) None
  = match outcome evs with Some r => r | None => inl GradioOther end.
Proof.
  intros Hevs Hlen. unfold Gradio.decodeSSE.
  rewrite substring_all by (unfold len in Hlen; lia).
  assert (line_too_long limit (sse_text evs) = false) as ->.
  { unfold line_too_long. destruct (Z.eqb_spec (len (sse_text evs)) (limit + 1)); [lia|].
    by rewrite andb_false_r. }
  unfold sse_text. rewrite scan_written, (read_events _ _ Hevs).
  - unfold Gradio.end_event. cbn [sse_result sse_event sse_data]. by destruct (outcome evs).
  - apply Forall_concat, Forall_map. eapply Forall_impl; [exact Hevs|apply sse_lines_scanned].
Qed.
End written.

(** ** Where the media go *)

Definition of_role (role : string) (cs : list GenerationContent) : list GenerationContent :=
  List.filter (λ c, gc_Role c ≟ role) cs.
Definition image_of (c : GenerationContent) : argument := ArgFile (imageData (default "" (gc_ImageURL c))).
Definition video_of (c : GenerationContent) : argument := ArgFile (fileData (default "" (gc_VideoURL c))).
Definition audio_of (c : GenerationContent) : argument := ArgFile (fileData (default "" (gc_AudioURL c))).
Definition frame_of (role : string) (cs : list GenerationContent) : argument :=
  from_option image_of ArgNil (last (of_role role cs)).
Definition padded (n : nat) (l : list argument) : list argument := l ++ replicate (n - length l) ArgNil.

(** The 32 arguments: text, frames, model, size, then nine slots for images, three
    for videos and three for audio, filled in the order of the request. *)
Definition layout (v : ValidatedRequest) (profile : GenerationProfile) (cs : list GenerationContent)
    : list argument :=
  take 5 (fixed_arguments v profile)
  ++ [frame_of "first_frame" cs; frame_of "last_frame" cs]
  ++ take 10 (drop 7 (fixed_arguments v profile))
  ++ padded 9 (map image_of (of_role "reference_image" cs))
  ++ padded 3 (map video_of (of_role "reference_video" cs))
  ++ padded 3 (map audio_of (of_role "reference_audio" cs)).

Lemma insert_padded k l x rest :
  (length l < k)%nat → <[length l := x]> (padded k l ++ rest) = padded k (l ++ [x]) ++ rest.
Proof.
  intros H. unfold padded. rewrite length_app. simpl.
  replace (k - length l)%nat with (S (k - (length l + 1)))%nat by lia. simpl.
  rewrite <-!(assoc_L (++)), insert_app_r_alt by lia. rewrite Nat.sub_diag. done.
Qed.
Lemma insert_after_padded k l n x rest :
  (length l ≤ k)%nat → <[(k + n)%nat := x]> (padded k l ++ rest) = padded k l ++ <[n := x]> rest.
Proof.
  intros H. assert (length (padded k l) = k) as E
    by (unfold padded; rewrite length_app, length_replicate; lia).
  rewrite insert_app_r_alt by lia. f_equal. f_equal. lia.
Qed.

Lemma of_role_snoc role cs c :
  of_role role (cs ++ [c]) = of_role role cs ++ (if gc_Role c ≟ role then [c] else []).
Proof. unfold of_role. rewrite List.filter_app. simpl. by destruct (gc_Role c ≟ role). Qed.
Lemma frame_of_snoc role cs c :
  frame_of role (cs ++ [c]) = if gc_Role c ≟ role then image_of c else frame_of role cs.
Proof.
  unfold frame_of. rewrite of_role_snoc. destruct (gc_Role c ≟ role).
  - by rewrite last_snoc.
  - by rewrite app_nil_r.
Qed.

Lemma place_layout v profile cs :
  (length (of_role "reference_image" cs) ≤ 9)%nat → (length (of_role "reference_video" cs) ≤ 3)%nat →
  (length (of_role "reference_audio" cs) ≤ 3)%nat →
  fold_left place cs (mkSlots (fixed_arguments v profile) 17 26 29)
  = mkSlots (layout v profile cs) (17 + length (of_role "reference_image" cs))
      (26 + length (of_role "reference_video" cs)) (29 + length (of_role "reference_audio" cs)).
Proof.
  induction cs as [|c cs IH] using rev_ind; [reflexivity|]. rewrite !of_role_snoc, !length_app.
  intros H1 H2 H3. rewrite fold_left_app, IH by lia. clear IH. unfold layout.
  rewrite !frame_of_snoc, !of_role_snoc, !map_app. cbn [fold_left]. unfold place.
  cbn [sl_args sl_image sl_video sl_audio].
  destruct (gc_Role c ≟ "first_frame") eqn:R1.
  { apply bool_decide_eq_true in R1. rewrite R1. simpl. by rewrite !app_nil_r, !Nat.add_0_r. }
  destruct (gc_Role c ≟ "last_frame") eqn:R2.
  { apply bool_decide_eq_true in R2. rewrite R2. simpl. by rewrite !app_nil_r, !Nat.add_0_r. }
  destruct (gc_Role c ≟ "reference_image") eqn:R3.
  { apply bool_decide_eq_true in R3. rewrite R3 in *. simpl in *. rewrite !app_nil_r, !Nat.add_0_r.
    f_equal; [|lia]. do 17 f_equal. rewrite <-(length_map image_of (of_role "reference_image" cs)) at 1.
    apply insert_padded. rewrite length_map. lia. }
  destruct (gc_Role c ≟ "reference_video") eqn:R4.
  { apply bool_decide_eq_true in R4. rewrite R4 in *. simpl in *. rewrite !app_nil_r, !Nat.add_0_r.
    f_equal; [|lia]. do 17 f_equal.
    rewrite (insert_after_padded 9 _ (length (of_role "reference_video" cs))) by (rewrite length_map; lia).
    f_equal. rewrite <-(length_map video_of (of_role "reference_video" cs)) at 1.
    apply insert_padded. rewrite length_map. lia. }
  destruct (gc_Role c ≟ "reference_audio") eqn:R5; simpl; rewrite !app_nil_r, ?Nat.add_0_r; [|done].
  simpl in H3. f_equal; [|lia]. do 17 f_equal.
  rewrite (insert_after_padded 9 _ (3 + length (of_role "reference_audio" cs))%nat),
    (insert_after_padded 3) by (rewrite length_map; simpl in *; lia). do 2 f_equal.
  rewrite <-(length_map audio_of (of_role "reference_audio" cs)) at 1.
  rewrite <-(app_nil_r (padded 3 _)), <-(app_nil_r (padded 3 (_ ++ _))).
  apply insert_padded. rewrite length_map. lia.
Qed.

Lemma role_count role type cs :
  (∀ c, c ∈ cs → item_shape c → gc_Role c = role → gc_Type c = type) →
  (∀ c, c ∈ cs → item_shape c) →
  Z.of_nat (length (of_role role cs)) ≤ count_role type role cs.
Proof.
  unfold count_role, count_where, of_role. intros Ht Hs. induction cs as [|c cs IH]; simpl; [lia|].
  assert (Z.of_nat (length (List.filter (λ c, gc_Role c ≟ role) cs))
    ≤ Z.of_nat (length (List.filter (λ c, (gc_Type c ≟ type) && (gc_Role c ≟ role)) cs))) as Hle.
  { apply IH; intros c' Hc'; [apply Ht|apply Hs]; by right. }
  destruct (gc_Role c ≟ role) eqn:E; [|destruct (_ && _) eqn:E2; simpl; lia].
  apply bool_decide_eq_true in E. rewrite bool_decide_eq_true_2 by (apply Ht; [left|apply Hs; left|done]).
  simpl. lia.
Qed.
Lemma count_role_type type role cs : count_role type role cs ≤ count_type type cs.
Proof.
  unfold count_role, count_type, count_where. induction cs as [|c cs IH]; simpl; [lia|].
  destruct (gc_Type c ≟ type); simpl; [|done]. destruct (gc_Role c ≟ role); simpl; lia.
Qed.
Lemma shape_role c role type :
  item_shape c → gc_Role c = role →
  (role, type) ∈ [("reference_image", "image_url"); ("reference_video", "video_url");
                  ("reference_audio", "audio_url")] → gc_Type c = type.
Proof. unfold item_shape. intros H E Hin. set_unfold. naive_solver congruence. Qed.

(** C39: every medium of a request reaches its own slot.  For a request that passed
    validation and a frame rate the node knows, [BuildArguments] gives 32 arguments
    with the texts and sizes of the request and the profile, the frames in theirs,
    and all reference images, videos and audio clips, in their order, in nine,
    three and three slots of their own. *)
Theorem BuildArguments_exact ok r ps v profile :
  ValidateCreate ok r ps = inr v → gp_FPS profile = 0 ∨ gp_FPS profile = 24 →
  BuildArguments v profile = Some (layout v profile (gr_Content (vr_Request v))) ∧
  length (layout v profile (gr_Content (vr_Request v))) = 32%nat.
Proof.
  intros Hv Hfps. apply ValidateCreate_spec in Hv as [Hv _].
  destruct Hv as (_ & _ & _ & Hs & _ & _ & _ & Hi & Hvid & Haud & Hfit & _).
  set (cs := gr_Content (vr_Request v)) in *.
  assert (∀ role type, (role, type) ∈ [("reference_image", "image_url"); ("reference_video", "video_url");
    ("reference_audio", "audio_url")] → Z.of_nat (length (of_role role cs)) ≤ count_role type role cs) as Hc.
  { intros role type Hin. apply role_count; [|done]. intros c _ Hc E. by eapply shape_role. }
  pose proof (Hc "reference_image" "image_url" ltac:(set_solver)).
  pose proof (Hc "reference_video" "video_url" ltac:(set_solver)).
  pose proof (Hc "reference_audio" "audio_url" ltac:(set_solver)).
  pose proof (count_role_type "video_url" "reference_video" cs).
  pose proof (count_role_type "audio_url" "reference_audio" cs).
  split.
  - unfold BuildArguments. assert (mode_of (vr_Scenario v) ≟ "" = false) as ->.
    { destruct Hfit as [(-> & _)|[(-> & _)|(-> & _)]]; reflexivity. }
    assert (negb (gp_FPS profile =? 0) && negb (gp_FPS profile =? 24) = false) as ->
      by (destruct Hfps as [-> | ->]; reflexivity).
    fold cs. rewrite place_layout by lia. done.
  - unfold layout, padded. rewrite !length_app, !length_replicate, !length_map. simpl. lia.
Qed.
