(* ===== verification/LegacyWorker.v ===== *)
(** * The worker of legacy nodes (internal/worker/processor.go)

    A pass for one Gradio node resumes the task the node is working on, or claims
    one, records what the node has already made and submits it; then it polls until
    a new video, a failure, a loss, a cancellation or the time limit ends the task.
    A task that the node has lost is submitted once more. *)

From stdpp Require Import gmap.
From S2P Require Import Prelude Domain Tx Database Sql Workers GoStrings GoFloat GoNet GoHttp Netguard Monitor Catalog Paging TaskRouting Callbacks Queue Stages Artifacts Remote Tasks Official Delivery Nodes Config Normalize InputSpool Gradio.

(** The calls: requests to the node, marked with the task they submit if they do,
    and updates of the cache of node states. *)
Inductive LegacyE : Type → Type :=
  | OnGradio (submits : option string) {X} (c : HttpE X) : LegacyE X
  | CacheUpdate (nodeID : string) (update : NodeSnapshot → NodeSnapshot) : LegacyE unit.

Inductive worker_error :=
  | WorkerStore (err : error)
  | WorkerClient (err : gradio_error)
  | WorkerJSON.
Definition worker_store {A} (r : error + A) : worker_error + A :=
  match r with inl err => inl (WorkerStore err) | inr a => inr a end.

(** The libraries the client and the validation use ([Gradio], [Normalize]). *)
Record GradioExternals := mkGradioExternals {
  gx_url_Parse : string → option URL;
  gx_escaped_path : string → string → string;
  gx_url_String : URL → string;
  gx_EqualFold : string → string → bool;
  gx_lower : string → string;
  gx_request_ok : string → bool;
  gx_call_json : list argument → option string;
  gx_event_of_json : string → option string;
  gx_output_of_json : string → option (list any);
  gx_jobs_of_json : string → option (list raw_job);
  gx_job_of_json : string → option raw_job;
  gx_cancelled_of_json : string → option bool;
  gx_paths_of_json : string → option (list string);
  gx_ParseFloat : string → option float64;
  gx_overflow : float64 → Z;
  gx_queue_match : string → option string;
  gx_resource_match : bool → string → string → option string;
  gx_percent_match : string → option string;
  gx_media_url_ok : string → bool
}.

(** [lp_Jobs] and [lp_Preparer]: whether the client is a [JobsClient] and an
    [ArgumentPreparer]; [lp_Cache]: whether there is a cache; [lp_BaseURL] and
    [lp_PublicBaseURL]: the URLs of the upstream, which a legacy node has
    ([Config.NormalizeModelNode]). *)
Record Processor := mkLegacy {
  lp_Options : Options;
  lp_Client : GradioClient;
  lp_Jobs : bool;
  lp_Preparer : bool;
  lp_Upstream : UpstreamConfig;
  lp_BaseURL : URL;
  lp_PublicBaseURL : URL;
  lp_Profiles : option (gmap string GenerationProfile);
  lp_Cache : bool;
  lp_ExecutionTimeout : Z;
  lp_NodeVersion : Z
}.

(** ** Jobs and results *)

Definition jobIDs (jobs : list Job) : list string := map jb_ID jobs.
Definition parseJobIDs (data : json_text (list string)) : option (list string) :=
  match data with JsonOf ids => Some ids | JsonRaw s => if s ≟ "" then Some [] else None end.
Definition newJobs (before : list string) (current : list Job) : list Job :=
  List.filter (λ job, negb (jb_ID job ∈? before)) current.
Definition activeJobs (jobs : list Job) : list Job :=
  List.filter (λ job, jb_Status job ∈? [JobPending; JobInProgress]) jobs.
Definition countNew (before current : list string) : Z := count_where (λ v, negb (v ∈? before)) current.
Definition queueEmpty (o : Observation) : bool := ob_PrivateQueue o ≟ Some 0.

(** A time that is not set is not positive. *)
Definition unix_time (t : option Z) : option Z :=
  if 0 <? coalesce_int t then Some (coalesce_int t) else None.

(** The jobs that are the task's: those that were not there before, or all active
    ones when it is not known what was. *)
Definition created_jobs (task : Task) (before : list string) (current : list Job) : list Job :=
  match unix_time (vt_attempt_started_at task) with
  | None => activeJobs current
  | Some _ => newJobs before current
  end.

Definition zero_profile : GenerationProfile := mkGenProfile "" "" "" 0 false 0 ∅.
(** The dimensions of the profiles, for the validation. *)
Definition as_profiles (ps : gmap string GenerationProfile) : profiles :=
  map (λ kp, (kp.1, map (λ rd, (rd.1, (dm_Width rd.2, dm_Height rd.2))) (map_to_list (gp_Dimensions kp.2))))
    (map_to_list ps).

Definition finished_status (s : InternalStatus) : string :=
  match s with
  | StatusSucceeded => "succeeded"
  | StatusFailed => "failed"
  | _ => "cancelled"
  end.

#[export] Instance prog_fmap {C} : FMap (Prog C) := λ A B f m, a ← m; mret (f a).

Section worker.
Context (x : GradioExternals).
#[local] Abbreviation P := (Prog LegacyE).

Definition on_node {A} (submits : option string) (m : Prog HttpE A) : P A :=
  translate (λ X c, OnGradio submits c) m.
Definition call_api (p : Processor) (submits : option string) (api : string) (args : list argument)
    : P (gradio_error + list any) :=
  on_node submits (Call_ (gx_escaped_path x) (gx_url_String x) (gx_request_ok x) (gx_call_json x)
    (gx_event_of_json x) (gx_output_of_json x) (lp_Client p) api args).
Definition check (p : Processor) : P (gradio_error + list any) :=
  call_api p None (uc_CheckAPIName (lp_Upstream p)) [].
Definition submit_task (p : Processor) (taskID : string) (args : list argument)
    : P (gradio_error + list any) :=
  call_api p (Some taskID) (uc_SubmitAPIName (lp_Upstream p)) args.
Definition list_jobs (p : Processor) : P (gradio_error + list Job) :=
  on_node None (ListJobs (gx_escaped_path x) (gx_url_String x) (gx_request_ok x) (gx_jobs_of_json x)
    (lp_Client p)).
Definition get_job (p : Processor) (id : string) : P (gradio_error + Job) :=
  on_node None (GetJob (gx_escaped_path x) (gx_url_String x) (gx_request_ok x) (gx_job_of_json x)
    (lp_Client p) id).
Definition cancel_job (p : Processor) (id : string) : P (gradio_error + bool) :=
  on_node None (CancelJob (gx_escaped_path x) (gx_url_String x) (gx_request_ok x)
    (gx_cancelled_of_json x) (lp_Client p) id).
Definition observe (result : list any) : Observation :=
  ParseObservation (gx_ParseFloat x) (gx_overflow x) (gx_queue_match x) (gx_resource_match x)
    (gx_percent_match x) result.
Definition gallery_urls (gallery : any) : list string := GalleryURLs (gx_url_Parse x) gallery.

Definition node_id (p : Processor) : string := uc_ID (lp_Upstream p).

Definition prepareArguments (p : Processor) (v : ValidatedRequest) : P (option (list argument)) :=
  let profile := default zero_profile
    (ps ← lp_Profiles p; ps !! gr_Resolution (vr_Request v)) in
  if lp_Preparer p
  then on_node None (PrepareArguments (gx_escaped_path x) (gx_url_String x) (gx_request_ok x)
         (gx_paths_of_json x) (lp_Client p) v profile)
  else mret (BuildArguments v profile).

Definition validate_request (p : Processor) (task : Task) : string + ValidatedRequest :=
  match unmarshal (vt_request_json (vt_request task)) with
  | None => inl "持久化请求无法解析"
  | Some request =>
      match ValidateCreate (gx_media_url_ok x) request (as_profiles <$> lp_Profiles p) with
      | inl _ => inl "持久化请求不再符合配置"
      | inr v => inr v
      end
  end.

(** ** The cache *)

Definition update_cache (p : Processor) (f : Env → NodeSnapshot → NodeSnapshot) : P unit :=
  if lp_Cache p then e ← environment; call (CacheUpdate (node_id p) (f e)) else mret tt.
Definition now_ms (e : Env) : option Z := Some (env_now e).
Definition seconds_ms (t : option Z) : option Z := Z.mul 1000 <$> unix_time t.

Definition markCurrent (p : Processor) (task : Task) : P unit :=
  update_cache p (λ e n, n <| ns_Runtime := RuntimeRunning |> <| ns_UpdatedAt := now_ms e |>
    <| ns_CurrentTask := Some (mkCurrentTask (vt_task_id task) "running"
                                 (seconds_ms (vt_started_at task))) |>).
Definition mergeObservation (p : Processor) (o : Observation) : P unit :=
  update_cache p (λ e n,
    let n := n <| ns_Health := HealthHealthy |> <| ns_CheckedAt := now_ms e |>
      <| ns_LastHealthyAt := now_ms e |> <| ns_UpdatedAt := now_ms e |>
      <| ns_PrivateQueue := ob_PrivateQueue o |> <| ns_CPUPercent := ob_CPUPercent o |>
      <| ns_MemoryPercent := ob_MemoryPercent o |> <| ns_GPUPercent := ob_GPUPercent o |>
      <| ns_VRAMPercent := ob_VRAMPercent o |> <| ns_LastError := None |> in
    n <| ns_Runtime := match ns_CurrentTask n with
                       | Some _ => RuntimeRunning
                       | None => match ob_Status o with
                                 | ObservationIdle => RuntimeIdle
                                 | ObservationRunning => RuntimeRunning
                                 | _ => RuntimeUnknown
                                 end
                       end |>).
Definition markPollFailure (p : Processor) : P unit :=
  update_cache p (λ e n, n <| ns_Health := HealthUnhealthy |> <| ns_CheckedAt := now_ms e |>
    <| ns_UpdatedAt := now_ms e |> <| ns_LastError := Some (mkErrorSnapshot "upstream_poll_error" "") |>).
Definition clearCurrent (p : Processor) : P unit :=
  update_cache p (λ e n, n <| ns_CurrentTask := None |> <| ns_Runtime := RuntimeUnknown |>
    <| ns_UpdatedAt := now_ms e |>).
Definition blockScheduling (p : Processor) : P unit :=
  update_cache p (λ e n, n <| ns_SchedulingBlocked := true |> <| ns_Health := HealthUnhealthy |>
    <| ns_Runtime := RuntimeUnknown |> <| ns_UpdatedAt := now_ms e |>
    <| ns_LastError := Some (mkErrorSnapshot "upstream_cancel_unconfirmed" "") |>).

Definition duration_seconds (task : Task) : Z :=
  match unix_time (vt_started_at task) with
  | Some started => Z.max 0 (coalesce_int (unix_time (vt_finished_at task)) - started)
  | None => 0
  end.
Definition markFinished (p : Processor) : P (worker_error + unit) :=
  if negb (lp_Cache p) then mret (inr tt)
  else
  update_cache p (λ e n,
    let n := if ns_SchedulingBlocked n
             then n <| ns_Health := HealthUnhealthy |> <| ns_Runtime := RuntimeUnknown |>
                    <| ns_LastError := Some (mkErrorSnapshot "upstream_cancel_unconfirmed" "") |>
             else n <| ns_Runtime := RuntimeIdle |> in
    n <| ns_CurrentTask := None |> <| ns_UpdatedAt := now_ms e |>) ;;
  finished ← store (reading (λ e, LatestFinishedForUpstream e (node_id p)));
  match finished with
  | inl _ => mret (inr tt)
  | inr t =>
      update_cache p (λ e n, n <| ns_UpdatedAt := now_ms e |>
        <| ns_LatestFinishedTask := Some (mkFinishedTask (vt_task_id t) (vt_owner t)
             (finished_status (vt_status t)) (duration_seconds t) (seconds_ms (vt_finished_at t))) |>) ;;
      mret (inr tt)
  end.

(** ** Ending a task *)

Definition fail (p : Processor) (task : Task) (code message : string) : P (worker_error + unit) :=
  r ← store (λ e, MarkFailed e (vt_task_id task) (node_id p) code message);
  match r with
  | inl err => mret (inl (WorkerStore err))
  | inr _ => markFinished p
  end.

Definition requeue (p : Processor) (task : Task) : P (worker_error + unit) :=
  r ← store (λ e, Requeue e (lp_Options p) (vt_task_id task) (node_id p));
  match r with
  | inl err => mret (inl (WorkerStore err))
  | inr _ => clearCurrent p ;; mret (inr tt)
  end.

Definition reconcile (p : Processor) (task : Task) : P (worker_error + unit) :=
  r ← store (λ e, MarkReconciling e (vt_task_id task) (node_id p)); mret (worker_store r).
Definition markReconciling (p : Processor) (task : Task) : P (worker_error + unit) :=
  if vt_status task ≟ StatusReconciling then mret (inr tt)
  else
  r ← store (λ e, MarkReconciling e (vt_task_id task) (node_id p));
  mret match r with
       | inl ErrStateConflict => inr tt
       | inl err => inl (WorkerStore err)
       | inr _ => inr tt
       end.
Definition bind_job (p : Processor) (task : Task) (id : string) : P (worker_error + unit) :=
  r ← store (λ e, BindUpstreamJob e (vt_task_id task) (node_id p) id); mret (worker_store r).

Definition execution_timeout (p : Processor) : Z :=
  if lp_ExecutionTimeout p <=? 0 then 600 * Second else lp_ExecutionTimeout p.
Definition timedOut (p : Processor) (task : Task) : P bool :=
  e ← environment;
  mret (let started := match unix_time (vt_attempt_started_at task) with
                       | Some t => Some t
                       | None => unix_time (vt_started_at task)
                       end in
        match started with
        | None => false
        | Some t => t * Second + execution_timeout p <=? env_now e * Millisecond
        end).

(** [jobID] is the job the task is known to have. *)
Definition timeout (p : Processor) (task : Task) (jobID : string) (code message : string)
    : P (worker_error + unit) :=
  (if jobID ≟ "" then blockScheduling p
   else if lp_Jobs p then
     r ← cancel_job p jobID;
     match r with
     | inl err => if is_not_found err then mret tt else blockScheduling p
     | inr _ => mret tt
     end
   else mret tt) ;;
  fail p task code message.

(** [wait], which the end of the context cuts short. *)
Definition wait {A} (k : P (worker_error + A)) : P (worker_error + A) :=
  stop ← stopped;
  if stop : bool then mret (inl (WorkerStore ErrContext)) else k.

(** ** Cancelling *)

(** The job to cancel, if there is one, and whether that is left open. *)
Fixpoint find_job (rounds : nat) (p : Processor) (task : Task)
    : P (worker_error + (string * bool)) :=
  match rounds with
  | O => mret (inl (WorkerStore ErrContext))
  | S rounds =>
      let later := out ← timedOut p task;
                   if out : bool then mret (inr ("", true)) else wait (find_job rounds p task) in
      current ← list_jobs p;
      match current with
      | inl _ => markPollFailure p ;; later
      | inr current =>
          match parseJobIDs (vt_upstream_jobs_before_json task) with
          | None => mret (inl WorkerJSON)
          | Some before =>
              match created_jobs task before current with
              | [] => mret (inr ("", true))
              | [job] => mret (inr (jb_ID job, false))
              | _ => later
              end
          end
      end
  end.

(** Whether the cancellation is left open. *)
Fixpoint cancel_until (rounds : nat) (p : Processor) (task : Task) (id : string)
    : P (worker_error + bool) :=
  match rounds with
  | O => mret (inl (WorkerStore ErrContext))
  | S rounds =>
      r ← cancel_job p id;
      if match r with inl err => is_not_found err | inr _ => true end then mret (inr false)
      else
      markPollFailure p ;;
      out ← timedOut p task;
      if out : bool then mret (inr true) else wait (cancel_until rounds p task id)
  end.

Definition cancel (rounds : nat) (p : Processor) (task : Task) : P (worker_error + unit) :=
  let jobID := coalesce_str (vt_upstream_job_id task) in
  try! found ← (if lp_Jobs p && (jobID ≟ "") then find_job rounds p task else mret (inr (jobID, false)));
  try! unconfirmed ← (if lp_Jobs p && negb (found.1 ≟ "")
                      then open ← cancel_until rounds p task found.1;
                           mret match open with inr b => inr (found.2 || b) | inl err => inl err end
                      else mret (inr found.2));
  (if unconfirmed : bool then blockScheduling p else mret tt) ;;
  r ← store (λ e, FinishCancelled e (vt_task_id task) (node_id p));
  match r with
  | inl err => mret (inl (WorkerStore err))
  | inr _ => markFinished p
  end.

(** ** Submitting *)

(** What a submission that the node took leads to: bound to the one new job, or to
    be found later; [inl r] ends the pass. *)
Definition bind_created (p : Processor) (task : Task) (before : list string) (ambiguous : string)
    : P ((worker_error + unit) + unit) :=
  let marked := r ← reconcile p task;
                mret (match r with inl err => inl (inl err) | inr _ => inr tt end) in
  after ← list_jobs p;
  match after with
  | inl _ => marked
  | inr after =>
      match newJobs before after with
      | [] => marked
      | [job] => r ← bind_job p task (jb_ID job);
                 mret (match r with inl err => inl (inl err) | inr _ => inr tt end)
      | _ => r ← fail p task "upstream_job_ambiguous" ambiguous; mret (inl r)
      end
  end.

(** [again] polls with another baseline. *)
Definition retryOrFail (p : Processor) (task : Task) (jobID : string) (v : ValidatedRequest)
    (galleryBefore : list string) (code message : string) (again : P (worker_error + unit))
    : P (worker_error + unit) :=
  if (1 <=? vt_retry_count task) || negb (lp_Jobs p) then fail p task code message
  else
  current ← list_jobs p;
  match current with
  | inl err => mret (inl (WorkerClient err))
  | inr current =>
      try! _ ← (if jobID ≟ "" then mret (inr tt)
                else r ← cancel_job p jobID;
                     mret match r with
                          | inl err => if is_not_found err then inr tt else inl (WorkerClient err)
                          | inr _ => inr tt
                          end);
      begun ← store (λ e, BeginRetry e (vt_task_id task) (node_id p) (jobIDs current) galleryBefore);
      match begun with
      | inl err => mret (inl (WorkerStore err))
      | inr _ =>
          arguments ← prepareArguments p v;
          match arguments with
          | None => fail p task "upstream_media_upload_failed" "参考音频上传私有服务失败"
          | Some arguments =>
              submitted ← submit_task p (vt_task_id task) arguments;
              r ← match submitted with
                  | inl err =>
                      if is_rejected err
                      then r ← fail p task "upstream_rejected" "私有服务拒绝重试任务参数"; mret (inl r)
                      else r ← reconcile p task;
                           mret (match r with inl err => inl (inl err) | inr _ => inr tt end)
                  | inr _ => bind_created p task (jobIDs current) "重试后检测到多个新增私有任务"
                  end;
              match r with
              | inl r => mret r
              | inr _ =>
                  active ← store (reading (λ _, ActiveForUpstream (node_id p)));
                  match active with
                  | inl err => mret (inl (WorkerStore err))
                  | inr _ => again
                  end
              end
          end
      end
  end.

(** ** Polling *)

Definition poll_finish (p : Processor) (task : Task) (v : ValidatedRequest) (baseline : list string)
    (gallery : any) : P (worker_error + unit) :=
  match UniqueNewVideo (gx_url_Parse x) (gx_escaped_path x) (gx_url_String x) (gx_lower x) baseline gallery with
  | None => fail p task "result_ambiguous" "无法识别唯一生成视频"
  | Some internalURL =>
      match RewritePublicURL (gx_url_Parse x) (gx_escaped_path x) (gx_url_String x) (gx_EqualFold x)
              internalURL (lp_BaseURL p) (lp_PublicBaseURL p) with
      | None => fail p task "result_url_invalid" "生成视频地址无法公开映射"
      | Some publicURL =>
          r ← store (λ e, MarkSucceeded e (vt_task_id task) (node_id p) internalURL publicURL (gr_Ratio (vr_Request v)));
          match r with
          | inl err => mret (inl (WorkerStore err))
          | inr _ => markFinished p
          end
      end
  end.

(** What the jobs of the node say of the task: the pass ends, or goes on with the
    job and the number of times it was complete without a result. *)
Inductive job_state :=
  | JobEnds (r : worker_error + unit)
  | JobLost
  | JobGoesOn (jobID : string) (completed : Z).

Definition poll_unbound (p : Processor) (task : Task) (o : Observation) (completed : Z) : P job_state :=
  match parseJobIDs (vt_upstream_jobs_before_json task) with
  | None => JobEnds <$> fail p task "recovery_context_invalid" "私有任务基线无法解析"
  | Some before =>
      currentJobs ← list_jobs p;
      match currentJobs with
      | inl _ =>
          markPollFailure p ;;
          r ← markReconciling p task;
          mret match r with inl err => JobEnds (inl err) | inr _ => JobGoesOn "" completed end
      | inr currentJobs =>
          match created_jobs task before currentJobs with
          | [] => mret (if (ob_Status o ≟ ObservationIdle) && queueEmpty o then JobLost else JobGoesOn "" completed)
          | [job] =>
              r ← bind_job p task (jb_ID job);
              mret match r with inl err => JobEnds (inl err) | inr _ => JobGoesOn (jb_ID job) completed end
          | _ => JobEnds <$> fail p task "upstream_job_ambiguous" "检测到多个新增私有任务"
          end
      end
  end.

Definition poll_bound (p : Processor) (task : Task) (jobID : string) (completed : Z) : P job_state :=
  job ← get_job p jobID;
  match job with
  | inl err =>
      if is_not_found err then mret JobLost
      else
      markPollFailure p ;;
      r ← markReconciling p task;
      match r with
      | inl err => mret (JobEnds (inl err))
      | inr _ =>
          out ← timedOut p task;
          if out : bool
          then JobEnds <$> timeout p task jobID "upstream_unavailable_timeout" "私有服务持续不可用，任务已结束"
          else mret (JobGoesOn jobID completed)
      end
  | inr job =>
      match jb_Status job with
      | JobFailed => JobEnds <$> fail p task "upstream_failed" "私有服务报告生成失败"
      | JobCancelled => JobEnds <$> fail p task "upstream_cancelled" "私有任务已被取消"
      | JobCompleted =>
          if 3 <=? completed + 1
          then JobEnds <$> fail p task "upstream_result_missing" "私有任务已完成但未发现生成结果"
          else mret (JobGoesOn jobID (completed + 1))
      | _ => mret (JobGoesOn jobID 0)
      end
  end.

(** The loop ends with the context after [rounds] calls of the check, those of the
    poll after a retry included. *)
Fixpoint poll (rounds : nat) (p : Processor) (v : ValidatedRequest) (baseline : list string) (completed : Z)
    : P (worker_error + unit) :=
  match rounds with
  | O => mret (inl (WorkerStore ErrContext))
  | S rounds =>
      latest ← store (reading (λ _, ActiveForUpstream (node_id p)));
      match latest with
      | inl ErrTaskNotFound => clearCurrent p ;; mret (inr tt)
      | inl err => mret (inl (WorkerStore err))
      | inr task =>
          if vt_status task ≟ StatusCancelling then cancel rounds p task
          else
          let known := coalesce_str (vt_upstream_job_id task) in
          result ← check p;
          match result with
          | inl _ =>
              markPollFailure p ;;
              stop ← stopped;
              if stop : bool then markReconciling p task ;; mret (inl (WorkerStore ErrContext))
              else
              try! _ ← markReconciling p task;
              out ← timedOut p task;
              if out : bool
              then timeout p task known "upstream_unavailable_timeout" "私有服务持续不可用，任务已结束"
              else wait (poll rounds p v baseline completed)
          | inr result =>
              let o := observe result in
              mergeObservation p o ;;
              match result with
              | [] => fail p task "upstream_protocol_error" "上游未返回 Gallery"
              | gallery :: _ =>
                  let current := gallery_urls gallery in
                  let newCount := countNew baseline current in
                  if newCount =? 1 then poll_finish p task v baseline gallery
                  else if 1 <? newCount then fail p task "result_ambiguous" "检测到多个新增视频"
                  else if ob_Status o ≟ ObservationFailed
                  then fail p task "upstream_failed" "私有服务报告生成失败"
                  else
                  state ← (if negb (lp_Jobs p) then mret (JobGoesOn known completed)
                           else if known ≟ "" then poll_unbound p task o completed
                           else poll_bound p task known completed);
                  match state with
                  | JobEnds r => mret r
                  | JobLost =>
                      retryOrFail p task known v current "upstream_job_lost" "私有任务不存在且未发现生成结果"
                        (poll rounds p v current 0)
                  | JobGoesOn jobID completed =>
                      out ← timedOut p task;
                      if out : bool
                      then timeout p task jobID "execution_timeout" "任务执行超过配置的最长时间"
                      else wait (poll rounds p v baseline completed)
                  end
              end
          end
      end
  end.

(** ** A pass *)

(** The baseline in the column is text that this program wrote. *)
Definition resume (rounds : nat) (p : Processor) (task : Task) : P (worker_error + unit) :=
  if vt_status task ≟ StatusCancelling then cancel rounds p task
  else
  match vt_gallery_before_json task with
  | None =>
      if vt_status task ≟ StatusDispatching then requeue p task
      else fail p task "recovery_context_missing" "恢复任务缺少 Gallery 基线"
  | Some baseline =>
      match validate_request p task with
      | inl message => fail p task "invalid_persisted_request" message
      | inr v => try! _ ← reconcile p task; poll rounds p v baseline 0
      end
  end.

(** The task as the node serves it. *)
Definition served (p : Processor) (task : Task) : bool :=
  (coalesce_str (vt_protocol_version task) ≟ ProtocolLegacy) && (vt_route_state task ≟ RouteReady)
  && (coalesce_str (vt_upstream_id task) ≟ node_id p).

(** What is recorded before the submission: the jobs and the gallery of the node.
    [inl r] ends the pass. *)
Definition save_context (p : Processor) (task : Task) : P ((worker_error + unit) + unit) :=
  if negb (lp_Jobs p) then mret (inr tt)
  else
  before ← list_jobs p;
  match before with
  | inl _ => markPollFailure p ;; inl <$> requeue p task
  | inr before =>
      r ← store (λ e, SaveSubmissionContext e (vt_task_id task) (node_id p) (jobIDs before));
      mret match r with inl err => inl (inl (WorkerStore err)) | inr _ => inr tt end
  end.
Definition save_baseline (p : Processor) (task : Task) : P ((worker_error + unit) + list string) :=
  result ← check p;
  match result with
  | inl _ => markPollFailure p ;; inl <$> requeue p task
  | inr result =>
      mergeObservation p (observe result) ;;
      match result with
      | [] => inl <$> fail p task "upstream_protocol_error" "上游未返回 Gallery"
      | gallery :: _ =>
          let baseline := gallery_urls gallery in
          r ← store (λ e, SaveBaseline e (vt_task_id task) (node_id p) baseline);
          mret match r with inl err => inl (inl (WorkerStore err)) | inr _ => inr baseline end
      end
  end.

Definition submit_first (p : Processor) (task : Task) (v : ValidatedRequest)
    : P ((worker_error + unit) + unit) :=
  arguments ← prepareArguments p v;
  match arguments with
  | None => inl <$> fail p task "upstream_media_upload_failed" "参考音频上传私有服务失败"
  | Some arguments =>
      submitted ← submit_task p (vt_task_id task) arguments;
      match submitted with
      | inl err =>
          if is_rejected err then inl <$> fail p task "upstream_rejected" "私有服务拒绝任务参数"
          else r ← reconcile p task; mret match r with inl err => inl (inl err) | inr _ => inr tt end
      | inr _ =>
          if lp_Jobs p then
            persisted ← store (reading (λ _, ActiveForUpstream (node_id p)));
            match persisted with
            | inl err => mret (inl (inl (WorkerStore err)))
            | inr persisted =>
                match parseJobIDs (vt_upstream_jobs_before_json persisted) with
                | None => inl <$> fail p task "recovery_context_invalid" "私有任务基线无法解析"
                | Some before => bind_created p task before "无法识别唯一私有任务"
                end
            end
          else
          r ← store (λ e, MarkRunning e (vt_task_id task) (node_id p));
          mret match r with inl err => inl (inl (WorkerStore err)) | inr _ => inr tt end
      end
  end.

Definition start_claimed (rounds : nat) (p : Processor) (task : Task) : P (worker_error + unit) :=
  match validate_request p task with
  | inl message => fail p task "invalid_persisted_request" message
  | inr v =>
      context ← save_context p task;
      match context with
      | inl r => mret r
      | inr _ =>
          baseline ← save_baseline p task;
          match baseline with
          | inl r => mret r
          | inr baseline =>
              submitted ← submit_first p task v;
              match submitted with
              | inl r => mret r
              | inr _ =>
                  active ← store (reading (λ _, ActiveForUpstream (node_id p)));
                  match active with
                  | inl err => mret (inl (WorkerStore err))
                  | inr _ => poll rounds p v baseline 0
                  end
              end
          end
      end
  end.

Definition ProcessOne (rounds : nat) (p : Processor) : P (worker_error + unit) :=
  active ← store (reading (λ _, ActiveForUpstream (node_id p)));
  match active with
  | inr active =>
      if negb (served p active) then mret (inl (WorkerStore ErrStateConflict))
      else markCurrent p active ;; resume rounds p active
  | inl ErrTaskNotFound =>
      claimed ← store (λ e, ClaimNext e (lp_Options p) (node_id p)
                              (if 0 <? lp_NodeVersion p then Some (lp_NodeVersion p) else None));
      match claimed with
      | inl err => mret (inl (WorkerStore err))
      | inr task =>
          if negb (served p task) then mret (inl (WorkerStore ErrStateConflict))
          else markCurrent p task ;; start_claimed rounds p task
      end
  | inl err => mret (inl (WorkerStore err))
  end.
End worker.
