(* ===== verification/StageInputs.v ===== *)
(** * Inputs of a generation stage (internal/orchestrator/inputs.go)

    Before a generation is submitted to an H3 node, every medium of the request
    is imported into the node: a spooled file, a data URI or a guarded download
    is written to a file, hashed, imported, and recorded as an artifact with a
    location on the node, so that a retry finds it there. *)

From S2P Require Import Prelude Domain Tx Database Sql Workers GoStrings GoNet GoHttp Netguard Catalog Paging TaskRouting Callbacks Queue Stages Artifacts Remote Tasks Official Delivery Nodes Config NodeAPI ArtifactService Normalize InputSpool.

Definition maxInputArtifactBytes : Z := 256 * MiB.

(** What opening and hashing a spooled file comes to: its size and digest, and
    whether seeking back succeeds. *)
Record spooled := mkSpooled { sp_copied : option (Z * string); sp_seek : bool }.
Inductive removal := Removed | NotThere | RemoveFailed (detail : string).

(** The interactions of the orchestrator; [OnNode taskID c] is a request to a
    node while the orchestrator works on the task [taskID]. *)
Inductive OrchE : Type → Type :=
  | OnNode (taskID : string) {X} (c : NodeE X) : OrchE X
  | OnArtifact {X} (c : ArtifactE X) : OrchE X
  | OnNet {X} (n : NetE X) : OrchE X
  | CreateTemp : OrchE bool
  | FetchURL (rawURL : string) : OrchE (option (Z * Z * string))  (** status, length, type *)
  | WriteTemp (data : string) : OrchE bool
  | CopyTemp (limit : Z) : OrchE (option (Z * string))     (** from the response: size, digest *)
  | SeekTemp : OrchE bool
  | OpenSpool (path : string) : OrchE (option spooled)
  | CloseFile : OrchE bool
  | RemoveFile : OrchE removal.

(** Why an input cannot be read. *)
Inductive fetch_error :=
  | FetchText (message : string)
  | FetchStore (err : error)
  | FetchGuard (err : guard_error)
  | FetchIO
  | FetchStatus (status : Z).
(** Why the inputs cannot be materialized; the phase of [inputMaterializationError]
    is that of the first two. *)
Inductive input_error :=
  | InputRead (err : fetch_error)
  | InputImport (err : node_error)
  | InputStore (err : error)
  | InputIO
  | InputText (message : string).

(** The file with the medium, and whether it is removed after the import. *)
Record fetched := mkFetched {
  ft_mediaType : string;
  ft_suffix : string;
  ft_size : Z;
  ft_digest : string;
  ft_cleanup : bool
}.

Definition parseProxyInputRef (rawURL : string) : option (string * string) :=
  if negb (HasPrefix rawURL "proxy-input://") then None
  else
    let '(taskID, inputID, ok) := Cut (TrimPrefix rawURL "proxy-input://") slash in
    if negb ok || (taskID ≟ "") || (inputID ≟ "") || ContainsByte inputID slash then None
    else Some (taskID, inputID).

Definition inputKind (mediaType : string) : string :=
  if HasPrefix mediaType "image/" then "image"
  else if HasPrefix mediaType "video/" then "video"
  else if HasPrefix mediaType "audio/" then "audio"
  else "binary".
Definition proxyInputKind (mediaType : string) : string :=
  let kind := inputKind mediaType in
  if kind ≟ "audio" then "audio_source"
  else if kind ≟ "video" then "intermediate_video"
  else "test_output".

Section inputs.
(** [mime.ExtensionsByType], the first one; [mime.ParseMediaType]. *)
Context (ExtensionByType : string → option string) (ParseMediaType : string → string).
Context (url_Parse : string → option URL) (escaped_path : string → string → string).
Context (url_String : URL → string) (EqualFold : string → string → bool).
Context (request_ok : string → bool).
Context (decode_artifact : string → json_failure + Artifact).
Context (decode_envelope : string → option (string * string)).
(** The ports of [Guard] and the components of [InputSpoolRoot], none when it is
    not set. *)
Context (ports : list string) (root : list string).

Definition mediaSuffix (mediaType : string) : string :=
  if mediaType ≟ "image/jpeg" then ".jpg"
  else if mediaType ≟ "image/png" then ".png"
  else if mediaType ≟ "image/webp" then ".webp"
  else if mediaType ≟ "video/mp4" then ".mp4"
  else if mediaType ≟ "video/webm" then ".webm"
  else if mediaType ∈? ["audio/mpeg"; "audio/mp3"] then ".mp3"
  else if mediaType ∈? ["audio/wav"; "audio/x-wav"] then ".wav"
  else default ".bin" (ExtensionByType mediaType).

Definition default_media (contentType : string) : string :=
  if contentType ≟ "image_url" then "image/jpeg"
  else if contentType ≟ "video_url" then "video/mp4"
  else if contentType ≟ "audio_url" then "audio/mpeg"
  else "".
Definition of_kind (mediaType contentType : string) : bool :=
  HasPrefix mediaType (String.append (TrimSuffix contentType "_url") "/").

Definition fetchProxyInput (taskID inputID contentType : string) : Prog OrchE (fetch_error + fetched) :=
  match root with
  | [] => mret (inl (FetchText "输入临时目录未配置"))
  | _ =>
      meta ← store (reading (λ _ db, GetInputSpoolFile taskID inputID (db_spool_files db)));
      match meta with
      | inl err => mret (inl (FetchStore err))
      | inr meta =>
          if negb (of_kind (sf_media_type meta) contentType)
          then mret (inl (FetchText "输入临时文件媒体类型不匹配"))
          else if negb (safeUnder root (clean [] (root ++ split_byte slash (sf_relative_path meta))))
          then mret (inl (FetchText "输入临时文件路径无效"))
          else
          opened ← call (OpenSpool (sf_relative_path meta));
          match opened with
          | None => mret (inl (FetchText "input_spool_missing"))
          | Some f =>
              match sp_copied f with
              | None => mret (inl FetchIO)
              | Some (size, digest) =>
                  if negb (size =? sf_size_bytes meta) || negb (EqualFold digest (sf_sha256 meta))
                  then mret (inl (FetchText "input_spool_integrity_failed"))
                  else if negb (sp_seek f) then mret (inl FetchIO)
                  else mret (inr (mkFetched (sf_media_type meta) (sf_extension meta)
                                    (sf_size_bytes meta) (sf_sha256 meta) false))
              end
          end
      end
  end.

(** Where the bytes come from: the media type that is declared, and the payload
    of a data URI or [None] for the body of a response. *)
Definition source (rawURL : string) : Prog OrchE (fetch_error + (string * option string)) :=
  if HasPrefix rawURL "data:" then
    let '(header, payload, ok) := Cut rawURL (Ascii.ascii_of_nat 44) in
    mret (if negb ok || negb (HasSuffix (ToLower header) ";base64")
          then inl (FetchText "素材 Data URI 无效")
          else inr (ToLower (TrimSuffix (TrimPrefix header "data:") ";base64"), Some payload))
  else
  valid ← translate (@OnNet) (Netguard.Validate url_Parse (guard_ports ports) rawURL);
  match valid with
  | inl err => mret (inl (FetchGuard err))
  | inr _ =>
      response ← call (FetchURL rawURL);
      mret match response with
      | None => inl FetchIO
      | Some (status, length, contentType) =>
          if (status <? 200) || (300 <=? status) then inl (FetchStatus status)
          else if maxInputArtifactBytes <? length then inl (FetchText "输入素材超过 256 MiB")
          else inr (ParseMediaType contentType, None)
      end
  end.

(** [io.Copy] into the file through the limit. *)
Definition copy_source (payload : option string) : Prog OrchE (option (Z * string)) :=
  match payload with
  | None => call (CopyTemp (maxInputArtifactBytes + 1))
  | Some payload =>
      match DecodeString payload with
      | None => mret None
      | Some data =>
          e ← environment;
          ok ← call (WriteTemp data);
          mret (if ok : bool then Some (Z.min (len data) (maxInputArtifactBytes + 1), env_sha256_hex e data)
                else None)
      end
  end.

Definition fetch (taskID rawURL contentType : string) : Prog OrchE (fetch_error + fetched) :=
  match parseProxyInputRef rawURL with
  | Some (refTaskID, inputID) =>
      if negb (refTaskID ≟ taskID) then mret (inl (FetchText "输入临时文件引用不属于当前任务"))
      else fetchProxyInput taskID inputID contentType
  | None =>
      created ← call CreateTemp;
      if negb created then mret (inl FetchIO)
      else
      let fail err := _ ← call CloseFile; _ ← call RemoveFile; mret (inl err) in
      src ← source rawURL;
      match src with
      | inl err => fail err
      | inr (declared, payload) =>
          let mediaType := if of_kind declared contentType then declared else default_media contentType in
          copied ← copy_source payload;
          match copied with
          | None => fail FetchIO
          | Some (size, digest) =>
              if (size <=? 0) || (maxInputArtifactBytes <? size)
              then fail (FetchText "输入素材为空或超过 256 MiB")
              else
              sought ← call SeekTemp;
              if negb sought then fail FetchIO
              else mret (inr (mkFetched mediaType (mediaSuffix mediaType) size digest true))
          end
      end
  end.

(** The URL of a medium; [None] when the type is not one of the three. *)
Definition media_url (item : GenerationContent) : option string :=
  if gc_Type item ≟ "image_url" then Some (default "" (gc_ImageURL item))
  else if gc_Type item ≟ "video_url" then Some (default "" (gc_VideoURL item))
  else if gc_Type item ≟ "audio_url" then Some (default "" (gc_AudioURL item))
  else None.

(** The identity of an input: that of its spooled file, or a digest. *)
Definition logical_id (e : Env) (taskID : string) (index : Z) (rawURL : string) : input_error + string :=
  match parseProxyInputRef rawURL with
  | Some (inputTaskID, inputID) =>
      if negb (inputTaskID ≟ taskID) then inl (InputText "输入临时文件引用不属于当前任务") else inr inputID
  | None => inr (stableInputID e taskID index rawURL)
  end.

(** Reading, importing and recording one input that the node does not have. *)
Definition import_input (client : Client) (taskID nodeID requestID : string) (index : Z)
    (logicalID rawURL contentType : string) : Prog OrchE (input_error + string) :=
  file ← fetch taskID rawURL contentType;
  match file with
  | inl err => mret (inl (InputRead err))
  | inr file =>
      imported ← translate (λ X c, OnNode taskID c)
        (ImportArtifact escaped_path url_String request_ok decode_artifact decode_envelope client
          (String.concat "" [requestID; "-input-"; Itoa index])
          (mkImport (String.concat "" ["import-"; logicalID; "-"; nodeID]) logicalID taskID
             (ft_size file) (ft_digest file) (inputKind (ft_mediaType file))
             (String.append logicalID (ft_suffix file))));
      closed ← call CloseFile;
      removed ← (if ft_cleanup file then call RemoveFile else mret Removed);
      match (imported : (node_error + Artifact) * (Z * string)).1 with
      | inl err => mret (inl (InputImport err))
      | inr artifact =>
          if negb closed || match removed with RemoveFailed _ => true | _ => false end
          then mret (inl InputIO)
          else if (na_ArtifactID artifact ≟ "") || negb (na_SizeBytes artifact =? ft_size file)
                  || negb (EqualFold (na_SHA256 artifact) (ft_digest file))
                  || negb (na_State artifact ≟ "active")
          then mret (inl (InputText "节点导入素材完整性校验失败"))
          else
          let manifest := if na_MediaManifest artifact ≟ "null" then "" else na_MediaManifest artifact in
          r ← store (λ e, RegisterInputArtifact e logicalID taskID (proxyInputKind (ft_mediaType file))
                            nodeID (na_ArtifactID artifact) (ft_size file) (ft_digest file) manifest);
          mret match r with
               | inl err => inl (InputStore err)
               | inr _ => inr (na_ArtifactID artifact)
               end
      end
  end.

Fixpoint materialize_items (client : Client) (taskID nodeID requestID : string) (index : Z)
    (items : list GenerationContent) : Prog OrchE (input_error + list InputArtifact) :=
  match items with
  | [] => mret (inr [])
  | item :: items =>
      if gc_Type item ≟ "text" then materialize_items client taskID nodeID requestID (index + 1) items
      else
      match media_url item with
      | None => mret (inl (InputText "任务输入素材类型无效"))
      | Some rawURL =>
          e ← environment;
          try! logicalID ← mret (logical_id e taskID index rawURL);
          local ← store (reading (λ _, GetActiveArtifactLocation logicalID nodeID));
          try! id ← match local with
                    | inr l => mret (inr (al_node_artifact_id l))
                    | inl ErrArtifactNotFound =>
                        import_input client taskID nodeID requestID index logicalID rawURL (gc_Type item)
                    | inl err => mret (inl (InputStore err))
                    end;
          try! rest ← materialize_items client taskID nodeID requestID (index + 1) items;
          mret (inr (mkInputArtifact id (gc_Role item) :: rest))
      end
  end.

Definition Materialize (client : Client) (taskID nodeID requestID : string)
    : Prog OrchE (input_error + list InputArtifact) :=
  task ← store (reading (λ _, GetTaskForExecution taskID));
  match task with
  | inl err => mret (inl (InputStore err))
  | inr task =>
      match unmarshal (vt_request_json (vt_request task)) with
      | None => mret (inl (InputText "任务输入素材快照损坏"))
      | Some request => materialize_items client taskID nodeID requestID 0 (gr_Content request)
      end
  end.
End inputs.
