(* ===== verification/Orchestrator.v ===== *)
(** * The orchestrator of stages (internal/orchestrator/orchestrator.go)

    A pass for one H3 node first settles a cancellation that still bars the
    node; otherwise it claims a stage and, unless an attempt is in flight that it
    resumes, brings the inputs to the node, records an attempt with the request
    it is about to send, submits it and polls the execution to its end. *)

From S2P Require Import Prelude Domain Tx Database Sql Workers GoStrings GoFloat GoNet GoHttp Mediagate Netguard Catalog Paging TaskRouting Callbacks Queue Stages Artifacts Remote Tasks Official Delivery Nodes Config NodeAPI ArtifactService Normalize InputSpool StageInputs.

(** ** Values *)

(** The snapshot of a stage's configuration; [Parameters] is empty when absent. *)
Record StageSnapshot := mkStageSnapshot {
  sn_Parameters : string;
  sn_Profile : option (list (string * any));
  sn_ExpectedMedia : ExpectedMedia
}.

(** What the orchestrator fails with. *)
Inductive orch_error :=
  | OrchStore (err : error)
  | OrchNode (err : node_error)
  | OrchArtifact (err : artifact_error)
  | OrchInput (err : input_error)
  | OrchText (message : string)
  | OrchJSON.
Definition orch_store {A} (r : error + A) : orch_error + A :=
  match r with inl err => inl (OrchStore err) | inr a => inr a end.

(** The libraries: net/url, net/http, encoding/json, mime, strconv, HMAC, the
    secret box, and the text of a failure, as it is and from [logsafe.Error]. *)
Record Externals := mkExternals {
  x_url_Parse : string → option URL;
  x_escaped_path : string → string → string;
  x_url_String : URL → string;
  x_EqualFold : string → string → bool;
  x_request_ok : string → bool;
  x_ExtensionByType : string → option string;
  x_ParseMediaType : string → string;
  x_Open_key : ModelServiceNode → option string;
  x_canonical : string → option string;
  x_request_json : ExecutionRequest → option string;
  x_request_of_json : string → option ExecutionRequest;
  x_decode_health : string → json_failure + Health;
  x_decode_reference : string → json_failure + ExecutionReference;
  x_decode_execution : string → json_failure + Execution;
  x_decode_artifact : string → json_failure + Artifact;
  x_decode_envelope : string → option (string * string);
  x_snapshot_of_json : string → option StageSnapshot;
  x_scenario_of : string → option string;
  x_any_json : any → string;
  x_ParseFloat : string → option float64;
  x_overflow : float64 → Z;
  x_manifest_of_json : string → option Manifest;
  x_generation_of_json : string → option (Z * Z * float64);
  x_restoration_of_json : string → option (Z * Z);
  x_format3 : float64 → string;
  x_error : orch_error → string;
  x_logsafe : orch_error → string
}.

Record InputMaterializer := mkMaterializer { mt_ports : list string; mt_root : list string }.
(** [Processor]: [op_Migrator] is the artifact service behind [MigrationService]. *)
Record Processor := mkOrchestrator {
  op_Options : Options;
  op_Client : Client;
  op_NodeID : string;
  op_Migrator : option Service;
  op_Inputs : option InputMaterializer;
  op_LeaseDuration : Z;
  op_PollInterval : Z
}.

Definition leaseDuration (p : Processor) : Z :=
  if 0 <? op_LeaseDuration p then op_LeaseDuration p else 600 * Second.
Definition pollInterval (p : Processor) : Z :=
  if 0 <? op_PollInterval p then op_PollInterval p else Second.

(** ** Classifying *)

Definition terminalNodeExecution (status : string) : bool :=
  status ∈? ["succeeded"; "failed"; "cancelled"].
Definition nodeExecutionNotFound (err : node_error) : bool :=
  match as_HTTPError err with Some h => nh_StatusCode h =? 404 | None => false end.
Definition nodeQueueExplicitlyIdle (health : Health) : bool :=
  (ht_Status health ≟ "healthy")
  && match ht_Runtime health with
     | Some r => (hr_QueueRunning r ≟ Some 0) && (hr_QueuePending r ≟ Some 0)
     | None => false
     end.

Definition cancellationErrorCode (fallback : string) (err : node_error) : string :=
  match as_HTTPError err with
  | None => fallback
  | Some h =>
      if (nh_StatusCode h =? 401) || (nh_StatusCode h =? 403) then "node_authentication_failed"
      else if 500 <=? nh_StatusCode h then fallback
      else if nh_Code h ≟ "" then fallback else nh_Code h
  end.

Definition classifySubmitError (err : node_error) : string :=
  match as_HTTPError err with
  | Some h => if nh_Code h ≟ "" then "node_submit_unavailable" else nh_Code h
  | None => "node_submit_unavailable"
  end.

(** The code, when reading the execution again is of no use. *)
Definition terminalExecutionReadError (err : node_error) : option string :=
  match as_HTTPError err with
  | None => None
  | Some h =>
      if (nh_StatusCode h =? 408) || (nh_StatusCode h =? 429) || (500 <=? nh_StatusCode h) then None
      else if (400 <=? nh_StatusCode h) && (nh_StatusCode h <? 500)
      then Some (if nh_Code h ≟ "" then "node_execution_rejected" else nh_Code h)
      else None
  end.

Definition retryableCode (code : string) : bool :=
  code ∈? ["node_submit_unavailable"; "node_execution_unavailable"; "node_artifact_unavailable";
           "comfyui_unavailable"; "stage_runtime_unavailable"; "artifact_locked"].

Definition backoff (attempt : Z) : Z :=
  Z.shiftl 1 (Z.max ((if 8 <? attempt then 8 else attempt) - 1) 0) * Second.

(** The first 512 bytes. *)
Definition sanitize (message : string) : string :=
  if 512 <? len message then String.substring 0 512 message else message.

(** ** The request of a stage *)

Section orchestrator.
Context (x : Externals).

Definition deriveParameters (stageType : string) (profile : option (list (string * any)))
    : orch_error + string :=
  match profile with
  | None => inl (OrchText "阶段配置缺少 parameters")
  | Some profile =>
      if stageType ≟ "interpolation" then inr (x_any_json x (any_lookup "interpolation" profile))
      else if stageType ≟ "restoration" then inr (x_any_json x (any_lookup "restoration" profile))
      else if stageType ≟ "watermark" then
        let text := match any_lookup "watermark" profile with
                    | AnyMap w => any_lookup "text" w
                    | _ => AnyNull
                    end in
        inr (x_any_json x (AnyMap [("enabled", AnyBool true); ("aigc_watermark", AnyBool true);
                                   ("text", text)]))
      else inl (OrchText (String.concat "" ["阶段 "; stageType; " 必须冻结显式 parameters"]))
  end.

Definition executionRequest (stage : TaskStage) : orch_error + ExecutionRequest :=
  match x_snapshot_of_json x (st_config_snapshot_json stage) with
  | None => inl OrchJSON
  | Some snapshot =>
      parameters ← (if sn_Parameters snapshot ≟ ""
                    then deriveParameters (st_stage_type stage) (sn_Profile snapshot)
                    else inr (sn_Parameters snapshot));
      let input := coalesce_str (st_input_artifact_id stage) in
      mret (mkExecutionRequest "" "" "" (st_stage_type stage)
              (if input ≟ "" then [] else [mkInputArtifact input ""])
              parameters (sn_ExpectedMedia snapshot))
  end.

Definition generationUsesInputs (parameters : string) : bool :=
  match x_scenario_of x parameters with
  | Some scenario => negb (scenario ≟ "") && negb (scenario ≟ "t2va")
  | None => false
  end.

Definition identified (operationID taskID stageID : string) (r : ExecutionRequest) : ExecutionRequest :=
  r <| er_OperationID := operationID |> <| er_ExternalTaskID := taskID |> <| er_StageID := stageID |>.

(** ** Calls of the client *)

#[local] Abbreviation P := (Prog OrchE).
Definition on {A} (taskID : string) (m : Prog NodeE A) : P A := translate (λ X c, OnNode taskID c) m.

Definition create_execution (p : Processor) (taskID requestID : string) (r : ExecutionRequest)
    : P (node_error + ExecutionReference) :=
  on taskID (CreateExecution (x_escaped_path x) (x_url_String x) (x_request_ok x) (x_request_json x)
    (x_decode_reference x) (x_decode_envelope x) (op_Client p) requestID r).
Definition get_execution (p : Processor) (taskID requestID executionID : string)
    : P (node_error + Execution) :=
  on taskID (GetExecution (x_escaped_path x) (x_url_String x) (x_request_ok x)
    (x_decode_execution x) (x_decode_envelope x) (op_Client p) requestID executionID).
Definition cancel_execution (p : Processor) (taskID requestID executionID operationID : string)
    : P (node_error + ExecutionReference) :=
  on taskID (CancelExecution (x_escaped_path x) (x_url_String x) (x_request_ok x)
    (x_decode_reference x) (x_decode_envelope x) (op_Client p) requestID executionID operationID).
Definition get_artifact (p : Processor) (taskID requestID artifactID : string) : P (node_error + Artifact) :=
  on taskID (GetNodeArtifact (x_escaped_path x) (x_url_String x) (x_request_ok x)
    (x_decode_artifact x) (x_decode_envelope x) (op_Client p) requestID artifactID).
Definition get_health (p : Processor) (taskID requestID : string) : P (node_error + Health) :=
  on taskID (GetHealth (x_escaped_path x) (x_url_String x) (x_request_ok x)
    (x_decode_health x) (x_decode_envelope x) (op_Client p) requestID).

(** ** Messages *)

Definition operationErrorMessage (prefix : string) (err : orch_error) : string :=
  String.concat "" [prefix; "："; x_logsafe x err].
Definition materializationErrorMessage (err : input_error) : string :=
  String.append (match err with InputRead _ => "输入素材下载失败：" | _ => "输入素材导入失败：" end)
    (x_logsafe x (OrchInput err)).
Definition orch_text (err : orch_error) : string :=
  match err with OrchText m => m | err => x_error x err end.

(** ** Failing a stage *)

(** An attempt with a fresh identity and operation, not yet sent. *)
Definition new_attempt (e : Env) (p : Processor) (stage : TaskStage) (input snapshot : option string)
    : StageAttempt :=
  mkStageAttempt (env_uuid e 0) (st_id stage) (st_attempt_count stage + 1) (env_uuid e 1) (op_NodeID p)
    None AtDispatching input None snapshot None None 0 None None.

Definition token_of (stage : TaskStage) : string := coalesce_str (st_lease_token stage).

(** [attemptID] is [None] for the zero attempt, in whose place one is recorded. *)
Definition fail (p : Processor) (stage : TaskStage) (attemptID : option string) (code message : string)
    (terminal : bool) : P (orch_error + unit) :=
  try! id ← match attemptID with
            | Some id => mret (inr id)
            | None =>
                e ← environment;
                let a := new_attempt e p stage None None in
                r ← store (λ e', CreateStageAttempt e' (op_Options p) a (token_of stage));
                mret (match r with inl err => inl (OrchStore err) | inr _ => inr (sa_id a) end)
            end;
  let terminal := terminal || (st_max_attempts stage <=? st_attempt_count stage + 1)
                  || negb (retryableCode code) in
  e ← environment;
  let next := env_now e + Milliseconds (backoff (st_attempt_count stage + 1)) in
  r ← store (λ e', FailStage e' (st_id stage) (token_of stage) id code (sanitize message) next terminal);
  mret (orch_store r).

(** ** Polling *)

Definition taskCancelled (taskID : string) : P (orch_error + bool) :=
  task ← store (reading (λ _, GetTaskForExecution taskID));
  mret match task with
  | inl err => inl (OrchStore err)
  | inr task =>
      if negb (coalesce_str (vt_protocol_version task) ≟ ProtocolH3)
         || negb (vt_route_state task ≟ RouteReady)
      then inl (OrchStore ErrStateConflict)
      else inr (vt_status task ≟ StatusCancelled)
  end.

Definition artifact_valid (id : string) (a : Artifact) : bool :=
  (na_ArtifactID a ≟ id) && (na_Kind a ≟ "video") && (na_State a ≟ "active") && (0 <? na_SizeBytes a)
  && (len (na_SHA256 a) =? 64) && negb (na_MediaManifest a ≟ "") && negb (na_MediaManifest a ≟ "null").

Definition media_gate (stage : TaskStage) (parameters manifest : string) : error + unit :=
  Mediagate.Validate (x_ParseFloat x) (x_overflow x) (x_manifest_of_json x) (x_generation_of_json x)
    (x_restoration_of_json x) (x_format3 x) (st_stage_type stage) parameters manifest.

(** An execution that has succeeded. *)
Definition finish (p : Processor) (stage : TaskStage) (attemptID resultID : string)
    : P (orch_error + unit) :=
  if resultID ≟ "" then fail p stage (Some attemptID) "node_protocol_error" "节点成功响应缺少产物" false
  else
  artifact ← get_artifact p (st_task_id stage) (String.append "stage-artifact-" attemptID) resultID;
  match artifact with
  | inl err => fail p stage (Some attemptID) "node_artifact_unavailable"
                 (operationErrorMessage "节点阶段产物元数据不可用" (OrchNode err)) false
  | inr artifact =>
      let invalid message := fail p stage (Some attemptID) "node_artifact_invalid" message true in
      if negb (artifact_valid resultID artifact) then invalid "节点阶段产物元数据无效"
      else
      match executionRequest stage with
      | inl _ => invalid "冻结阶段配置不可解析"
      | inr request =>
          match media_gate stage (er_Parameters request) (na_MediaManifest artifact) with
          | inl err => invalid (match err with ErrText m => m | _ => "" end)
          | inr _ =>
              r ← store (λ e, CompleteStageWithOutput e (st_task_id stage) (st_id stage) (token_of stage)
                         attemptID (op_NodeID p) (na_ArtifactID artifact) (na_SizeBytes artifact)
                         (na_SHA256 artifact) (na_MediaManifest artifact));
              mret (match r with inl err => inl (OrchStore err) | inr _ => inr tt end)
          end
      end
  end.

(** A wait that the end of the context cuts short. *)
Definition waited (k : P (orch_error + unit)) : P (orch_error + unit) :=
  stop ← stopped;
  if stop : bool then mret (inl (OrchStore ErrContext)) else k.

Definition renewEvery (p : Processor) : Z :=
  let d := Z.quot (leaseDuration p) 3 in if d <? Second then Second else d.

(** [lastRenewed] in milliseconds; the context ends after [rounds] rounds at the
    latest. *)
Fixpoint poll (rounds : nat) (p : Processor) (stage : TaskStage) (attemptID executionID : string)
    (lastRenewed : Z) : P (orch_error + unit) :=
  match rounds with
  | O => mret (inl (OrchStore ErrContext))
  | S rounds =>
      let taskID := st_task_id stage in
      let cancelID := String.append "stage-cancel-" attemptID in
      task ← store (reading (λ _, GetTaskForExecution taskID));
      try! task ← mret (orch_store task);
      if (vt_status task ≟ StatusCancelling) || (vt_status task ≟ StatusCancelled)
      then _ ← cancel_execution p taskID cancelID executionID cancelID; mret (inr tt)
      else
      e ← environment;
      try! lastRenewed ←
        (if renewEvery p <=? (env_now e - lastRenewed) * Millisecond
         then
           r ← store (λ e', RenewStageLease e' (st_id stage) (token_of stage) (leaseDuration p));
           match r with
           | inl err => mret (inl (OrchStore err))
           | inr _ => e' ← environment; mret (inr (env_now e'))
           end
         else mret (inr lastRenewed));
      execution ← get_execution p taskID (String.append "stage-poll-" attemptID) executionID;
      match execution with
      | inl err =>
          match terminalExecutionReadError err with
          | Some code => fail p stage (Some attemptID) code
                           (operationErrorMessage "节点执行状态不可恢复" (OrchNode err)) true
          | None => waited (poll rounds p stage attemptID executionID lastRenewed)
          end
      | inr execution =>
          let status := ex_Status execution in
          if status ∈? ["accepted"; "queued"; "running"; "validating"; "cancelling"; "unknown"]
          then waited (poll rounds p stage attemptID executionID lastRenewed)
          else if status ≟ "succeeded" then finish p stage attemptID (ex_ResultArtifactID execution)
          else if status ∈? ["failed"; "cancelled"] then
            let '(code, retryable, message) :=
              match ex_Error execution with
              | Some err => (nx_Code err, nx_Retryable err,
                             if nx_Message err ≟ "" then "节点阶段执行失败" else nx_Message err)
              | None => ("node_execution_failed", false, "节点阶段执行失败")
              end in
            fail p stage (Some attemptID) code message (negb retryable)
          else fail p stage (Some attemptID) "node_protocol_error" "节点返回未知状态" false
      end
  end.

Definition start_polling (rounds : nat) (p : Processor) (stage : TaskStage)
    (attemptID executionID : string) : P (orch_error + unit) :=
  e ← environment; poll rounds p stage attemptID executionID (env_now e).

(** ** Resuming *)

(** The request of an attempt that was recorded: its snapshot, or for one without,
    a request made again from the stage if it has no inputs. *)
Definition recorded_request (stage : TaskStage) (attempt : StageAttempt) : orch_error + ExecutionRequest :=
  match coalesce_str (sa_request_snapshot_json attempt) with
  | "" =>
      request ← executionRequest stage;
      if negb (coalesce_str (st_input_artifact_id stage) ≟ "")
         || generationUsesInputs (er_Parameters request)
      then inl (OrchStore ErrStateConflict)
      else mret (identified (sa_operation_id attempt) (st_task_id stage) (st_id stage) request)
  | snapshot =>
      match x_request_of_json x snapshot with
      | None => inl OrchJSON
      | Some r =>
          if negb (er_OperationID r ≟ sa_operation_id attempt)
             || negb (er_ExternalTaskID r ≟ st_task_id stage) || negb (er_StageID r ≟ st_id stage)
             || negb (er_StageType r ≟ st_stage_type stage)
          then inl (OrchStore ErrStateConflict) else inr r
      end
  end.

(** The result, when an attempt in flight was taken up. *)
Definition resumeStageAttempt (rounds : nat) (p : Processor) (stage : TaskStage)
    : P (option (orch_error + unit)) :=
  if st_attempt_count stage =? 0 then mret None
  else
  found ← store (reading (λ _, GetRunningStageAttempt (st_id stage) (token_of stage)));
  match found with
  | inl ErrNoClaimableStage => mret None
  | inl err => mret (Some (inl (OrchStore err)))
  | inr attempt =>
      if negb (sa_status attempt ∈? active_attempt_statuses) then mret None
      else if negb (sa_node_id attempt ≟ op_NodeID p) then mret (Some (inl (OrchStore ErrStateConflict)))
      else
      r ← (try! executionID ←
             (if coalesce_str (sa_execution_id attempt) ≟ ""
              then
                try! request ← mret (recorded_request stage attempt);
                reference ← create_execution p (st_task_id stage)
                              (String.append "stage-resubmit-" (sa_id attempt)) request;
                mret match reference with
                     | inl err => inl (OrchNode err)
                     | inr reference =>
                         if ef_ExecutionID reference ≟ ""
                         then inl (OrchText "恢复执行响应缺少 execution_id")
                         else inr (ef_ExecutionID reference)
                     end
              else mret (inr (coalesce_str (sa_execution_id attempt))));
           bound ← store (λ e, BindStageExecution e (st_id stage) (token_of stage) (sa_id attempt) executionID);
           try! _ ← mret (orch_store bound);
           start_polling rounds p stage (sa_id attempt) executionID);
      mret (Some r)
  end.

(** ** Cancellations that bar the node *)

Definition deferCancellationBarrier (p : Processor) (b : NodeDispatchBarrier) (code : string)
    : P (orch_error + unit) :=
  e ← environment;
  r ← store (λ e', DeferNodeDispatchBarrier e' (nb_node_id b) (nb_row_version b) code
                     (env_now e + Milliseconds (pollInterval p)));
  mret (orch_store r).

Definition resolve (b : NodeDispatchBarrier) : P (orch_error + unit) :=
  r ← store (λ _, ResolveNodeDispatchBarrier (nb_node_id b) (nb_row_version b)); mret (orch_store r).

(** Once the execution is known: cancel it, and lift the barrier when it has
    ended or the node no longer knows it and is idle. *)
Definition settle_barrier (p : Processor) (b : NodeDispatchBarrier) (executionID : string)
    : P (orch_error + unit) :=
  let task := nb_task_id b in
  let id := nb_attempt_id b in
  cancelled ← cancel_execution p task (String.append "cancel-reconcile-" id) executionID
                (nb_cancel_operation_id b);
  execution ← get_execution p task (String.append "cancel-check-" id) executionID;
  match execution with
  | inr execution =>
      if terminalNodeExecution (ex_Status execution) then resolve b
      else deferCancellationBarrier p b
             (match cancelled with
              | inl err => cancellationErrorCode "node_cancel_unavailable" err
              | inr _ => "node_cancel_reconciling"
              end)
  | inl err =>
      if nodeExecutionNotFound err then
        health ← get_health p task (String.append "cancel-health-" id);
        match health with
        | inr health => if nodeQueueExplicitlyIdle health then resolve b
                        else deferCancellationBarrier p b "node_queue_not_idle"
        | inl err => deferCancellationBarrier p b (cancellationErrorCode "node_health_unavailable" err)
        end
      else deferCancellationBarrier p b (cancellationErrorCode "node_execution_unavailable" err)
  end.

(** [a] is the attempt of the barrier, whose request is sent again when it is not
    known which execution it started. *)
Definition reconcileCancellationBarrier (p : Processor) (b : NodeDispatchBarrier) (a : StageAttempt)
    : P (orch_error + unit) :=
  try! _ ← taskCancelled (nb_task_id b);
  if negb (nb_node_id b ≟ op_NodeID p) then mret (inl (OrchStore ErrStateConflict))
  else
  let executionID := coalesce_str (nb_execution_id b) in
  if negb (executionID ≟ "") then settle_barrier p b executionID
  else
  let snapshot := coalesce_str (sa_request_snapshot_json a) in
  if snapshot ≟ "" then deferCancellationBarrier p b "execution_request_snapshot_missing"
  else
  match x_request_of_json x snapshot with
  | None => deferCancellationBarrier p b "execution_request_snapshot_invalid"
  | Some request =>
      if negb (er_OperationID request ≟ nb_operation_id b)
      then deferCancellationBarrier p b "execution_request_snapshot_invalid"
      else
      reference ← create_execution p (nb_task_id b) (String.append "cancel-recover-" (nb_attempt_id b))
                    request;
      match reference with
      | inl err => deferCancellationBarrier p b
                     (cancellationErrorCode "node_execution_recovery_failed" err)
      | inr reference =>
          if ef_ExecutionID reference ≟ "" then deferCancellationBarrier p b "node_protocol_error"
          else
          bound ← store (λ e, BindBarrierExecution e (nb_node_id b) (nb_row_version b)
                                (ef_ExecutionID reference));
          try! _ ← mret (orch_store bound);
          settle_barrier p (b <| nb_execution_id := Some (ef_ExecutionID reference) |>
                              <| nb_row_version := nb_row_version b + 1 |>)
            (ef_ExecutionID reference)
      end
  end.

(** ** Inputs from another stage *)

Definition migrate (s : Service) (requestID : string) (i : MigrationRequest)
    : P (orch_error + ArtifactLocation) :=
  stop ← stopped;
  if stop : bool then mret (inl (OrchStore ErrContext))
  else
  r ← translate (@OnArtifact)
    (Migrate (x_url_Parse x) (x_escaped_path x) (x_url_String x) (x_EqualFold x) (x_Open_key x)
      (x_canonical x) (x_request_ok x) (x_decode_artifact x) (x_decode_envelope x) s requestID i);
  mret match r with inl err => inl (OrchArtifact err) | inr l => inr l end.

Definition localizeInput (p : Processor) (stage : TaskStage) : P (orch_error + TaskStage) :=
  let logicalID := coalesce_str (st_input_artifact_id stage) in
  if logicalID ≟ "" then mret (inr stage)
  else
  let localized id := stage <| st_input_artifact_id := Some id |> in
  task ← store (reading (λ _, GetTaskForExecution (st_task_id stage)));
  try! task ← mret (orch_store task);
  if negb (coalesce_str (vt_protocol_version task) ≟ ProtocolH3) || negb (vt_route_state task ≟ RouteReady)
  then mret (inl (OrchStore ErrStateConflict))
  else
  target ← store (reading (λ _, GetModelNode (op_NodeID p)));
  try! target ← mret (orch_store target);
  if negb (mn_protocol_version target ≟ coalesce_str (vt_protocol_version task))
  then mret (inl (OrchStore ErrStateConflict))
  else
  local ← store (reading (λ _, GetActiveArtifactLocation logicalID (op_NodeID p)));
  match local with
  | inr l => mret (inr (localized (al_node_artifact_id l)))
  | inl ErrArtifactNotFound =>
      match op_Migrator p with
      | None => mret (inl (OrchText "跨节点产物迁移器未配置"))
      | Some s =>
          primary ← store (reading (λ _, GetPrimaryArtifactLocation logicalID));
          try! primary ← mret (orch_store primary);
          if al_node_id primary ≟ op_NodeID p then mret (inl (OrchText "目标节点主产物位置异常"))
          else
          src ← store (reading (λ _, GetModelNode (al_node_id primary)));
          try! src ← mret (orch_store src);
          if negb (mn_protocol_version src ≟ coalesce_str (vt_protocol_version task))
          then mret (inl (OrchStore ErrStateConflict))
          else
          e ← environment;
          let digest := env_sha256_hex e (String.concat NUL [logicalID; op_NodeID p]) in
          try! l ← migrate s (String.append "stage-input-" (st_id stage))
            (mkMigration (String.append "migrate-" digest) logicalID (al_node_id primary) (op_NodeID p)
               (String.append "loc-" digest) (String.append logicalID ".mp4"));
          mret (inr (localized (al_node_artifact_id l)))
      end
  | inl err => mret (inl (OrchStore err))
  end.

(** ** A pass *)

Definition materialize (p : Processor) (m : InputMaterializer) (stage : TaskStage)
    : P (input_error + list InputArtifact) :=
  Materialize (x_ExtensionByType x) (x_ParseMediaType x) (x_url_Parse x) (x_escaped_path x)
    (x_url_String x) (x_EqualFold x) (x_request_ok x) (x_decode_artifact x) (x_decode_envelope x)
    (mt_ports m) (mt_root m) (op_Client p) (st_task_id stage) (op_NodeID p)
    (String.append "stage-inputs-" (st_id stage)).

(** The request with the inputs of a generation; [inl r] when the pass ends with
    [r]. *)
Definition with_inputs (p : Processor) (stage : TaskStage) (request : ExecutionRequest)
    : P ((orch_error + unit) + ExecutionRequest) :=
  if negb ((st_stage_type stage ≟ "generation") && generationUsesInputs (er_Parameters request))
  then mret (inr request)
  else
  match op_Inputs p with
  | None => r ← fail p stage None "input_materializer_unavailable" "输入素材服务未配置" true; mret (inl r)
  | Some m =>
      inputs ← materialize p m stage;
      cancelled ← taskCancelled (st_task_id stage);
      match inputs, cancelled with
      | _, inl err => mret (inl (inl err))
      | _, inr true => mret (inl (inr tt))
      | inl err, inr false =>
          r ← fail p stage None "input_materialization_failed" (materializationErrorMessage err) false;
          mret (inl r)
      | inr inputs, inr false => mret (inr (request <| er_InputArtifacts := inputs |>))
      end
  end.

(** From the recorded attempt on. *)
Definition submit (rounds : nat) (p : Processor) (stage : TaskStage) (token : string)
    (attemptID : string) (request : ExecutionRequest) : P (orch_error + unit) :=
  reference ← create_execution p (st_task_id stage) (String.append "stage-submit-" attemptID) request;
  match reference with
  | inl err => fail p stage (Some attemptID) (classifySubmitError err)
                 (operationErrorMessage "节点阶段提交失败" (OrchNode err)) false
  | inr reference =>
      if ef_ExecutionID reference ≟ ""
      then fail p stage (Some attemptID) "node_protocol_error" "节点未返回 execution_id" false
      else
      bound ← store (λ e, BindStageExecution e (st_id stage) token attemptID (ef_ExecutionID reference));
      try! _ ← mret (orch_store bound);
      start_polling rounds p stage attemptID (ef_ExecutionID reference)
  end.

(** A stage without an attempt in flight. *)
Definition dispatch (rounds : nat) (p : Processor) (stage : TaskStage) (token : string)
    : P (orch_error + unit) :=
  local ← localizeInput p stage;
  match local with
  | inl err => fail p stage None "artifact_migration_failed"
                 (operationErrorMessage "输入产物无法迁移到目标节点" err) false
  | inr stageForNode =>
      match executionRequest stageForNode with
      | inl err => fail p stage None "invalid_stage_snapshot" (orch_text err) true
      | inr request =>
          ready ← with_inputs p stage request;
          match ready with
          | inl r => mret r
          | inr request =>
              e ← environment;
              let a := new_attempt e p stage (st_input_artifact_id stage) None in
              let request := identified (sa_operation_id a) (st_task_id stage) (st_id stage) request in
              match x_request_json x request with
              | None => mret (inl OrchJSON)
              | Some snapshot =>
                  created ← store (λ e', CreateStageAttempt e' (op_Options p)
                                     (a <| sa_request_snapshot_json := Some snapshot |>) (token_of stage));
                  try! _ ← mret (orch_store created);
                  submit rounds p stage token (sa_id a) request
              end
          end
      end
  end.

Definition process_stage (rounds : nat) (p : Processor) (token : string) (stage : TaskStage)
    : P (orch_error + unit) :=
  try! cancelled ← taskCancelled (st_task_id stage);
  if cancelled : bool then mret (inr tt)
  else
  resumed ← resumeStageAttempt rounds p stage;
  match resumed with
  | Some r => mret r
  | None => dispatch rounds p stage token
  end.

Definition ProcessOne (rounds : nat) (p : Processor) : P (orch_error + unit) :=
  if op_NodeID p ≟ "" then mret (inl (OrchText "阶段编排依赖未配置"))
  else
  barrier ← store (reading (λ _, GetNodeDispatchBarrier (op_NodeID p)));
  match barrier with
  | inr (b, a) =>
      e ← environment;
      if env_now e <? nb_next_retry_at b then mret (inl (OrchStore ErrQueueEmpty))
      else reconcileCancellationBarrier p b a
  | inl ErrNodeDispatchBarrierNotFound =>
      e ← environment;
      let token := env_uuid e 0 in
      stage ← store (λ e', ClaimStage e' (op_NodeID p) token (leaseDuration p));
      match stage with
      | inl ErrNoClaimableStage => mret (inl (OrchStore ErrQueueEmpty))
      | inl err => mret (inl (OrchStore err))
      | inr stage => process_stage rounds p token stage
      end
  | inl err => mret (inl (OrchStore err))
  end.
End orchestrator.
