(* ===== verification/Settings.v ===== *)
(** * Settings: object storage, API keys, request profiles
    (the object_storage_configs part of internal/store/sqlite/result_delivery_store.go,
    internal/store/sqlite/external_api_key.go, internal/store/sqlite/profile_store.go,
    internal/authkey)

    Administrators edit these tables under optimistic locking: every change
    names the version it was made from.  The API keys of clients are checked
    against a snapshot of the enabled ones. *)

From stdpp Require Import gmap strings.
From S2P Require Import Prelude Domain Tx Database Sql GoStrings.

(** ** Object storage *)

Definition GetObjectStorageConfig (db : DB) : error + ObjectStorageConfig :=
  match head (db_object_storage db) with
  | Some c => inr c
  | None => inl ErrObjectStorageNotFound
  end.

Definition PutObjectStorageConfig (e : Env) (expectedVersion : Z) (input : ObjectStorageConfig)
    : DB → (error + ObjectStorageConfig) * DB :=
  let now := nowMillis e in
  let written c := input
    <| os_LastTestStatus := "untested" |> <| os_LastTestedAt := None |>
    <| os_Version := os_Version c + 1 |> <| os_CreatedAt := os_CreatedAt c |> <| os_UpdatedAt := now |> in
  immediate (
    (if expectedVersion =? 0 then
       count ← select_count (R:=ObjectStorageConfig) (λ _, true);
       raising (if count =? 1 then ErrObjectStorageVersionConflict else ErrConstraint)
         (exec_insert (input <| os_LastTestStatus := "untested" |> <| os_LastTestedAt := None |>
                         <| os_Version := 1 |> <| os_CreatedAt := now |> <| os_UpdatedAt := now |>))
     else
       raising ErrObjectStorageVersionConflict (
         n ← exec_update (λ c, os_Version c =? expectedVersion) written;
         oneRow n)) ;;
    row ← ask (λ db, head (db_object_storage db));
    of_option row ErrNoRows).

Definition MarkObjectStorageTest (e : Env) (expectedVersion : Z) (passed : bool)
    : DB → (error + unit) * DB :=
  let now := nowMillis e in
  immediate (raising ErrObjectStorageVersionConflict (
    n ← exec_update (λ c, os_Version c =? expectedVersion)
      (λ c, c <| os_LastTestStatus := if passed then "passed" else "failed" |>
              <| os_LastTestedAt := Some now |> <| os_UpdatedAt := now |>);
    oneRow n)).

(** ** API keys *)

(** domain.ExternalAPIKeyInput *)
Record ExternalAPIKeyInput := mkAPIKeyInput {
  ki_ID : string;
  ki_Name : string;
  ki_Key : string;
  ki_KeyDigest : string;
  ki_KeyPrefix : string;
  ki_KeySuffix : string;
  ki_Enabled : bool
}.

Definition ListExternalAPIKeys (db : DB) : list ExternalAPIKey :=
  order_by_key (λ k, (- ak_CreatedAt k, ak_ID k)) (db_api_keys db).

Definition GetExternalAPIKey (id : string) (db : DB) : error + ExternalAPIKey :=
  match List.find (λ k, ak_ID k ≟ id) (db_api_keys db) with
  | Some k => inr k
  | None => inl ErrAPIKeyNotFound
  end.

(** id, key_digest, enabled *)
Definition ListExternalAPIKeyCredentials (db : DB) : list (string * string * bool) :=
  map (λ k, (ak_ID k, ak_KeyDigest k, ak_Enabled k))
    (order_by_text (λ k, (ak_ID k, "")) (db_api_keys db)).

Definition APIKeyBootstrapPending (db : DB) : bool := is_null (db_api_key_bootstrap db).

(** The digests of the enabled keys, with their owners. *)
Abbreviation snapshot := (gmap string string).

Section keys.
(** [strings.EqualFold] *)
Context (EqualFold : string → string → bool).

Definition ensureExternalAPIKeyUnique (name : string) (digest : option string) (excludedID : string)
    : Tx unit :=
  same ← ask (λ db, exists_where (λ k, negb (ak_ID k ≟ excludedID) && EqualFold (ak_Name k) name)
                      (db_api_keys db));
  ensure (negb same) ErrAPIKeyNameConflict ;;
  match digest with
  | None => mret tt
  | Some digest =>
      count ← select_count (λ k, ak_KeyDigest k ≟ digest);
      ensure (count =? 0) ErrAPIKeyDigestConflict
  end.

Definition new_key (now : Z) (input : ExternalAPIKeyInput) : ExternalAPIKey :=
  mkAPIKey (ki_ID input) (ki_Name input) (Some (ki_Key input)) (ki_KeyDigest input)
    (ki_KeyPrefix input) (ki_KeySuffix input) (ki_Enabled input) 1 now now.

(** [classifyExternalAPIKeyConstraint]: the index whose uniqueness fails. *)
Definition name_taken (name : string) (l : list ExternalAPIKey) : bool :=
  exists_where (λ k, sqlite_lower (ak_Name k) ≟ sqlite_lower name) l.
Definition insert_key (now : Z) (input : ExternalAPIKeyInput) : Tx unit :=
  keys ← ask db_api_keys;
  raising (if name_taken (ki_Name input) keys then ErrAPIKeyNameConflict
           else if exists_where (λ k, ak_KeyDigest k ≟ ki_KeyDigest input) keys
           then ErrAPIKeyDigestConflict else ErrConstraint)
    (exec_insert (new_key now input)).

Definition trimmed (input : ExternalAPIKeyInput) : ExternalAPIKeyInput :=
  mkAPIKeyInput (ki_ID input) (TrimSpace (ki_Name input)) (ki_Key input) (ki_KeyDigest input)
    (ki_KeyPrefix input) (ki_KeySuffix input) (ki_Enabled input).

Definition scan_key (id : string) : Tx ExternalAPIKey :=
  row ← select_one (λ k, ak_ID k ≟ id);
  of_option row ErrNoRows.

Definition CreateExternalAPIKey (e : Env) (input : ExternalAPIKeyInput)
    : DB → (error + ExternalAPIKey) * DB :=
  let input := trimmed input in
  immediate (
    ensureExternalAPIKeyUnique (ki_Name input) (Some (ki_KeyDigest input)) "" ;;
    insert_key (nowMillis e) input ;;
    scan_key (ki_ID input)).

Definition UpdateExternalAPIKey (e : Env) (id : string) (expectedVersion : Z) (name : string)
    (enabled : bool) : DB → (error + ExternalAPIKey) * DB :=
  let name := TrimSpace name in
  immediate (
    row ← select_one (λ k, ak_ID k ≟ id);
    current ← of_option row ErrAPIKeyNotFound;
    ensure (ak_Version current =? expectedVersion) ErrAPIKeyVersionConflict ;;
    ensureExternalAPIKeyUnique name None id ;;
    keys ← ask db_api_keys;
    n ← raising (if name_taken name (List.filter (λ k, negb (ak_ID k ≟ id)) keys)
                 then ErrAPIKeyNameConflict else ErrConstraint)
      (exec_update (λ k, (ak_ID k ≟ id) && (ak_Version k =? expectedVersion))
        (λ k, k <| ak_Name := name |> <| ak_Enabled := enabled |>
                <| ak_Version := ak_Version k + 1 |> <| ak_UpdatedAt := nowMillis e |>));
    ensure (n =? 1) ErrAPIKeyVersionConflict ;;
    scan_key id).

Definition key_references (id : string) (db : DB) : Z :=
  count_where (λ t, vt_api_key_id (vt_request t) ≟ id) (db_video_tasks db)
  + count_where (λ k, ik_api_key_id k ≟ id) (db_idempotency_keys db).

Definition DeleteExternalAPIKey (id : string) (expectedVersion : Z) : DB → (error + unit) * DB :=
  immediate (
    row ← select_one (λ k, ak_ID k ≟ id);
    current ← of_option row ErrAPIKeyNotFound;
    ensure (ak_Version current =? expectedVersion) ErrAPIKeyVersionConflict ;;
    references ← ask (key_references id);
    ensure (negb (0 <? references)) ErrAPIKeyInUse ;;
    n ← exec_delete (λ k, (ak_ID k ≟ id) && (ak_Version k =? expectedVersion));
    ensure (n =? 1) ErrAPIKeyVersionConflict).

(** Each statement is committed on its own. *)
Definition backfill_key (input : ExternalAPIKeyInput) : DB → (error + unit) * DB :=
  immediate_shadowed (
    n ← exec_update (λ k, (ak_ID k ≟ ki_ID input) && (ak_KeyDigest k ≟ ki_KeyDigest input)
                          && (is_null (ak_Key k) || (ak_Key k ≟ Some "")))
      (λ k, k <| ak_Key := Some (ki_Key input) |>);
    shadowed (ensure (negb (1 <? n)) (ErrText "API Key 明文回填影响了多条记录"))).
Fixpoint BackfillExternalAPIKeyPlaintexts (inputs : list ExternalAPIKeyInput) (db : DB)
    : (error + unit) * DB :=
  match inputs with
  | [] => (inr tt, db)
  | input :: inputs =>
      if ki_Key input ≟ "" then BackfillExternalAPIKeyPlaintexts inputs db
      else
      match backfill_key input db with
      | (inl err, db) => (inl err, db)
      | (inr _, db) => BackfillExternalAPIKeyPlaintexts inputs db
      end
  end.

Definition mask_ok (s : string) : bool := (4 <=? len s) && (len s <=? 16).
Fixpoint validateLegacyAPIKeys (names digests : list string) (inputs : list ExternalAPIKeyInput)
    : option error :=
  match inputs with
  | [] => None
  | input :: inputs =>
      let name := TrimSpace (ki_Name input) in
      if (ki_ID input ≟ "") || (128 <? RuneCountInString (ki_ID input)) || (name ≟ "")
         || (128 <? RuneCountInString name)
      then Some (ErrText "旧 API Key ID 或名称无效")
      else if negb (mask_ok (ki_KeyPrefix input)) || negb (mask_ok (ki_KeySuffix input))
      then Some (ErrText "旧 API Key 掩码无效")
      else if existsb (λ existing, EqualFold existing name) names then Some ErrAPIKeyNameConflict
      else if ki_KeyDigest input ∈? digests then Some ErrAPIKeyDigestConflict
      else validateLegacyAPIKeys (name :: names) (ki_KeyDigest input :: digests) inputs
  end.

(** The number of keys imported, and whether this call did it. *)
Definition ImportLegacyAPIKeys (e : Env) (inputs : list ExternalAPIKeyInput)
    : DB → (error + (Z * bool)) * DB :=
  immediate (
    done ← ask db_api_key_bootstrap;
    match done with
    | Some importedCount => mret (importedCount, false)
    | None =>
        existing ← select_count (R:=ExternalAPIKey) (λ _, true);
        (if existing =? 0 then
           match validateLegacyAPIKeys [] [] inputs with
           | Some err => throw err
           | None => each (λ input, insert_key (nowMillis e) (trimmed input))
                       (order_by_text (λ i, (ki_ID i, "")) inputs)
           end
         else mret tt) ;;
        let importedCount := if existing =? 0 then Z.of_nat (length inputs) else 0 in
        modify (λ db, db <| db_api_key_bootstrap := Some importedCount |>) ;;
        mret (importedCount, existing =? 0)
    end).

(** ** The authenticator and the key service (internal/authkey) *)

Definition Authenticate (e : Env) (owners : snapshot) (token : string) : option string :=
  if token ≟ "" then None else owners !! env_sha256_hex e token.

(** The map is filled in the order of the list, later rows over earlier ones. *)
Definition Reload (db : DB) : snapshot :=
  fold_left (λ (owners : snapshot) item,
      let '(id, digest, enabled) := item in
      if enabled : bool then <[digest := id]> owners else owners)
    (ListExternalAPIKeyCredentials db) ∅.

(** [Service]: [random] are the bytes drawn, in hexadecimal; the snapshot is
    reloaded after every change. *)
Definition Service_Create (e : Env) (random id_random : string) (name : string) (db : DB)
    : (error + (ExternalAPIKey * string)) * DB * option snapshot :=
  let key := String.append "mmx_" random in
  let input := mkAPIKeyInput (String.append "key_" id_random) (TrimSpace name) key
    (env_sha256_hex e key) (String.substring 0 8 key)
    (String.substring (String.length key - 4) 4 key) true in
  match CreateExternalAPIKey e input db with
  | (inl err, db) => (inl err, db, None)
  | (inr created, db) => (inr (created, key), db, Some (Reload db))
  end.

Definition Service_Update (e : Env) (id : string) (version : Z) (name : string) (enabled : bool)
    (db : DB) : (error + ExternalAPIKey) * DB * option snapshot :=
  match UpdateExternalAPIKey e id version (TrimSpace name) enabled db with
  | (inl err, db) => (inl err, db, None)
  | (inr updated, db) => (inr updated, db, Some (Reload db))
  end.

Definition Service_Delete (id : string) (version : Z) (db : DB)
    : (error + unit) * DB * option snapshot :=
  match DeleteExternalAPIKey id version db with
  | (inl err, db) => (inl err, db, None)
  | (inr _, db) => (inr tt, db, Some (Reload db))
  end.
End keys.

(** ** Request profiles *)

Section profiles.
(** [unicode.Is(unicode.Han, r)] *)
Context (is_Han : Z → bool).

Definition name_rune (r : rune) : option string :=
  let c := ru_rune r in
  if in_range 65 90 c then Some (lower_rune r)
  else if in_range 97 122 c || in_range 48 57 c || (c ∈? [32; 45; 95]) || is_Han c
  then Some (ru_bytes r) else None.
Fixpoint name_key (rs : list rune) : option string :=
  match rs with
  | [] => Some ""
  | r :: rs => b ← name_rune r; k ← name_key rs; Some (String.append b k)
  end.

(** The displayed name and its key. *)
Definition NormalizeResolutionName (value : string) : error + (string * string) :=
  let display := TrimSpace value in
  let count := RuneCountInString display in
  if (count <? 1) || (32 <? count) then inl ErrInvalidProfileConfig
  else
  match name_key (runes display) with
  | Some key => inr (display, key)
  | None => inl ErrInvalidProfileConfig
  end.

Definition scan_profile (id : string) : Tx RequestProfile :=
  row ← select_one (λ p, rp_ID p ≟ id);
  of_option row ErrNoRows.

Definition CreateProfile (e : Env) (input : RequestProfile) : DB → (error + RequestProfile) * DB :=
  immediate (
    key ← (if rp_ResolutionKey input ≟ ""
           then query (λ _, p ← NormalizeResolutionName (rp_Resolution input); mret p.2)
           else mret (rp_ResolutionKey input));
    let now := nowMillis e in
    profiles ← ask db_profiles;
    let row := mkProfile (rp_ID input) (rp_Resolution input) key (rp_ConfigJSON input)
      (rp_ConfigHash input) (rp_CreatedBy input)
      (if rp_UpdatedBy input ≟ "" then rp_CreatedBy input else rp_UpdatedBy input) now now 1 in
    ensure (env_json_valid e (rp_ConfigJSON input)) ErrConstraint ;;
    raising (if exists_where (λ p, rp_ResolutionKey p ≟ key) profiles then ErrProfileKeyConflict
             else ErrConstraint) (exec_insert row) ;;
    scan_profile (rp_ID input)).

Definition GetProfile (id : string) (db : DB) : error + RequestProfile :=
  match List.find (λ p, rp_ID p ≟ id) (db_profiles db) with
  | Some p => inr p
  | None => inl ErrProfileNotFound
  end.

Definition GetProfileByResolution (resolution : string) (db : DB) : error + RequestProfile :=
  match NormalizeResolutionName resolution with
  | inl _ => inl ErrProfileNotFound
  | inr (_, key) =>
      match List.find (λ p, rp_ResolutionKey p ≟ key) (db_profiles db) with
      | Some p => inr p
      | None => inl ErrProfileNotFound
      end
  end.

Definition UpdateProfile (e : Env) (id : string) (expectedRowVersion : Z)
    (configJSON configHash administrator : string) : DB → (error + RequestProfile) * DB :=
  immediate (
    row ← select_one (λ p, rp_ID p ≟ id);
    current ← of_option row ErrProfileNotFound;
    ensure (rp_RowVersion current =? expectedRowVersion) ErrProfileVersionConflict ;;
    raising ErrProfileVersionConflict (
      ensure (env_json_valid e configJSON) ErrConstraint ;;
      n ← exec_update (λ p, (rp_ID p ≟ id) && (rp_RowVersion p =? expectedRowVersion))
        (λ p, p <| rp_ConfigJSON := configJSON |> <| rp_ConfigHash := configHash |>
                <| rp_UpdatedBy := administrator |> <| rp_UpdatedAt := nowMillis e |>
                <| rp_RowVersion := rp_RowVersion p + 1 |>);
      oneRow n) ;;
    scan_profile id).

Definition DeleteProfile (id : string) (expectedRowVersion : Z) : DB → (error + unit) * DB :=
  immediate (
    row ← select_one (λ p, rp_ID p ≟ id);
    current ← of_option row ErrProfileNotFound;
    ensure (rp_RowVersion current =? expectedRowVersion) ErrProfileVersionConflict ;;
    raising ErrProfileVersionConflict (
      n ← exec_delete (λ p, (rp_ID p ≟ id) && (rp_RowVersion p =? expectedRowVersion));
      oneRow n)).
End profiles.

(** ** Authentication *)

Definition credential (k : ExternalAPIKey) : string * string * bool :=
  (ak_ID k, ak_KeyDigest k, ak_Enabled k).

Definition load_item (owners : snapshot) (item : string * string * bool) : snapshot :=
  let '(id, digest, enabled) := item in
  if enabled : bool then <[digest := id]> owners else owners.

Lemma load_items_lookup l (m : snapshot) d id :
  NoDup (map (λ i : string * string * bool, i.1.2) l) →
  fold_left load_item l m !! d = Some id ↔
  (id, d, true) ∈ l ∨ (m !! d = Some id ∧ ∀ id', (id', d, true) ∉ l).
Proof.
  revert m. induction l as [|[[id0 d0] en] l IH]; intros m; simpl.
  - intros _. split; [intros H; right; split; [done|set_solver]|]. intros [H|[H _]]; [set_solver|done].
  - intros [Hd Hnd]%NoDup_cons. rewrite IH by done.
    assert (∀ id', (id', d0, true) ∉ l) as Hfresh.
    { intros id' Hin. apply Hd. apply list_elem_of_In, in_map_iff. exists (id', d0, true).
      split; [done|by apply list_elem_of_In]. }
    destruct en; [destruct (decide (d0 = d)) as [->|Hne]|].
    + simpl. rewrite lookup_insert_eq. set_solver.
    + simpl. rewrite lookup_insert_ne by done. set_solver.
    + simpl. set_solver.
Qed.

Lemma api_keys_valid ks :
  tbl_valid ks = true → NoDup (map ak_ID ks) ∧ NoDup (map ak_KeyDigest ks).
Proof. unfold tbl_valid, api_keys_table. rewrite !andb_true_iff, !distinct_NoDup. tauto. Qed.

(** What the snapshot of the store says of a digest. *)
Lemma Reload_lookup db d id :
  tbl_valid (db_api_keys db) = true →
  Reload db !! d = Some id ↔
  ∃ k, k ∈ db_api_keys db ∧ ak_ID k = id ∧ ak_KeyDigest k = d ∧ ak_Enabled k = true.
Proof.
  intros [_ Hd]%api_keys_valid. unfold Reload. change (λ owners item, _) with load_item.
  unfold ListExternalAPIKeyCredentials. change (λ k, (ak_ID k, ak_KeyDigest k, ak_Enabled k)) with credential.
  rewrite load_items_lookup.
  - rewrite lookup_empty. split.
    + intros [Hin|[? _]]; [|done]. apply list_elem_of_In, in_map_iff in Hin as (k & E & Hk%list_elem_of_In).
      apply order_by_text_elem in Hk. injection E as <- <- En. by exists k.
    + intros (k & Hk & <- & <- & En). left. apply list_elem_of_In, in_map_iff. exists k.
      unfold credential. rewrite En. split; [done|]. apply list_elem_of_In. by apply order_by_text_elem.
  - rewrite map_map. simpl. eapply NoDup_Permutation_proper; [|exact Hd].
    apply Permutation_map. unfold order_by_text. apply merge_sort_Permutation.
Qed.

(** C26: a token is accepted exactly while its key is stored and enabled.  After
    the snapshot is reloaded, a token authenticates as an owner if and only if it
    is not empty and the store has an enabled key of that owner with its digest. *)
Theorem Authenticate_exact e db token id :
  tbl_valid (db_api_keys db) = true →
  Authenticate e (Reload db) token = Some id ↔
  token ≠ "" ∧ ∃ k, k ∈ db_api_keys db ∧ ak_ID k = id ∧
    ak_KeyDigest k = env_sha256_hex e token ∧ ak_Enabled k = true.
Proof.
  intros Hv. unfold Authenticate. destruct (decide (token = "")) as [->|Hne].
  - rewrite bool_decide_eq_true_2 by done. naive_solver.
  - rewrite bool_decide_eq_false_2, Reload_lookup by done. naive_solver.
Qed.

Lemma CreateExternalAPIKey_inr EqualFold e input db k db' :
  CreateExternalAPIKey EqualFold e input db = (inr k, db') →
  db_api_keys db' = db_api_keys db ++ [k] ∧ k = new_key (nowMillis e) (trimmed input) ∧
  tbl_valid (db_api_keys db') = true.
Proof.
  intros H. unfold CreateExternalAPIKey, ensureExternalAPIKeyUnique, insert_key, scan_key in H.
  rewrite immediate_inr in H. sql_inv H.
  assert (k = new_key (nowMillis e) (trimmed input)) as ->; [|by split_and!].
  apply api_keys_valid in Hvalid as [Hid _]. cbn in H.
  rewrite (find_unique ak_ID _ _ (new_key (nowMillis e) (trimmed input))) in H; [congruence|done|set_solver|..].
  - by apply bool_decide_eq_true_2.
  - by intros y ?%bool_decide_eq_true.
Qed.

Lemma UpdateExternalAPIKey_inr EqualFold e id version name enabled db k db' :
  tbl_valid (db_api_keys db) = true →
  UpdateExternalAPIKey EqualFold e id version name enabled db = (inr k, db') →
  tbl_valid (db_api_keys db') = true ∧
  ∀ x, x ∈ db_api_keys db' → ak_ID x = id → ak_Enabled x = enabled.
Proof.
  intros [Hid _]%api_keys_valid H. unfold UpdateExternalAPIKey, ensureExternalAPIKeyUnique, scan_key in H.
  rewrite immediate_inr in H. sql_inv H. split; [exact Hvalid|]. simpl.
  intros y (y0 & Hy0 & ->)%elem_of_update_where Ey. rewrite proj_if in Ey by done.
  apply find_elem_of in H0 as [Hx Ex%bool_decide_eq_true].
  assert (y0 = x) as -> by (apply (NoDup_map_inj ak_ID (db_api_keys db)); [done..|congruence]).
  by rewrite (bool_decide_eq_true_2 _ Ex), H1.
Qed.

Lemma DeleteExternalAPIKey_inr id version db u db' :
  tbl_valid (db_api_keys db) = true → DeleteExternalAPIKey id version db = (inr u, db') →
  tbl_valid (db_api_keys db') = true ∧ ∀ x, x ∈ db_api_keys db' → ak_ID x ≠ id.
Proof.
  intros Hv H. pose proof Hv as [Hid _]%api_keys_valid. unfold DeleteExternalAPIKey in H.
  rewrite immediate_inr in H. sql_inv H. simpl. split.
  - revert Hv. simpl. rewrite !andb_true_iff, !distinct_NoDup. intros [[[H3 H4] H5] H6].
    unfold delete_where. split_and!; try by apply NoDup_map_filter.
    rewrite forallb_forall in H6 |- *. intros y [Hy _]%filter_In. by apply H6.
  - intros y [Hp Hy]%elem_of_delete_where Ey. apply find_elem_of in H0 as [Hx Ex%bool_decide_eq_true].
    assert (y = x) as -> by (apply (NoDup_map_inj ak_ID (db_api_keys db)); [done..|congruence]).
    by rewrite (bool_decide_eq_true_2 _ Ex), H1 in Hp.
Qed.

(** C27: a new key works at once.  When the key service creates a key, the token
    it returns authenticates as the owner of the stored key under the snapshot
    it installs, and every token with another digest as before. *)
Theorem Service_Create_roundtrip EqualFold e random id_random name db k key db' s :
  tbl_valid (db_api_keys db) = true →
  Service_Create EqualFold e random id_random name db = (inr (k, key), db', Some s) →
  Authenticate e s key = Some (ak_ID k) ∧
  ∀ token, env_sha256_hex e token ≠ env_sha256_hex e key →
    Authenticate e s token = Authenticate e (Reload db) token.
Proof.
  intros Hv H. unfold Service_Create in H.
  destruct (CreateExternalAPIKey _ _ _ _) as [[err|k'] db1] eqn:E; [done|].
  injection H as -> <- -> <-.
  apply CreateExternalAPIKey_inr in E as (Ek & Hk & Hv').
  assert (ak_KeyDigest k = env_sha256_hex e (String.append "mmx_" random)) as Ed by (by rewrite Hk).
  assert (ak_Enabled k = true) as Een by (by rewrite Hk). split.
  - unfold Authenticate. rewrite bool_decide_eq_false_2 by done.
    apply Reload_lookup; [done|]. exists k. rewrite Ek. split_and!; [set_solver|done..].
  - intros token Hne. unfold Authenticate. destruct (token ≟ ""); [done|].
    apply option_eq. intros id. rewrite !Reload_lookup by done. rewrite Ek. split.
    + intros (x & Hx & ? & Hd & ?). apply elem_of_app in Hx as [Hx|Hx]; [by exists x|].
      apply list_elem_of_singleton in Hx as ->. congruence.
    + intros (x & Hx & ? & ? & ?). exists x. split_and!; [set_solver|done..].
Qed.

(** A revoked key stops working at once.  After the key service has disabled
    or deleted a key, no token authenticates as its owner under the snapshot it
    installs. *)
Theorem revoked_key_rejected EqualFold e id version name db r db' s e' token :
  tbl_valid (db_api_keys db) = true →
  Service_Update EqualFold e id version name false db = (inr r, db', Some s) ∨
  Service_Delete id version db = (inr tt, db', Some s) →
  Authenticate e' s token ≠ Some id.
Proof.
  intros Hv H Ha. assert (tbl_valid (db_api_keys db') = true ∧ s = Reload db' ∧
    ∀ x, x ∈ db_api_keys db' → ak_ID x = id → ak_Enabled x = false) as (Hv' & -> & Hall).
  { destruct H as [H|H].
    - unfold Service_Update in H. destruct (UpdateExternalAPIKey _ _ _ _ _ _ _) as [[err|k'] db1] eqn:E;
        [done|]. injection H as _ -> <-. apply UpdateExternalAPIKey_inr in E as [? ?]; [by split_and!|done].
    - unfold Service_Delete in H. destruct (DeleteExternalAPIKey _ _ _) as [[err|u] db1] eqn:E; [done|].
      injection H as -> <-. apply DeleteExternalAPIKey_inr in E as [? Hne]; [|done]. split_and!; [done..|].
      intros x Hx Ex. by destruct (Hne x Hx). }
  unfold Authenticate in Ha. destruct (token ≟ ""); [done|].
  apply Reload_lookup in Ha as (k & Hk & Ek & _ & Hen); [|done]. specialize (Hall k Hk Ek). congruence.
Qed.
