(* ===== verification/Cleanup.v ===== *)
(** * Cleaning up old artifacts (internal/store/sqlite/cleanup_store.go)

    An administrator previews which copies of finished tasks are older than a
    number of days and confirms the preview with its token within fifteen
    minutes; the copies are then queued for deletion. *)

From S2P Require Import Prelude Domain Tx Database Sql GoStrings GoNet Catalog Paging TaskRouting Callbacks Queue Stages Artifacts Remote Tasks Normalize InputSpool.

(** ** Candidates *)

Definition finished_statuses : list InternalStatus := [StatusSucceeded; StatusFailed; StatusCancelled].

(** task, artifact, copy *)
Definition cleanupCandidate : Type := Task * TaskArtifact * ArtifactLocation.
Definition cc_task (c : cleanupCandidate) : Task := c.1.1.
Definition cc_artifact (c : cleanupCandidate) : TaskArtifact := c.1.2.
Definition cc_location (c : cleanupCandidate) : ArtifactLocation := c.2.

Definition old_copy (cutoff : Z) (db : DB) (ta : Task * TaskArtifact) (l : ArtifactLocation) : bool :=
  let '(t, a) := ta in
  (al_artifact_id l ≟ ta_id a) && vt_live t && (vt_status t ∈? finished_statuses)
  && (ta_created_at a <? cutoff) && (ta_state a ≟ "active") && (al_state l ≟ "active")
  && negb (exists_where (λ newer, (ta_task_id newer ≟ vt_task_id t) && (ta_state newer ≟ "active")
                                  && (cutoff <=? ta_created_at newer)) (db_artifacts db)).

Definition cleanupCandidates (cutoff : Z) (db : DB) : list cleanupCandidate :=
  order_by_text3 (λ c, (vt_task_id (cc_task c), ta_id (cc_artifact c), al_id (cc_location c)))
    (join_on (old_copy cutoff db)
       (join_on (λ t a, ta_task_id a ≟ vt_task_id t) (db_video_tasks db) (db_artifacts db))
       (db_locations db)).

Definition skipped_tasks (cutoff : Z) (db : DB) : Z :=
  count_where (λ t, vt_live t && negb (vt_status t ∈? finished_statuses)
                    && (vt_created_at (vt_request t) <? Z.quot cutoff 1000)) (db_video_tasks db).

Definition unmanaged_results (cutoff : Z) (db : DB) : Z :=
  count_where (λ t, vt_live t && (vt_status t ≟ StatusSucceeded)
    && (default (vt_created_at (vt_request t)) (vt_finished_at t) <? Z.quot cutoff 1000)
    && (negb (coalesce_str (vt_result_public_url t) ≟ "")
        || negb (coalesce_str (vt_result_internal_url t) ≟ ""))
    && negb (existsb (λ al, (ta_task_id al.1 ≟ vt_task_id t) && (ta_state al.1 ≟ "active")
                            && (al_state al.2 ≟ "active"))
               (join_on (λ a l, al_artifact_id l ≟ ta_id a) (db_artifacts db) (db_locations db))))
    (db_video_tasks db).

(** One line of the digest per candidate. *)
Definition candidate_line (c : cleanupCandidate) : string :=
  let NUL := String (Ascii.ascii_of_nat 0) "" in
  String.append (String.concat NUL [vt_task_id (cc_task c); ta_id (cc_artifact c); al_id (cc_location c);
    al_node_id (cc_location c); Itoa (al_size_bytes (cc_location c))]) (String (Ascii.ascii_of_nat 10) "").
Definition cleanupCandidateDigest (e : Env) (items : list cleanupCandidate) : string :=
  env_sha256_hex e (String.concat "" (map candidate_line items)).

(** The number of candidates, their bytes in a 64-bit sum, and both per node. *)
Definition candidate_bytes (items : list cleanupCandidate) : Z :=
  fold_left (λ bytes c, wrap64 (bytes + al_size_bytes (cc_location c))) items 0.
Definition of_cleanup_node (node : string) (c : cleanupCandidate) : bool :=
  al_node_id (cc_location c) ≟ node.
Definition cleanupCandidateSummary (items : list cleanupCandidate)
    : Z * Z * list (string * Z * Z) :=
  let nodes := order_by_text (λ n, (n, "")) (remove_dups (map (λ c, al_node_id (cc_location c)) items)) in
  (Z.of_nat (length items), candidate_bytes items,
   map (λ n, (n, count_where (of_cleanup_node n) items,
              candidate_bytes (List.filter (of_cleanup_node n) items))) nodes).

(** ** Preview *)

Record CleanupPreview := mkPreview {
  cp_Token : string;
  cp_ExpiresAt : Z;
  cp_CutoffAt : Z;
  cp_CandidateCount : Z;
  cp_CandidateBytes : Z;
  cp_SkippedActiveCount : Z;
  cp_UnmanagedResultTaskCount : Z;
  cp_ByNode : list (string * Z * Z)
}.

Definition Minutes15 : Z := 900000.
Definition preview_digest (e : Env) (items : list cleanupCandidate) : string :=
  String.append "preview_digest:" (cleanupCandidateDigest e items).

(** [secret] is the hexadecimal text of the 32 bytes drawn; the candidates are
    read before the job is inserted, outside a transaction. *)
Definition PreviewArtifactCleanup (e : Env) (secret : string) (olderThanDays : Z) (requestedBy : string)
    (db : DB) : (error + CleanupPreview) * DB :=
  if (olderThanDays <? 1) || (3650 <? olderThanDays) || (requestedBy ≟ "")
  then (inl (ErrText "清理预览参数无效"), db)
  else
  let now := nowMillis e in
  let cutoff := now - olderThanDays * 86400000 in
  let candidates := cleanupCandidates cutoff db in
  let skipped := skipped_tasks cutoff db in
  let jobID := env_uuid e 0 in
  let token := String.concat "." [jobID; secret] in
  let '(count, bytes, nodes) := cleanupCandidateSummary candidates in
  let preview := mkPreview token (now + Minutes15) cutoff count bytes skipped (unmanaged_results cutoff db) nodes in
  match immediate (exec_insert (mkDeletionJob jobID "manual_cleanup" "preview" requestedBy count 0 0 0
          now None None now (Some olderThanDays) (Some cutoff) (Some (env_sha256_hex e token)) true
          skipped bytes (Some (preview_digest e candidates)))) db with
  | (inl err, db') => (inl err, db')
  | (inr _, db') => (inr preview, db')
  end.

(** ** Confirmation *)

(** The candidates of the job become items; their copies, artifacts and tasks
    are marked. *)
Definition job_items (jobID : string) (db : DB) : list DeletionItem :=
  List.filter (λ i, di_job_id i ≟ jobID) (db_deletion_items db).
Definition job_tasks (jobID : string) (db : DB) : list string :=
  map (λ ia, ta_task_id ia.2)
    (join_on (λ i a, ta_id a ≟ di_artifact_id i) (job_items jobID db) (db_artifacts db)).

Definition queue_candidates (e : Env) (jobID : string) (now : Z) (candidates : list cleanupCandidate)
    : Tx unit :=
  insert_items e jobID now 0 (map (λ c, (cc_artifact c, cc_location c)) candidates) ;;
  items ← ask (job_items jobID);
  exec_update (λ l, al_id l ∈? map di_location_id items)
    (λ l, l <| al_state := "delete_pending" |> <| al_is_primary := false |>) ;;
  exec_update (λ a, ta_id a ∈? map di_artifact_id items) (λ a, a <| ta_state := "delete_pending" |>) ;;
  tasks ← ask (job_tasks jobID);
  exec_update (λ t, (vt_task_id t ∈? tasks) && vt_live t)
    (λ t, t <| vt_deleted_at := Some now |> <| vt_deletion_state := "pending" |>
            <| vt_updated_at := now |> <| vt_version := vt_version t + 1 |>) ;;
  tasks ← ask (job_tasks jobID);
  exec_delete (λ k, ik_task_id k ∈? tasks) ;;
  mret tt.

Definition getCleanupJobWith (jobID : string) (db : DB) : error + DeletionJob :=
  match List.find (λ j, dj_id j ≟ jobID) (db_deletion_jobs db) with
  | Some j => inr j
  | None => inl ErrCleanupNotFound
  end.

Definition preview_valid (e : Env) (token : string) (job : DeletionJob) : bool :=
  let stored := coalesce_str (dj_preview_token_hash job) in
  hex_decodes stored && (len stored =? 64) && (ToLower stored ≟ env_sha256_hex e token)
  && negb (dj_created_at job + Minutes15 <? nowMillis e).

Definition ConfirmArtifactCleanup (e : Env) (token confirmation : string) (db : DB)
    : (error + DeletionJob) * DB :=
  match split_byte dot token with
  | [jobID; secret] =>
      if negb (len jobID =? 36) || negb (len secret =? 64) then (inl ErrCleanupPreviewStale, db)
      else
      immediate (
        row ← select_one (λ j, (dj_id j ≟ jobID) && (dj_status j ≟ "preview"));
        job ← of_option row ErrCleanupPreviewStale;
        ensure (preview_valid e token job) ErrCleanupPreviewStale ;;
        ensure (negb (negb (confirmation ≟ "")
                      && negb (confirmation ≟ String.concat " " ["DELETE"; Itoa (dj_total_count job); "ARTIFACTS"])))
          (ErrText "清理确认文本不匹配") ;;
        candidates ← ask (cleanupCandidates (coalesce_int (dj_cutoff_at job)));
        let '(count, bytes, _) := cleanupCandidateSummary candidates in
        ensure ((count =? dj_total_count job) && (bytes =? dj_candidate_bytes job)
                && (coalesce_str (dj_error_summary job) ≟ preview_digest e candidates))
          ErrCleanupPreviewStale ;;
        let now := nowMillis e in
        queue_candidates e (dj_id job) now candidates ;;
        let empty := Z.of_nat (length candidates) =? 0 in
        exec_update (λ j, (dj_id j ≟ dj_id job) && (dj_status j ≟ "preview"))
          (λ j, j <| dj_status := if empty then "succeeded" else "pending" |>
                  <| dj_preview_token_hash := None |> <| dj_dry_run := false |>
                  <| dj_finished_at := if empty then Some now else None |>
                  <| dj_updated_at := now |> <| dj_error_summary := None |>) ;;
        query (getCleanupJobWith (dj_id job))) db
  | _ => (inl ErrCleanupPreviewStale, db)
  end.

(** ** Progress and retries *)

(** node, count, pending, deleting, succeeded, failed, skipped, deleted bytes *)
Definition node_progress (jobID node : string) (db : DB) : string * list Z * Z :=
  let items := List.filter (λ i, di_node_id i ≟ node) (job_items jobID db) in
  let count ss := count_where (λ i, di_status i ∈? ss) items in
  (node, [Z.of_nat (length items); count [DiPending; DiRetryWait]; count [DiDeleting];
          count [DiDeleted; DiAlreadyAbsent]; count [DiFailed]; count [DiSkipped]],
   foldr Z.add 0 (map di_deleted_bytes items)).

Definition GetArtifactCleanup (jobID : string) (db : DB)
    : error + (DeletionJob * list (string * list Z * Z)) :=
  job ← getCleanupJobWith jobID db;
  inr (job, map (λ n, node_progress jobID n db)
    (order_by_text (λ n, (n, "")) (remove_dups (map di_node_id (job_items jobID db))))).

Definition ListArtifactCleanupItems (jobID : string) (status : option DeletionStatus) (nodeID : string)
    (limit : Z) (db : DB) : list DeletionItem :=
  let limit := if (limit <? 1) || (100 <? limit) then 50 else limit in
  take (Z.to_nat limit) (order_by_key (λ i, (di_created_at i, di_id i))
    (List.filter (λ i, (match status with Some s => di_status i ≟ s | None => true end)
                       && ((nodeID ≟ "") || (di_node_id i ≟ nodeID))) (job_items jobID db))).

(** The error result is not named: of the errors, the deferred function sees
    only that of the first statement. *)
Definition RetryArtifactCleanup (e : Env) (jobID : string) (nodeIDs : list string)
    : DB → (error + DeletionJob) * DB :=
  let now := nowMillis e in
  immediate_shadowed (
    then_shadowed (ensure (negb (existsb (λ id, id ≟ "") nodeIDs)) (ErrText "节点 ID 无效")) (λ _,
    n ← exec_update (λ i, (di_job_id i ≟ jobID) && (di_status i ≟ DiFailed)
                          && (bool_decide (nodeIDs = []) || (di_node_id i ∈? nodeIDs)))
      (λ i, i <| di_status := DiPending |> <| di_next_attempt_at := None |>
              <| di_lease_token := None |> <| di_lease_expires_at := None |>
              <| di_last_error_code := None |> <| di_last_error_message := None |>
              <| di_updated_at := now |>);
    shadowed (
      ensure (negb (n =? 0)) ErrCleanupNotRetryable ;;
      pending ← ask (λ db, List.filter (λ i, di_status i ≟ DiPending) (job_items jobID db));
      exec_update (λ l, al_id l ∈? map di_location_id pending)
        (λ l, l <| al_state := "delete_pending" |>) ;;
      failed ← select_count (in_job jobID [DiFailed]);
      exec_update (λ j, dj_id j ≟ jobID)
        (λ j, j <| dj_status := "pending" |> <| dj_failed_count := failed |>
                <| dj_finished_at := None |> <| dj_updated_at := now |>
                <| dj_error_summary := None |>) ;;
      query (getCleanupJobWith jobID)))).

(** ** What a confirmation does *)

Definition queued_for (job : string) (c : TaskArtifact * ArtifactLocation) (i : DeletionItem) : Prop :=
  di_job_id i = job ∧ di_artifact_id i = ta_id c.1 ∧ di_location_id i = al_id c.2 ∧
  di_node_id i = al_node_id c.2 ∧ di_status i = DiPending ∧ di_attempt_count i = 0.

Lemma insert_items_Done e job now k cs db u db' :
  insert_items e job now k cs db = Done u db' →
  ∃ items, db' = db <| db_deletion_items := db_deletion_items db ++ items |> ∧
    Forall2 (queued_for job) cs items.
Proof.
  revert k db. induction cs as [|[a l] cs IH]; intros k db H; cbn [insert_items] in H.
  - sql_inv H. exists []. rewrite app_nil_r. split; [by destruct db|constructor].
  - apply bind_Done in H as (u1 & db1 & H1 & H). apply exec_insert_Done in H1 as [-> _].
    apply IH in H as (items & -> & Hf). eexists (_ :: items). split; [simpl; by rewrite <-app_assoc|].
    constructor; [by split_and!|done].
Qed.

(** A task a cleanup may remove. *)
Definition cleanable (cutoff : Z) (db : DB) (t : Task) : Prop :=
  vt_live t = true ∧ vt_status t ∈ finished_statuses ∧
  ∀ a, a ∈ db_artifacts db → ta_task_id a = vt_task_id t → ta_state a = "active" →
    ta_created_at a < cutoff.

Lemma candidate_cleanable cutoff db c :
  c ∈ cleanupCandidates cutoff db →
  cc_task c ∈ db_video_tasks db ∧ cc_artifact c ∈ db_artifacts db ∧ cc_location c ∈ db_locations db ∧
  ta_task_id (cc_artifact c) = vt_task_id (cc_task c) ∧ cleanable cutoff db (cc_task c).
Proof.
  unfold cleanupCandidates. rewrite order_by_text3_elem. destruct c as [[t a] l].
  intros (Hta & Hl & H)%elem_of_join_on. apply elem_of_join_on in Hta as (Ht & Ha & Et%bool_decide_eq_true).
  unfold old_copy in H. rewrite !andb_true_iff, !bool_decide_eq_true, negb_true_iff in H.
  destruct H as ((((((_ & Hlive) & Hs) & _) & _) & _) & Hn). split_and!; [done..|].
  split_and!; [done..|]. intros x Hx Ex Hact. simpl in *. apply Z.nle_gt. intros Hle.
  assert (exists_where (λ newer, (ta_task_id newer ≟ vt_task_id t) && (ta_state newer ≟ "active")
    && (cutoff <=? ta_created_at newer)) (db_artifacts db) = true) as He; [|congruence].
  apply existsb_exists. exists x. split; [by apply list_elem_of_In|].
  by rewrite Ex, Hact, !bool_decide_eq_true_2, (proj2 (Z.leb_le _ _)).
Qed.

(** The tasks a cleanup with these items marks. *)
Definition removed_by (now : Z) (t : Task) : Task :=
  t <| vt_deleted_at := Some now |> <| vt_deletion_state := "pending" |>
    <| vt_updated_at := now |> <| vt_version := vt_version t + 1 |>.

Lemma artifacts_valid l : tbl_valid l = true → NoDup (map ta_id l).
Proof. intros [H _]%andb_true_iff. by apply distinct_NoDup. Qed.

Lemma queue_candidates_Done e jobID now cutoff db u db' :
  tbl_valid (db_artifacts db) = true →
  (∀ i, i ∈ db_deletion_items db → di_job_id i ≠ jobID) →
  queue_candidates e jobID now (cleanupCandidates cutoff db) db = Done u db' →
  (∀ c, c ∈ cleanupCandidates cutoff db → ∃ i, i ∈ db_deletion_items db' ∧
     queued_for jobID (cc_artifact c, cc_location c) i) ∧
  db_deletion_jobs db' = db_deletion_jobs db ∧
  ∃ marked : list string, db_video_tasks db' = update_where (λ t, (vt_task_id t ∈? marked) && vt_live t)
      (removed_by now) (db_video_tasks db) ∧
    ∀ id, id ∈ marked → ∃ t, t ∈ db_video_tasks db ∧ vt_task_id t = id ∧ cleanable cutoff db t.
Proof.
  intros Hv Hnew H. unfold queue_candidates in H. apply bind_Done in H as ([] & db1 & H1 & H).
  apply insert_items_Done in H1 as (items & -> & Hf). sql_inv H.
  split_and!; [|done|].
  - intros c Hc. apply list_elem_of_In, (in_map (λ c, (cc_artifact c, cc_location c))), list_elem_of_In in Hc.
    apply list_elem_of_lookup_1 in Hc as (n & Hn).
    destruct (Forall2_lookup_l _ _ _ _ _ Hf Hn) as (i & Hi%list_elem_of_lookup_2 & Hq).
    exists i. split; [|done]. simpl. set_solver.
  - eexists. split; [done|]. intros id Hid.
    apply list_elem_of_In, in_map_iff in Hid as ([i a] & <- & Hid%list_elem_of_In). simpl.
    apply elem_of_join_on in Hid as (Hi & Ha & Ei%bool_decide_eq_true). simpl in Hi, Ha.
    apply elem_of_filter_bool in Hi as [Ej%bool_decide_eq_true Hi].
    apply elem_of_app in Hi as [Hi|Hi]; [by apply Hnew in Hi|].
    destruct (Forall2_elem_of_r _ _ _ _ Hf Hi) as (al & Hc & (_ & Eai & _)).
    apply list_elem_of_In, in_map_iff in Hc as (c & <- & Hc%list_elem_of_In). simpl in Eai.
    apply candidate_cleanable in Hc as (Ht & Hca & _ & Et & Hclean).
    apply elem_of_update_where in Ha as (a0 & Ha0 & ->).
    assert (a0 = cc_artifact c) as ->.
    { apply (NoDup_map_inj ta_id (db_artifacts db)); [by apply artifacts_valid|done..|].
      destruct (_ ∈? _); simpl in Ei; congruence. }
    exists (cc_task c). split_and!; [done| |done]. destruct (_ ∈? _); simpl; congruence.
Qed.

Lemma Confirm_no_preview e token confirmation db jobID secret :
  split_byte dot token = [jobID; secret] →
  (∀ j, j ∈ db_deletion_jobs db → dj_id j = jobID → dj_status j ≠ "preview") →
  ConfirmArtifactCleanup e token confirmation db = (inl ErrCleanupPreviewStale, db).
Proof.
  intros Es H. unfold ConfirmArtifactCleanup. rewrite Es. destruct (_ || _); [done|].
  unfold immediate, mbind, tx_bind, select_one, ask. cbn [tbl deletion_jobs_table].
  destruct (List.find _ _) as [j|] eqn:E; [|done].
  apply find_elem_of in E as [Hj [Ei%bool_decide_eq_true Ep%bool_decide_eq_true]%andb_true_iff].
  by destruct (H j Hj Ei).
Qed.

(** C36: a cleanup removes what was previewed, once.  When the confirmation of a
    preview succeeds, the token belongs to a preview at most fifteen minutes old,
    the candidates are as many, as large and (by their digest) the same as
    previewed, and each is queued for deletion; the tasks it removes were
    finished, with no active artifact as young as the cutoff, and every other
    task is unchanged; and the token is not accepted again. *)
Theorem ConfirmArtifactCleanup_once e token confirmation db job db' :
  tbl_valid (db_artifacts db) = true → tbl_valid (db_deletion_jobs db) = true →
  (∀ i j, i ∈ db_deletion_items db → j ∈ db_deletion_jobs db → dj_status j = "preview" →
     di_job_id i ≠ dj_id j) →
  ConfirmArtifactCleanup e token confirmation db = (inr job, db') →
  ∃ j cutoff, j ∈ db_deletion_jobs db ∧ dj_status j = "preview" ∧ preview_valid e token j = true ∧
    coalesce_int (dj_cutoff_at j) = cutoff ∧
    Z.of_nat (length (cleanupCandidates cutoff db)) = dj_total_count j ∧
    coalesce_str (dj_error_summary j) = preview_digest e (cleanupCandidates cutoff db) ∧
    (∀ c, c ∈ cleanupCandidates cutoff db → ∃ i, i ∈ db_deletion_items db' ∧
       queued_for (dj_id j) (cc_artifact c, cc_location c) i) ∧
    Forall2 (λ t t', t' = t ∨ t' = removed_by (nowMillis e) t ∧
               ∃ t0, t0 ∈ db_video_tasks db ∧ vt_task_id t0 = vt_task_id t ∧ cleanable cutoff db t0)
      (db_video_tasks db) (db_video_tasks db') ∧
    ∀ e' confirmation', ConfirmArtifactCleanup e' token confirmation' db' = (inl ErrCleanupPreviewStale, db').
Proof.
  intros Ha Hj Hi H. unfold ConfirmArtifactCleanup in H.
  destruct (split_byte dot token) as [|jobID [|secret [|]]] eqn:Esplit; try discriminate H.
  destruct (_ || _) eqn:Elen; [discriminate H|]. rewrite immediate_inr in H.
  rewrite bind_Done in H. destruct H as (row & db1 & H1 & H). sql_inv H1.
  rewrite bind_Done in H. destruct H as (j & db2 & H2 & H). sql_inv H2.
  pose proof H2 as [Hin [Ejid%bool_decide_eq_true Est%bool_decide_eq_true]%andb_true_iff]%find_elem_of.
  rewrite bind_Done in H. destruct H as ([] & db3 & H3 & H). sql_inv H3.
  rewrite bind_Done in H. destruct H as ([] & db4 & H4 & H). sql_inv H4.
  rewrite bind_Done in H. destruct H as (cs & db5 & H5 & H). sql_inv H5.
  cbv beta iota delta [cleanupCandidateSummary] in H.
  rewrite bind_Done in H. destruct H as ([] & db6 & H6 & H). sql_inv H6.
  apply andb_true_iff in H6 as [[Ec%Z.eqb_eq _]%andb_true_iff Ed%bool_decide_eq_true].
  rewrite bind_Done in H. destruct H as (u & db7 & H7 & H).
  apply queue_candidates_Done in H7 as (Hq & Ejobs & marked & Etasks & Hm); [|done|by intros i Hii; apply Hi].
  sql_inv H. simpl in *.
  exists j, (coalesce_int (dj_cutoff_at j)). split_and!; [done..| |].
  - rewrite Etasks. apply Forall2_update_where. intros t.
    destruct ((vt_task_id t ∈? marked) && vt_live t) eqn:Em; [|by left]. right. split; [done|].
    apply andb_true_iff in Em as [Hid%bool_decide_eq_true _]. apply Hm in Hid as (t0 & ? & ? & ?). by exists t0.
  - intros e' conf'. apply (Confirm_no_preview _ _ _ _ (dj_id j) secret); [done|]. simpl.
    intros x (y & Hy & ->)%elem_of_update_where Ex.
    destruct ((dj_id y ≟ dj_id j) && (dj_status y ≟ "preview")) eqn:Ep; simpl in *.
    + destruct (Z.of_nat _ =? 0); discriminate.
    + intros Es. apply andb_false_iff in Ep as [Ep|Ep]; apply bool_decide_eq_false in Ep; congruence.
Qed.
