(* ===== verification/Lifecycle.v ===== *)
(** * Histories of the store

    [step] is one operation of the store, successful or not; a history is a
    sequence of steps in any order, which is what concurrent workers produce,
    since every operation is one transaction (or one statement).  The theorems
    say what no history can do to a task and to its remote run. *)

From stdpp Require Import relations.
From S2P Require Import Prelude Domain Tx Database Sql GoStrings Catalog Paging TaskRouting Callbacks Queue Stages Artifacts Remote Tasks Official Delivery Nodes Normalize Router Settings Cleanup.

(** ** What stays *)

(** A task keeps its identity, its place in the queue and its request; its
    version never falls; its original result, once recorded, and its route,
    once ready, are never replaced. *)
Definition task_evolves (t t' : Task) : Prop :=
  vt_task_id t' = vt_task_id t ∧ vt_queue_seq t' = vt_queue_seq t ∧
  vt_request t' = vt_request t ∧ vt_version t ≤ vt_version t' ∧
  (vt_result_internal_url t ≠ None → vt_result_internal_url t' = vt_result_internal_url t) ∧
  (vt_route_state t = RouteReady → vt_protocol_version t ≠ None →
     vt_route_state t' = RouteReady ∧ vt_protocol_version t' = vt_protocol_version t ∧
     vt_routing_snapshot_json t' = vt_routing_snapshot_json t ∧
     vt_request_normalizer t' = vt_request_normalizer t).

Definition phase_rank (p : RemotePhase) : Z :=
  match p with
  | RemotePreparing => 0
  | RemotePrepared => 1
  | RemoteSubmitIntent => 2
  | RemoteSubmitted => 3
  | RemoteTerminal => 4
  end.

(** A run stays with its node and its submission key; once its request is
    prepared it never goes back, and the request body is final; the remote task
    it is bound to never changes; submissions are only counted up. *)
Definition run_evolves (r r' : RemoteRun) : Prop :=
  rr_task_id r' = rr_task_id r ∧ rr_submit_attempts r ≤ rr_submit_attempts r' ∧
  (rr_upstream_task_id r ≠ None → rr_upstream_task_id r' = rr_upstream_task_id r) ∧
  rr_node_id r' = rr_node_id r ∧ rr_submission_key r' = rr_submission_key r ∧
  (1 ≤ phase_rank (rr_phase r) →
     phase_rank (rr_phase r) ≤ phase_rank (rr_phase r') ∧
     rr_request_body_json r' = rr_request_body_json r ∧
     rr_request_body_hash r' = rr_request_body_hash r).

#[export] Instance task_evolves_preorder : PreOrder task_evolves.
Proof.
  unfold task_evolves. split.
  - intros t. split_and!; try done; lia.
  - intros t1 t2 t3 (A1 & A2 & A3 & A4 & A5 & A6) (B1 & B2 & B3 & B4 & B5 & B6).
    split_and!; [congruence..|lia| |].
    + intros H. rewrite <-A5 in H |- * by done. auto.
    + intros H1 H2. destruct (A6 H1 H2) as (R1 & R2 & R3 & R4). rewrite <-R2 in H2.
      destruct (B6 R1 H2) as (? & ? & ? & ?). split_and!; congruence.
Qed.

#[export] Instance run_evolves_preorder : PreOrder run_evolves.
Proof.
  unfold run_evolves. split.
  - intros r. split_and!; try done; lia.
  - intros r1 r2 r3 (A1 & A2 & A3 & A4 & A5 & A6) (B1 & B2 & B3 & B4 & B5 & B6).
    split_and!; [congruence|lia| |congruence..|].
    + intros H. rewrite <-A3 in H |- * by done. auto.
    + intros H. destruct (A6 H) as (R1 & R2 & R3).
      destruct B6 as (? & ? & ?); [lia|]. split_and!; [lia|congruence..].
Qed.

(** The triggers of the schema give the evolution of a row. *)
Lemma task_trigger_evolves t t' :
  vt_task_id t' = vt_task_id t → vt_queue_seq t' = vt_queue_seq t →
  vt_request t' = vt_request t → vt_version t ≤ vt_version t' →
  task_trigger t t' = true → task_evolves t t'.
Proof.
  intros H1 H2 H3 H4 H. unfold task_trigger in H. apply andb_true_iff in H as [Hu Hr].
  split_and!; [done..| |].
  - intros Hn. destruct (vt_result_internal_url t) eqn:E; [|done]. simpl in Hu.
    by apply bool_decide_eq_true in Hu.
  - intros Es Ep. rewrite (bool_decide_eq_true_2 _ Es) in Hr.
    destruct (vt_protocol_version t) as [p|] eqn:E; [|done]. simpl in Hr.
    rewrite negb_true_iff, !orb_false_iff, !negb_false_iff, !bool_decide_eq_true in Hr.
    destruct Hr as [[[? ?] ?] ?]. split_and!; congruence.
Qed.

(** An UPDATE of task_remote_runs that leaves the identity alone, and the
    request once it is prepared. *)
Definition keeps_run (p : RemoteRun → bool) (f : RemoteRun → RemoteRun) : Prop :=
  ∀ r, rr_task_id (f r) = rr_task_id r ∧ rr_node_id (f r) = rr_node_id r ∧
    rr_submission_key (f r) = rr_submission_key r ∧
    (p r = true → rr_phase r = RemotePrepared →
       1 ≤ phase_rank (rr_phase (f r)) ∧ rr_request_body_json (f r) = rr_request_body_json r ∧
       rr_request_body_hash (f r) = rr_request_body_hash r).

Lemma remote_trigger_evolves p f r :
  keeps_run p f → p r = true → remote_trigger r (f r) = true → run_evolves r (f r).
Proof.
  intros (H1 & H2 & H3 & Hprep)%(λ H, H r) Hp H. specialize (Hprep Hp).
  unfold remote_trigger in H. rewrite negb_true_iff in H.
  apply orb_false_iff in H as [H Hatt]. apply Z.ltb_ge in Hatt.
  apply orb_false_iff in H as [H Hup]. apply orb_false_iff in H as [H Hterm].
  apply orb_false_iff in H as [Hsub Hback]. split_and!; [done|done| |done..|].
  - intros Hn. destruct (rr_upstream_task_id r) eqn:E; [|done]. simpl in Hup.
    by apply negb_false_iff, bool_decide_eq_true in Hup.
  - intros Hrank. destruct (decide (rr_phase r = RemotePrepared)) as [E|Hne].
    { destruct (Hprep E) as (? & ? & ?). rewrite E. by split_and!. }
    assert (rr_phase r ∈ [RemoteSubmitIntent; RemoteSubmitted; RemoteTerminal]) as Hin.
    { destruct (rr_phase r); simpl in Hrank; try lia; set_solver. }
    rewrite (bool_decide_eq_true_2 _ Hin) in Hsub. simpl in Hsub.
    rewrite !orb_false_iff, !negb_false_iff, !bool_decide_eq_true in Hsub.
    destruct Hsub as [[[[E1 E2] E3] E4] E5]. split_and!; try done.
    apply bool_decide_eq_false in E5.
    destruct (rr_phase r), (rr_phase (f r)); simpl in *; try lia; try done; set_solver.
Qed.

(** ** Along a transaction *)

(** The task [id] and its run are still there and have evolved. *)
Definition evolves (id : string) (db db' : DB) : Prop :=
  (∀ t, t ∈ db_video_tasks db → vt_task_id t = id →
     ∃ t', t' ∈ db_video_tasks db' ∧ task_evolves t t') ∧
  (∀ r, r ∈ db_remote_runs db → rr_task_id r = id →
     ∃ r', r' ∈ db_remote_runs db' ∧ run_evolves r r').

#[export] Instance evolves_preorder id : PreOrder (evolves id).
Proof.
  split.
  - intros db. split; intros x Hx _; exists x; split; (done || reflexivity).
  - intros db1 db2 db3 [T1 R1] [T2 R2]. split.
    + intros t Ht E. destruct (T1 t Ht E) as (t' & Ht' & Htt).
      destruct (T2 t' Ht') as (t'' & ? & ?); [by rewrite (proj1 Htt)|].
      exists t''. split; [done|by etrans].
    + intros r Hr E. destruct (R1 r Hr E) as (r' & Hr' & Hrr).
      destruct (R2 r' Hr') as (r'' & ? & ?); [by rewrite (proj1 Hrr)|].
      exists r''. split; [done|by etrans].
Qed.

Lemma evolves_same id db db' :
  db_video_tasks db' = db_video_tasks db → db_remote_runs db' = db_remote_runs db →
  evolves id db db'.
Proof.
  intros ET ER. split; intros x Hx _; exists x; rewrite ?ET, ?ER; split; (done || reflexivity).
Qed.

(** An UPDATE of video_tasks that leaves the identity, the place and the
    request alone and does not lower the version. *)
Definition keeps_task (f : Task → Task) : Prop :=
  ∀ t, vt_task_id (f t) = vt_task_id t ∧ vt_queue_seq (f t) = vt_queue_seq t ∧
    vt_request (f t) = vt_request t ∧ vt_version t ≤ vt_version (f t).

Lemma evolves_update_tasks id p f : keeps_task f → tx_rel (evolves id) (exec_update (R:=Task) p f).
Proof.
  intros Hf. apply tx_rel_update_checked; [apply _|]. intros db Htrig _. split; [|by eexists].
  intros t Ht _. exists (if p t then f t else t). split; [by apply elem_of_update_where; exists t|].
  destruct (p t) eqn:E; [|reflexivity]. destruct (Hf t) as (? & ? & ? & ?).
  by apply task_trigger_evolves, Htrig.
Qed.

Lemma evolves_update_runs id p f :
  keeps_run p f → tx_rel (evolves id) (exec_update (R:=RemoteRun) p f).
Proof.
  intros Hf. apply tx_rel_update_checked; [apply _|]. intros db Htrig _. split; [by eexists|].
  intros r Hr _. exists (if p r then f r else r). split; [by apply elem_of_update_where; exists r|].
  destruct (p r) eqn:E; [|reflexivity]. apply (remote_trigger_evolves p); auto.
Qed.

Lemma evolves_insert_task id t : tx_rel (evolves id) (exec_insert (t : Task)).
Proof.
  apply tx_rel_exec_insert; [apply _|]. intros db. split; [|by eexists].
  intros u Hu _. exists u. split; [simpl; set_solver|reflexivity].
Qed.

Lemma evolves_insert_run id r : tx_rel (evolves id) (exec_insert (r : RemoteRun)).
Proof.
  apply tx_rel_exec_insert; [apply _|]. intros db. split; [by eexists|].
  intros u Hu _. exists u. split; [simpl; set_solver|reflexivity].
Qed.

(** [evolve] goes through the statements of an operation. *)
Ltac keeps :=
  let t := fresh in intros t; cbn; split_and!; try reflexivity; lia.
Ltac keeps_run :=
  let r := fresh in let Hp := fresh in let Hr := fresh in
  intros r; cbn; split_and!; [reflexivity..|]; intros Hp Hr; cbn; rewrite ?Hr;
  first [split_and!; (reflexivity || (simpl; lia))
        |rewrite !andb_true_iff, !bool_decide_eq_true, Hr in Hp; exfalso; intuition discriminate].
Ltac evolve_stmt :=
  match goal with
  | |- tx_rel _ (@exec_update Task _ _ _) => apply evolves_update_tasks; keeps
  | |- tx_rel _ (@exec_update RemoteRun _ _ _) => apply evolves_update_runs; keeps_run
  | |- tx_rel _ (@exec_insert Task _ _) => apply evolves_insert_task
  | |- tx_rel _ (@exec_insert RemoteRun _ _) => apply evolves_insert_run
  | _ => tx_stmt
  end.
Ltac evolve := repeat evolve_stmt; try (intros ?; by apply evolves_same).
Ltac evolve_op :=
  repeat match goal with
  | |- evolves _ _ (immediate _ _).2 => apply tx_rel_immediate; [apply _|]
  | |- evolves _ _ (immediate_shadowed _ _).2 => apply tx_rel_immediate_shadowed; [apply _|]
  | |- evolves _ _ (inl _, _).2 => reflexivity
  | |- evolves _ _ (inr _, _).2 => reflexivity
  | |- evolves _ _ (if ?b then _ else _).2 => destruct b
  | |- evolves _ _ (match ?x with _ => _ end).2 => destruct x
  end.

(** ** The operations *)

Lemma createCallback_evolves id e k taskID status now :
  tx_rel (evolves id) (createCallbackDeliveryWithConn e k taskID status now).
Proof. unfold createCallbackDeliveryWithConn. evolve. Qed.

Lemma rebalance_evolves id o now : tx_rel (evolves id) (rebalance o now).
Proof. unfold rebalance, rebalanced. evolve. Qed.

Lemma createBarrier_evolves id taskID now :
  tx_rel (evolves id) (createNodeDispatchBarrierForTask taskID now).
Proof. unfold createNodeDispatchBarrierForTask. evolve. Qed.

Lemma finishCancellation_evolves id e taskID now :
  tx_rel (evolves id) (finishStageTaskCancellation e taskID now).
Proof. unfold finishStageTaskCancellation. evolve. all: apply createCallback_evolves. Qed.

Lemma completeStage_evolves id e stage token attempt out :
  tx_rel (evolves id) (completeStageWithConn e stage token attempt out).
Proof. unfold completeStageWithConn. evolve. all: apply createCallback_evolves. Qed.

Lemma registerOutput_evolves id e task stage node artifact size digest media :
  tx_rel (evolves id) (registerStageOutputWithConn e task stage node artifact size digest media).
Proof. unfold registerStageOutputWithConn, insert_artifact, insert_location. evolve. Qed.

Lemma insert_items_evolves id e job now k cs : tx_rel (evolves id) (insert_items e job now k cs).
Proof.
  revert k. induction cs as [|[a l] cs IH]; intros k; simpl; [apply tx_rel_ret; apply _|].
  apply tx_rel_bind; [apply _| |intros _; apply IH]. evolve.
Qed.

Lemma RequestTaskDeletion_evolves id e task reason by_ db :
  evolves id db (RequestTaskDeletion e task reason by_ db).2.
Proof.
  unfold RequestTaskDeletion. evolve_op. evolve. all: apply insert_items_evolves.
Qed.

Lemma writeNodeCatalog_evolves id e n now : tx_rel (evolves id) (writeNodeCatalog e n now).
Proof.
  unfold writeNodeCatalog, replace_catalog, write_catalog_row, hide_models, writeNodeModel,
    syncModelRoutes, bumpRouting, guard_none. evolve.
Qed.

Lemma delete_expired_evolves id es i ids db : evolves id db (delete_expired es i ids db).2.
Proof.
  revert i db. induction ids as [|x ids IH]; intros i db; simpl; [reflexivity|].
  pose proof (RequestTaskDeletion_evolves id (es i) x "retention" "retention-worker" db) as H.
  destruct (RequestTaskDeletion _ _ _ _ _) as [[]]; simpl in *; [done|]. etrans; [done|apply IH].
Qed.

Lemma recover_evolves id e db : evolves id db (recoverExhaustedResultUploads e db).2.
Proof.
  unfold recoverExhaustedResultUploads, fail_exhausted, failDeliveredTask, touch. evolve_op. evolve.
  all: apply createCallback_evolves.
Qed.

(** Deleting another task. *)
Lemma delete_tasks_evolves id taskID p :
  id ≠ taskID → (∀ t, p t = true → vt_task_id t = taskID) → tx_rel (evolves id) (delete_tasks p).
Proof.
  intros Hne Hp db. destruct (delete_tasks p db) as [n db'|err db'] eqn:E.
  - apply delete_tasks_Done in E as (_ & _ & ->). split; simpl.
    + intros t Ht Et. exists t. split; [|reflexivity]. apply elem_of_delete_where. split; [|done].
      destruct (p t) eqn:Ep; [|done]. apply Hp in Ep. congruence.
    + intros r Hr Er. exists r. split; [|reflexivity]. apply elem_of_delete_where. split; [|done].
      apply bool_decide_eq_false. intros Hin. apply list_elem_of_In, in_map_iff in Hin.
      destruct Hin as (t & Et & [_ Hpt]%filter_In). apply Hp in Hpt. congruence.
  - unfold delete_tasks, mbind, tx_bind, ask, ensure in E. destruct (negb _); [done|].
    injection E as _ <-. reflexivity.
Qed.

Lemma AdminDelete_evolves id taskID purged db :
  id ≠ taskID → evolves id db (AdminDelete taskID purged db).2.
Proof.
  intros Hne. unfold AdminDelete, unlink_task, delete_dependents. evolve_op. evolve.
  all: apply (delete_tasks_evolves _ taskID); [done|].
  all: intros t; rewrite !andb_true_iff, bool_decide_eq_true; tauto.
Qed.

(** ** Histories *)

(** One operation of the store on behalf of any caller; [keep] is a task no
    administrator deletes. *)
Inductive step (keep : string) : DB → DB → Prop :=
  | step_AdminDelete taskID purged db :
      keep ≠ taskID → step keep db (AdminDelete taskID purged db).2
  | step_CreateCallbackDelivery e status d db :
      step keep db (CreateCallbackDelivery e status d db).2
  | step_CreateTaskCallbackDelivery e task status version body db :
      step keep db (CreateTaskCallbackDelivery e task status version body db).2
  | step_PutObjectStorageConfig e version input db :
      step keep db (PutObjectStorageConfig e version input db).2
  | step_MarkObjectStorageTest e version passed db :
      step keep db (MarkObjectStorageTest e version passed db).2
  | step_CreateExternalAPIKey fold e input db :
      step keep db (CreateExternalAPIKey fold e input db).2
  | step_UpdateExternalAPIKey fold e id version name enabled db :
      step keep db (UpdateExternalAPIKey fold e id version name enabled db).2
  | step_DeleteExternalAPIKey id version db :
      step keep db (DeleteExternalAPIKey id version db).2
  | step_BackfillExternalAPIKeyPlaintexts inputs db :
      step keep db (BackfillExternalAPIKeyPlaintexts inputs db).2
  | step_ImportLegacyAPIKeys fold e inputs db :
      step keep db (ImportLegacyAPIKeys fold e inputs db).2
  | step_CreateProfile han e input db :
      step keep db (CreateProfile han e input db).2
  | step_UpdateProfile e id version config hash admin db :
      step keep db (UpdateProfile e id version config hash admin db).2
  | step_DeleteProfile id version db :
      step keep db (DeleteProfile id version db).2
  | step_ClaimCallbackDelivery now until db :
      step keep db (ClaimCallbackDelivery now until db).2
  | step_MarkCallbackSucceeded id status at_ db :
      step keep db (MarkCallbackSucceeded id status at_ db).2
  | step_ScheduleCallbackRetry e id attempt status message next db :
      step keep db (ScheduleCallbackRetry e id attempt status message next db).2
  | step_MarkCallbackFailed e id attempt status message db :
      step keep db (MarkCallbackFailed e id attempt status message db).2
  | step_BindBarrierExecution e node version execution db :
      step keep db (BindBarrierExecution e node version execution db).2
  | step_DeferNodeDispatchBarrier e node version code retry db :
      step keep db (DeferNodeDispatchBarrier e node version code retry db).2
  | step_ResolveNodeDispatchBarrier node version db :
      step keep db (ResolveNodeDispatchBarrier node version db).2
  | step_ClaimStage e node token duration db :
      step keep db (ClaimStage e node token duration db).2
  | step_RenewStageLease e stage token duration db :
      step keep db (RenewStageLease e stage token duration db).2
  | step_CreateStageAttempt e o attempt token db :
      step keep db (CreateStageAttempt e o attempt token db).2
  | step_BindStageExecution e stage token attempt execution db :
      step keep db (BindStageExecution e stage token attempt execution db).2
  | step_CompleteStage e stage token attempt out db :
      step keep db (CompleteStage e stage token attempt out db).2
  | step_FailStage e stage token attempt code message retry terminal db :
      step keep db (FailStage e stage token attempt code message retry terminal db).2
  | step_CreateStages e stages db :
      step keep db (CreateStages e stages db).2
  | step_RegisterStageOutput e task stage node artifact size digest media db :
      step keep db (RegisterStageOutput e task stage node artifact size digest media db).2
  | step_CompleteStageWithOutput e task stage token attempt node artifact size digest media db :
      step keep db (CompleteStageWithOutput e task stage token attempt node artifact size digest media db).2
  | step_RegisterInputArtifact e artifact task kind node nodeArtifact size digest media db :
      step keep db (RegisterInputArtifact e artifact task kind node nodeArtifact size digest media db).2
  | step_SetPrimaryArtifactLocation artifact location db :
      step keep db (SetPrimaryArtifactLocation artifact location db).2
  | step_UpdateImportingArtifactLocation location nodeArtifact size digest db :
      step keep db (UpdateImportingArtifactLocation location nodeArtifact size digest db).2
  | step_ActivatePrimaryArtifactLocation e artifact location size digest db :
      step keep db (ActivatePrimaryArtifactLocation e artifact location size digest db).2
  | step_RequestTaskDeletion e task reason requestedBy db :
      step keep db (RequestTaskDeletion e task reason requestedBy db).2
  | step_RequestOwnedTaskDeletion e owner task db :
      step keep db (RequestOwnedTaskDeletion e owner task db).2
  | step_ClaimDeletionItem e node token duration db :
      step keep db (ClaimDeletionItem e node token duration db).2
  | step_RenewDeletionLease e item token duration db :
      step keep db (RenewDeletionLease e item token duration db).2
  | step_FailDeletionItem e item token code message next terminal db :
      step keep db (FailDeletionItem e item token code message next terminal db).2
  | step_CompleteDeletionItem e item token absent bytes db :
      step keep db (CompleteDeletionItem e item token absent bytes db).2
  | step_ClaimNextRemote e o node version capacity admission db :
      step keep db (ClaimNextRemote e o node version capacity admission db).2
  | step_AcquireRemoteLease e task node token ttl db :
      step keep db (AcquireRemoteLease e task node token ttl db).2
  | step_RenewRemoteLease e r ttl db :
      step keep db (RenewRemoteLease e r ttl db).2
  | step_ReleaseRemoteLease e r next code reconcile db :
      step keep db (ReleaseRemoteLease e r next code reconcile db).2
  | step_PrepareRemoteRequest e r body db :
      step keep db (PrepareRemoteRequest e r body db).2
  | step_BeginRemoteSubmission e r db :
      step keep db (BeginRemoteSubmission e r db).2
  | step_BindRemoteTask e r upstream db :
      step keep db (BindRemoteTask e r upstream db).2
  | step_ObserveRemoteTask e r status cancel db :
      step keep db (ObserveRemoteTask e r status cancel db).2
  | step_RequestRemoteCancel e task db :
      step keep db (RequestRemoteCancel e task db).2
  | step_SaveRemoteAsset e r a db :
      step keep db (SaveRemoteAsset e r a db).2
  | step_CompleteRemoteRun e r c db :
      step keep db (CompleteRemoteRun e r c db).2
  | step_UpdateRemoteResult e task node u db :
      step keep db (UpdateRemoteResult e task node u db).2
  | step_Create e o inp key available db :
      step keep db (Create e o inp key available db).2
  | step_ClaimNext e o node version db :
      step keep db (ClaimNext e o node version db).2
  | step_MarkRunning e task node db :
      step keep db (MarkRunning e task node db).2
  | step_MarkReconciling e task node db :
      step keep db (MarkReconciling e task node db).2
  | step_SaveBaseline e task node urls db :
      step keep db (SaveBaseline e task node urls db).2
  | step_SaveSubmissionContext e task node jobs db :
      step keep db (SaveSubmissionContext e task node jobs db).2
  | step_BindUpstreamJob e task node job db :
      step keep db (BindUpstreamJob e task node job db).2
  | step_BeginRetry e task node jobs gallery db :
      step keep db (BeginRetry e task node jobs gallery db).2
  | step_MarkSucceeded e task node internal public ratio db :
      step keep db (MarkSucceeded e task node internal public ratio db).2
  | step_MarkFailed e task node code message db :
      step keep db (MarkFailed e task node code message db).2
  | step_FinishCancelled e task node db :
      step keep db (FinishCancelled e task node db).2
  | step_Requeue e o task node db :
      step keep db (Requeue e o task node db).2
  | step_CancelOrDelete e o owner task db :
      step keep db (CancelOrDelete e o owner task db).2
  | step_RequestAdminCancel e o task db :
      step keep db (RequestAdminCancel e o task db).2
  | step_CleanupExpired e es batch db :
      step keep db (CleanupExpired e es batch db).2
  | step_SaveOfficialSubmissionBaseline e task node ids db :
      step keep db (SaveOfficialSubmissionBaseline e task node ids db).2
  | step_ClaimNextOfficial e o node version capacity db :
      step keep db (ClaimNextOfficial e o node version capacity db).2
  | step_BindOfficialTask e task node upstream db :
      step keep db (BindOfficialTask e task node upstream db).2
  | step_MarkOfficialGenerated e task node url ratio job db :
      step keep db (MarkOfficialGenerated e task node url ratio job db).2
  | step_MarkOfficialFailed e task node code message feedback db :
      step keep db (MarkOfficialFailed e task node code message feedback db).2
  | step_CreateResultUploadJob e id task key db :
      step keep db (CreateResultUploadJob e id task key db).2
  | step_ClaimResultUploadJob e1 e token duration db :
      step keep db (ClaimResultUploadJob e1 e token duration db).2
  | step_FailResultUploadAttempt e job token code message retryable next db :
      step keep db (FailResultUploadAttempt e job token code message retryable next db).2
  | step_RetryResultUpload e task db :
      step keep db (RetryResultUpload e task db).2
  | step_CompleteResultUpload e job token url bytes db :
      step keep db (CompleteResultUpload e job token url bytes db).2
  | step_RefreshModelCatalog e node version revision items code db :
      step keep db (RefreshModelCatalog e node version revision items code db).2
  | step_BindModelRoute e model protocol admin version revision db :
      step keep db (BindModelRoute e model protocol admin version revision db).2
  | step_CreateModelNode e input db :
      step keep db (CreateModelNode e input db).2
  | step_UpdateModelNode e id version input db :
      step keep db (UpdateModelNode e id version input db).2
  | step_DeleteModelNode e id version db :
      step keep db (DeleteModelNode e id version db).2
  | step_BindLegacyTaskRoute ok e o task protocol version revision db :
      step keep db (BindLegacyTaskRoute ok e o task protocol version revision db).2
  | step_CreateArtifact e artifact db :
      step keep db (CreateArtifact e artifact db).2
  | step_CreateArtifactLocation e location db :
      step keep db (CreateArtifactLocation e location db).2
  | step_ImportLegacyNodes e inputs db :
      step keep db (ImportLegacyNodes e inputs db).2
  | step_PreviewArtifactCleanup e secret days by_ db :
      step keep db (PreviewArtifactCleanup e secret days by_ db).2
  | step_ConfirmArtifactCleanup e token confirmation db :
      step keep db (ConfirmArtifactCleanup e token confirmation db).2
  | step_RetryArtifactCleanup e job nodes db :
      step keep db (RetryArtifactCleanup e job nodes db).2.

#[export] Hint Resolve createCallback_evolves rebalance_evolves createBarrier_evolves
  finishCancellation_evolves completeStage_evolves registerOutput_evolves insert_items_evolves
  RequestTaskDeletion_evolves writeNodeCatalog_evolves : store.

Ltac evolves_by := evolve_op; evolve; auto with store.

Lemma create_new_evolves id e o inp k available :
  tx_rel (evolves id) (create_new e o inp k available).
Proof.
  unfold create_new, insert_task, insert_stage, insert_spool_file, guard_none. evolves_by.
Qed.

Lemma admin_cancel_evolves id e o task : tx_rel (evolves id) (admin_cancel_local e o task).
Proof. unfold admin_cancel_local, touch. evolves_by. Qed.

Lemma RequestOwnedTaskDeletion_evolves id e owner task db :
  evolves id db (RequestOwnedTaskDeletion e owner task db).2.
Proof. unfold RequestOwnedTaskDeletion. evolves_by. Qed.

Lemma CancelOrDelete_evolves id e o owner task db :
  evolves id db (CancelOrDelete e o owner task db).2.
Proof.
  unfold CancelOrDelete. destruct (match List.find _ _ with Some _ => _ | None => _ end).
  - pose proof (RequestOwnedTaskDeletion_evolves id e owner task db) as H.
    destruct (RequestOwnedTaskDeletion _ _ _ _) as [[[]|] db']; exact H.
  - unfold touch. evolves_by.
Qed.

Lemma RequestRemoteCancel_evolves id e task db : evolves id db (RequestRemoteCancel e task db).2.
Proof. unfold RequestRemoteCancel. evolves_by. Qed.

Lemma CleanupExpired_evolves id e es batch db : evolves id db (CleanupExpired e es batch db).2.
Proof.
  unfold CleanupExpired. cbv zeta.
  match goal with |- context [delete_expired es 0 ?ids db] =>
    pose proof (delete_expired_evolves id es 0 ids db) as H;
    destruct (delete_expired es 0 ids db) as [[[err|] count] db'] end; [exact H|].
  simpl in *. etrans; [exact H|]. by apply evolves_same.
Qed.

Lemma ClaimResultUploadJob_evolves id e1 e token duration db :
  evolves id db (ClaimResultUploadJob e1 e token duration db).2.
Proof.
  unfold ClaimResultUploadJob. pose proof (recover_evolves id e1 db) as H.
  destruct (recoverExhaustedResultUploads e1 db) as [[] db']; [exact H|].
  etrans; [exact H|]. unfold claim_upload. evolves_by.
Qed.

Lemma Backfill_evolves id inputs db : evolves id db (BackfillExternalAPIKeyPlaintexts inputs db).2.
Proof.
  revert db. induction inputs as [|i inputs IH]; intros db; simpl; [reflexivity|].
  destruct (_ ≟ ""); [apply IH|].
  assert (evolves id db (backfill_key i db).2) as H by (unfold backfill_key; evolves_by).
  destruct (backfill_key i db) as [[err|u] db']; [exact H|]. etrans; [exact H|apply IH].
Qed.

Lemma Import_evolves id fold e inputs db : evolves id db (ImportLegacyAPIKeys fold e inputs db).2.
Proof.
  unfold ImportLegacyAPIKeys. evolve_op. evolve.
  all: unfold insert_key; evolves_by.
Qed.

Lemma import_node_evolves id e now input : tx_rel (evolves id) (import_node e now input).
Proof. unfold import_node. evolves_by. Qed.

Lemma Preview_evolves id e secret days by_ db :
  evolves id db (PreviewArtifactCleanup e secret days by_ db).2.
Proof.
  unfold PreviewArtifactCleanup. destruct (_ || _); [reflexivity|]. simpl.
  match goal with |- context [immediate ?m db] =>
    assert (evolves id db (immediate m db).2) as H by evolves_by;
    destruct (immediate m db) as [[] db'] end; exact H.
Qed.

Lemma queue_candidates_evolves id e job now cs : tx_rel (evolves id) (queue_candidates e job now cs).
Proof. unfold queue_candidates. evolves_by. Qed.
#[export] Hint Resolve Backfill_evolves Import_evolves import_node_evolves Preview_evolves
  queue_candidates_evolves : store.

#[export] Hint Resolve create_new_evolves admin_cancel_evolves RequestOwnedTaskDeletion_evolves
  CancelOrDelete_evolves RequestRemoteCancel_evolves CleanupExpired_evolves
  ClaimResultUploadJob_evolves AdminDelete_evolves : store.

Create HintDb store_ops.
#[export] Hint Unfold
  ClaimCallbackDelivery MarkCallbackSucceeded ScheduleCallbackRetry MarkCallbackFailed
  BindBarrierExecution DeferNodeDispatchBarrier ResolveNodeDispatchBarrier ClaimStage
  RenewStageLease CreateStageAttempt BindStageExecution CompleteStage FailStage CreateStages
  RegisterStageOutput CompleteStageWithOutput RegisterInputArtifact SetPrimaryArtifactLocation
  UpdateImportingArtifactLocation ActivatePrimaryArtifactLocation ClaimDeletionItem
  RenewDeletionLease FailDeletionItem CompleteDeletionItem ClaimNextRemote AcquireRemoteLease
  RenewRemoteLease ReleaseRemoteLease PrepareRemoteRequest BeginRemoteSubmission BindRemoteTask
  ObserveRemoteTask SaveRemoteAsset CompleteRemoteRun UpdateRemoteResult Create ClaimNext
  MarkRunning MarkReconciling SaveBaseline SaveSubmissionContext BindUpstreamJob BeginRetry
  MarkSucceeded MarkFailed FinishCancelled Requeue RequestAdminCancel
  SaveOfficialSubmissionBaseline ClaimNextOfficial BindOfficialTask MarkOfficialGenerated
  MarkOfficialFailed CreateResultUploadJob FailResultUploadAttempt RetryResultUpload
  CompleteResultUpload RefreshModelCatalog BindModelRoute CreateModelNode UpdateModelNode
  DeleteModelNode BindLegacyTaskRoute CreateCallbackDelivery CreateTaskCallbackDelivery
  PutObjectStorageConfig MarkObjectStorageTest CreateExternalAPIKey UpdateExternalAPIKey
  DeleteExternalAPIKey CreateProfile UpdateProfile DeleteProfile ensureExternalAPIKeyUnique
  insert_key scan_key scan_profile
  CreateArtifact CreateArtifactLocation ImportLegacyNodes ConfirmArtifactCleanup RetryArtifactCleanup
  statement barrier_statement finish_task touch bumpRouting hide_models writeNodeModel
  syncModelRoutes insert_artifact insert_location update_deletion_state failDeliveredTask
  reread_node : store_ops.

Lemma step_evolves keep db db' : step keep db db' → evolves keep db db'.
Proof.
  destruct 1; auto with store.
  all: autounfold with store_ops; evolves_by.
Qed.

(** C1: no history of the store loses or rewrites a task.  Whatever operations
    run, in whatever order and with whatever arguments, as long as no
    administrator deletes it, a task keeps its row, its place in the queue and
    its request, its version does not fall, its original result URL is never
    replaced once recorded, and neither is its route once it is ready. *)
Theorem history_task id db db' t :
  rtc (step id) db db' → t ∈ db_video_tasks db → vt_task_id t = id →
  ∃ t', t' ∈ db_video_tasks db' ∧ task_evolves t t'.
Proof.
  intros H. assert (evolves id db db') as [HT _]; [|by apply HT].
  induction H as [|db1 db2 db3 Hs _ IH]; [reflexivity|]. etrans; [by apply step_evolves|done].
Qed.

(** C2: no history of the store repeats a remote submission under another
    identity.  No sequence of operations moves a run to another node or changes
    its submission key; once its request is prepared none sends it back or
    changes the request body; the remote task it is bound to never changes, and
    a terminal run stays terminal. *)
Theorem history_run id db db' r :
  rtc (step id) db db' → r ∈ db_remote_runs db → rr_task_id r = id →
  ∃ r', r' ∈ db_remote_runs db' ∧ run_evolves r r'.
Proof.
  intros H. assert (evolves id db db') as [_ HR]; [|by apply HR].
  induction H as [|db1 db2 db3 Hs _ IH]; [reflexivity|]. etrans; [by apply step_evolves|done].
Qed.

