(* ===== verification/RemoteInputs.v ===== *)
(** * Preparing a remote request
    (internal/remote/inputs.go, internal/remote/input_error.go)

    Before a task is submitted to a TK2SD service, every medium it refers to is
    opened (a spooled file, an object, a data URI or a guarded download),
    checked, uploaded as an asset and recorded; the request body refers to the
    assets. *)

From Stdlib Require Import SpecFloat.
From S2P Require Import Prelude Domain Tx Database Sql Workers GoStrings GoFloat GoNet Netguard Catalog Paging TaskRouting Callbacks Queue Stages Artifacts Remote Normalize InputSpool.

(** ** The service (internal/upstream/tk2sd) *)

Record HTTPError := mkHTTPError {
  he_StatusCode : Z;
  he_Code : string;
  he_Message : string
}.
(** An error of the client: what [errors.As] and [errors.Is] see in it. *)
Record tk_error := mkTkError {
  te_HTTP : option HTTPError;
  te_InvalidResponse : bool
}.

Record Asset := mkAsset {
  as_ID : string;
  as_URL : string;
  as_Kind : string;
  as_Filename : string;
  as_Duration : float64;
  as_Width : Z;
  as_Height : Z;
  as_Size : Z
}.
#[export] Instance Asset_eta : Eta Asset := λ r,
  mkAsset (as_ID r) (as_URL r) (as_Kind r) (as_Filename r) (as_Duration r)
    (as_Width r) (as_Height r) (as_Size r).

Record TaskError := mkTaskError { er_Code : string; er_Message : string }.
Record TK2SDTask := mkTK2SDTask {
  td_ID : string;
  td_Model : string;
  td_Status : string;
  td_VideoURL : string;
  td_Error : option TaskError
}.
Record Metadata := mkMetadata { md_Duration : float64; md_Width : Z; md_Height : Z }.

(** What opening, inspecting and copying a spooled file comes to. *)
Inductive local_file :=
  | RootFailed
  | OpenFailed
  | Opened (regular : bool) (size : option Z) (copied : option (Z * string)) (seek : bool).

(** Why [inputStream] stopped before the end of the source: over its limit, the
    guarded body over its own, or a read that failed. *)
Inductive read_failure := OverLimit | BodyTooLarge | ReadFailed.

(** An upload and the state it leaves the stream in: the bytes and the digest
    read, and whether the next read finds the end and nothing failed. *)
Record UploadOutcome := mkOutcome {
  uo_result : tk_error + Asset;
  uo_size : Z;
  uo_digest : string;
  uo_complete : bool;
  uo_failure : option read_failure
}.

(** The interactions of a remote worker; the context of a call carries the
    task and the node ([logsafe.WithTask]). *)
Inductive RemoteE : Type → Type :=
  | Upload (taskID nodeID : string) (filename mediaType : string) : RemoteE UploadOutcome
  | Submit (taskID nodeID : string) (body key : string) : RemoteE (tk_error + string)
  | Query (id : string) : RemoteE (tk_error + TK2SDTask)
  | Cancel (id : string) : RemoteE (tk_error + unit)
  | GetMetadata (id : string) : RemoteE (tk_error + Metadata)
  | Admission : RemoteE (option TK2SDAdmission)
  | OpenLocal (path : string) (limit : Z) : RemoteE local_file
  | Get (rawURL : string) (limit : Z) : RemoteE (option (Z * Z))  (** status, length *)
  | Peek : RemoteE (option string)   (** up to 512 bytes, or a read error *)
  | Net {X} (n : NetE X) : RemoteE X.

Definition rejected (err : tk_error) : bool :=
  match te_HTTP err with
  | Some h => he_StatusCode h ∈? [400; 413; 422]
  | None => false
  end.

(** ** Errors *)

(** [inputError]; of its cause, whether it is ErrInvalidInput and whether the
    service rejected a request. *)
Record inputError := mkInputError {
  ie_Code : string;
  ie_Source : string;
  ie_Stage : string;
  ie_Reason : string;
  ie_Message : string;
  ie_ContentIndex : Z;
  ie_ContentType : string;
  ie_Role : string;
  ie_HTTPStatus : Z;
  ie_invalid : bool;
  ie_rejected : bool
}.
#[export] Instance inputError_eta : Eta inputError := λ r,
  mkInputError (ie_Code r) (ie_Source r) (ie_Stage r) (ie_Reason r) (ie_Message r)
    (ie_ContentIndex r) (ie_ContentType r) (ie_Role r) (ie_HTTPStatus r) (ie_invalid r)
    (ie_rejected r).

(** What [Prepare] fails with: an input error, or the error of the context. *)
Inductive prepare_error := PrepareInput (d : inputError) | PrepareContext.

Definition inputFailure (code source stage reason message : string) (invalid rejected : bool)
    : inputError :=
  mkInputError code source stage reason message (-1) "" "" 0 invalid rejected.

Definition invalid_code (stage : string) : string :=
  if stage ≟ "request_validate" then "tk2sd_input_request_invalid"
  else if stage ∈? ["source_validate"; "source_open"] then "tk2sd_input_source_invalid"
  else if stage ≟ "local_file" then "tk2sd_input_local_file_invalid"
  else if stage ∈? ["media_detect"; "media_validate"; "asset_validate"]
  then "tk2sd_input_media_invalid"
  else if stage ≟ "integrity_check" then "tk2sd_input_integrity_mismatch"
  else "tk2sd_input_invalid".
Definition invalidInput (stage reason message : string) : inputError :=
  inputFailure (invalid_code stage) "" stage reason message true false.

(** [withInput] on an input error. *)
Definition withInput (d : inputError) (index : Z) (kind role source : string) : inputError :=
  d <| ie_ContentIndex := index |>
    <| ie_ContentType := if kind ∈? [""; "text"; "image_url"; "video_url"; "audio_url"] then kind
                         else "unknown" |>
    <| ie_Role := if role ∈? [""; "first_frame"; "reference_image"; "reference_video";
                              "reference_audio"] then role else "unknown" |>
    <| ie_Source := if ie_Source d ≟ "" then source else ie_Source d |>.

Definition prepare_unavailable : inputError :=
  inputFailure "tk2sd_input_prepare_unavailable" "proxy" "prepare" "dependency_failed"
    "素材准备依赖暂不可用" false false.

(** [logInputFailure]: the detail that is reported and stored. *)
Definition input_detail (err : prepare_error) : inputError :=
  match err with
  | PrepareInput d => if ie_Source d ≟ "" then d <| ie_Source := "proxy" |> else d
  | PrepareContext => withInput prepare_unavailable (-1) "" "" "proxy"
  end.

Definition source_label (source : string) : string :=
  if source ≟ "object_storage" then "对象存储"
  else if source ≟ "media_url" then "素材 URL"
  else if source ≟ "local_spool" then "本地暂存"
  else if source ≟ "data_uri" then "内联素材"
  else if source ≟ "upstream" then "上游 tk2sd"
  else if source ≟ "proxy_store" then "Proxy 素材记录"
  else "Proxy".

(** [inputError.Error] *)
Definition error_text (d : inputError) : string :=
  String.concat "" ([source_label (ie_Source d); "："; ie_Message d]
    ++ (if ie_HTTPStatus d =? 0 then [] else ["（HTTP "; Itoa (ie_HTTPStatus d); "）"])
    ++ (if ie_ContentIndex d <? 0 then []
        else ["；content["; Itoa (ie_ContentIndex d); "] "; ie_ContentType d])).

Definition uploadFailure (err : tk_error) : inputError :=
  let detail := (inputFailure "tk2sd_asset_upload_unavailable" "upstream" "asset_upload"
    "request_failed" "上游素材上传暂不可用" false (rejected err))
    <| ie_HTTPStatus := match te_HTTP err with Some h => he_StatusCode h | None => 0 end |> in
  if rejected err
  then detail <| ie_Code := "tk2sd_asset_upload_rejected" |> <| ie_Reason := "http_rejected" |>
              <| ie_Message := "上游素材上传被拒绝" |>
  else if te_InvalidResponse err
  then detail <| ie_Code := "tk2sd_asset_response_invalid" |> <| ie_Reason := "invalid_response" |>
              <| ie_Message := "上游素材上传响应不符合协议" |>
  else detail.

(** ** Checks *)

Definition validRole (kind role : string) : bool :=
  if kind ≟ "image_url" then role ∈? ["first_frame"; "reference_image"]
  else if kind ≟ "video_url" then role ≟ "reference_video"
  else if kind ≟ "audio_url" then role ≟ "reference_audio"
  else false.

Definition inputLimit (kind : string) : Z :=
  if kind ≟ "image_url" then 30 * MiB
  else if kind ≟ "video_url" then 50 * MiB
  else if kind ≟ "audio_url" then 15 * MiB
  else 0.

(** [detectMedia]: the media type and the extension of a file. *)
Definition detectMedia (header : string) : string * string :=
  let m := detectMediaType header in (m, if m ≟ "" then "" else mediaExtension m).

Definition validateAsset (a : Asset) (kind : string) : option inputError :=
  if negb (hex_decodes (as_ID a)) || negb (len (as_ID a) =? 32)
     || negb (ToLower (as_ID a) ≟ as_ID a) || negb (as_URL a ≟ String.append "asset://" (as_ID a))
     || negb (as_Kind a ≟ TrimSuffix kind "_url") || (as_Size a <=? 0)
     || (inputLimit kind <? as_Size a)
  then Some (invalidInput "asset_validate" "invalid_asset_metadata" "上游素材标识、类型或大小不符合协议")
  else if negb (as_Kind a ≟ "audio") && ((as_Width a <=? 0) || (as_Height a <=? 0))
  then Some (invalidInput "asset_validate" "invalid_dimensions" "上游素材宽高必须为正数")
  else if (as_Kind a ≟ "image") && negb (SFeqb (as_Duration a) (of_int 0))
  then Some (invalidInput "asset_validate" "invalid_image_duration" "上游图片素材时长必须为 0")
  else if negb (as_Kind a ≟ "image")
          && (negb (finite (as_Duration a)) || SFltb (as_Duration a) (of_int 2)
              || SFltb (of_int 15) (as_Duration a))
  then Some (invalidInput "asset_validate" "invalid_media_duration"
               "上游视频或音频素材时长必须为 2–15 秒")
  else None.

Definition refs_of_item (c : GenerationContent) : Z :=
  count_where (λ o, negb (is_nil o)) [gc_ImageURL c; gc_VideoURL c; gc_AudioURL c].

(** The first loop over the content. *)
Definition check_content (i : Z) (c : GenerationContent) : option inputError :=
  if gc_Type c ≟ "text"
  then if (TrimSpace (gc_Text c) ≟ "") || (14000 <? RuneCountInString (gc_Text c))
          || negb (gc_Role c ≟ "") || negb (is_nil (gc_ImageURL c)) || negb (is_nil (gc_VideoURL c))
          || negb (is_nil (gc_AudioURL c))
       then Some (withInput (invalidInput "request_validate" "invalid_text"
                    "文本必须非空、最多 14000 字且不能包含媒体字段或角色") i (gc_Type c) (gc_Role c) "proxy")
       else None
  else if negb (refs_of_item c =? 1) || is_nil (Media c) || negb (gc_Text c ≟ "")
          || negb (validRole (gc_Type c) (gc_Role c))
  then Some (withInput (invalidInput "request_validate" "invalid_media_reference"
               "媒体字段、类型或角色不符合协议") i (gc_Type c) (gc_Role c) "proxy")
  else None.
Fixpoint check_contents (i : Z) (cs : list GenerationContent) : option inputError :=
  match cs with
  | [] => None
  | c :: cs => match check_content i c with Some err => Some err | None => check_contents (i + 1) cs end
  end.

Definition content_combination (cs : list GenerationContent) : bool :=
  let firstFrames := count_where (λ c, negb (gc_Type c ≟ "text") && (gc_Role c ≟ "first_frame")) cs in
  let mediaCount := count_type "image_url" cs + count_type "video_url" cs + count_type "audio_url" cs in
  (count_type "text" cs =? 1)
  && negb ((0 <? firstFrames) && (negb (firstFrames =? 1) || negb (mediaCount =? 1)))
  && (count_type "image_url" cs <=? 9) && (count_type "video_url" cs <=? 3)
  && (count_type "audio_url" cs <=? 3) && (mediaCount <=? 12).

Definition check_request (task : Task) (request : GenerationRequest) : option inputError :=
  if negb (gr_Model request ≟ vt_model (vt_request task)) || negb (ValidModelID (gr_Model request))
  then Some (invalidInput "request_validate" "invalid_model" "生成请求模型无效或与任务不一致")
  else if (gr_Duration request <? 4) || (15 <? gr_Duration request)
  then Some (invalidInput "request_validate" "invalid_duration" "生成时长必须为 4–15 秒")
  else if (Z.of_nat (length (gr_Content request)) <? 1) || (13 <? Z.of_nat (length (gr_Content request)))
  then Some (invalidInput "request_validate" "invalid_content_count" "content 数量必须为 1–13 项")
  else
  match check_contents 0 (gr_Content request) with
  | Some err => Some err
  | None =>
      if content_combination (gr_Content request) then None
      else Some (invalidInput "request_validate" "invalid_content_combination"
                   "文本数量、首帧组合或参考素材数量不符合协议")
  end.

Section materializer.
(** [url.Parse] and [filepath.IsLocal]; JSON: the length of the stored request,
    the text of a submission, an asset as text and back. *)
Context (url_Parse : string → option URL) (ports : list string) (is_local : string → bool).
Context (request_len : Task → Z) (submission_json : string → list GenerationContent → Z → string).
Context (asset_json : Asset → string) (asset_of_json : string → option Asset).
(** [InputMaterializer.Root]. *)
Context (Root : string).

(** ** Sources *)

Fixpoint spool_meta (taskID raw : string) (index : Z) (item : GenerationContent)
    (files : list InputSpoolFile) (meta : option InputSpoolFile)
    : inputError * option InputSpoolFile + option InputSpoolFile :=
  match files with
  | [] => inr meta
  | f :: files =>
      if negb (sf_content_index f =? index) then spool_meta taskID raw index item files meta
      else if negb (is_null meta) || negb (sf_task_id f ≟ taskID)
              || negb (sf_content_type f ≟ gc_Type item) || negb (sf_role f ≟ gc_Role item)
      then inl (invalidInput "source_validate" "spool_record_mismatch" "素材暂存记录重复或与任务不一致", meta)
      else if negb (raw ≟ proxy_input taskID (sf_id f))
              && ((sf_object_url f ≟ "") || negb (raw ≟ sf_object_url f))
      then inl (invalidInput "source_validate" "source_reference_mismatch" "素材引用与暂存记录不一致", meta)
      else spool_meta taskID raw index item files (Some f)
  end.

Definition source_of_meta (raw : string) (meta : option InputSpoolFile) : string :=
  match meta with
  | Some f => if sf_object_url f ≟ "" then "local_spool" else "object_storage"
  | None => if HasPrefix raw "data:" then "data_uri"
            else if HasPrefix raw "proxy-input://" then "local_spool" else "media_url"
  end.

Definition open_local (kind : string) (meta : InputSpoolFile) : Prog RemoteE (inputError + unit) :=
  if negb (sf_source_kind meta ≟ "data_uri") || (Root ≟ "") || negb (is_local (sf_relative_path meta))
     || ContainsByte (sf_relative_path meta) backslash
     || negb (Ext (sf_relative_path meta) ≟ sf_extension meta)
  then mret (inl (invalidInput "local_file" "invalid_spool_path" "本地暂存目录或文件引用无效"))
  else
    f ← call (OpenLocal (sf_relative_path meta) (inputLimit kind + 1));
    mret match f with
    | RootFailed => inl (invalidInput "local_file" "root_open_failed" "本地暂存目录无法打开")
    | OpenFailed => inl (invalidInput "local_file" "open_failed" "本地暂存素材文件无法打开")
    | Opened regular size copied seek =>
        if negb regular || negb (size ≟ Some (sf_size_bytes meta))
        then inl (invalidInput "local_file" "invalid_file_size"
                    "本地暂存素材不是普通文件、无法读取属性或大小与记录不一致")
        else
        match copied with
        | None => inl (invalidInput "local_file" "file_read_failed"
                         "本地暂存素材读取失败或读取大小与记录不一致")
        | Some (n, digest) =>
            if negb (n =? sf_size_bytes meta)
            then inl (invalidInput "local_file" "file_read_failed"
                        "本地暂存素材读取失败或读取大小与记录不一致")
            else if negb (digest ≟ ToLower (sf_sha256 meta))
            then inl (invalidInput "integrity_check" "checksum_mismatch" "本地暂存素材 SHA256 与记录不一致")
            else if negb seek
            then inl (invalidInput "local_file" "seek_failed" "本地暂存素材无法重置读取位置")
            else inr tt
        end
    end.

Definition open_url (raw kind : string) : Prog RemoteE (inputError + unit) :=
  match url_Parse raw with
  | None => mret (inl (invalidInput "source_validate" "invalid_url" "素材引用不是有效的 HTTP/HTTPS URL"))
  | Some parsed =>
      if negb (url_Scheme parsed ≟ "http") && negb (url_Scheme parsed ≟ "https")
      then mret (inl (invalidInput "source_validate" "invalid_url" "素材引用不是有效的 HTTP/HTTPS URL"))
      else
      v ← translate (@Net) (Validate url_Parse ports raw);
      match v with
      | inl _ => mret (inl (invalidInput "source_validate" "url_guard_rejected" "素材 URL 安全校验或 DNS 解析失败"))
      | inr _ =>
          resp ← call (Get raw (inputLimit kind));
          mret match resp with
          | None => inl (inputFailure "tk2sd_input_source_read_failed" "" "source_download"
                           "request_failed" "素材下载未取得有效响应" false false)
          | Some (status, length) =>
              if negb (status =? 200)
              then inl ((inputFailure "tk2sd_input_source_http_error" "" "source_download" "http_status"
                           "素材下载失败" true false) <| ie_HTTPStatus := status |>)
              else if inputLimit kind <? length
              then inl (invalidInput "source_open" "size_exceeded"
                          (String.concat "" ["素材 Content-Length 超过 "; Itoa (inputLimit kind); " 字节限制"]))
              else inr tt
          end
      end
  end.

Definition open (e : Env) (raw kind : string) (meta : option InputSpoolFile)
    : Prog RemoteE (inputError + unit) :=
  let fetch raw :=
    if HasPrefix raw "data:"
    then mret match DecodeDataURI e kind raw with
         | inr decoded => if inputLimit kind <? len (dd_Payload decoded)
                          then inl (invalidInput "source_open" "invalid_data_uri"
                                      "内联素材解码失败、格式不支持或大小超过限制")
                          else inr tt
         | inl _ => inl (invalidInput "source_open" "invalid_data_uri" "内联素材解码失败、格式不支持或大小超过限制")
         end
    else open_url raw kind in
  match meta with
  | Some m =>
      if (sf_size_bytes m <=? 0) || (inputLimit kind <? sf_size_bytes m) || negb (len (sf_sha256 m) =? 64)
      then mret (inl (invalidInput "source_validate" "invalid_spool_metadata"
                        "素材暂存记录缺少有效大小或 SHA256，或大小超过限制"))
      else if negb (sf_object_url m ≟ "") then fetch (sf_object_url m)
      else open_local kind m
  | None => fetch raw
  end.

(** ** One upload *)

(** The error of an upload that failed. *)
Definition upload_error (source kind : string) (err : tk_error) (failure : option read_failure)
    : inputError :=
  if (match te_HTTP err with Some h => 0 <? he_StatusCode h | None => false end)
  then uploadFailure err
  else
  match failure with
  | None => uploadFailure err
  | Some f =>
      let d := inputFailure "tk2sd_input_source_read_failed" source "source_read"
        "stream_read_failed" "上传过程中素材源读取失败" false (rejected err) in
      match f with
      | ReadFailed => d
      | OverLimit | BodyTooLarge =>
          d <| ie_Reason := "size_exceeded" |>
            <| ie_Message := String.concat "" ["素材读取超过 "; Itoa (inputLimit kind); " 字节限制"] |>
      end
  end.

(** The checks of a finished upload, and the record of the asset. *)
Definition uploaded (taskID nodeID : string) (index : Z) (item : GenerationContent)
    (meta : option InputSpoolFile) (filename : string) (o : UploadOutcome) (asset : Asset)
    : inputError + (Asset * NodeAsset) :=
  if negb (uo_complete o) || (uo_size o <=? 0)
  then inl (invalidInput "integrity_check" "stream_incomplete" "素材流读取不完整、为空或超过大小限制")
  else if negb (as_Size asset =? uo_size o)
  then inl ((invalidInput "integrity_check" "upload_size_mismatch" "上游返回的素材大小与上传字节数不一致")
              <| ie_Source := "upstream" |>)
  else if (match meta with Some m => negb (sf_size_bytes m =? uo_size o) | None => false end)
  then inl (invalidInput "integrity_check" "size_mismatch" "素材实际大小与暂存记录不一致")
  else if (match meta with Some m => negb (ToLower (sf_sha256 m) ≟ uo_digest o) | None => false end)
  then inl (invalidInput "integrity_check" "checksum_mismatch" "素材 SHA256 与暂存记录不一致")
  else
  match validateAsset asset (gc_Type item) with
  | Some err => inl (withInput err index (gc_Type item) (gc_Role item) "upstream")
  | None =>
      let asset := asset <| as_Filename := filename |> in
      inr (asset, mkNodeAsset taskID nodeID index (as_ID asset) (gc_Type item) (gc_Role item)
                    (uo_digest o) (uo_size o) (asset_json asset) 0 0)
  end.

Definition upload_source (e : Env) (taskID nodeID : string) (index : Z) (item : GenerationContent)
    (raw source : string) (meta : option InputSpoolFile)
    : Prog RemoteE (inputError + (Asset * NodeAsset)) :=
  try! _ ← open e raw (gc_Type item) meta;
  header ← call Peek;
  match header with
  | None => mret (inl ((invalidInput "source_read" "header_read_failed" "素材文件头读取失败")
                         <| ie_Code := "tk2sd_input_source_read_failed" |>))
  | Some header =>
      let '(mediaType, extension) := detectMedia header in
      if negb (HasPrefix mediaType (String.append (TrimSuffix (gc_Type item) "_url") "/"))
      then mret (inl (invalidInput "media_detect" "unsupported_media"
                        "素材格式不支持或与声明类型不一致（支持 PNG/JPEG/WebP、MP4、MP3/WAV）"))
      else if (match meta with
               | Some m => negb (normalizeMediaType (sf_media_type m) ≟ mediaType)
                           || (negb (sf_detected_mime m ≟ "")
                               && negb (normalizeMediaType (sf_detected_mime m) ≟ mediaType))
               | None => false
               end)
      then mret (inl (invalidInput "media_detect" "mime_mismatch" "素材实际格式与暂存记录的 MIME 类型不一致"))
      else
      let filename := String.concat "" ["input-"; Itoa index; extension] in
      o ← call (Upload taskID nodeID filename mediaType);
      mret match uo_result o with
      | inl err => inl (upload_error source (gc_Type item) err (uo_failure o))
      | inr asset => uploaded taskID nodeID index item meta filename o asset
      end
  end.

(** Any error is completed with the place and the source of the input. *)
Definition upload (e : Env) (taskID nodeID : string) (index : Z) (item : GenerationContent)
    (files : list InputSpoolFile) : Prog RemoteE (inputError + (Asset * NodeAsset)) :=
  let raw := default "" (Media item) in
  match spool_meta taskID raw index item files None with
  | inl (err, meta) =>
      mret (inl (withInput err index (gc_Type item) (gc_Role item) (source_of_meta raw meta)))
  | inr meta =>
      let source := source_of_meta raw meta in
      r ← upload_source e taskID nodeID index item raw source meta;
      mret match r with
      | inl err => inl (withInput err index (gc_Type item) (gc_Role item) source)
      | inr x => inr x
      end
  end.

(** ** The whole request *)

Definition persistence (stage reason message : string) : inputError :=
  inputFailure "tk2sd_input_persistence_failed" "proxy_store" stage reason message false false.

(** The asset of an element: the recorded one, or a new upload. *)
Definition asset_of (task : Task) (run : RemoteRun) (i : Z) (item : GenerationContent)
    (files : list InputSpoolFile) : Prog RemoteE (prepare_error + Asset) :=
  let at_item d := PrepareInput (withInput d i (gc_Type item) (gc_Role item) "proxy_store") in
  record ← store (reading (λ _, GetRemoteAsset (vt_task_id task) (rr_node_id run) i));
  match record with
  | inr record =>
      match asset_of_json (na_metadata_json record) with
      | Some asset =>
          if negb (na_task_id record ≟ vt_task_id task) || negb (na_node_id record ≟ rr_node_id run)
             || negb (na_content_index record =? i) || negb (na_content_type record ≟ gc_Type item)
             || negb (na_role record ≟ gc_Role item) || negb (na_asset_id record ≟ as_ID asset)
             || negb (na_size_bytes record =? as_Size asset)
          then mret (inl (at_item (invalidInput "asset_validate" "cached_asset_mismatch"
                                     "已缓存的上游素材记录与任务不一致")))
          else mret (inr asset)
      | None => mret (inl (at_item (invalidInput "asset_validate" "cached_asset_mismatch"
                                      "已缓存的上游素材记录与任务不一致")))
      end
  | inl ErrTaskNotFound =>
      e ← environment;
      r ← upload e (vt_task_id task) (rr_node_id run) i item files;
      match r with
      | inl err => mret (inl (PrepareInput err))
      | inr (asset, record) =>
          saved ← store (λ e, SaveRemoteAsset e run record);
          mret match saved with
          | inl _ => inl (at_item (persistence "asset_save" "save_failed" "上游素材记录保存失败"))
          | inr _ => inr asset
          end
      end
  | inl _ => mret (inl (at_item (persistence "asset_lookup" "lookup_failed" "上游素材记录读取失败")))
  end.

Fixpoint prepare_contents (task : Task) (run : RemoteRun) (files : list InputSpoolFile)
    (i : Z) (total : float64) (cs : list GenerationContent)
    : Prog RemoteE (prepare_error + list GenerationContent) :=
  match cs with
  | [] => mret (inr [])
  | item :: cs =>
      stop ← stopped;
      if stop : bool then mret (inl PrepareContext)
      else if gc_Type item ≟ "text"
      then try! cs' ← prepare_contents task run files (i + 1) total cs; mret (inr (item :: cs'))
      else
      try! asset ← asset_of task run i item files;
      match validateAsset asset (gc_Type item) with
      | Some err => mret (inl (PrepareInput (withInput err i (gc_Type item) (gc_Role item) "upstream")))
      | None =>
          let total := if as_Kind asset ≟ "image" then total else fadd total (as_Duration asset) in
          if negb (as_Kind asset ≟ "image") && SFltb (of_int 15) total
          then mret (inl (PrepareInput (withInput (invalidInput "media_validate" "total_duration_exceeded"
                 "参考视频和音频总时长不能超过 15 秒") i (gc_Type item) (gc_Role item) "proxy")))
          else
          try! cs' ← prepare_contents task run files (i + 1) total cs;
          mret (inr (set_media item (String.append "asset://" (as_ID asset)) :: cs'))
      end
  end.

Definition Prepare (task : Task) (run : RemoteRun) : Prog RemoteE (prepare_error + string) :=
  let refuse d := mret (inl (PrepareInput d)) in
  match unmarshal (vt_request_json (vt_request task)) with
  | None => refuse (invalidInput "request_validate" "invalid_json" "生成请求无法解析或超过 64 MiB")
  | Some request =>
      if 64 * MiB <? request_len task
      then refuse (invalidInput "request_validate" "invalid_json" "生成请求无法解析或超过 64 MiB")
      else
      match check_request task request with
      | Some err => refuse err
      | None =>
          files ← store (reading (λ _ db, inr (ListInputSpoolFiles (vt_task_id task) db)));
          match files with
          | inl _ => refuse (persistence "spool_lookup" "lookup_failed" "素材暂存记录读取失败")
          | inr files =>
              try! cs ← prepare_contents task run files 0 (of_int 0) (gr_Content request);
              let body := submission_json (gr_Model request) cs (gr_Duration request) in
              if 1 * MiB <? len body
              then refuse (invalidInput "request_validate" "request_body_invalid"
                             "上游生成请求无法编码或超过 1 MiB")
              else mret (inr body)
          end
      end
  end.
End materializer.
