(* ===== verification/TK2SD.v ===== *)
(** * The client of a TK2SD node
    (internal/upstream/tk2sd: client.go, tasks.go, assets.go, models.go,
    active_tasks.go, dashboard.go)

    A node is a service of somebody else: every answer is bounded, decoded and
    checked before anything is believed, and no text of it is shown that could
    hold a secret. *)

From Stdlib Require Import SpecFloat.
From S2P Require Import Prelude Domain Tx Database Sql Workers GoStrings GoFloat GoNet GoHttp Netguard Catalog Paging TaskRouting Callbacks Queue Stages Artifacts Remote Nodes Config Normalize InputSpool RemoteInputs.

(** ** Errors (client.go) *)

(** The sentinels that [errors.Is] finds in an HTTPError. *)
Inductive tk_cause := InvalidResponse | TooLarge | Canceled | DeadlineExceeded | UploadSource.
#[export] Instance tk_cause_eq_dec : EqDecision tk_cause.
Proof. solve_decision. Defined.
Record http_failure := mkHttpFailure {
  hf_StatusCode : Z;
  hf_Code : string;
  hf_Message : string;
  hf_Class : string;
  hf_cause : option tk_cause
}.
Inductive client_error :=
  | TkHTTP (f : http_failure)
  | TkInvalidRequest
  | TkInvalidResponse
  | TkBodyTooLarge
  | TkUnsafeURL
  | TkUploadSource.

(** What the worker sees of it. *)
Definition worker_error (err : client_error) : tk_error :=
  match err with
  | TkHTTP f => mkTkError (Some (mkHTTPError (hf_StatusCode f) (hf_Code f) (hf_Message f)))
                  (hf_cause f ≟ Some InvalidResponse)
  | TkInvalidResponse => mkTkError None true
  | _ => mkTkError None false
  end.

Definition classify (status : Z) : string :=
  if status ∈? [401; 403] then "authentication"
  else if status =? 404 then "not_found"
  else if status =? 409 then "conflict"
  else if (status ∈? [408; 425; 429]) || (500 <=? status) then "temporary"
  else if (300 <=? status) && (status <? 400) then "redirect"
  else if (400 <=? status) && (status <? 500) then "rejected"
  else "invalid_response".
Definition responseError (status : Z) (cause : option tk_cause) : http_failure :=
  mkHttpFailure status "" "upstream response rejected" (classify status) cause.

(** ** Texts and identifiers (client.go, assets.go) *)

Definition encoded_rune (r : rune) : string :=
  if ru_valid r then ru_bytes r
  else String.string_of_list_ascii (map Ascii.ascii_of_nat [239%nat; 191%nat; 189%nat]).
(** A rune that is not a control, as [strings.Map] writes it. *)
Definition safe_rune (r : rune) : string := if IsControl (ru_rune r) then " " else encoded_rune r.
(** [sensitive]: sensitiveText matches. *)
Definition sanitizeText (sensitive : string → bool) (value : string) (limit : Z) (apiKey : string) : string :=
  if (negb (apiKey ≟ "") && Contains_str value apiKey) || sensitive value then "[redacted]"
  else String.concat "" (take (Z.to_nat limit) (map safe_rune (runes value))).
Definition SafeFeedbackMessage (sensitive : string → bool) (value : string) : string :=
  let message := TrimSpace (sanitizeText sensitive value 512 "") in
  if message ≟ "[redacted]" then "" else message.

(** A rune that is not ASCII has a byte over 127. *)
Definition all_bytes (p : Z → bool) (s : string) : bool :=
  forallb (λ c, p (byte_of c)) (String.list_ascii_of_string s).
Definition headerValue (s : string) (max : Z) : bool :=
  negb (len s =? 0) && negb (max <? len s) && all_bytes (in_range 33 126) s.
Definition validID (id : string) : bool :=
  negb (len id =? 0) && negb (128 <? len id)
  && all_bytes (λ r, in_range 97 122 r || in_range 65 90 r || in_range 48 57 r || (r =? 95) || (r =? 45)) id.
Definition validName (s : string) : bool :=
  (TrimSpace s ≟ s) && negb (s ≟ "") && (len s <=? 256)
  && negb (existsb (λ r, IsControl (ru_rune r)) (runes s)).
Definition validAssetID (id : string) : bool :=
  (len id =? 32) && all_bytes (λ r, in_range 48 57 r || in_range 97 102 r) id.
Definition validFilename (name : string) : bool :=
  validName name && negb (name ≟ ".") && negb (name ≟ "..")
  && negb (ContainsByte name slash) && negb (ContainsByte name backslash) && negb (ContainsByte name colon).

(** ** The body of an upload (assets.go, [uploadSource]) *)

Definition maxAssetBytes : Z := 100 * 2 ^ 20.

(** What a read of the source, or of this reader, ends with. *)
Inductive read_end := ReadOn | ReadEOF | ReadError.
Record uploadSource := mkUploadSource {
  us_remaining : Z;
  us_count : Z;
  us_complete : bool;
  us_terminal : option tk_cause;
  us_emptyReads : Z
}.
#[export] Instance uploadSource_eta : Eta uploadSource := λ r,
  mkUploadSource (us_remaining r) (us_count r) (us_complete r) (us_terminal r) (us_emptyReads r).
Definition newSource : uploadSource := mkUploadSource maxAssetBytes 0 false None 0.

(** One call of [Read]: the length of the buffer, whether the context has ended,
    and what the source returns for a buffer. *)
Record read_call := mkRead {
  rd_len : Z;
  rd_stop : bool;
  rd_source : Z → Z * read_end
}.
Definition Read (r : read_call) (s : uploadSource) : (Z * read_end) * uploadSource :=
  if rd_len r =? 0 then ((0, ReadOn), s)
  else if rd_stop r then ((0, ReadError), s)
  else if negb (is_null (us_terminal s)) then ((0, ReadError), s)
  else if us_complete s then ((0, ReadEOF), s)
  else
  let size := Z.min (rd_len r) (us_remaining s + 1) in
  let '(n, err) := rd_source r size in
  if (n <? 0) || (size <? n) then ((0, ReadError), s <| us_terminal := Some UploadSource |>)
  else
  let s := s <| us_remaining := us_remaining s - n |> <| us_count := us_count s + n |> in
  if us_remaining s <? 0 then ((0, ReadError), s <| us_terminal := Some TooLarge |>)
  else
  match err with
  | ReadError => ((n, ReadError), s <| us_terminal := Some UploadSource |>)
  | ReadEOF =>
      if us_count s =? 0 then ((0, ReadError), s <| us_terminal := Some UploadSource |>)
      else ((n, ReadEOF), s <| us_complete := true |> <| us_emptyReads := 0 |>)
  | ReadOn =>
      if n =? 0 then
        let s := s <| us_emptyReads := us_emptyReads s + 1 |> in
        if 100 <=? us_emptyReads s
        then ((0, ReadError), s <| us_terminal := Some UploadSource |>) else ((n, ReadOn), s)
      else ((n, ReadOn), s <| us_emptyReads := 0 |>)
  end.
Definition read_all (reads : list read_call) : uploadSource :=
  fold_left (λ s r, (Read r s).2) reads newSource.

(** ** Interactions *)

(** A request: the cause [do] finds in a failure, or the response.  An upload
    streams a file as the one part of its body: the reads made of its source. *)
Inductive TkE : Type → Type :=
  | TkDo (r : http_request) : TkE (option tk_cause + http_response)
  | TkUpload (r : http_request) (filename mediaType : string)
      : TkE ((option tk_cause + http_response) * list read_call)
  | TkNet {X} (n : NetE X) : TkE X.

(** ** Decoded answers *)

(** The text of a field of an object, empty when it is absent. *)
Definition raw_field (key : string) (envelope : list (string * string)) : string :=
  match List.find (λ kv, kv.1 ≟ key) envelope with Some kv => kv.2 | None => "" end.

Record raw_task := mkRawTask {
  rt_ID : string;
  rt_Model : string;
  rt_Status : string;
  rt_VideoURL : string;
  rt_Error : option TaskError
}.
Record raw_metadata := mkRawMetadata { rm_ID : string; rm_Status : string; rm_Content : Metadata }.
(** [Model] *)
Record TkModel := mkTkModel { tm_ID : string; tm_Mode : string; tm_Durations : list Z }.
(** A page of tasks: [total] and [items], when they are there. *)
Record raw_page := mkRawPage {
  rp_Total : option Z;
  rp_Items : option (list (string * string))    (** id and status *)
}.
(** [submission] and [submissionContent]; an asset reference is its URL. *)
Record submissionContent := mkSubmissionContent {
  sc_Type : string;
  sc_Text : option string;
  sc_ImageURL : option string;
  sc_VideoURL : option string;
  sc_AudioURL : option string;
  sc_Role : string
}.
Record submission := mkSubmission {
  sm_Model : string;
  sm_Content : list submissionContent;
  sm_Duration : Z
}.

(** ** The dashboard (dashboard.go) *)

Record DashboardCounts := mkCounts {
  dc_Running : Z; dc_Queued : Z; dc_Succeeded : Z; dc_Uncertain : Z; dc_Failed : Z; dc_Canceled : Z
}.
Record DashboardAccount := mkAccount {
  da_Label : string;
  da_Status : string;
  da_Credits : option Z;
  da_ActiveCount : Z;
  da_ConcurrencyLimit : Z;
  da_AvailableSlots : Z;
  da_Cooldown : bool
}.
Record DashboardLogin := mkLogin { dl_Status : string; dl_CanDispatch : bool }.
Record Dashboard := mkDashboard {
  ds_Counts : DashboardCounts;
  ds_Occupied : Z;
  ds_Capacity : Z;
  ds_Accounts : list DashboardAccount;
  ds_Login : DashboardLogin;
  ds_LeasedTaskIDs : list string;
  ds_SlotCapacity : Z;
  ds_SlotOccupied : Z;
  ds_ConcurrencyPerLine : Z;
  ds_CoolingSlots : Z
}.

Record raw_account := mkRawAccount {
  ra_Lease : option string;
  ra_NotBefore : option float64;
  ra_Credits : option Z;
  ra_ActiveCount : option Z;
  ra_ConcurrencyLimit : option Z;
  ra_AvailableSlots : option Z
}.
(** The six counts in the order of the struct; of the login its status and
    whether it can dispatch. *)
Record raw_dashboard := mkRawDashboard {
  rw_Counts : option (option Z * option Z * option Z * option Z * option Z * option Z);
  rw_Occupied : option Z;
  rw_Capacity : option Z;
  rw_SlotCapacity : option Z;
  rw_SlotOccupied : option Z;
  rw_ConcurrencyPerLine : option Z;
  rw_Accounts : option (list raw_account);
  rw_Login : option (string * option bool)
}.

Definition dashboardLoginStatus (status : string) : string :=
  if status ∈? ["valid"; "checking"; "expired"; "login_required"; "disabled"; "unavailable"]
  then status else "unknown".

Definition count_ok (value : option Z) : bool :=
  match value with Some v => 0 <=? v | None => false end.

(** The totals of the loop over the accounts. *)
Record totals := mkTotals {
  tt_Active : Z;
  tt_OccupiedLines : Z;
  tt_Capacity : Z;
  tt_Cooling : Z;
  tt_Leased : list string;
  tt_Accounts : list DashboardAccount
}.

(** One account: its slots in use and its limit, [None] when it is refused. *)
Definition account_slots (slots : bool) (free : Z) (a : raw_account) : option (Z * Z) :=
  if slots then
    active ← ra_ActiveCount a;
    limit ← ra_ConcurrencyLimit a;
    available ← ra_AvailableSlots a;
    if (active <? 0) || (limit <? 1) || (20 <? limit) || (free <? active)
       || negb (available =? Z.max (limit - active) 0)
    then None else Some (active, limit)
  else if is_null (ra_ActiveCount a) && is_null (ra_ConcurrencyLimit a) && is_null (ra_AvailableSlots a)
  then Some (if is_null (ra_Lease a) then 0 else 1, 1) else None.

Definition account_status (slots cooldown : bool) (active limit : Z) : string :=
  if negb slots && (0 <? active) then "occupied"
  else if cooldown then "cooldown"
  else if limit <=? active then "full"
  else if 0 <? active then "occupied" else "idle".

Definition add_account (slots : bool) (slotOccupied : Z) (now : Z) (a : raw_account) (t : totals) : option totals :=
  notBefore ← ra_NotBefore a;
  if match ra_Credits a with Some c => c <? 0 | None => false end then None
  else if match ra_Lease a with Some lease => negb (validID lease) | None => false end then None
  else
  '(active, limit) ← account_slots slots (slotOccupied - tt_Active t) a;
  let cooldown := SFltb (of_int now) notBefore in
  let available := Z.max (limit - active) 0 in
  Some (mkTotals (tt_Active t + active)
    (tt_OccupiedLines t + if 0 <? active then 1 else 0)
    (tt_Capacity t + limit)
    (tt_Cooling t + if cooldown then available else 0)
    (tt_Leased t ++ match ra_Lease a with Some lease => if slots then [] else [lease] | None => [] end)
    (tt_Accounts t ++ [mkAccount (String.append "1-" (Itoa (Z.of_nat (length (tt_Accounts t)) + 1)))
       (account_status slots cooldown active limit) (ra_Credits a) active limit available cooldown])).

Fixpoint add_accounts (slots : bool) (slotOccupied now : Z) (l : list raw_account) (t : totals) : option totals :=
  match l with
  | [] => Some t
  | a :: l => t ← add_account slots slotOccupied now a t; add_accounts slots slotOccupied now l t
  end.

(** The capacity of the lines, their use and the default limit: of the newer
    fields, or of the older ones. *)
Definition dashboard_slots (raw : raw_dashboard) (capacity occupied : Z) : option (bool * Z * Z * Z) :=
  if is_null (rw_SlotCapacity raw) && is_null (rw_SlotOccupied raw) && is_null (rw_ConcurrencyPerLine raw)
  then Some (false, capacity, occupied, 1)
  else
  slotCapacity ← rw_SlotCapacity raw;
  slotOccupied ← rw_SlotOccupied raw;
  perLine ← rw_ConcurrencyPerLine raw;
  if (perLine <? 1) || (20 <? perLine) || (slotCapacity <? 0) || (slotOccupied <? 0) then None
  else Some (true, slotCapacity, slotOccupied, perLine).

Definition dashboard_counts (raw : raw_dashboard) : option DashboardCounts :=
  '(a, b, c, d, e, f) ← rw_Counts raw;
  if forallb count_ok [a; b; c; d; e; f]
  then a ← a; b ← b; c ← c; d ← d; e ← e; f ← f; Some (mkCounts a b c d e f)
  else None.

(** Everything but the list of the active tasks; whether the newer fields are there. *)
Definition read_dashboard (raw : raw_dashboard) (now : Z) : option (bool * Dashboard) :=
  counts ← dashboard_counts raw;
  occupied ← rw_Occupied raw;
  capacity ← rw_Capacity raw;
  accounts ← rw_Accounts raw;
  '(status, canDispatch) ← rw_Login raw;
  canDispatch ← canDispatch;
  if (capacity <? 0) || (occupied <? 0) || (capacity <? occupied)
     || negb (Z.of_nat (length accounts) =? capacity)
  then None
  else
  '(slots, slotCapacity, slotOccupied, perLine) ← dashboard_slots raw capacity occupied;
  t ← add_accounts slots slotOccupied now accounts (mkTotals 0 0 0 0 [] []);
  if negb (tt_OccupiedLines t =? occupied) || negb (tt_Active t =? slotOccupied)
     || negb (tt_Capacity t =? slotCapacity)
  then None
  else Some (slots, mkDashboard counts occupied capacity (tt_Accounts t)
         (mkLogin (dashboardLoginStatus status) canDispatch) (tt_Leased t)
         slotCapacity slotOccupied perLine (tt_Cooling t)).

(** ** The client (client.go) *)

Record Client := mkTkClient {
  tc_baseURL : URL;
  tc_apiKey : string;
  tc_maxBody : Z;
  tc_configErr : bool
}.
Definition zero_URL : URL := mkURL "" "" false "" "" "" "" "" "" "" "" false.
Definition maxJSONBytes : Z := 2 ^ 20.
Definition tasksPath : string := "/api/v3/contents/generations/tasks".

Definition base_refused (u : URL) : bool :=
  (negb (url_Scheme u ≟ "http") && negb (url_Scheme u ≟ "https")) || (url_Hostname u ≟ "")
  || url_User u || negb (url_Opaque u ≟ "") || negb (url_RawQuery u ≟ "") || url_ForceQuery u
  || negb (url_Fragment u ≟ "") || negb (url_RawPath u ≟ "")
  || ContainsByte (url_Path u) backslash || ContainsByte (url_Path u) percent
  || (negb (url_Path u ≟ "") && negb (path_Clean (url_Path u) ≟ TrimRight_slash (url_Path u))
      && negb (url_Path u ≟ "/")).
Definition NewClient (baseURL : option URL) (apiKey : string) (maxBody : Z) : Client :=
  let base := match baseURL with
              | Some u => u <| url_Path := TrimRight_slash (url_Path u) |>
              | None => zero_URL
              end in
  mkTkClient base apiKey
    (if (maxBody <=? 0) || (maxJSONBytes <? maxBody) then maxJSONBytes else maxBody)
    (match baseURL with Some u => base_refused u | None => true end || negb (headerValue apiKey 4096)).

(** The first [maxBody + 1] bytes of a body, or why reading them fails: the text
    of [hp_Failure] is that of the sentinel it wraps. *)
Definition read_cause (detail : string) : tk_cause :=
  if detail ≟ "context canceled" then Canceled
  else if detail ≟ "context deadline exceeded" then DeadlineExceeded else InvalidResponse.
Definition read_limited (maxBody : Z) (r : http_response) : tk_cause + string :=
  if maxBody <? len (hp_Body r) then inl TooLarge
  else match hp_Failure r with Some detail => inl (read_cause detail) | None => inr (hp_Body r) end.

Definition positiveFinite (v : float64) : bool := SFltb (of_int 0) v && finite v.

(** [sameOrigin] *)
Definition origin_port (u : URL) : string :=
  if negb (url_Port u ≟ "") then url_Port u else if url_Scheme u ≟ "https" then "443" else "80".

(** [net/url], [mime.ParseMediaType] (whether it has parameters), and JSON: a
    decoder of an object yields [Some None] for null; [into_] decodes into a value
    and says whether it succeeded, for it keeps what it has decoded until it fails. *)
Record TkExternals := mkTkExternals {
  tx_url_Parse : string → option URL;
  tx_escaped_path : string → string → string;
  tx_url_String : URL → string;
  tx_request_ok : string → bool;
  tx_ParseQuery : string → option (string → list string);
  tx_EqualFold : string → string → bool;
  tx_sensitive : string → bool;
  tx_ParseMediaType : string → option (string * bool);
  tx_object : string → option (option (list (string * string)));
  tx_into_text : string → string → bool * string;
  tx_into_error : string → TaskError → bool * TaskError;
  tx_id : string → option string;
  tx_task : string → option raw_task;
  tx_metadata : string → option raw_metadata;
  tx_asset : string → option Asset;
  tx_models : string → option (option (list TkModel));
  tx_items : string → option (option Z * option Z);
  tx_page : string → option raw_page;
  tx_dashboard : string → option raw_dashboard;
  tx_submission : string → option submission
}.

Section client.
Context (x : TkExternals) (c : Client).

Definition newRequest (method endpoint query : string) (key : string) (body : http_body) (contentType : string)
    : client_error + http_request :=
  if tc_configErr c then inl TkInvalidRequest
  else
  let target := set_Path (tx_escaped_path x) (tc_baseURL c) (String.append (url_Path (tc_baseURL c)) endpoint) in
  if tx_request_ok x (tx_url_String x target)
  then inr (mkHttpRequest method (tx_url_String x (target <| url_RawQuery := query |>))
              (String.append "Bearer " (tc_apiKey c)) contentType "" key "" body)
  else inl TkInvalidRequest.

Definition safeText (value : string) (limit : Z) : string :=
  sanitizeText (tx_sensitive x) value limit (tc_apiKey c).

Definition remoteError (status : Z) (envelope : list (string * string)) (cause : option tk_cause)
    : client_error :=
  let '(ok, detail) := tx_into_error x (raw_field "error" envelope) (mkTaskError "" "") in
  let detail :=
    if negb ok || ((er_Code detail ≟ "") && (er_Message detail ≟ "")) then
      let '(ok, detail) := tx_into_error x (raw_field "detail" envelope) detail in
      if ok then detail
      else mkTaskError (er_Code detail) (tx_into_text x (raw_field "detail" envelope) (er_Message detail)).2
    else detail in
  let e := responseError status cause in
  TkHTTP (mkHttpFailure status (safeText (er_Code detail) 128)
            (if er_Message detail ≟ "" then hf_Message e else safeText (er_Message detail) 512)
            (hf_Class e) cause).

Definition has_error (envelope : list (string * string)) : bool :=
  let raw := raw_field "error" envelope in negb (raw ≟ "") && negb (TrimSpace raw ≟ "null").

(** [empty] is the value of an answer without content, [output] the decoder. *)
Definition decode {A} (expected : Z) (empty : option A) (output : option (string → option A))
    (allowTaskError : bool) (r : http_response) : client_error + A :=
  let status := hp_StatusCode r in
  match read_limited (tc_maxBody c) r with
  | inl cause => inl (TkHTTP (responseError status (Some cause)))
  | inr data =>
      let decoded :=
        match tx_object x data with
        | Some (Some envelope) =>
            if negb (status =? expected) then inl (remoteError status envelope (Some InvalidResponse))
            else if has_error envelope
                    && negb (allowTaskError && ((tx_into_text x (raw_field "status" envelope) "").2 ≟ "failed"))
            then inl (remoteError status envelope None)
            else match output ≫= (λ f, f data) with
                 | Some a => inr a
                 | None => inl (TkHTTP (responseError status (Some InvalidResponse)))
                 end
        | _ => inl (remoteError status [] (Some InvalidResponse))
        end in
      match empty with
      | Some a => if (status =? expected) && (data ≟ "") then inr a else decoded
      | None => decoded
      end
  end.

Definition send (r : http_request) : Prog TkE (client_error + http_response) :=
  answer ← call (TkDo r);
  mret match answer with
       | inl cause => inl (TkHTTP (mkHttpFailure 0 "" "request failed" "transport" cause))
       | inr response => inr response
       end.

Definition request_with {A} (method endpoint query key : string) (body : http_body) (contentType : string)
    (expected : Z) (empty : option A) (output : option (string → option A)) (allowTaskError : bool)
    : Prog TkE (client_error + A) :=
  match newRequest method endpoint query key body contentType with
  | inl err => mret (inl err)
  | inr r =>
      try! response ← send r;
      mret (decode expected empty output allowTaskError response)
  end.
Definition request {A} (method endpoint : string) (output : string → option A) (allowTaskError : bool)
    : Prog TkE (client_error + A) :=
  request_with method endpoint "" "" NoBody "" 200 None (Some output) allowTaskError.

(** ** Tasks (tasks.go) *)

(** The asset a content refers to, when its fields are those of its type. *)
Definition content_asset (i : submissionContent) : option string :=
  if sc_Type i ≟ "image_url" then
    if is_null (sc_VideoURL i) && is_null (sc_AudioURL i)
       && (sc_Role i ∈? [""; "first_frame"; "reference_image"]) then sc_ImageURL i else None
  else if sc_Type i ≟ "video_url" then
    if is_null (sc_ImageURL i) && is_null (sc_AudioURL i)
       && (sc_Role i ∈? [""; "reference_video"]) then sc_VideoURL i else None
  else if sc_Type i ≟ "audio_url" then
    if is_null (sc_ImageURL i) && is_null (sc_VideoURL i)
       && (sc_Role i ∈? [""; "reference_audio"]) then sc_AudioURL i else None
  else None.
(** The number of texts of the contents, [None] when one of them is refused. *)
Fixpoint count_texts (content : list submissionContent) : option Z :=
  match content with
  | [] => Some 0
  | i :: content =>
      if sc_Type i ≟ "text" then
        match sc_Text i with
        | None => None
        | Some text =>
            if (TrimSpace text ≟ "") || negb (sc_Role i ≟ "") || negb (is_null (sc_ImageURL i))
               || negb (is_null (sc_VideoURL i)) || negb (is_null (sc_AudioURL i))
            then None else n ← count_texts content; Some (n + 1)
        end
      else if negb (is_null (sc_Text i)) then None
      else
        url ← content_asset i;
        if HasPrefix url "asset://" && validAssetID (TrimPrefix url "asset://")
        then count_texts content else None
  end.
Definition submission_ok (input : submission) : bool :=
  validName (sm_Model input) && (4 <=? sm_Duration input) && (sm_Duration input <=? 15)
  && (1 <=? Z.of_nat (length (sm_Content input))) && (Z.of_nat (length (sm_Content input)) <=? 13)
  && (count_texts (sm_Content input) ≟ Some 1).
Definition validSubmission (body : string) : bool :=
  match tx_submission x body with Some input => submission_ok input | None => false end.

Definition Submit (body idempotencyKey : string) : Prog TkE (client_error + string) :=
  if tc_maxBody c <? len body then mret (inl TkBodyTooLarge)
  else if negb (headerValue idempotencyKey 200) || negb (validSubmission body)
  then mret (inl TkInvalidRequest)
  else
  try! id ← request_with "POST" tasksPath "" idempotencyKey (JsonBody body) "application/json" 200 None
             (Some (tx_id x)) false;
  mret (if validID id then inr id else inl TkInvalidResponse).

Definition sameOrigin (a b : URL) : bool :=
  (url_Scheme a ≟ url_Scheme b) && tx_EqualFold x (url_Hostname a) (url_Hostname b)
  && (origin_port a ≟ origin_port b).

(** The URL of a video: on the node under its own path, or on another public
    https host; the guard is the default one. *)
Definition validateVideoURL (id raw : string) : Prog TkE (client_error + unit) :=
  match tx_url_Parse x raw with
  | None => mret (inl TkUnsafeURL)
  | Some u =>
      if url_User u || negb (url_Opaque u ≟ "") || negb (url_Fragment u ≟ "") || (url_Hostname u ≟ "")
         || (negb (url_Scheme u ≟ "http") && negb (url_Scheme u ≟ "https"))
      then mret (inl TkUnsafeURL)
      else
      match tx_ParseQuery x (url_RawQuery u) with
      | None => mret (inl TkUnsafeURL)
      | Some q =>
          match q "expires", q "signature" with
          | [expires], [signature] =>
              if negb (headerValue signature 512) then mret (inl TkUnsafeURL)
              else
              match ParseInt64 expires with
              | None => mret (inl TkUnsafeURL)
              | Some expires =>
                  e ← environment;
                  if expires <=? nowUnix e then mret (inl TkUnsafeURL)
                  else if sameOrigin (tc_baseURL c) u then
                    mret (if negb (url_Path u ≟ String.concat "" [url_Path (tc_baseURL c); "/media/tasks/"; id])
                             || negb (url_RawPath u ≟ "")
                          then inl TkUnsafeURL else inr tt)
                  else if negb (url_Scheme u ≟ "https") then mret (inl TkUnsafeURL)
                  else
                  v ← translate (@TkNet) (Validate (tx_url_Parse x) (guard_ports []) raw);
                  mret match v with inl _ => inl TkUnsafeURL | inr _ => inr tt end
              end
          | _, _ => mret (inl TkUnsafeURL)
          end
      end
  end.

(** The ratio and the resolution of a task are not read by anybody. *)
Definition Query (id : string) : Prog TkE (client_error + TK2SDTask) :=
  if negb (validID id) then mret (inl TkInvalidRequest)
  else
  try! result ← request "GET" (String.concat "" [tasksPath; "/"; id]) (tx_task x) true;
  if negb (rt_ID result ≟ id) || negb (validName (rt_Model result)) then mret (inl TkInvalidResponse)
  else if negb (rt_Status result ∈? ["queued"; "running"; "succeeded"; "failed"; "cancelled"])
  then mret (inl TkInvalidResponse)
  else
  let found url err := mkTK2SDTask (rt_ID result) (rt_Model result) (rt_Status result) url err in
  if rt_Status result ≟ "failed" then
    mret match rt_Error result with
         | None => inl TkInvalidResponse
         | Some err =>
             if (er_Code err ≟ "") || (er_Message err ≟ "") then inl TkInvalidResponse
             else inr (found "" (Some (mkTaskError (safeText (er_Code err) 128) (safeText (er_Message err) 512))))
         end
  else if rt_Status result ≟ "succeeded" then
    try! _ ← validateVideoURL id (rt_VideoURL result);
    mret (inr (found (rt_VideoURL result) (rt_Error result)))
  else mret (inr (found "" (rt_Error result))).

Definition GetMetadata (id : string) : Prog TkE (client_error + Metadata) :=
  if negb (validID id) then mret (inl TkInvalidRequest)
  else
  try! result ← request "GET" (String.concat "" ["/v1/tasks/"; id]) (tx_metadata x) false;
  let m := rm_Content result in
  mret (if negb (rm_ID result ≟ id) || negb (rm_Status result ≟ "succeeded")
           || negb (positiveFinite (md_Duration m)) || (md_Width m <=? 0) || (md_Height m <=? 0)
        then inl TkInvalidResponse else inr m).

Definition Cancel (id : string) : Prog TkE (client_error + unit) :=
  if negb (validID id) then mret (inl TkInvalidRequest)
  else request_with "DELETE" (String.concat "" [tasksPath; "/"; id]) "" "" NoBody "" 204 (Some tt) None false.

(** ** Assets (assets.go) *)

(** The kind of a media type: what comes before its slash. *)
Definition media_kind (mediaType : string) : string := (Cut mediaType slash).1.1.
Definition upload_kind (filename mediaType : string) : option (string * string) :=
  match tx_ParseMediaType x mediaType with
  | Some (mt, false) =>
      if existsb (λ r, IsControl (ru_rune r)) (runes mediaType) || negb (validFilename filename)
         || negb (media_kind mt ∈? ["image"; "video"; "audio"])
      then None else Some (mt, media_kind mt)
  | _ => None
  end.
Definition asset_ok (kind : string) (size : Z) (a : Asset) : bool :=
  validAssetID (as_ID a) && (as_URL a ≟ String.append "asset://" (as_ID a)) && (as_Kind a ≟ kind)
  && validFilename (as_Filename a) && (0 <? as_Size a) && (as_Size a <=? maxAssetBytes)
  && (as_Size a =? size) && (0 <=? as_Width a) && (0 <=? as_Height a) && finite (as_Duration a)
  && (if kind ≟ "image"
      then SFeqb (as_Duration a) (of_int 0) && (0 <? as_Width a) && (0 <? as_Height a)
      else SFleb (of_int 2) (as_Duration a) && SFleb (as_Duration a) (of_int 15)
           && (negb (kind ≟ "video") || ((0 <? as_Width a) && (0 <? as_Height a)))).

(** The source is never nil; a valid type and name can always be written. *)
Definition Upload (filename mediaType : string) : Prog TkE (client_error + Asset) :=
  match upload_kind filename mediaType with
  | None => mret (inl TkInvalidRequest)
  | Some (mt, kind) =>
      match newRequest "POST" "/v1/assets" "" "" NoBody "multipart/form-data" with
      | inl err => mret (inl err)
      | inr r =>
          '(answer, reads) ← call (TkUpload r filename mt);
          let counted := read_all reads in
          mret match answer with
          | inl cause => inl (TkHTTP (mkHttpFailure 0 "" "request failed" "transport" cause))
          | inr response =>
              match decode 201 None (Some (tx_asset x)) false response with
              | inl err => inl err
              | inr a =>
                  if negb (us_complete counted) then inl TkUploadSource
                  else if asset_ok kind (us_count counted) a then inr a else inl TkInvalidResponse
              end
          end
      end
  end.

(** ** Models and health (models.go) *)

Fixpoint positive_distinct (l : list Z) : bool :=
  match l with
  | [] => true
  | d :: l => (0 <? d) && negb (head l ≟ Some d) && positive_distinct l
  end.
(** The models in the order they are first listed. *)
Fixpoint collect_models (data : list TkModel) (models : list TkModel) : option (list TkModel) :=
  match data with
  | [] => Some models
  | m :: data =>
      let durations := order_by (λ d, d) (tm_Durations m) in
      if negb (validName (tm_ID m)) || (Z.of_nat (length (tm_Durations m)) =? 0)
         || negb (tm_Mode m ∈? ["text_to_video"; "image_to_video"; "reference_to_video"])
         || negb (positive_distinct durations)
      then None
      else
      match List.find (λ m', (tm_ID m' ≟ tm_ID m) && (tm_Mode m' ≟ tm_Mode m)) models with
      | Some seen => if tm_Durations seen ≟ durations then collect_models data models else None
      | None =>
          let models := models ++ [mkTkModel (tm_ID m) (tm_Mode m) durations] in
          if 256 <? Z.of_nat (length (remove_dups (map tm_ID models))) then None
          else collect_models data models
      end
  end.
Definition Models : Prog TkE (client_error + list TkModel) :=
  try! data ← request "GET" "/v1/models" (tx_models x) false;
  mret match data ≫= (λ data, collect_models data []) with
       | Some models => inr models
       | None => inl TkInvalidResponse
       end.

(** [total] and the number of items, when they are there. *)
Definition Health : Prog TkE (client_error + unit) :=
  try! page ← request_with "GET" tasksPath "page_num=1&page_size=1" "" NoBody "" 200 None (Some (tx_items x)) false;
  mret match page with
       | (Some total, Some items) =>
           if (total <? 0) || (1 <? items) || (total <? items) then inl TkInvalidResponse else inr tt
       | _ => inl TkInvalidResponse
       end.

(** ** Active tasks (active_tasks.go) *)

Definition pageSize : Z := 100.
Definition maxPages : nat := 100.
Definition page_query (page : Z) : string :=
  String.concat "" ["filter.status=running&page_num="; Itoa page; "&page_size="; Itoa pageSize].

(** The ids with those of a page. *)
Fixpoint add_items (items : list (string * string)) (ids : list string) : option (list string) :=
  match items with
  | [] => Some ids
  | (id, status) :: items =>
      if negb (validID id) || (id ∈? ids) || negb (status ≟ "running") then None
      else add_items items (ids ++ [id])
  end.
(** What a page adds to the total, if it is known, and the ids. *)
Definition add_page (page : raw_page) (total : option Z) (ids : list string) : option (Z * list string) :=
  found ← rp_Total page;
  items ← rp_Items page;
  if (found <? 0) || (Z.of_nat maxPages * pageSize <? found) then None
  else
  let total := default found total in
  if negb (total =? found)
     || negb (Z.of_nat (length items) =? Z.min pageSize (total - Z.of_nat (length ids)))
  then None
  else ids ← add_items items ids; Some (total, ids).
Fixpoint active_pages (rounds : nat) (total : option Z) (ids : list string)
    : Prog TkE (client_error + list string) :=
  match rounds with
  | O => mret (inl TkInvalidResponse)
  | S rounds =>
      try! page ← request_with "GET" tasksPath (page_query (Z.of_nat (maxPages - rounds))) "" NoBody "" 200 None
                   (Some (tx_page x)) false;
      match add_page page total ids with
      | None => mret (inl TkInvalidResponse)
      | Some (total, ids) =>
          if Z.of_nat (length ids) =? total then mret (inr ids) else active_pages rounds (Some total) ids
      end
  end.
Definition activeTaskIDs : Prog TkE (client_error + list string) := active_pages maxPages None [].

(** ** The dashboard (dashboard.go) *)

Definition GetDashboard : Prog TkE (client_error + Dashboard) :=
  try! raw ← request "GET" "/v1/dashboard" (tx_dashboard x) false;
  e ← environment;
  match read_dashboard raw (nowUnix e) with
  | None => mret (inl TkInvalidResponse)
  | Some (slots, d) =>
      if slots && dl_CanDispatch (ds_Login d) && (dc_Queued (ds_Counts d) =? 0)
         && (ds_SlotOccupied d <? ds_SlotCapacity d)
      then
        try! ids ← activeTaskIDs;
        mret (inr (mkDashboard (ds_Counts d) (ds_Occupied d) (ds_Capacity d) (ds_Accounts d) (ds_Login d) ids
          (ds_SlotCapacity d) (ds_SlotOccupied d) (ds_ConcurrencyPerLine d) (ds_CoolingSlots d)))
      else mret (inr d)
  end.
End client.

(** ** No secret in a text *)

Definition graphic (c : Ascii.ascii) : bool := in_range 33 126 (byte_of c).

(** A rune is one ASCII byte, or all its bytes are beyond ASCII. *)
Definition rune_ok (r : rune) : Prop := ∃ c b, ru_bytes r = String c b ∧
  (if byte_of c <? 128 then b = "" ∧ ru_rune r = byte_of c ∧ ru_valid r = true
   else Forall (λ c, (128 <=? byte_of c) = true) (c :: String.list_ascii_of_string b)).

Lemma runes_shape s : Forall rune_ok (runes s).
Proof.
  induction s as [|s r rest Hr Happ Hlt IH] using runes_ind; [constructor|].
  rewrite Hr. constructor; [|done]. clear IH Hlt. unfold rune_ok. destruct s as [|c0 s0]; [done|].
  assert (∀ c, continuation c = true → (128 <=? byte_of c) = true) as Hc.
  { intros c. unfold continuation, in_range. lia. }
  assert (∀ b c, second_ok b (byte_of c) = true → (128 <=? byte_of c) = true) as Hs.
  { intros b c. unfold second_ok, in_range. repeat case_match; lia. }
  cbn [runes] in Hr. destruct (byte_of c0 <? 128) eqn:E0.
  { injection Hr as <- _. exists c0, "". simpl. by rewrite E0. }
  assert ((128 <=? byte_of c0) = true) as H0 by lia.
  repeat match type of Hr with
  | (if ?b then _ else _) = _ => destruct b eqn:?
  | (match ?t with EmptyString => _ | String _ _ => _ end) = _ => is_var t; destruct t
  end; injection Hr as <- _; (do 2 eexists; split; [reflexivity|]); rewrite E0;
    repeat constructor; rewrite ?andb_true_iff in *; intuition eauto.
Qed.

(** What a rune becomes: the graphic byte it is, or no graphic byte at all. *)
Lemma safe_rune_shape r : rune_ok r →
  (∃ c, ru_bytes r = String c "" ∧ safe_rune r = ru_bytes r) ∨
  Forall (λ c, graphic c = false) (String.list_ascii_of_string (safe_rune r)).
Proof.
  intros (c & b & Hb & H). destruct (byte_of c <? 128) eqn:E.
  - destruct H as (-> & _ & Hv). unfold safe_rune, encoded_rune. rewrite Hb, Hv.
    destruct (IsControl (ru_rune r)); [right; repeat constructor|left; eauto].
  - right. assert (∀ l, Forall (λ c, (128 <=? byte_of c) = true) l → Forall (λ c, graphic c = false) l) as Hg.
    { intros l Hl. eapply Forall_impl; [exact Hl|]. intros d. unfold graphic, in_range. lia. }
    unfold safe_rune, encoded_rune. rewrite Hb.
    destruct (IsControl _); [repeat constructor|]. destruct (ru_valid r); [by apply Hg|repeat constructor].
Qed.

Lemma concat_append a l : String.concat "" (a :: l) = String.append a (String.concat "" l).
Proof.
  destruct l; [|done]. cbn [String.concat]. induction a as [|c a IH]; [done|]. exact (f_equal (String c) IH).
Qed.

Section contains.
Context (c : Ascii.ascii) (key : string) (Hc : graphic c = true).

Lemma skip_bytes u v :
  Forall (λ c, graphic c = false) (String.list_ascii_of_string u) →
  Contains_str (String.append u v) (String c key) = Contains_str v (String c key).
Proof.
  induction u as [|d u IH]; [done|]. simpl. intros [Hd Hu]%Forall_cons.
  destruct (Ascii.ascii_dec c d) as [<-|]; [congruence|]. simpl. by apply IH.
Qed.
Lemma prefix_bytes u v :
  u ≠ "" → Forall (λ c, graphic c = false) (String.list_ascii_of_string u) →
  HasPrefix (String.append u v) (String c key) = false.
Proof.
  destruct u as [|d u]; [done|]. simpl. intros _ [Hd _]%Forall_cons.
  destruct (Ascii.ascii_dec c d) as [<-|]; [congruence|done].
Qed.
End contains.

Lemma Contains_append_r s t key : Contains_str t key = true → Contains_str (String.append s t) key = true.
Proof. induction s as [|c s IH]; simpl; [done|]. intros H. rewrite (IH H). apply orb_true_r. Qed.
Lemma HasPrefix_append s t key : HasPrefix s key = true → HasPrefix (String.append s t) key = true.
Proof.
  unfold HasPrefix. revert s. induction key as [|c key IH]; intros [|d s]; simpl; try done.
  { by destruct t. }
  destruct (Ascii.ascii_dec c d); [apply IH|done].
Qed.
Lemma Contains_append_l s t key : Contains_str s key = true → Contains_str (String.append s t) key = true.
Proof.
  induction s as [|c s IH]; simpl.
  - rewrite orb_false_r. intros H. destruct key; [|done]. by destruct t.
  - rewrite !orb_true_iff. intros [H|H]; [left|right; by apply IH].
    exact (HasPrefix_append (String c s) t key H).
Qed.

Lemma safe_prefix rs key :
  Forall rune_ok rs → forallb graphic (String.list_ascii_of_string key) = true →
  HasPrefix (String.concat "" (map safe_rune rs)) key = true → HasPrefix (concat_bytes rs) key = true.
Proof.
  intros Hrs. revert key. induction Hrs as [|r rs Hr _ IH]; intros [|c key] Hk; [done..|by destruct (concat_bytes (r :: rs))|].
  cbn [map]. rewrite concat_append. cbn [concat_bytes]. simpl in Hk.
  apply andb_true_iff in Hk as [Hc Hk].
  destruct (safe_rune_shape r Hr) as [(d & Hb & ->)|Hg].
  - rewrite Hb. simpl. destruct (Ascii.ascii_dec c d); [by apply IH|done].
  - rewrite prefix_bytes; [done|done| |done]. intros E. unfold safe_rune, encoded_rune in E.
    destruct Hr as (d & b & Hb & _). destruct (IsControl _); [done|]. rewrite Hb in E. by destruct (ru_valid r).
Qed.

Lemma safe_contains rs key :
  Forall rune_ok rs → forallb graphic (String.list_ascii_of_string key) = true →
  Contains_str (String.concat "" (map safe_rune rs)) key = true → Contains_str (concat_bytes rs) key = true.
Proof.
  intros Hrs. destruct key as [|c key]; [by destruct (concat_bytes rs)|].
  induction Hrs as [|r rs Hr Hrs IH]; intros Hk; [done|]. 
  cbn [map]. rewrite concat_append. cbn [concat_bytes].
  destruct (safe_rune_shape r Hr) as [(d & Hb & Hs)|Hg].
  - intros H. rewrite Hs in H. rewrite Hb in H |- *. simpl in H |- *.
    apply orb_true_iff in H as [H|H]; apply orb_true_iff; [left|right; by apply IH].
    destruct (Ascii.ascii_dec c d); [|done]. apply safe_prefix; [done| |done].
    simpl in Hk. by apply andb_true_iff in Hk as [_ ?].
  - assert (graphic c = true) as Hc by (simpl in Hk; by apply andb_true_iff in Hk as [? _]).
    rewrite (skip_bytes c key Hc) by done. intros H. by apply Contains_append_r, IH.
Qed.

Lemma concat_bytes_app rs rs' :
  concat_bytes (rs ++ rs') = String.append (concat_bytes rs) (concat_bytes rs').
Proof.
  induction rs as [|r rs IH]; simpl; [done|]. rewrite IH.
  induction (ru_bytes r) as [|c s IHs]; [done|exact (f_equal (String c) IHs)].
Qed.

(** A text of a node is shown without the key of the node, or not at all. *)
Lemma sanitizeText_hides sensitive value limit key max :
  headerValue key max = true →
  sanitizeText sensitive value limit key = "[redacted]" ∨
  Contains_str (sanitizeText sensitive value limit key) key = false.
Proof.
  intros Hkey. unfold sanitizeText. destruct (_ || sensitive value) eqn:E; [by left|right].
  apply orb_false_iff in E as [E _]. apply not_true_iff_false. intros H.
  unfold headerValue in Hkey. rewrite !andb_true_iff in Hkey. destruct Hkey as [[Hne _] Hg].
  assert (key ≠ "") as Hn by (intros ->; done). rewrite bool_decide_eq_false_2 in E by done. simpl in E.
  rewrite firstn_map in H. apply safe_contains in H; [|apply Forall_take, runes_shape|done].
  rewrite <-(runes_concat value), <-(take_drop (Z.to_nat limit) (runes value)), concat_bytes_app in E.
  rewrite Contains_append_l in E; done.
Qed.

(** ** Uploads *)

Definition source_wf (s : uploadSource) : Prop :=
  0 ≤ us_count s ∧ us_count s + us_remaining s = maxAssetBytes ∧
  (us_complete s = true → 0 < us_count s ∧ us_terminal s = None) ∧
  (us_terminal s = None → 0 ≤ us_remaining s).

Lemma Read_wf r s : 0 ≤ rd_len r → source_wf s → source_wf (Read r s).2.
Proof.
  intros Hl Hwf. pose proof Hwf as (H0 & Hsum & Hc & Ht). unfold Read.
  destruct (rd_len r =? 0); [done|]. destruct (rd_stop r); [done|].
  destruct (is_null (us_terminal s)) eqn:Et; [|done]. simpl. destruct (us_complete s) eqn:Ec; [done|].
  assert (us_terminal s = None) as En by by destruct (us_terminal s). specialize (Ht En). clear Hc Et Hwf.
  destruct (rd_source r _) as [n err].
  destruct (_ || _) eqn:Hn; [split_and!; simpl; try done; congruence|].
  cbn [us_remaining us_count over]. unfold source_wf.
  repeat match goal with |- context [if ?b then _ else _] => destruct b eqn:? | |- context [match err with _ => _ end] => destruct err end;
    simpl; rewrite ?Ec, ?En; split_and!; try done; try lia; intros _; split; done || lia.
Qed.

(** A source that was read to its end held between one byte and the limit. *)
Lemma read_all_complete reads :
  Forall (λ r, 0 ≤ rd_len r) reads → us_complete (read_all reads) = true →
  1 ≤ us_count (read_all reads) ≤ maxAssetBytes.
Proof.
  intros Hl. assert (source_wf (read_all reads)) as (H0 & Hs & Hc & Ht).
  { unfold read_all. assert (source_wf newSource) as H by (split_and!; done || (simpl; lia)).
    revert H. generalize newSource. induction Hl as [|r reads Hr _ IH]; intros s Hs; simpl; [done|].
    by apply IH, Read_wf. }
  intros [? E]%Hc. specialize (Ht E). lia.
Qed.

(** ** Active tasks *)

Lemma add_items_spec items ids ids' :
  add_items items ids = Some ids' → NoDup ids → Forall (λ id, validID id = true) ids →
  NoDup ids' ∧ Forall (λ id, validID id = true) ids' ∧ ids' = ids ++ map fst items.
Proof.
  revert ids. induction items as [|[id status] items IH]; intros ids; simpl.
  - intros [= <-]. by rewrite app_nil_r.
  - destruct (validID id) eqn:Hv; [|done]. simpl. destruct (id ∈? ids) eqn:Hi; [done|].
    destruct (_ ≟ "running"); [|done]. simpl. apply bool_decide_eq_false in Hi.
    intros H Hnd Hf. destruct (IH _ H) as (? & ? & ->).
    + apply NoDup_app. split_and!; [done|set_solver|apply NoDup_singleton].
    + apply Forall_app. by repeat constructor.
    + split_and!; [done..|by rewrite <-app_assoc].
Qed.

Lemma add_items_complete items ids :
  NoDup (ids ++ map fst items) → Forall (λ kv, validID kv.1 = true ∧ kv.2 = "running") items →
  add_items items ids = Some (ids ++ map fst items).
Proof.
  revert ids. induction items as [|[id status] items IH]; intros ids; simpl; [by rewrite app_nil_r|].
  intros Hnd [[Hv Hs] Hf]%Forall_cons. simpl in Hv, Hs. rewrite Hv, Hs.
  assert (id ∉ ids) as Hi by (apply NoDup_app in Hnd as (_ & H & _); intros ?; by eapply H; [|left]).
  rewrite (bool_decide_eq_false_2 _ Hi). cbn [negb orb]. rewrite bool_decide_eq_true_2 by done. cbn [negb].
  rewrite (cons_middle id ids (map fst items)), app_assoc. apply IH; [|done].
  by rewrite <-app_assoc.
Qed.

Section active.
Context (x : TkExternals) (c : Client).

Definition page_of (l : list string) (page : Z) : raw_page :=
  mkRawPage (Some (Z.of_nat (length l)))
    (Some (map (λ id, (id, "running")) (take 100 (drop (Z.to_nat (page - 1) * 100) l)))).

(** A node that lists the same active tasks while they are read. *)
Definition lists_active (answer : ∀ X, TkE X → X) (l : list string) : Prop :=
  ∀ page, 1 ≤ page ≤ 100 →
  ∃ r response, newRequest x c "GET" tasksPath (page_query page) "" NoBody "" = inr r ∧
    answer _ (TkDo r) = inr response ∧
    decode x c 200 None (Some (tx_page x)) false response = inr (page_of l page).

Lemma page_run answer e l page db :
  lists_active answer l → 1 ≤ page ≤ 100 →
  (run answer e (request_with x c "GET" tasksPath (page_query page) "" NoBody "" 200 None (Some (tx_page x)) false) db).1
  = (inr (page_of l page), db).
Proof.
  intros Ha Hp. destruct (Ha page Hp) as (r & response & Hr & Hd & Hdec).
  unfold request_with. rewrite Hr. unfold send, try. rewrite run_bind. cbn [run call mbind prog_bind bind].
  rewrite Hd. simpl. by rewrite Hdec.
Qed.

Lemma active_pages_run answer e l rounds k db :
  lists_active answer l → NoDup l → Forall (λ id, validID id = true) l →
  Z.of_nat (length l) ≤ 10000 → (k + rounds = 100)%nat → (k * 100 < length l ∨ k = 0)%nat →
  (run answer e (active_pages x c rounds (if (k =? 0)%nat then None else Some (Z.of_nat (length l)))
     (take (k * 100) l)) db).1.1 = inr l.
Proof.
  intros Ha Hnd Hv Hlen. revert k. induction rounds as [|rounds IH]; intros k Hk Hlt; [lia|].
  cbn [active_pages]. unfold try at 1. rewrite run_bind.
  assert (Z.of_nat (maxPages - rounds) = Z.of_nat (S k)) as -> by (unfold maxPages; lia).
  pose proof (page_run answer e l (Z.of_nat (S k)) db Ha ltac:(lia)) as E.
  destruct (run answer e _ db) as [[a db1] tr1] eqn:Er. simpl in E. injection E as -> ->. clear Er.
  set (items := take 100 (drop (k * 100) l)).
  assert (add_page (page_of l (Z.of_nat (S k))) (if (k =? 0)%nat then None else Some (Z.of_nat (length l)))
    (take (k * 100) l) = Some (Z.of_nat (length l), take (S k * 100) l)) as Hadd.
  { unfold add_page, page_of. cbn [rp_Total rp_Items mbind option_bind].
    replace (Z.to_nat (Z.of_nat (S k) - 1)) with k by lia. fold items.
    assert ((Z.of_nat (length l) <? 0) || (Z.of_nat maxPages * pageSize <? Z.of_nat (length l)) = false) as ->
      by (apply orb_false_iff; split; apply Z.ltb_ge; [|change (Z.of_nat maxPages * pageSize) with 10000]; lia).
    assert (default (Z.of_nat (length l)) (if (k =? 0)%nat then None else Some (Z.of_nat (length l)))
      = Z.of_nat (length l)) as -> by by destruct (k =? 0)%nat.
    rewrite Z.eqb_refl, length_map. simpl negb. rewrite orb_false_l.
    assert (length items = Nat.min 100 (length l - k * 100)) as Hi by (unfold items; rewrite length_take, length_drop; lia).
    rewrite Hi, length_take, (proj2 (Z.eqb_eq _ _)) by (unfold pageSize; lia). simpl negb. cbn match.
    assert (take (S k * 100) l = take (k * 100) l ++ items) as ->.
    { unfold items. replace (S k * 100)%nat with (k * 100 + 100)%nat by lia. by rewrite take_take_drop. }
    assert (map fst (map (λ id : string, (id, "running")) items) = items) as Hm
      by (rewrite map_map; apply map_id).
    rewrite add_items_complete; [by rewrite Hm|rewrite Hm|].
    - assert (take (k * 100) l ++ items = take (k * 100 + 100) l) as -> by (unfold items; by rewrite take_take_drop).
      eapply sublist_NoDup; [exact Hnd|apply sublist_take].
    - apply Forall_map, Forall_take, Forall_drop. eapply Forall_impl; [exact Hv|]. done. }
  rewrite Hadd. destruct (_ =? _) eqn:Ed.
  - cbn [run mret prog_ret fst]. f_equal. apply take_ge. rewrite length_take in Ed. apply Z.eqb_eq in Ed. lia.
  - rewrite length_take in Ed. apply Z.eqb_neq in Ed. specialize (IH (S k)). change (S k =? 0)%nat with false in IH. cbn match in IH.
    destruct (run answer e (active_pages _ _ _ _ _) db) as [[b db2] tr2]. cbn [fst] in IH |- *. apply IH; [lia|].
    left. lia.
Qed.
End active.

(** ** The dashboard *)

Definition sum_of {A} (f : A → Z) (l : list A) : Z := foldr (λ a n, f a + n) 0 l.
Lemma sum_of_app {A} (f : A → Z) l l' : sum_of f (l ++ l') = sum_of f l + sum_of f l'.
Proof. induction l as [|a l IH]; simpl; [lia|]. rewrite IH. lia. Qed.
Lemma sum_of_le {A} (f g : A → Z) l : Forall (λ a, f a ≤ g a) l → sum_of f l ≤ sum_of g l.
Proof. induction 1; simpl; lia. Qed.

Definition account_wf (a : DashboardAccount) : Prop :=
  0 ≤ da_ActiveCount a ∧ 1 ≤ da_ConcurrencyLimit a ≤ 20 ∧
  da_AvailableSlots a = Z.max (da_ConcurrencyLimit a - da_ActiveCount a) 0.
Definition cooling_slots (a : DashboardAccount) : Z := if da_Cooldown a then da_AvailableSlots a else 0.
(** The slots a task can be given now. *)
Definition free_slots (accounts : list DashboardAccount) : Z :=
  sum_of (λ a, if da_Cooldown a then 0 else da_AvailableSlots a) accounts.

(** Its totals are those of its accounts. *)
Definition dashboard_wf (d : Dashboard) : Prop :=
  Forall account_wf (ds_Accounts d) ∧
  Z.of_nat (length (ds_Accounts d)) = ds_Capacity d ∧
  ds_Occupied d = count_where (λ a, 0 <? da_ActiveCount a) (ds_Accounts d) ∧
  ds_SlotOccupied d = sum_of da_ActiveCount (ds_Accounts d) ∧
  ds_SlotCapacity d = sum_of da_ConcurrencyLimit (ds_Accounts d) ∧
  ds_CoolingSlots d = sum_of cooling_slots (ds_Accounts d) ∧
  1 ≤ ds_ConcurrencyPerLine d ≤ 20 ∧
  Forall (λ id, validID id = true) (ds_LeasedTaskIDs d).

Definition totals_wf (t : totals) : Prop :=
  Forall account_wf (tt_Accounts t) ∧
  tt_OccupiedLines t = count_where (λ a, 0 <? da_ActiveCount a) (tt_Accounts t) ∧
  tt_Active t = sum_of da_ActiveCount (tt_Accounts t) ∧
  tt_Capacity t = sum_of da_ConcurrencyLimit (tt_Accounts t) ∧
  tt_Cooling t = sum_of cooling_slots (tt_Accounts t) ∧
  Forall (λ id, validID id = true) (tt_Leased t).

Lemma account_slots_range slots free a active limit :
  account_slots slots free a = Some (active, limit) → 0 ≤ active ∧ 1 ≤ limit ≤ 20.
Proof.
  unfold account_slots. destruct slots.
  - destruct (ra_ActiveCount a), (ra_ConcurrencyLimit a), (ra_AvailableSlots a); simpl; try done.
    destruct (_ || _) eqn:E; [done|]. intros [= <- <-]. lia.
  - destruct (_ && _); [|done]. intros [= <- <-]. destruct (is_null _); lia.
Qed.

Lemma add_account_wf slots occupied now a t t' :
  add_account slots occupied now a t = Some t' → totals_wf t →
  totals_wf t' ∧ length (tt_Accounts t') = S (length (tt_Accounts t)).
Proof.
  unfold add_account. destruct (ra_NotBefore a) as [nb|]; [|done]. cbn [mbind option_bind].
  destruct (match ra_Credits a with Some _ => _ | None => _ end); [done|].
  destruct (match ra_Lease a with Some _ => _ | None => _ end) eqn:El; [done|].
  destruct (account_slots _ _ a) as [[active limit]|] eqn:Es; [|done]. cbn [mbind option_bind].
  apply account_slots_range in Es as [Ha Hl]. intros [= <-] (Hf & Ho & Hact & Hcap & Hcool & Hle).
  unfold totals_wf. simpl. rewrite !sum_of_app, count_where_app, length_app, count_where_cons, count_where_nil. simpl.
  split; [|lia]. unfold cooling_slots at 2. simpl. split_and!; try lia.
  - apply Forall_app. split; [done|]. apply Forall_singleton. unfold account_wf. simpl. lia.
  - destruct (ra_Lease a); [|by rewrite app_nil_r]. apply negb_false_iff in El.
    destruct slots; [by rewrite app_nil_r|]. apply Forall_app. split; [done|by apply Forall_singleton].
Qed.

Lemma add_accounts_wf slots occupied now l t t' :
  add_accounts slots occupied now l t = Some t' → totals_wf t →
  totals_wf t' ∧ length (tt_Accounts t') = (length (tt_Accounts t) + length l)%nat.
Proof.
  revert t. induction l as [|a l IH]; simpl; intros t; [intros [= <-]; split; [done|lia]|].
  destruct (add_account _ _ _ a t) as [t1|] eqn:E; [|done]. simpl. intros H Ht.
  destruct (add_account_wf _ _ _ _ _ _ E Ht) as [H1 Hl1]. destruct (IH _ H H1). split; [done|lia].
Qed.

Lemma dashboard_slots_range raw capacity occupied slots cap occ per :
  dashboard_slots raw capacity occupied = Some (slots, cap, occ, per) → 1 ≤ per ≤ 20.
Proof.
  unfold dashboard_slots. destruct (_ && _); [by intros [= <- <- <- <-]|].
  destruct (rw_SlotCapacity raw), (rw_SlotOccupied raw), (rw_ConcurrencyPerLine raw); simpl; try done.
  destruct (_ || _) eqn:E; [done|]. intros [= <- <- <- <-]. lia.
Qed.

Lemma read_dashboard_wf raw now slots d :
  read_dashboard raw now = Some (slots, d) → dashboard_wf d.
Proof.
  unfold read_dashboard. destruct (dashboard_counts raw) as [counts|]; [|done]. cbn [mbind option_bind].
  destruct (rw_Occupied raw) as [occupied|]; [|done]. cbn [mbind option_bind].
  destruct (rw_Capacity raw) as [capacity|]; [|done]. cbn [mbind option_bind].
  destruct (rw_Accounts raw) as [accounts|]; [|done]. cbn [mbind option_bind].
  destruct (rw_Login raw) as [[status [can|]]|]; [|done..]. cbn [mbind option_bind].
  destruct (_ || _) eqn:Er; [done|]. apply orb_false_iff in Er as [_ Hlen].
  apply negb_false_iff, Z.eqb_eq in Hlen.
  destruct (dashboard_slots _ _ _) as [[[[s cap] occ] per]|] eqn:Es; [|done]. cbn [mbind option_bind].
  apply dashboard_slots_range in Es.
  destruct (add_accounts _ _ _ _ _) as [t|] eqn:Et; [|done]. cbn [mbind option_bind].
  destruct (_ || _) eqn:Eq; [done|]. intros [= <- <-].
  apply add_accounts_wf in Et as [(Hf & Ho & Hact & Hcap & Hcool & Hle) Hl]; [|by repeat constructor].
  rewrite !orb_false_iff, !negb_false_iff, !Z.eqb_eq in Eq. destruct Eq as [[E1 E2] E3].
  unfold dashboard_wf. simpl in *. split_and!; try done; lia.
Qed.

(** What a page brings. *)
Lemma add_page_wf page total ids total' ids' :
  add_page page total ids = Some (total', ids') → NoDup ids → Forall (λ id, validID id = true) ids →
  NoDup ids' ∧ Forall (λ id, validID id = true) ids'.
Proof.
  unfold add_page. destruct (rp_Total page) as [found|]; [|done]. cbn [mbind option_bind].
  destruct (rp_Items page) as [items|]; [|done]. cbn [mbind option_bind].
  destruct (_ || _); [done|]. destruct (_ || _); [done|].
  destruct (add_items items ids) as [l|] eqn:E; [|done]. simpl. intros [= _ <-] Hnd Hv.
  by destruct (add_items_spec _ _ _ E Hnd Hv) as (? & ? & _).
Qed.

Section dashboard.
Context (x : TkExternals) (c : Client).

Lemma active_pages_wf rounds total ids db tr l db' :
  plays (active_pages x c rounds total ids) db tr (inr l) db' →
  NoDup ids → Forall (λ id, validID id = true) ids →
  NoDup l ∧ Forall (λ id, validID id = true) l.
Proof.
  revert total ids db tr. induction rounds as [|rounds IH]; intros total ids db tr H Hnd Hv; [by destruct H|].
  cbn [active_pages] in H. apply plays_try in H as [(err & _ & E)|(tr1 & page & db1 & tr2 & _ & H & _)]; [done|].
  destruct (add_page page total ids) as [[total' ids']|] eqn:E; [|by destruct H].
  destruct (add_page_wf _ _ _ _ _ E Hnd Hv).
  destruct (_ =? total'); [destruct H as [[= ->] _]; done|by eapply IH].
Qed.

Lemma GetDashboard_wf db tr d db' :
  plays (GetDashboard x c) db tr (inr d) db' → dashboard_wf d.
Proof.
  unfold GetDashboard. intros H.
  apply plays_try in H as [(err & _ & E)|(tr1 & raw & db1 & tr2 & _ & H & _)]; [done|].
  apply plays_bind in H as (tr3 & e & db2 & tr4 & _ & H & _).
  destruct (read_dashboard raw (nowUnix e)) as [[slots d0]|] eqn:Er; [|by destruct H].
  apply read_dashboard_wf in Er. destruct (_ && _).
  - apply plays_try in H as [(err & _ & E)|(tr5 & ids & db3 & tr6 & Hids & H & _)]; [done|].
    destruct H as [[= ->] _]. destruct Er as (? & ? & ? & ? & ? & ? & ? & _).
    unfold dashboard_wf. simpl. split_and!; try done; try lia. by eapply active_pages_wf; [exact Hids|constructor..].
  - by destruct H as [[= ->] _].
Qed.
End dashboard.
