(* ===== verification/RemoteWorker.v ===== *)
(** * The worker of TK2SD nodes (internal/remote/processor.go)

    A pass over a task takes the lease of its run, advances it by one step
    (prepare, submit, poll, cancel, complete) and releases the lease.  The same
    code runs first submissions and recovery after a crash: what is already
    recorded decides where it goes on. *)

From stdpp Require Import relations.
From Stdlib Require Import SpecFloat.
From S2P Require Import Prelude Domain Tx Database Sql Workers GoStrings GoFloat GoNet Netguard Catalog Paging TaskRouting Callbacks Queue Stages Artifacts Remote Tasks Official Delivery Nodes Normalize Router InputSpool RemoteInputs Lifecycle.

(** A Go error: the sentinels [errors.Is] finds in it, none for nil. *)
Definition errors := list error.

(** ** Results (internal/remote/result_access.go) *)

(** The loop of [ActualMetadata]; [None] when the fuel runs out. *)
Fixpoint gcd_loop (fuel : nat) (x y : Z) : option Z :=
  match fuel with
  | O => None
  | S fuel => if y =? 0 then Some x else gcd_loop fuel y (x mod y)
  end.

Section results.
(** [url.Parse], [url.ParseQuery], [strings.EqualFold], and the JSON of the
    metadata with its ratio and resolution. *)
Context (url_Parse : string → option URL) (ParseQuery : string → option (string → list string)).
Context (EqualFold : string → string → bool).
Context (metadata_json : Metadata → string → option string → string).

Definition ActualMetadata (meta : Metadata) : option (string * string) :=
  if (md_Width meta <=? 0) || (md_Height meta <=? 0) || SFleb (md_Duration meta) (of_int 0)
     || negb (finite (md_Duration meta))
  then None
  else
    x ← gcd_loop (S (Z.to_nat (md_Height meta))) (md_Width meta) (md_Height meta);
    let ratio := String.concat "" [Itoa (md_Width meta / x); ":"; Itoa (md_Height meta / x)] in
    let size := Z.min (md_Width meta) (md_Height meta) in
    let resolution := if size ∈? [480; 720; 1080; 2160] then Some (String.append (Itoa size) "p")
                      else None in
    Some (metadata_json meta ratio resolution, ratio).

Definition url_port (u : URL) : string :=
  if negb (url_Port u ≟ "") then url_Port u else if url_Scheme u ≟ "https" then "443" else "80".
Definition http_scheme (u : URL) : bool := url_Scheme u ∈? ["http"; "https"].

(** The expiry of a result URL that may be handed out: it lies on the node
    under its own media path, or on another public https host.  The guard is
    the default one. *)
Definition ValidateResultURL (base : option URL) (id raw : string) (now : Z)
    : Prog RemoteE (option Z) :=
  match url_Parse raw, base with
  | Some u, Some base =>
      if (url_Hostname base ≟ "") || negb (http_scheme base) || (url_Hostname u ≟ "") || url_User u
         || negb (url_Opaque u ≟ "") || negb (url_Fragment u ≟ "") || negb (url_RawPath u ≟ "")
         || ContainsByte (url_Path u) backslash || negb (http_scheme u)
      then mret None
      else
      match ParseQuery (url_RawQuery u) with
      | None => mret None
      | Some q =>
          match q "expires", q "signature" with
          | [expires], [signature] =>
              if signature ≟ "" then mret None
              else
              match ParseInt64 expires with
              | None => mret None
              | Some expires =>
                  if expires <=? now then mret None
                  else if (url_Scheme u ≟ url_Scheme base) && EqualFold (url_Hostname u) (url_Hostname base)
                          && (url_port u ≟ url_port base)
                  then
                    if (id ≟ "") || ContainsByte id slash || ContainsByte id backslash
                       || ContainsByte id dot || ContainsByte id percent
                       || negb (url_Path u ≟ String.concat "" [TrimRight_slash (url_Path base);
                                                               "/media/tasks/"; id])
                    then mret None else mret (Some expires)
                  else if negb (url_Scheme u ≟ "https") then mret None
                  else
                    v ← translate (@Net) (Validate url_Parse (guard_ports []) raw);
                    mret match v with inl _ => None | inr _ => Some expires end
              end
          | _, _ => mret None
          end
      end
  | _, _ => mret None
  end.
End results.

(** ** The processor *)

(** [Processor]: the parameters of the node; [pr_Prepare] is
    [Inputs.Prepare]. *)
Record Processor := mkProcessor {
  pr_Options : Options;
  pr_NodeID : string;
  pr_NodeVersion : Z;
  pr_NodeURL : option URL;
  pr_Capacity : Z;
  pr_Admission : bool;          (** Admission is not nil *)
  pr_LeaseDuration : Z;
  pr_PollInterval : Z;
  pr_ports : list string;       (** of the guard of the inputs *)
  pr_Root : string
}.

Section processor.
Context (url_Parse : string → option URL) (ParseQuery : string → option (string → list string)).
Context (EqualFold : string → string → bool) (is_local : string → bool).
Context (request_len : Task → Z) (submission_json : string → list GenerationContent → Z → string).
Context (body_model : string → option string).
Context (asset_json : Asset → string) (asset_of_json : string → option Asset).
Context (metadata_json : Metadata → string → option string → string).
(** [now.Format("2006-01-02")] of a time in milliseconds. *)
Context (format_date : Z → string).

Definition prepare (p : Processor) : Task → RemoteRun → Prog RemoteE (prepare_error + string) :=
  Prepare url_Parse (pr_ports p) is_local request_len submission_json asset_json asset_of_json (pr_Root p).

Definition empty_completion (status : string) : RemoteCompletion :=
  mkCompletion status "" 0 "" "" "" "" "" None None.

Definition complete (run : RemoteRun) (c : RemoteCompletion) : Prog RemoteE errors :=
  r ← store (λ e, CompleteRemoteRun e run c);
  mret match r with inl err => [err] | inr _ => [] end.

Definition reloadRun (previous : RemoteRun) : Prog RemoteE (error + RemoteRun) :=
  try! current ← store (reading (λ _, GetRemoteRun (rr_task_id previous)));
  if negb (rr_lease_token current ≟ rr_lease_token previous)
     || negb (rr_node_id current ≟ rr_node_id previous)
  then mret (inl ErrStateConflict) else mret (inr current).

(** What [advance] returns: the error code to keep, whether an operator must
    reconcile, the error. *)
Definition advanced : Type := string * bool * errors.

Definition terminal (p : Processor) (task : Task) (run : RemoteRun) (result : TK2SDTask)
    : Prog RemoteE advanced :=
  let finish c := err ← complete run c; mret ("", false, err) in
  if td_Status result ≟ "succeeded" then
    let base := match pr_NodeURL p with
                | Some u => Some u
                | None => d ← vt_dispatch_snapshot_json task; url_Parse (ds_service_url d)
                end in
    let id := coalesce_str (rr_upstream_task_id run) in
    e ← environment;
    expires ← ValidateResultURL url_Parse ParseQuery EqualFold base id (td_VideoURL result) (nowUnix e);
    match expires with
    | None => mret ("result_invalid", false, [ErrRemotePending])
    | Some expires =>
        meta ← call (GetMetadata id);
        let actual := match meta with inr m => ActualMetadata metadata_json m | inl _ => None end in
        e ← environment;
        finish (mkCompletion "succeeded" (td_VideoURL result) expires
          (match actual with Some (data, _) => data | None => "" end)
          (match actual with Some _ => "ready" | None => "pending" end)
          (match actual with Some (_, ratio) => ratio | None => "" end) "" "" None
          (if vt_delivery_required task
           then Some (vt_task_id task, String.append "result-upload-" (vt_task_id task),
                      String.concat "" ["MiniMax-H3/"; format_date (env_now e); "/";
                                        vt_task_id task; ".mp4"])
           else None))
    end
  else if td_Status result ≟ "failed" then
    finish (mkCompletion "failed" "" 0 "" "" "" "tk2sd_generation_failed" "远程视频生成失败"
      (match td_Error result with
       | Some er => Some (mkFeedback 0 (er_Code er) "" (er_Message er) "" "")
       | None => None
       end) None)
  else finish (empty_completion (td_Status result)).

Definition feedback (err : tk_error) : option UpstreamFeedback :=
  match te_HTTP err with
  | Some h => Some (mkFeedback (he_StatusCode h) (he_Code h) "" (he_Message h) "" "")
  | None => None
  end.
Definition status_is (err : tk_error) (code : Z) : bool :=
  match te_HTTP err with Some h => he_StatusCode h =? code | None => false end.

(** From the first answer of the service on. *)
Definition observe (p : Processor) (task : Task) (run : RemoteRun) (status : string)
    (cancelState : string) : Prog RemoteE advanced :=
  r ← store (λ e, ObserveRemoteTask e run status cancelState);
  mret match r with
       | inl err => ("poll_store_failed", false, [err])
       | inr _ => ("", false, [ErrRemotePending])
       end.

Definition cancel_text (c : CancelState) : string :=
  match c with
  | CancelNone => "none" | CancelRequested => "requested"
  | CancelConfirmed => "confirmed" | CancelRejected => "rejected"
  end.

Definition same_task (task : Task) (run : RemoteRun) (r : TK2SDTask) : bool :=
  (td_ID r ≟ coalesce_str (rr_upstream_task_id run)) && (td_Model r ≟ vt_model (vt_request task)).

(** A task the service still has in its queue, with a cancellation pending. *)
Definition cancel_queued (p : Processor) (task : Task) (run : RemoteRun) : Prog RemoteE advanced :=
  let id := coalesce_str (rr_upstream_task_id run) in
  r ← call (Cancel id);
  match r with
  | inr _ => err ← complete run (empty_completion "cancelled"); mret ("", false, err)
  | inl err =>
      if status_is err 409 then
        confirmed ← call (Query id);
        match confirmed with
        | inr c =>
            if same_task task run c
            then if td_Status c ∈? ["cancelled"; "failed"; "succeeded"] then terminal p task run c
                 else if td_Status c ≟ "running" then observe p task run "running" "rejected"
                 else observe p task run "queued" "requested"
            else observe p task run "queued" "requested"
        | inl _ => observe p task run "queued" "requested"
        end
      else observe p task run "queued" "requested"
  end.

Definition poll (p : Processor) (task : Task) (run : RemoteRun) : Prog RemoteE advanced :=
  let id := coalesce_str (rr_upstream_task_id run) in
  if negb (rr_phase run ≟ RemoteSubmitted) || (id ≟ "")
  then mret ("submission_evidence_invalid", true, [ErrRemoteReconciliation])
  else
  result ← call (Query id);
  match result with
  | inl _ => mret ("poll_unavailable", false, [ErrRemotePending])
  | inr result =>
      if negb (same_task task run result)
      then mret ("poll_identity_mismatch", false, [ErrRemotePending])
      else
      current ← store (reading (λ _, GetRemoteRun (vt_task_id task)));
      match current with
      | inl err => mret ("store_unavailable", false, [err])
      | inr current =>
          if negb (rr_lease_token current ≟ rr_lease_token run)
          then mret ("lease_lost", false, [ErrStateConflict])
          else
          let run := current in
          if td_Status result ∈? ["queued"; "running"] then
            if rr_cancel_state run ≟ CancelRequested
            then if td_Status result ≟ "running" then observe p task run "running" "rejected"
                 else cancel_queued p task run
            else observe p task run (td_Status result) (cancel_text (rr_cancel_state run))
          else if td_Status result ∈? ["succeeded"; "failed"; "cancelled"]
          then terminal p task run result
          else mret ("poll_status_invalid", false, [ErrRemotePending])
      end
  end.

Definition submit (p : Processor) (task : Task) (run : RemoteRun) : Prog RemoteE advanced :=
  e ← environment;
  let body := coalesce_str (rr_request_body_json run) in
  if (body ≟ "") || negb (env_sha256_hex e body ≟ coalesce_str (rr_request_body_hash run))
     || negb (body_model body ≟ Some (vt_model (vt_request task)))
  then mret ("submission_evidence_invalid", true, [ErrRemoteReconciliation])
  else
  begun ← store (λ e, BeginRemoteSubmission e run);
  match begun with
  | inl err => mret ("submit_intent_conflict", false, [err])
  | inr _ =>
      r ← call (Submit (vt_task_id task) (pr_NodeID p) body (rr_submission_key run));
      match r with
      | inl err =>
          if status_is err 409 then mret ("submit_conflict", true, [ErrRemoteReconciliation])
          else if rejected err then
            if 0 <? rr_submit_attempts run
            then mret ("replay_rejected", true, [ErrRemoteReconciliation])
            else
              err' ← complete run (mkCompletion "failed" "" 0 "" "" "" "tk2sd_submit_rejected"
                "远程服务拒绝生成请求" (feedback err) None);
              mret ("submit_rejected", false, err')
          else mret ("submit_unknown", false, [ErrRemotePending])
      | inr id =>
          if id ≟ "" then mret ("submit_invalid_response", false, [ErrRemotePending])
          else
          bound ← store (λ e, BindRemoteTask e run id);
          match bound with
          | inl err => mret ("submit_bind_failed", false, [err])
          | inr _ =>
              r ← reloadRun run;
              match r with
              | inl err => mret ("store_unavailable", false, [err])
              | inr run => poll p task run
              end
          end
      end
  end.

(** The rest of [advance] once the request is prepared. *)
Definition advance_prepared (p : Processor) (task : Task) (run : RemoteRun) : Prog RemoteE advanced :=
  if rr_phase run ∈? [RemotePrepared; RemoteSubmitIntent] then submit p task run
  else poll p task run.

Definition advance (p : Processor) (task : Task) (run : RemoteRun) : Prog RemoteE advanced :=
  if rr_reconciliation_required run
  then mret ("reconciliation_required", true, [ErrRemoteReconciliation])
  else if (rr_cancel_state run ≟ CancelRequested) && (rr_phase run ∈? [RemotePreparing; RemotePrepared])
  then err ← complete run (empty_completion "cancelled"); mret ("", false, err)
  else if rr_phase run ≟ RemotePreparing then
    body ← prepare p task run;
    match body with
    | inl err =>
        let detail := input_detail err in
        if ie_invalid detail || ie_rejected detail
        then err' ← complete run (mkCompletion "failed" "" 0 "" "" "" (ie_Code detail)
               (error_text detail) None None);
             mret (ie_Code detail, false, err')
        else mret (ie_Code detail, false, [ErrRemotePending])
    | inr body =>
        prepared ← store (λ e, PrepareRemoteRequest e run body);
        match prepared with
        | inl err => mret ("prepare_conflict", false, [err])
        | inr _ =>
            r ← reloadRun run;
            match r with
            | inl err => mret ("store_unavailable", false, [err])
            | inr run => advance_prepared p task run
            end
        end
    end
  else advance_prepared p task run.

Definition lease_ttl (p : Processor) : Z :=
  if pr_LeaseDuration p <=? 0 then 60 * Second else pr_LeaseDuration p.

(** [p.now().Add(interval).Unix()], from a clock in milliseconds. *)
Definition unix_after (e : Env) (d : Z) : Z := (env_now e * Millisecond + d) / Second.

Definition ProcessTask (p : Processor) (task : Task) : Prog RemoteE errors :=
  if (vt_task_id task ≟ "") || negb (coalesce_str (vt_upstream_id task) ≟ pr_NodeID p)
     || negb (vt_protocol_version task ≟ Some ProtocolTK2SD)
  then mret [ErrStateConflict]
  else
  e ← environment;
  run ← store (λ e', AcquireRemoteLease e' (vt_task_id task) (pr_NodeID p) (env_uuid e 0) (lease_ttl p));
  match run with
  | inl err => mret [err]
  | inr run =>
      r ← advance p task run;
      let '(code, reconcile, err) := r in
      e ← environment;
      let interval := if pr_PollInterval p <? Second then Second else pr_PollInterval p in
      released ← store (λ e', ReleaseRemoteLease e' run (unix_after e interval) code reconcile);
      mret match released with
           | inl ErrStateConflict | inr _ => err
           | inl releaseErr => err ++ [releaseErr]
           end
  end.

(** The goroutine that keeps the lease while a pass runs: [n] ticks before the
    pass ends or a renewal fails. *)
Fixpoint heartbeat (n : nat) (p : Processor) (run : RemoteRun) : Prog RemoteE unit :=
  match n with
  | O => mret tt
  | S n =>
      r ← store (λ e, RenewRemoteLease e run (lease_ttl p));
      match r with inl _ => mret tt | inr _ => heartbeat n p run end
  end.

Definition ProcessOne (p : Processor) : Prog RemoteE errors :=
  let claim admission :=
    task ← store (λ e, ClaimNextRemote e (pr_Options p) (pr_NodeID p) (pr_NodeVersion p)
                         (pr_Capacity p) admission);
    match task with inl err => mret [err] | inr task => ProcessTask p task end in
  if pr_Admission p then
    current ← call Admission;
    match current with None => mret [ErrUpstreamBusy] | Some a => claim [a] end
  else claim [].

(** One step for every active task of the node. *)
Fixpoint resume_tasks (p : Processor) (tasks : list Task) (result : errors) : Prog RemoteE errors :=
  match tasks with
  | [] => mret result
  | task :: tasks =>
      stop ← stopped;
      if stop : bool then mret (result ++ [ErrContext])
      else
      err ← ProcessTask p task;
      resume_tasks p tasks
        (if bool_decide (err = []) || (ErrRemotePending ∈? err) || (ErrStateConflict ∈? err)
         then result else result ++ err)
  end.
Definition Resume (p : Processor) : Prog RemoteE errors :=
  tasks ← store (reading (λ e db, inr (ListActiveRemoteTasks e (pr_NodeID p) db)));
  match tasks with inl err => mret [err] | inr tasks => resume_tasks p tasks [] end.

Definition RequestCancel (taskID : string) : Prog RemoteE (error + unit) :=
  store (λ e, RequestRemoteCancel e taskID).
End processor.
