(* ===== verification/ResultAccess.v ===== *)
(** * Results of TK2SD tasks on demand (internal/remote/result_access.go)

    A result URL of a TK2SD node expires; when a client asks for a finished task,
    [Refresh] asks the node again for a URL and the metadata that are missing or
    about to expire, keeps them, and hands out the task with a URL or fails.  Two
    requests for the same task share one refresh and at most four run at a time;
    the model has each on its own. *)

From stdpp Require Import relations.
From S2P Require Import Prelude Domain Tx Database Sql Workers GoStrings GoFloat GoNet Netguard Catalog Paging TaskRouting Callbacks Queue Stages Artifacts Remote Tasks Official Delivery Nodes Normalize Router InputSpool RemoteInputs Lifecycle RemoteWorker.

(** A slot, unless the context ends first; the client of a node with its base URL;
    a download by it; the other calls of the client and of the guard. *)
Inductive AccessE : Type → Type :=
  | TakeSlot : AccessE bool
  | ResolveClient (nodeID : string) : AccessE (option (option URL))
  | DownloadResult (nodeID upstreamTaskID destination : string) (maxBytes : Z) : AccessE (tk_error + Z)
  | OnRemote {X} (c : RemoteE X) : AccessE X.

(** The task, and the error if there is one. *)
Definition refreshed : Type := Task * option error.

Definition publicResult (t : Task) : Task :=
  if vt_delivery_required t then t else t <| vt_result_public_url := vt_latest_result_url t |>.
Definition fallbackResult (t : Task) (now : Z) : refreshed :=
  if vt_delivery_required t && negb (coalesce_str (vt_result_public_url t) ≟ "") then (t, None)
  else if negb (coalesce_str (vt_latest_result_url t) ≟ "")
          && (now <? coalesce_int (vt_latest_result_expires_at t))
  then (publicResult t, None)
  else (t <| vt_result_public_url := None |>, Some ErrResultRefreshUnavailable).

Definition metadata_ready (t : Task) : bool := vt_metadata_status t ≟ "ready".
(** The URL is good for five more minutes. *)
Definition lasting_url (now : Z) (t : Task) : bool :=
  negb (coalesce_str (vt_latest_result_url t) ≟ "")
  && (now + 300 <? coalesce_int (vt_latest_result_expires_at t)).

(** A run that tells what its node made of the task. *)
Definition run_succeeded (run : RemoteRun) (task : Task) : bool :=
  (rr_node_id run ≟ coalesce_str (vt_upstream_id task))
  && negb (coalesce_str (rr_upstream_task_id run) ≟ "")
  && (rr_upstream_status run ≟ Some UpSucceeded).

Section access.
Context (url_Parse : string → option URL) (ParseQuery : string → option (string → list string)).
Context (EqualFold : string → string → bool).
Context (metadata_json : Metadata → string → option string → string).
#[local] Abbreviation P := (Prog AccessE).

Definition remote {A} (m : Prog RemoteE A) : P A := translate (@OnRemote) m.

(** The URL the node gives, with its expiry. *)
Definition new_url (base : option URL) (task : Task) (id : string) (now : Z) : P (option (string * Z)) :=
  result ← remote (call (Query id));
  match result with
  | inl _ => mret None
  | inr result =>
      if (td_ID result ≟ id) && (td_Model result ≟ vt_model (vt_request task)) && (td_Status result ≟ "succeeded")
      then
        expires ← remote (ValidateResultURL url_Parse ParseQuery EqualFold base id (td_VideoURL result) now);
        mret ((λ x, (td_VideoURL result, x)) <$> expires)
      else mret None
  end.
Definition new_metadata (id : string) : P (option string) :=
  meta ← remote (call (GetMetadata id));
  mret match meta with
       | inl _ => None
       | inr meta => fst <$> ActualMetadata metadata_json meta
       end.

Definition with_update (u : RemoteResultUpdate) (needsMeta : bool) (t : Task) : Task :=
  let t := if ru_URL u ≟ "" then t
           else t <| vt_latest_result_url := Some (ru_URL u) |>
                  <| vt_latest_result_expires_at := Some (ru_ExpiresAt u) |> in
  if (ru_MetadataStatus u ≟ "ready") && needsMeta
  then t <| vt_result_metadata_json := Some (ru_MetadataJSON u) |> <| vt_metadata_status := "ready" |>
  else t.

Definition refresh_from (task : Task) (run : RemoteRun) (base : option URL) (now : Z)
    (needsURL needsMeta : bool) : P refreshed :=
  let id := coalesce_str (rr_upstream_task_id run) in
  url ← (if needsURL then new_url base task id now else mret None);
  meta ← (if needsMeta then new_metadata id else mret None);
  let status := if vt_metadata_status task ∈? [""; "none"] then "pending" else vt_metadata_status task in
  let u := mkResultUpdate (match url with Some (u, _) => u | None => "" end)
             (match url with Some (_, x) => x | None => 0 end) (default "" meta)
             (match meta with Some _ => "ready" | None => status end) in
  if negb (ru_URL u ≟ "") || ((ru_MetadataStatus u ≟ "ready") && needsMeta)
  then
    r ← store (λ e, UpdateRemoteResult e (vt_task_id task) (rr_node_id run) u);
    match r with
    | inl err => mret (task, Some err)
    | inr _ => e ← environment; mret (fallbackResult (with_update u needsMeta task) (nowUnix e))
    end
  else e ← environment; mret (fallbackResult task (nowUnix e)).

(** [task] is what the caller read; the store decides on the task it has now. *)
Definition refresh (task : Task) : P refreshed :=
  fresh ← store (reading (λ _, GetTaskForExecution (vt_task_id task)));
  match fresh with
  | inl err => mret (task, Some err)
  | inr fresh =>
      if negb (is_null (vt_deleted_at fresh)) || negb (vt_owner fresh ≟ vt_owner task)
         || negb (coalesce_str (vt_protocol_version fresh) ≟ ProtocolTK2SD)
         || negb (vt_status fresh ≟ StatusSucceeded)
      then mret (task, Some ErrTaskNotFound)
      else
      e ← environment;
      let now := nowUnix e in
      let needsURL := negb (vt_delivery_required fresh) && negb (lasting_url now fresh) in
      let needsMeta := negb (metadata_ready fresh) in
      if negb needsURL && negb needsMeta then mret (publicResult fresh, None)
      else
      run ← store (reading (λ _, GetRemoteRun (vt_task_id fresh)));
      match run with
      | inl _ => mret (fallbackResult fresh now)
      | inr run =>
          if negb (run_succeeded run fresh) then mret (fallbackResult fresh now)
          else
          client ← call (ResolveClient (rr_node_id run));
          match client with
          | None => mret (fallbackResult fresh now)
          | Some base => refresh_from fresh run base now needsURL needsMeta
          end
      end
  end.

Definition Refresh (task : Task) : P refreshed :=
  if negb (coalesce_str (vt_protocol_version task) ≟ ProtocolTK2SD)
     || negb (vt_status task ≟ StatusSucceeded)
  then mret (task, None)
  else if vt_delivery_required task && negb (coalesce_str (vt_result_public_url task) ≟ "")
          && metadata_ready task
  then mret (task, None)
  else
  e ← environment;
  if lasting_url (nowUnix e) task && metadata_ready task then mret (publicResult task, None)
  else
  slot ← call TakeSlot;
  if negb slot then mret (task, Some ErrContext) else refresh task.

(** The result into a file, for a task that has been deleted by nobody. *)
Definition Download (task : Task) (destination : string) (maxBytes : Z) : P (error + (tk_error + Z)) :=
  try! fresh ← store (reading (λ _, GetTaskForExecution (vt_task_id task)));
  if negb (is_null (vt_deleted_at fresh)) || negb (vt_owner fresh ≟ vt_owner task)
     || negb (coalesce_str (vt_protocol_version fresh) ≟ ProtocolTK2SD)
  then mret (inl ErrTaskNotFound)
  else
  try! run ← store (reading (λ _, GetRemoteRun (vt_task_id task)));
  if negb (run_succeeded run fresh) || negb (rr_phase run ≟ RemoteTerminal) then mret (inl ErrStateConflict)
  else
  client ← call (ResolveClient (rr_node_id run));
  match client with
  | None => mret (inl (ErrText "resolve"))
  | Some _ =>
      let limit := if (maxBytes <=? 0) || (2 ^ 31 <? maxBytes) then 2 ^ 31 else maxBytes in
      size ← call (DownloadResult (rr_node_id run) (coalesce_str (rr_upstream_task_id run)) destination limit);
      mret (inr size)
  end.
End access.

(** ** What is handed out *)

(** A task whose result the proxy stores itself, or one with the URL of its node
    that is good after [now]. *)
Definition handed_out (now : Z) (t : Task) : Prop :=
  vt_delivery_required t = true ∨
  ∃ u, u ≠ "" ∧ vt_result_public_url t = Some u ∧ vt_latest_result_url t = Some u ∧
    now < coalesce_int (vt_latest_result_expires_at t).

Lemma publicResult_handed_out now t :
  coalesce_str (vt_latest_result_url t) ≠ "" → now < coalesce_int (vt_latest_result_expires_at t) →
  handed_out now (publicResult t).
Proof.
  intros Hu Hx. unfold publicResult. destruct (vt_delivery_required t) eqn:Ed; [by left|right].
  destruct (vt_latest_result_url t) as [u|] eqn:Eu; [|done]. exists u. by split_and!.
Qed.

Lemma fallbackResult_handed_out n now t :
  n ≤ now → (fallbackResult t now).2 = None → handed_out n (fallbackResult t now).1.
Proof.
  intros Hn. unfold fallbackResult. destruct (vt_delivery_required t && _) eqn:Ed.
  - intros _. left. by apply andb_true_iff in Ed as [? _].
  - case_match eqn:Eu; [|done]. intros _. apply andb_true_iff in Eu as [Hu Hx].
    apply publicResult_handed_out; [by apply negb_true_iff, bool_decide_eq_false in Hu|lia].
Qed.

Lemma lasting_url_handed_out n now t : n ≤ now → lasting_url now t = true → handed_out n (publicResult t).
Proof.
  unfold lasting_url. intros Hn [Hu Hx]%andb_true_iff.
  apply publicResult_handed_out; [by apply negb_true_iff, bool_decide_eq_false in Hu|lia].
Qed.

Section fresh.
Context (url_Parse : string → option URL) (ParseQuery : string → option (string → list string)).
Context (EqualFold : string → string → bool).
Context (metadata_json : Metadata → string → option string → string).
Context (n : Z).

(** The clock is never before [n]; anybody may do anything to the store. *)
#[local] Abbreviation wp := (wp (λ e, n ≤ nowUnix e) (λ _ _ : DB, True) (λ _ (_ : AccessE _) _, True)).
#[local] Abbreviation good := (λ (r : refreshed) (_ : DB), r.2 = None → handed_out n r.1).

Lemma wp_any {A} (p : Prog AccessE A) (Q : A → DB → Prop) db : (∀ a db', Q a db') → wp p Q db.
Proof.
  intros HQ. revert db. induction p as [a|k IH|k IH|X op k IH|X c k IH]; simpl; intros db; auto.
  intros db1 _. split; [auto|]. intros e _. split; [by apply rtc_once|auto].
Qed.
Lemma wp_now {A} (k : Env → Prog AccessE A) Q db :
  (∀ e, n ≤ nowUnix e → wp (k e) Q db) → wp (e ← environment; k e) Q db.
Proof. done. Qed.
Lemma wp_then {A B} (p : Prog AccessE A) (k : A → Prog AccessE B) Q db :
  (∀ a db', wp (k a) Q db') → wp (p ≫= k) Q db.
Proof. intros H. apply wp_bind, wp_any. auto. Qed.
Lemma wp_answer r db : (r.2 = None → handed_out n r.1) → wp (mret r : Prog AccessE refreshed) good db.
Proof. intros H db1 _. exact H. Qed.

Lemma wp_refresh_from task run base now needsURL needsMeta db :
  wp (refresh_from url_Parse ParseQuery EqualFold metadata_json task run base now needsURL needsMeta) good db.
Proof.
  unfold refresh_from. cbv zeta. apply wp_then. intros url db1. apply wp_then. intros meta db2.
  destruct (_ || _).
  - apply wp_then. intros [err|u] db3; [by apply wp_answer|].
    apply wp_now. intros e He. apply wp_answer. by apply fallbackResult_handed_out.
  - apply wp_now. intros e He. apply wp_answer. by apply fallbackResult_handed_out.
Qed.

(** C25: a result that is asked for is one that can be fetched.  Whatever the node
    answers and whatever happens to the store meanwhile, when [Refresh] gives a
    finished task of the TK2SD protocol without an error, the proxy stores its
    result itself, or the task carries a URL of its node that had not expired. *)
Theorem Refresh_fresh task db :
  coalesce_str (vt_protocol_version task) = ProtocolTK2SD → vt_status task = StatusSucceeded →
  wp (Refresh url_Parse ParseQuery EqualFold metadata_json task) good db.
Proof.
  intros Hp Hs. unfold Refresh. rewrite Hp, Hs, !bool_decide_eq_true_2 by done. simpl orb. cbv iota.
  destruct (vt_delivery_required task && _ && _) eqn:Ed.
  { apply wp_answer. intros _. left. apply andb_true_iff in Ed as [[? _]%andb_true_iff _]. done. }
  apply wp_now. intros e He. destruct (lasting_url _ task && _) eqn:El.
  { apply wp_answer. intros _. apply andb_true_iff in El as [El _]. by eapply lasting_url_handed_out. }
  apply wp_then. intros [] db1; [|by apply wp_answer]. simpl negb. cbv iota.
  unfold refresh. apply wp_then. intros [err|fresh] db2; [by apply wp_answer|].
  destruct (_ || _); [by apply wp_answer|]. apply wp_now. intros e2 He2. cbv zeta.
  destruct (negb (negb (vt_delivery_required fresh) && _) && _) eqn:En.
  { apply wp_answer. intros _. apply andb_true_iff in En as [En _]. apply negb_true_iff, andb_false_iff in En as [En|En].
    - left. unfold publicResult. apply negb_false_iff in En. by rewrite En.
    - apply negb_false_iff in En. by eapply lasting_url_handed_out. }
  apply wp_then. intros [err|run] db3; [apply wp_answer; by apply fallbackResult_handed_out|].
  destruct (run_succeeded run fresh); simpl negb; cbv iota; [|apply wp_answer; by apply fallbackResult_handed_out].
  apply wp_then. intros [base|] db4; [apply wp_refresh_from|apply wp_answer; by apply fallbackResult_handed_out].
Qed.
End fresh.
