(* ===== verification/InputObjects.v ===== *)
(** * Inputs in the object storage (internal/inputobject/preparer.go)

    When the object storage is configured for it, the media that a request carries
    as data URIs are uploaded before the task is created, under a key derived from
    the owner and the request, and the request is rewritten to their URLs. *)

From S2P Require Import Prelude Domain Tx Database Sql Workers GoStrings GoNet Catalog Paging TaskRouting Callbacks Queue Normalize InputSpool Settings.

Inductive prepare_error :=
  | ErrNotReady
  | ErrUploadFailed
  | PrepareOther.

Record PreparedObjects := mkPreparedObjects {
  po_JSON : json_text GenerationRequest;
  po_Enabled : bool;
  po_Files : list InputSpoolFile
}.

(** The client of a configuration, with its keys opened, and one upload: payload,
    key and media type, and the public URL it is then served from. *)
Inductive ObjectE : Type → Type :=
  | NewObjectStore (config : ObjectStorageConfig) (publicKey privateKey : string) : ObjectE bool
  | UploadObject (payload key mediaType : string) : ObjectE (option string).

(** An element that is to be uploaded. *)
Definition is_data_uri (c : GenerationContent) : bool :=
  (gc_Type c ∈? media_types) && HasPrefix (ToLower (default "" (Media c))) "data:".

Definition object_key (namespace : string) (index : Z) (d : DecodedDataURI) : string :=
  String.concat "" ["MiniMax-H3/inputs/"; namespace; "/"; Itoa index; "-";
                    String.substring 0 16 (dd_SHA256 d); dd_Extension d].

(** [p.secrets] and [p.factory] are set as [ready] says. *)
Section prepare.
Context (ready : bool) (Open_secret : string → string → option string).

(** The loop over the content; the identifiers of the files are set later. *)
Fixpoint upload_content (namespace : string) (index : Z) (cs : list GenerationContent)
    : Prog ObjectE (prepare_error + (list GenerationContent * list InputSpoolFile)) :=
  match cs with
  | [] => mret (inr ([], []))
  | c :: cs =>
      stop ← stopped;
      if stop : bool then mret (inl PrepareOther)
      else if negb (is_data_uri c)
      then try! rest ← upload_content namespace (index + 1) cs; mret (inr (c :: rest.1, rest.2))
      else
      e ← environment;
      match DecodeDataURI e (gc_Type c) (default "" (Media c)) with
      | inl _ => mret (inl PrepareOther)
      | inr d =>
          let key := object_key namespace index d in
          url ← call (UploadObject (dd_Payload d) key (dd_MediaType d));
          match url with
          | None => mret (inl ErrUploadFailed)
          | Some url =>
              try! rest ← upload_content namespace (index + 1) cs;
              mret (inr (set_media c url :: rest.1,
                mkSpoolFile "" "" index (gc_Type c) (roleOf c) "data_uri" (dd_DeclaredMIME d)
                  (dd_DetectedMIME d) (dd_MediaType d) (dd_Extension d) key url (len (dd_Payload d))
                  (dd_SHA256 d) 0 0 :: rest.2))
          end
      end
  end.

Definition Prepare_objects (namespace : string) (request : json_text GenerationRequest)
    : Prog ObjectE (prepare_error + PreparedObjects) :=
  config ← store (reading (λ _, GetObjectStorageConfig));
  let unchanged enabled := mret (inr (mkPreparedObjects request enabled [])) in
  if match config with
     | inl err => bool_decide (err = ErrObjectStorageNotFound)
     | inr config => negb (os_UploadBase64Inputs config)
     end
  then unchanged false
  else
  match unmarshal request with
  | None => mret (inl PrepareOther)
  | Some r =>
      if negb (existsb is_data_uri (gr_Content r)) then unchanged true
      else
      match config with
      | inl _ => mret (inl ErrNotReady)
      | inr config =>
          if negb (os_LastTestStatus config ≟ "passed") || negb ready then mret (inl ErrNotReady)
          else
          match Open_secret (os_PublicKeyNonce config) (os_PublicKeyCiphertext config),
                Open_secret (os_PrivateKeyNonce config) (os_PrivateKeyCiphertext config) with
          | Some publicKey, Some privateKey =>
              client ← call (NewObjectStore config publicKey privateKey);
              if negb client then mret (inl ErrNotReady)
              else
              try! content ← upload_content namespace 0 (gr_Content r);
              mret (inr (mkPreparedObjects (JsonOf (r <| gr_Content := content.1 |>)) true content.2))
          | _, _ => mret (inl ErrNotReady)
          end
      end
  end.
End prepare.
