(* ===== verification/Reachable.v ===== *)
(** * Reachable databases

    A database is reachable when some history of operations leads to it from
    the empty one.  Every reachable database satisfies the constraints of the
    schema, hands out queue positions in order and has a positive routing
    revision: the hypotheses the theorems of the components make about the
    database hold wherever the store can get. *)

From stdpp Require Import relations.
From S2P Require Import Prelude Domain Tx Database Sql GoStrings Catalog Paging TaskRouting Callbacks Queue Stages Artifacts Remote Tasks Official Delivery Nodes Normalize Router Settings Cleanup Lifecycle.

(** ** Well-formed databases *)

Record schema_valid (db : DB) : Prop := {
  sv_tasks : tbl_valid (db_video_tasks db) = true;
  sv_keys : tbl_valid (db_idempotency_keys db) = true;
  sv_callbacks : tbl_valid (db_callback_deliveries db) = true;
  sv_stages : tbl_valid (db_task_stages db) = true;
  sv_attempts : tbl_valid (db_stage_attempts db) = true;
  sv_barriers : tbl_valid (db_barriers db) = true;
  sv_runs : tbl_valid (db_remote_runs db) = true;
  sv_assets : tbl_valid (db_node_assets db) = true;
  sv_uploads : tbl_valid (db_upload_jobs db) = true;
  sv_nodes : tbl_valid (db_nodes db) = true;
  sv_catalogs : tbl_valid (db_catalogs db) = true;
  sv_models : tbl_valid (db_node_models db) = true;
  sv_routes : tbl_valid (db_routes db) = true;
  sv_spool : tbl_valid (db_spool_files db) = true;
  sv_artifacts : tbl_valid (db_artifacts db) = true;
  sv_locations : tbl_valid (db_locations db) = true;
  sv_jobs : tbl_valid (db_deletion_jobs db) = true;
  sv_items : tbl_valid (db_deletion_items db) = true;
  sv_object_storage : tbl_valid (db_object_storage db) = true;
  sv_api_keys : tbl_valid (db_api_keys db) = true;
  sv_profiles : tbl_valid (db_profiles db) = true
}.

(** Positions are positive and were handed out by the sequence. *)
Definition seq_bounded (db : DB) : Prop :=
  0 ≤ db_task_seq db ∧
  ∀ t, t ∈ db_video_tasks db → 0 < vt_queue_seq t ≤ db_task_seq db.

Definition wf (db : DB) : Prop :=
  schema_valid db ∧ seq_bounded db ∧ 1 ≤ db_routing_revision db.

Definition keeps_wf (db db' : DB) : Prop := wf db → wf db'.
#[export] Instance keeps_wf_preorder : PreOrder keeps_wf.
Proof. unfold keeps_wf. split; [by intros ??|intros db1 db2 db3; auto]. Qed.

(** ** Removing rows breaks no constraint *)

Lemma distinct_sublist {A B} `{EqDecision B} (key : A → B) l l' :
  sublist l' l → distinct key l = true → distinct key l' = true.
Proof.
  intros Hs. rewrite !distinct_NoDup. intros Hnd. eapply sublist_NoDup; [exact Hnd|].
  clear Hnd. induction Hs; simpl; by constructor.
Qed.

Lemma distinct_opt_sublist {A B} `{EqDecision B} (key : A → option B) l l' :
  sublist l' l → distinct_opt key l = true → distinct_opt key l' = true.
Proof.
  intros Hs. unfold distinct_opt. rewrite !bool_decide_eq_true. intros Hnd.
  eapply sublist_NoDup; [exact Hnd|]. clear Hnd.
  induction Hs as [|x l1 l2 _ IH|x l1 l2 _ IH]; csimpl; [constructor|..];
    destruct (key x); by try constructor.
Qed.

Lemma forallb_sublist {A} (p : A → bool) l l' :
  sublist l' l → forallb p l = true → forallb p l' = true.
Proof.
  intros Hs. rewrite !forallb_forall. intros H x Hx%list_elem_of_In.
  apply H, list_elem_of_In. by eapply sublist_subseteq.
Qed.

Lemma delete_where_sublist {A} (p : A → bool) l : sublist (delete_where p l) l.
Proof.
  unfold delete_where. induction l as [|x l IH]; simpl; [done|].
  destruct (negb (p x)); by constructor.
Qed.

Lemma delete_first_sublist {A} (p : A → bool) n l : sublist (delete_first p n l) l.
Proof.
  revert n. induction l as [|x l IH]; intros [|n]; simpl; try done.
  destruct (p x); constructor; apply IH.
Qed.

(** ** Tables of a well-formed database

    What the invariant needs of a table: writing rows its constraints admit
    keeps the database well formed, and so does dropping rows. *)
Class TableWf (R : Type) `{Table R} := {
  wf_tbl : ∀ db, wf db → tbl_valid (tbl db) = true;
  wf_set_tbl : ∀ l db, wf db → tbl_valid l = true → wf (set_tbl l db);
  tbl_valid_sublist : ∀ l l', sublist l' l → tbl_valid l = true → tbl_valid l' = true
}.

Ltac sublist_valid :=
  let l := fresh in let l' := fresh in let Hs := fresh in
  intros l l' Hs; cbn; rewrite ?andb_true_iff; intros; destruct_and?;
  split_and?;
  first [by eapply distinct_sublist | by eapply distinct_opt_sublist | by eapply forallb_sublist].
Ltac table_wf :=
  split;
  [ by intros ? [[] _]
  | intros ? ? [[] ?] ?; split; [by constructor|done]
  | sublist_valid ].

#[export] Instance keys_wf : TableWf IdempotencyKey. Proof. table_wf. Qed.
#[export] Instance callbacks_wf : TableWf CallbackDelivery. Proof. table_wf. Qed.
#[export] Instance stages_wf : TableWf TaskStage. Proof. table_wf. Qed.
#[export] Instance attempts_wf : TableWf StageAttempt. Proof. table_wf. Qed.
#[export] Instance barriers_wf : TableWf NodeDispatchBarrier. Proof. table_wf. Qed.
#[export] Instance runs_wf : TableWf RemoteRun. Proof. table_wf. Qed.
#[export] Instance assets_wf : TableWf NodeAsset. Proof. table_wf. Qed.
#[export] Instance uploads_wf : TableWf ResultUploadJob. Proof. table_wf. Qed.
#[export] Instance nodes_wf : TableWf ModelServiceNode. Proof. table_wf. Qed.
#[export] Instance catalogs_wf : TableWf NodeModelCatalog. Proof. table_wf. Qed.
#[export] Instance models_wf : TableWf NodeModelRow. Proof. table_wf. Qed.
#[export] Instance routes_wf : TableWf ModelRouteRow. Proof. table_wf. Qed.
#[export] Instance spool_wf : TableWf InputSpoolFile. Proof. table_wf. Qed.
#[export] Instance artifacts_wf : TableWf TaskArtifact. Proof. table_wf. Qed.
#[export] Instance locations_wf : TableWf ArtifactLocation. Proof. table_wf. Qed.
#[export] Instance jobs_wf : TableWf DeletionJob. Proof. table_wf. Qed.
#[export] Instance items_wf : TableWf DeletionItem. Proof. table_wf. Qed.
#[export] Instance object_storage_wf : TableWf ObjectStorageConfig. Proof. table_wf. Qed.
#[export] Instance api_keys_wf : TableWf ExternalAPIKey. Proof. table_wf. Qed.
#[export] Instance profiles_wf : TableWf RequestProfile. Proof. table_wf. Qed.

Section table_wf.
Context {R : Type} `{TableWf R}.

Lemma wf_update (p : R → bool) f : tx_rel keeps_wf (exec_update p f).
Proof. apply tx_rel_update_checked; [apply _|]. intros db _ Hv Hwf. by apply wf_set_tbl. Qed.

Lemma wf_insert (r : R) : tx_rel keeps_wf (exec_insert r).
Proof. apply tx_rel_insert_checked; [apply _|]. intros db Hv Hwf. by apply wf_set_tbl. Qed.

Lemma wf_delete (p : R → bool) : tx_rel keeps_wf (exec_delete p).
Proof.
  apply tx_rel_exec_delete. intros db Hwf. apply wf_set_tbl; [done|].
  eapply tbl_valid_sublist; [apply delete_where_sublist|by apply wf_tbl].
Qed.
End table_wf.

(** The queue is the one table with an invariant beyond its constraints. *)
Lemma wf_set_tasks ts db :
  wf db → tbl_valid ts = true →
  (∀ t, t ∈ ts → ∃ u, u ∈ db_video_tasks db ∧ vt_queue_seq t = vt_queue_seq u) →
  wf (db <| db_video_tasks := ts |>).
Proof.
  intros ([] & [H0 Hs] & Hr) Hv Hts. split_and!; [by constructor| |done].
  split; [done|]. intros t (u & Hu & ->)%Hts. by apply Hs.
Qed.

Lemma wf_update_tasks p f : keeps_task f → tx_rel keeps_wf (exec_update (R:=Task) p f).
Proof.
  intros Hf. apply tx_rel_update_checked; [apply _|]. intros db _ Hv Hwf.
  apply wf_set_tasks; [done..|]. intros t (u & Hu & ->)%elem_of_update_where.
  exists u. split; [done|]. destruct (p u); [apply (Hf u)|done].
Qed.

Lemma tasks_valid_sublist (l l' : list Task) :
  sublist l' l → tbl_valid l = true → tbl_valid l' = true.
Proof. revert l l'. sublist_valid. Qed.

Lemma wf_delete_tasks p : tx_rel keeps_wf (exec_delete (R:=Task) p).
Proof.
  apply tx_rel_exec_delete. intros db Hwf. pose proof Hwf as [[] _].
  apply wf_set_tasks; [done| |].
  - eapply tasks_valid_sublist; [apply delete_where_sublist|done].
  - intros t [_ Ht]%elem_of_delete_where. eauto.
Qed.

Lemma next_queue_seq_above db : db_task_seq db < next_queue_seq db.
Proof.
  unfold next_queue_seq. induction (db_video_tasks db) as [|u ts IH]; simpl; lia.
Qed.

(** The row and the new value of the sequence are written together. *)
Lemma insert_task_wf o inp now : tx_rel keeps_wf (insert_task o inp now).
Proof.
  intros db. unfold insert_task, mbind, tx_bind, ask, modify.
  destruct (exec_insert _ db) as [[] db'|err db'] eqn:E.
  - apply exec_insert_Done in E as [-> Hv]. intros ([] & [H0 Hs] & Hr).
    pose proof (next_queue_seq_above db) as Hn.
    split_and!; [by constructor| |done]. split; simpl; [lia|].
    intros t Ht. apply elem_of_app in Ht as [Ht|Ht]; [specialize (Hs t Ht); lia|].
    apply list_elem_of_singleton in Ht as ->. simpl. lia.
  - unfold exec_insert in E. destruct (tbl_valid _); [done|]. by injection E as _ <-.
Qed.

Lemma bumpRouting_wf : tx_rel keeps_wf bumpRouting.
Proof. apply tx_rel_modify. intros db ([] & Hs & Hr). split_and!; [by constructor|done|simpl; lia]. Qed.

Lemma bootstrap_wf n :
  tx_rel keeps_wf (modify (λ db, db <| db_api_key_bootstrap := n |>) : Tx unit).
Proof. apply tx_rel_modify. intros db ([] & Hs & Hr). split_and!; [by constructor|done|done]. Qed.

Lemma node_bootstrap_wf n :
  tx_rel keeps_wf (modify (λ db, db <| db_node_bootstrap := n |>) : Tx unit).
Proof. apply tx_rel_modify. intros db ([] & Hs & Hr). split_and!; [by constructor|done|done]. Qed.

(** ** Along the operations *)

Ltac wf_stmt :=
  match goal with
  | |- tx_rel _ (@exec_update Task _ _ _) => apply wf_update_tasks; keeps
  | |- tx_rel _ (@exec_delete Task _ _) => apply wf_delete_tasks
  | |- tx_rel _ (insert_task _ _ _) => apply insert_task_wf
  | |- tx_rel _ bumpRouting => apply bumpRouting_wf
  | |- tx_rel _ (modify (λ db, db <| db_routing_revision := _ |>)) => apply bumpRouting_wf
  | |- tx_rel _ (modify (λ db, db <| db_api_key_bootstrap := _ |>)) => apply bootstrap_wf
  | |- tx_rel _ (modify (λ db, db <| db_node_bootstrap := _ |>)) => apply node_bootstrap_wf
  | |- tx_rel _ (exec_update _ _) => apply wf_update
  | |- tx_rel _ (exec_insert _) => apply wf_insert
  | |- tx_rel _ (exec_delete _) => apply wf_delete
  | _ => tx_stmt
  end.
Ltac wf_op :=
  repeat match goal with
  | |- keeps_wf _ (immediate _ _).2 => apply tx_rel_immediate; [apply _|]
  | |- keeps_wf _ (immediate_shadowed _ _).2 => apply tx_rel_immediate_shadowed; [apply _|]
  | |- keeps_wf _ (inl _, _).2 => reflexivity
  | |- keeps_wf _ (inr _, _).2 => reflexivity
  | |- keeps_wf _ (if ?b then _ else _).2 => destruct b
  | |- keeps_wf _ (match ?x with _ => _ end).2 => destruct x
  end.
Ltac wf_by := wf_op; repeat wf_stmt; auto with wf.

Create HintDb wf.

Lemma createCallback_wf e k taskID status now :
  tx_rel keeps_wf (createCallbackDeliveryWithConn e k taskID status now).
Proof. unfold createCallbackDeliveryWithConn. wf_by. Qed.

Lemma rebalance_wf o now : tx_rel keeps_wf (rebalance o now).
Proof. unfold rebalance, rebalanced. wf_by. Qed.

Lemma createBarrier_wf taskID now : tx_rel keeps_wf (createNodeDispatchBarrierForTask taskID now).
Proof. unfold createNodeDispatchBarrierForTask. wf_by. Qed.
#[export] Hint Resolve createCallback_wf rebalance_wf createBarrier_wf : wf.

Lemma finishCancellation_wf e taskID now :
  tx_rel keeps_wf (finishStageTaskCancellation e taskID now).
Proof. unfold finishStageTaskCancellation. wf_by. Qed.

Lemma completeStage_wf e stage token attempt out :
  tx_rel keeps_wf (completeStageWithConn e stage token attempt out).
Proof. unfold completeStageWithConn. wf_by. Qed.

Lemma registerOutput_wf e task stage node artifact size digest media :
  tx_rel keeps_wf (registerStageOutputWithConn e task stage node artifact size digest media).
Proof. unfold registerStageOutputWithConn, insert_artifact, insert_location. wf_by. Qed.

Lemma insert_items_wf e job now k cs : tx_rel keeps_wf (insert_items e job now k cs).
Proof.
  revert k. induction cs as [|[a l] cs IH]; intros k; simpl; [apply tx_rel_ret; apply _|].
  apply tx_rel_bind; [apply _|wf_by|intros _; apply IH].
Qed.
#[export] Hint Resolve finishCancellation_wf completeStage_wf registerOutput_wf
  insert_items_wf : wf.

Lemma RequestTaskDeletion_wf e task reason by_ db :
  keeps_wf db (RequestTaskDeletion e task reason by_ db).2.
Proof. unfold RequestTaskDeletion. wf_by. Qed.

Lemma writeNodeCatalog_wf e n now : tx_rel keeps_wf (writeNodeCatalog e n now).
Proof.
  unfold writeNodeCatalog, replace_catalog, write_catalog_row, hide_models, writeNodeModel,
    syncModelRoutes, guard_none. wf_by.
Qed.

Lemma delete_expired_wf es i ids db : keeps_wf db (delete_expired es i ids db).2.
Proof.
  revert i db. induction ids as [|x ids IH]; intros i db; simpl; [reflexivity|].
  pose proof (RequestTaskDeletion_wf (es i) x "retention" "retention-worker" db) as H.
  destruct (RequestTaskDeletion _ _ _ _ _) as [[]]; simpl in *; [done|]. etrans; [done|apply IH].
Qed.

Lemma recover_wf e db : keeps_wf db (recoverExhaustedResultUploads e db).2.
Proof. unfold recoverExhaustedResultUploads, fail_exhausted, failDeliveredTask, touch. wf_by. Qed.

Lemma AdminDelete_wf taskID purged db : keeps_wf db (AdminDelete taskID purged db).2.
Proof. unfold AdminDelete, unlink_task, delete_dependents, delete_tasks. wf_by. Qed.

Lemma create_new_wf e o inp k available : tx_rel keeps_wf (create_new e o inp k available).
Proof. unfold create_new, insert_stage, insert_spool_file, guard_none. wf_by. Qed.

Lemma admin_cancel_wf e o task : tx_rel keeps_wf (admin_cancel_local e o task).
Proof. unfold admin_cancel_local, touch. wf_by. Qed.
#[export] Hint Resolve RequestTaskDeletion_wf writeNodeCatalog_wf AdminDelete_wf create_new_wf
  admin_cancel_wf : wf.

Lemma RequestOwnedTaskDeletion_wf e owner task db :
  keeps_wf db (RequestOwnedTaskDeletion e owner task db).2.
Proof. unfold RequestOwnedTaskDeletion. wf_by. Qed.

Lemma CancelOrDelete_wf e o owner task db : keeps_wf db (CancelOrDelete e o owner task db).2.
Proof.
  unfold CancelOrDelete. destruct (match List.find _ _ with Some _ => _ | None => _ end).
  - pose proof (RequestOwnedTaskDeletion_wf e owner task db) as H.
    destruct (RequestOwnedTaskDeletion _ _ _ _) as [[[]|] db']; exact H.
  - unfold touch. wf_by.
Qed.

Lemma RequestRemoteCancel_wf e task db : keeps_wf db (RequestRemoteCancel e task db).2.
Proof. unfold RequestRemoteCancel. wf_by. Qed.

Lemma CleanupExpired_wf e es batch db : keeps_wf db (CleanupExpired e es batch db).2.
Proof.
  unfold CleanupExpired. cbv zeta.
  match goal with |- context [delete_expired es 0 ?ids db] =>
    pose proof (delete_expired_wf es 0 ids db) as H;
    destruct (delete_expired es 0 ids db) as [[[err|] count] db'] end; [exact H|].
  simpl in *. intros Hwf%H.
  change (wf (set_tbl (R:=IdempotencyKey) (delete_first (λ k, ik_expires_at k <=? nowUnix e)
    (Z.to_nat (if batch <=? 0 then 100 else batch)) (tbl db')) db')).
  apply wf_set_tbl; [done|]. eapply tbl_valid_sublist; [apply delete_first_sublist|by apply (wf_tbl (R:=IdempotencyKey))].
Qed.

Lemma ClaimResultUploadJob_wf e1 e token duration db :
  keeps_wf db (ClaimResultUploadJob e1 e token duration db).2.
Proof.
  unfold ClaimResultUploadJob. pose proof (recover_wf e1 db) as H.
  destruct (recoverExhaustedResultUploads e1 db) as [[] db']; [exact H|].
  etrans; [exact H|]. unfold claim_upload. wf_by.
Qed.

Lemma Backfill_wf inputs db : keeps_wf db (BackfillExternalAPIKeyPlaintexts inputs db).2.
Proof.
  revert db. induction inputs as [|i inputs IH]; intros db; simpl; [reflexivity|].
  destruct (_ ≟ ""); [apply IH|].
  assert (keeps_wf db (backfill_key i db).2) as H by (unfold backfill_key; wf_by).
  destruct (backfill_key i db) as [[err|u] db']; [exact H|]. etrans; [exact H|apply IH].
Qed.

Lemma Import_wf fold e inputs db : keeps_wf db (ImportLegacyAPIKeys fold e inputs db).2.
Proof.
  unfold ImportLegacyAPIKeys. wf_op. repeat wf_stmt.
  all: unfold insert_key; wf_by.
Qed.

Lemma import_node_wf e now input : tx_rel keeps_wf (import_node e now input).
Proof. unfold import_node. wf_by. Qed.

Lemma Preview_wf e secret days by_ db : keeps_wf db (PreviewArtifactCleanup e secret days by_ db).2.
Proof.
  unfold PreviewArtifactCleanup. destruct (_ || _); [reflexivity|]. simpl.
  match goal with |- context [immediate ?m db] =>
    assert (keeps_wf db (immediate m db).2) as H by wf_by;
    destruct (immediate m db) as [[] db'] end; exact H.
Qed.

Lemma queue_candidates_wf e job now cs : tx_rel keeps_wf (queue_candidates e job now cs).
Proof. unfold queue_candidates. wf_by. Qed.
#[export] Hint Resolve import_node_wf Preview_wf queue_candidates_wf Backfill_wf Import_wf RequestOwnedTaskDeletion_wf CancelOrDelete_wf RequestRemoteCancel_wf
  CleanupExpired_wf ClaimResultUploadJob_wf : wf.

Lemma step_wf keep db db' : step keep db db' → keeps_wf db db'.
Proof.
  destruct 1; auto with wf.
  all: autounfold with store_ops; wf_by.
Qed.

(** ** Reachability *)

Definition any_step (db db' : DB) : Prop := ∃ keep, step keep db db'.
Definition reachable : DB → Prop := rtc any_step empty_DB.

Lemma empty_wf : wf empty_DB.
Proof. split_and!; [by constructor|split; [done|by inversion 1]|done]. Qed.

Lemma history_wf db db' : rtc any_step db db' → wf db → wf db'.
Proof.
  induction 1 as [|db1 db2 db3 [keep Hs] _ IH]; [done|]. intros Hw. apply IH. by apply (step_wf keep db1).
Qed.

