(* ===== verification/StageHistory.v ===== *)
(** * Histories of stages and attempts

    What no operation of the store does to the stages of a task, to the attempts
    at them and to the barriers they leave: a stage keeps its configuration, an
    attempt its node, its operation and the request that was recorded for it, and
    a barrier belongs to an attempt with its node and operation. *)

From stdpp Require Import relations.
From S2P Require Import Prelude Domain Tx Database Sql GoStrings Catalog Paging TaskRouting Callbacks Queue Stages Artifacts Remote Tasks Official Delivery Nodes Normalize Router Settings Cleanup Lifecycle Reachable.

Definition stage_keeps (s s' : TaskStage) : Prop :=
  st_id s' = st_id s ∧ st_task_id s' = st_task_id s ∧ st_stage_type s' = st_stage_type s ∧
  st_config_snapshot_json s' = st_config_snapshot_json s ∧ st_max_attempts s' = st_max_attempts s.
Definition attempt_keeps (a a' : StageAttempt) : Prop :=
  sa_id a' = sa_id a ∧ sa_stage_id a' = sa_stage_id a ∧ sa_attempt_no a' = sa_attempt_no a ∧
  sa_operation_id a' = sa_operation_id a ∧ sa_node_id a' = sa_node_id a ∧
  sa_request_snapshot_json a' = sa_request_snapshot_json a.
Definition barrier_keeps (b b' : NodeDispatchBarrier) : Prop :=
  nb_node_id b' = nb_node_id b ∧ nb_task_id b' = nb_task_id b ∧ nb_attempt_id b' = nb_attempt_id b ∧
  nb_operation_id b' = nb_operation_id b.

#[export] Instance stage_keeps_preorder : PreOrder stage_keeps.
Proof. unfold stage_keeps. split; [done|]. intros s1 s2 s3. intuition congruence. Qed.
#[export] Instance attempt_keeps_preorder : PreOrder attempt_keeps.
Proof. unfold attempt_keeps. split; [done|]. intros s1 s2 s3. intuition congruence. Qed.

#[export] Instance barrier_keeps_preorder : PreOrder barrier_keeps.
Proof. unfold barrier_keeps. split; [done|]. intros s1 s2 s3. intuition congruence. Qed.

Section of_task.
Context (keep : string).

(** A stage of the task, and the stage an attempt is at. *)
Definition stage_of (db : DB) (s : TaskStage) : Prop := s ∈ db_task_stages db ∧ st_task_id s = keep.
Definition attempt_of (db : DB) (a : StageAttempt) : Prop :=
  a ∈ db_stage_attempts db ∧ ∃ s, stage_of db s ∧ sa_stage_id a = st_id s.

(** Every barrier of the task belongs to one of its attempts. *)
Definition barriers_match (db : DB) : Prop :=
  ∀ b, b ∈ db_barriers db → nb_task_id b = keep →
    ∃ a, attempt_of db a ∧ sa_id a = nb_attempt_id b ∧ sa_operation_id a = nb_operation_id b ∧
      sa_node_id a = nb_node_id b.

Definition frozen (db db' : DB) : Prop :=
  (∀ s, stage_of db s → ∃ s', stage_of db' s' ∧ stage_keeps s s') ∧
  (∀ a, attempt_of db a → ∃ a', attempt_of db' a' ∧ attempt_keeps a a') ∧
  (barriers_match db → barriers_match db').

#[export] Instance frozen_preorder : PreOrder frozen.
Proof.
  split.
  - intros db. split_and!; [..|done]; intros x Hx; exists x; split; (done || reflexivity).
  - intros db1 db2 db3 (S1 & A1 & B1) (S2 & A2 & B2). split_and!; [..|auto].
    + intros s (s' & (s'' & ? & ?)%S2 & ?)%S1. exists s''. split; [done|by etrans].
    + intros a (a' & (a'' & ? & ?)%A2 & ?)%A1. exists a''. split; [done|by etrans].
Qed.

(** Attempts and barriers that stay, over stages that stay. *)
Lemma frozen_intro db db' :
  (∀ s, stage_of db s → ∃ s', stage_of db' s' ∧ stage_keeps s s') →
  (∀ a, attempt_of db a → ∃ a', a' ∈ db_stage_attempts db' ∧ attempt_keeps a a') →
  (∀ b, b ∈ db_barriers db' → ∃ b0, b0 ∈ db_barriers db ∧ barrier_keeps b0 b) →
  frozen db db'.
Proof.
  intros HS HA HB.
  assert (∀ a, attempt_of db a → ∃ a', attempt_of db' a' ∧ attempt_keeps a a') as HA'.
  { intros a Ha. destruct (HA a Ha) as (a' & Hin & Hk). destruct Ha as (_ & s & Hs & Es).
    destruct (HS s Hs) as (s' & Hs' & (Eid & _)). exists a'. split; [|done]. split; [done|].
    exists s'. split; [done|]. destruct Hk as (_ & E & _). congruence. }
  split_and!; [done..|]. intros Hm b Hb Et. destruct (HB b Hb) as (b0 & Hb0 & (E1 & E2 & E3 & E4)).
  destruct (Hm b0 Hb0) as (a & Ha & F1 & F2 & F3); [congruence|].
  destruct (HA' a Ha) as (a' & Ha' & (G1 & _ & _ & G2 & G3 & _)). exists a'. split_and!; [done|congruence..].
Qed.

Lemma frozen_same db db' :
  db_task_stages db' = db_task_stages db → db_stage_attempts db' = db_stage_attempts db →
  db_barriers db' = db_barriers db → frozen db db'.
Proof.
  intros ES EA EB. apply frozen_intro; unfold stage_of, attempt_of; rewrite ?ES, ?EA, ?EB.
  - intros s Hs. exists s. split; [done|reflexivity].
  - intros a [Ha _]. exists a. split; [done|reflexivity].
  - intros b Hb. exists b. split; [done|reflexivity].
Qed.

(** ** Statements *)

Lemma frozen_update_stages p f : (∀ s, stage_keeps s (f s)) →
  ∀ db, frozen db (set_tbl (update_where (A:=TaskStage) p f (tbl db)) db).
Proof.
  intros Hf db. apply frozen_intro; simpl.
  - intros s [Hs E]. exists (if p s then f s else s). destruct (Hf s) as (H1 & H2 & H3 & H4 & H5).
    split; [split|].
    + apply elem_of_update_where. by exists s.
    + destruct (p s); congruence.
    + destruct (p s); [done|reflexivity].
  - intros a [Ha _]. exists a. split; [done|reflexivity].
  - intros b Hb. exists b. split; [done|reflexivity].
Qed.

Lemma frozen_update_attempts p f :
  (∀ a, attempt_keeps a (f a)) →
  ∀ db, frozen db (set_tbl (update_where (A:=StageAttempt) p f (tbl db)) db).
Proof.
  intros Hf db. apply frozen_intro; simpl.
  - intros s Hs. exists s. split; [done|reflexivity].
  - intros a [Ha _]. exists (if p a then f a else a). split; [apply elem_of_update_where; by exists a|].
    destruct (p a); [done|reflexivity].
  - intros b Hb. exists b. split; [done|reflexivity].
Qed.

Lemma frozen_update_barriers p f :
  (∀ b, barrier_keeps b (f b)) →
  ∀ db, frozen db (set_tbl (update_where (A:=NodeDispatchBarrier) p f (tbl db)) db).
Proof.
  intros Hf db. apply frozen_intro; simpl.
  - intros s Hs. exists s. split; [done|reflexivity].
  - intros a [Ha _]. exists a. split; [done|reflexivity].
  - intros b (b0 & Hb0 & ->)%elem_of_update_where. exists b0. split; [done|].
    destruct (p b0); [apply Hf|reflexivity].
Qed.

Lemma frozen_delete_barriers p db :
  frozen db (set_tbl (delete_where (A:=NodeDispatchBarrier) p (tbl db)) db).
Proof.
  apply frozen_intro; simpl.
  - intros s Hs. exists s. split; [done|reflexivity].
  - intros a [Ha _]. exists a. split; [done|reflexivity].
  - intros b [_ Hb]%elem_of_delete_where. exists b. split; [done|reflexivity].
Qed.

Lemma frozen_insert_stage (s : TaskStage) db : frozen db (set_tbl (tbl db ++ [s]) db).
Proof.
  apply frozen_intro; simpl.
  - intros s' [Hs E]. exists s'. split; [split; [set_solver|done]|reflexivity].
  - intros a [Ha _]. exists a. split; [done|reflexivity].
  - intros b Hb. exists b. split; [done|reflexivity].
Qed.

Lemma frozen_insert_attempt (a : StageAttempt) db : frozen db (set_tbl (tbl db ++ [a]) db).
Proof.
  apply frozen_intro; simpl.
  - intros s Hs. exists s. split; [done|reflexivity].
  - intros a' [Ha _]. exists a'. split; [set_solver|reflexivity].
  - intros b Hb. exists b. split; [done|reflexivity].
Qed.

Lemma active_attempts_elem taskID db s a :
  (s, a) ∈ active_attempts taskID db →
  s ∈ db_task_stages db ∧ a ∈ db_stage_attempts db ∧ sa_stage_id a = st_id s ∧ st_task_id s = taskID.
Proof.
  unfold active_attempts. rewrite merge_sort_Permutation. intros (? & ? & H)%elem_of_join_on.
  rewrite !andb_true_iff, !bool_decide_eq_true in H. naive_solver.
Qed.

Lemma createBarrier_frozen taskID now : tx_rel frozen (createNodeDispatchBarrierForTask taskID now).
Proof.
  intros db. destruct (createNodeDispatchBarrierForTask taskID now db) as [b db'|err db'] eqn:E.
  - unfold createNodeDispatchBarrierForTask in E. rewrite bind_Done in E.
    destruct E as (rows & db1 & H1 & H). sql_inv H1.
    destruct (active_attempts taskID db) as [|[s a] l] eqn:Ea; sql_inv H; [reflexivity|].
    destruct (active_attempts_elem taskID db s a) as (Hs & Ha & Est & Et); [rewrite Ea; left|].
    split_and!; simpl.
    + intros s' Hs'. exists s'. split; [done|reflexivity].
    + intros a' Ha'. exists a'. split; [done|reflexivity].
    + intros Hm b' [Hb|Hb]%elem_of_app Eb; [by apply Hm|]. apply list_elem_of_singleton in Hb as ->.
      simpl in *. exists a. split_and!; try done. split; [done|]. exists s. split; [|done]. by split.
  - unfold createNodeDispatchBarrierForTask, mbind, tx_bind, ask in E. simpl in E.
    destruct (active_attempts taskID db) as [|[s a] l]; [done|].
    unfold exec_insert in E. destruct (tbl_valid _); [done|]. by injection E as _ <-.
Qed.
End of_task.

(** ** Operations *)

Ltac keeps_columns := intros ?; unfold stage_keeps, attempt_keeps, barrier_keeps; cbn; by split_and!.
Ltac freeze_table :=
  first
    [ by apply frozen_same
    | apply frozen_update_stages; keeps_columns
    | apply frozen_update_attempts; keeps_columns
    | apply frozen_update_barriers; keeps_columns
    | apply frozen_delete_barriers
    | apply frozen_insert_stage
    | apply frozen_insert_attempt ].
Ltac freeze_stmt :=
  match goal with
  | |- tx_rel (frozen _) (createNodeDispatchBarrierForTask _ _) => apply createBarrier_frozen
  | _ => tx_stmt
  end.
Create HintDb frozen.
Ltac freeze :=
  repeat match goal with
  | |- frozen _ _ (immediate _ _).2 => apply tx_rel_immediate; [apply _|]
  | |- frozen _ _ (immediate_shadowed _ _).2 => apply tx_rel_immediate_shadowed; [apply _|]
  | |- frozen _ _ (inl _, _).2 => reflexivity
  | |- frozen _ _ (inr _, _).2 => reflexivity
  | |- frozen _ _ (if ?b then _ else _).2 => destruct b
  | |- frozen _ _ (match ?x with _ => _ end).2 => destruct x
  end;
  repeat freeze_stmt; try (intros ?; freeze_table); auto with frozen.

Section operations.
Context (keep : string).
#[local] Abbreviation frozen := (frozen keep).

Lemma insert_items_frozen e job now k cs : tx_rel frozen (insert_items e job now k cs).
Proof.
  revert k. induction cs as [|[a l] cs IH]; intros k; simpl; [apply tx_rel_ret; apply _|].
  apply tx_rel_bind; [apply _|freeze|intros _; apply IH].
Qed.
Lemma callback_frozen e k taskID status now :
  tx_rel frozen (createCallbackDeliveryWithConn e k taskID status now).
Proof. unfold createCallbackDeliveryWithConn. freeze. Qed.
Lemma rebalance_frozen o now : tx_rel frozen (rebalance o now).
Proof. unfold rebalance, rebalanced. freeze. Qed.
#[local] Hint Resolve insert_items_frozen callback_frozen rebalance_frozen : frozen.

Lemma finishCancellation_frozen e taskID now : tx_rel frozen (finishStageTaskCancellation e taskID now).
Proof. unfold finishStageTaskCancellation. freeze. Qed.
Lemma completeStage_frozen e stage token attempt out :
  tx_rel frozen (completeStageWithConn e stage token attempt out).
Proof. unfold completeStageWithConn. freeze. Qed.
Lemma registerOutput_frozen e task stage node artifact size digest media :
  tx_rel frozen (registerStageOutputWithConn e task stage node artifact size digest media).
Proof. unfold registerStageOutputWithConn, insert_artifact, insert_location. freeze. Qed.
Lemma writeNodeCatalog_frozen e n now : tx_rel frozen (writeNodeCatalog e n now).
Proof.
  unfold writeNodeCatalog, replace_catalog, write_catalog_row, hide_models, writeNodeModel,
    syncModelRoutes, bumpRouting, guard_none. freeze.
Qed.
Lemma create_new_frozen e o inp k available : tx_rel frozen (create_new e o inp k available).
Proof. unfold create_new, insert_task, insert_stage, insert_spool_file, guard_none. freeze. Qed.
Lemma import_node_frozen e now input : tx_rel frozen (import_node e now input).
Proof. unfold import_node. freeze. apply writeNodeCatalog_frozen. Qed.
Lemma queue_candidates_frozen e job now cs : tx_rel frozen (queue_candidates e job now cs).
Proof. unfold queue_candidates. freeze. Qed.
#[local] Hint Resolve finishCancellation_frozen completeStage_frozen registerOutput_frozen
  writeNodeCatalog_frozen create_new_frozen import_node_frozen queue_candidates_frozen : frozen.
Lemma admin_cancel_frozen e o task : tx_rel frozen (admin_cancel_local e o task).
Proof. unfold admin_cancel_local, touch. freeze. Qed.
#[local] Hint Resolve admin_cancel_frozen : frozen.

Lemma RequestTaskDeletion_frozen e task reason by_ db : frozen db (RequestTaskDeletion e task reason by_ db).2.
Proof. unfold RequestTaskDeletion. freeze. Qed.
#[local] Hint Resolve RequestTaskDeletion_frozen : frozen.

Lemma delete_expired_frozen es i ids db : frozen db (delete_expired es i ids db).2.
Proof.
  revert i db. induction ids as [|x ids IH]; intros i db; simpl; [reflexivity|].
  pose proof (RequestTaskDeletion_frozen (es i) x "retention" "retention-worker" db) as H.
  destruct (RequestTaskDeletion _ _ _ _ _) as [[]]; simpl in *; [done|]. etrans; [done|apply IH].
Qed.

Lemma CleanupExpired_frozen e es batch db : frozen db (CleanupExpired e es batch db).2.
Proof.
  unfold CleanupExpired. cbv zeta.
  match goal with |- context [delete_expired es 0 ?ids db] =>
    pose proof (delete_expired_frozen es 0 ids db) as H;
    destruct (delete_expired es 0 ids db) as [[[err|] count] db'] end; [exact H|].
  simpl in *. etrans; [exact H|]. by apply frozen_same.
Qed.

Lemma ClaimResultUploadJob_frozen e1 e token duration db :
  frozen db (ClaimResultUploadJob e1 e token duration db).2.
Proof.
  unfold ClaimResultUploadJob.
  assert (frozen db (recoverExhaustedResultUploads e1 db).2) as H
    by (unfold recoverExhaustedResultUploads, fail_exhausted, failDeliveredTask, touch; freeze).
  destruct (recoverExhaustedResultUploads e1 db) as [[] db']; [exact H|].
  etrans; [exact H|]. unfold claim_upload. freeze.
Qed.

Lemma Backfill_frozen inputs db : frozen db (BackfillExternalAPIKeyPlaintexts inputs db).2.
Proof.
  revert db. induction inputs as [|i inputs IH]; intros db; simpl; [reflexivity|].
  destruct (_ ≟ ""); [apply IH|].
  assert (frozen db (backfill_key i db).2) as H by (unfold backfill_key; freeze).
  destruct (backfill_key i db) as [[err|u] db']; [exact H|]. etrans; [exact H|apply IH].
Qed.

Lemma Preview_frozen e secret days by_ db : frozen db (PreviewArtifactCleanup e secret days by_ db).2.
Proof.
  unfold PreviewArtifactCleanup. destruct (_ || _); [reflexivity|]. simpl.
  match goal with |- context [immediate ?m db] =>
    assert (frozen db (immediate m db).2) as H by freeze;
    destruct (immediate m db) as [[] db'] end; exact H.
Qed.

Lemma RequestOwnedTaskDeletion_frozen e owner task db :
  frozen db (RequestOwnedTaskDeletion e owner task db).2.
Proof. unfold RequestOwnedTaskDeletion. freeze. Qed.

Lemma CancelOrDelete_frozen e o owner task db : frozen db (CancelOrDelete e o owner task db).2.
Proof.
  unfold CancelOrDelete. destruct (match List.find _ _ with Some _ => _ | None => _ end).
  - pose proof (RequestOwnedTaskDeletion_frozen e owner task db) as H.
    destruct (RequestOwnedTaskDeletion _ _ _ _) as [[[]|] db']; exact H.
  - unfold touch. freeze.
Qed.
#[local] Hint Resolve CleanupExpired_frozen ClaimResultUploadJob_frozen Backfill_frozen Preview_frozen
  RequestOwnedTaskDeletion_frozen CancelOrDelete_frozen : frozen.

(** Deleting another task: the ids of stages are unique. *)
Lemma AdminDelete_frozen taskID purged db :
  wf db → keep ≠ taskID → frozen db (AdminDelete taskID purged db).2.
Proof.
  intros [Hs _] Hne. destruct (AdminDelete taskID purged db) as [[err|u] db'] eqn:E.
  { apply immediate_inl in E as ->. reflexivity. }
  apply AdminDelete_effect in E; [|apply sv_tasks, tasks_valid_iff in Hs; apply Hs].
  destruct E as (task & db1 & db2 & _ & _ & _ & _ & H1 & H2 & _ & ->).
  apply unlink_task_Done in H1 as ->. apply delete_dependents_Done in H2 as (items & jobs & ->).
  apply frozen_intro; simpl.
  - intros s [Hin Et]. exists s. split; [|reflexivity]. split; [|done]. simpl.
    apply elem_of_delete_where. split; [apply bool_decide_eq_false; congruence|].
    apply elem_of_update_where. exists s. split; [done|]. rewrite bool_decide_eq_false_2; [done|congruence].
  - intros a [Ha (s & [Hin Et] & Es)]. exists a. split; [|reflexivity].
    apply elem_of_delete_where. split; [|done]. apply bool_decide_eq_false.
    rewrite list_elem_of_In, in_map_iff. intros (s1 & E1 & [Hs1%list_elem_of_In Et1%bool_decide_eq_true]%filter_In).
    apply elem_of_update_where in Hs1 as (s0 & Hs0 & E0).
    assert (st_id s1 = st_id s0 ∧ st_task_id s1 = st_task_id s0) as [F1 F2]
      by (rewrite E0; by destruct (st_task_id s0 ≟ taskID)).
    assert (s0 = s) as ->; [|congruence].
    apply (NoDup_map_inj st_id (db_task_stages db)); [|done..|congruence]. by apply stages_ids, sv_stages.
  - intros b Hb. exists b. split; [done|reflexivity].
Qed.

Lemma step_frozen db db' : wf db → step keep db db' → frozen db db'.
Proof.
  intros Hw Hs. destruct Hs; auto using AdminDelete_frozen with frozen.
  all: autounfold with store_ops; unfold RequestRemoteCancel, ImportLegacyAPIKeys; freeze.
  all: unfold insert_key; freeze.
Qed.
End operations.
