(* ===== verification/OrchestratorSafety.v ===== *)
(** * What the orchestrator asks of a node

    The workers of any number of nodes run concurrently with every other user of
    the store; they may fail or be stopped at any point, and resume what was in
    flight.  Whatever they do, an execution is only asked for under an attempt
    that is on record, with its operation as the key, at its node and with the
    request recorded for it. *)

From stdpp Require Import relations.
From S2P Require Import Prelude Domain Tx Database Sql Workers GoStrings GoFloat GoNet GoHttp Mediagate Netguard Catalog Paging TaskRouting Callbacks Queue Stages Artifacts Remote Tasks Official Delivery Nodes Config NodeAPI ArtifactService Normalize Router InputSpool StageInputs Orchestrator Settings Cleanup Lifecycle Reachable StageHistory.

(** A program that was written for other calls. *)
Lemma quiet_translated {C D A} (other : relation DB) (guar : ∀ X, D X → DB → Prop)
    (f : ∀ X, C X → D X) (p : Prog C A) :
  quiet other (λ X c db, guar X (f X c) db) p → quiet other guar (translate f p).
Proof. induction p; simpl; auto; intros []; auto. Qed.

Section safety.
Context (x : Externals).

(** What the code relies on of encoding/json: the text of a request is not empty,
    and reading it and writing it again gives the same text. *)
Definition canonical_requests : Prop :=
  ∀ r text, x_request_json x r = Some text →
    text ≠ "" ∧ ∃ r', x_request_of_json x text = Some r' ∧ x_request_json x r' = Some text.

(** The passes of the workers of the nodes; a worker's client is that of its node. *)
Inductive orchestrating : Prog OrchE unit → Prop :=
  | orchestrating_ProcessOne rounds p :
      cl_NodeID (op_Client p) = op_NodeID p → orchestrating (ProcessOne x rounds p ≫= λ _, mret tt).

Section of_task.
(** The task the guarantee is about; nobody deletes it. *)
Context (keep : string).

#[local] Abbreviation rely := (rtc (step keep)).

(** The body with which an attempt at a stage is submitted: the recorded request,
    or for an attempt without one the request of the stage, which has no inputs. *)
Definition body_of (s : TaskStage) (a : StageAttempt) : option string :=
  match coalesce_str (sa_request_snapshot_json a) with
  | "" => match recorded_request x (s <| st_input_artifact_id := None |>) a with
          | inr r => x_request_json x r
          | inl _ => None
          end
  | snapshot => r ← x_request_of_json x snapshot; x_request_json x r
  end.

Definition recorded (node key text : string) (db : DB) : Prop :=
  ∃ a s, a ∈ db_stage_attempts db ∧ stage_of keep db s ∧ sa_stage_id a = st_id s ∧
    sa_operation_id a = key ∧ sa_node_id a = node ∧ body_of s a = Some text.

Definition only_recorded (X : Type) (c : OrchE X) (db : DB) : Prop :=
  match c with
  | OnNode task (NodeDo node r) =>
      task = keep → ∀ text, hq_Body r = JsonBody text → recorded node (hq_IdempotencyKey r) text db
  | _ => True
  end.

#[local] Abbreviation quiet := (quiet (step keep) only_recorded).
#[local] Abbreviation wp := (wp (λ _, True) (step keep) only_recorded).
#[local] Abbreviation ok := (λ _ _, True).

(** ** What stays *)

Definition good (db : DB) : Prop := wf db ∧ barriers_match keep db.

Lemma rely_good db db' : rely db db' → good db → good db' ∧ frozen keep db db'.
Proof.
  induction 1 as [db|db1 db2 db3 Hs _ IH]; intros Hg; [split; [done|reflexivity]|].
  destruct Hg as [Hw Hb]. assert (frozen keep db1 db2) as Hf by (by apply step_frozen).
  destruct IH as [Hg Hf']; [|split; [done|by etrans]].
  split; [by apply (step_wf keep db1)|]. by apply Hf.
Qed.

Lemma executionRequest_keeps s s' :
  stage_keeps s s' → executionRequest x (s <| st_input_artifact_id := None |>) =
                     executionRequest x (s' <| st_input_artifact_id := None |>).
Proof. intros (E1 & E2 & E3 & E4 & E5). unfold executionRequest. simpl. by rewrite E3, E4. Qed.

Lemma body_of_keeps s s' a a' : stage_keeps s s' → attempt_keeps a a' → body_of s' a' = body_of s a.
Proof.
  intros Hs (_ & _ & _ & E4 & _ & E6). unfold body_of, recorded_request.
  rewrite E4, E6, (executionRequest_keeps _ _ Hs). destruct Hs as (E1 & E2 & E3 & _ & _). simpl.
  by rewrite E1, E2, E3.
Qed.

Lemma recorded_stable node key text db db' :
  rely db db' → good db → recorded node key text db → recorded node key text db'.
Proof.
  intros Hr Hg (a & s & Ha & Hs & Eas & Ek & En & Eb).
  destruct (rely_good _ _ Hr Hg) as (_ & HS & HA & _).
  destruct (HS s Hs) as (s' & Hs' & Hks). destruct (HA a) as (a' & [Ha' _] & Hka).
  { split; [done|]. by exists s. }
  exists a', s'. rewrite (body_of_keeps _ _ _ _ Hks Hka).
  destruct Hks as (E1 & _). destruct Hka as (_ & F2 & _ & F4 & F5 & _). split_and!; (done || congruence).
Qed.

(** Two submissions under one key are the same. *)
Lemma recorded_unique db node key text node' text' :
  wf db → recorded node key text db → recorded node' key text' db → node' = node ∧ text' = text.
Proof.
  intros [Hv _] (a & s & Ha & [Hs Et] & Eas & Ek & En & Eb) (a' & s' & Ha' & [Hs' Et'] & Eas' & Ek' & En' & Eb').
  assert (a' = a) as ->.
  { apply (NoDup_map_inj sa_operation_id (db_stage_attempts db)); [|congruence..].
    apply sv_attempts in Hv. simpl in Hv. rewrite !andb_true_iff in Hv. apply distinct_NoDup, Hv. }
  assert (s' = s) as ->.
  { apply (NoDup_map_inj st_id (db_task_stages db)); [by apply stages_ids, sv_stages|congruence..]. }
  split; congruence.
Qed.

(** ** Calls that ask for no execution *)

(** In [quiet] and [wp] below a call is [OnNode], [OnArtifact] or one on the files. *)
Ltac quiet := quiet_by ltac:(constructor) ltac:(done).

Lemma quiet_request {A} c task method parts requestID key body (zero : A) decode :
  (∀ text, body ≠ JsonBody text) →
  quiet (on task (request (x_escaped_path x) (x_url_String x) (x_request_ok x) (x_decode_envelope x) c
                   method parts requestID key body zero decode)).
Proof.
  intros Hb. unfold on, request, newRequest. destruct (x_request_ok x _); [|exact I].
  simpl. split; [|done]. intros db _ text ->. by destruct (Hb text).
Qed.

Lemma quiet_get_execution p task requestID id : quiet (get_execution x p task requestID id).
Proof. by apply quiet_request. Qed.
Lemma quiet_cancel_execution p task requestID id op : quiet (cancel_execution x p task requestID id op).
Proof. by apply quiet_request. Qed.
Lemma quiet_get_artifact p task requestID id : quiet (get_artifact x p task requestID id).
Proof. by apply quiet_request. Qed.
Lemma quiet_get_health p task requestID : quiet (get_health x p task requestID).
Proof.
  unfold get_health, GetHealth, request, newRequest. destruct (x_request_ok x _); [|exact I].
  simpl. split; [done|]. intros answer. unfold mbind, prog_bind. simpl.
  destruct (conclude _ _ _ _ _); simpl; [done|]. by destruct (_ ≟ _).
Qed.
#[local] Hint Resolve quiet_get_execution quiet_cancel_execution quiet_get_artifact quiet_get_health : quiet.

(** ** Inputs *)

Lemma quiet_guard rawURL ports : quiet (translate (@OnNet) (Netguard.Validate (x_url_Parse x) ports rawURL)).
Proof. apply quiet_translate; [apply Validate_storeless|done]. Qed.
#[local] Hint Resolve quiet_guard : quiet.

Lemma quiet_import task client requestID i :
  quiet (translate (λ X c, OnNode task c)
    (ImportArtifact (x_escaped_path x) (x_url_String x) (x_request_ok x) (x_decode_artifact x)
      (x_decode_envelope x) client requestID i)).
Proof. unfold ImportArtifact, newRequest. by destruct (x_request_ok x _). Qed.
#[local] Hint Resolve quiet_import : quiet.

Lemma quiet_materialize_items ports root client task node requestID i items :
  quiet (materialize_items (x_ExtensionByType x) (x_ParseMediaType x) (x_url_Parse x) (x_escaped_path x)
    (x_url_String x) (x_EqualFold x) (x_request_ok x) (x_decode_artifact x) (x_decode_envelope x)
    ports root client task node requestID i items).
Proof.
  revert i. induction items as [|item items IH]; intros i; cbn [materialize_items]; [exact I|].
  unfold import_input, fetch, fetchProxyInput, source, copy_source. cbv zeta. quiet.
Qed.
#[local] Hint Resolve quiet_materialize_items : quiet.

Lemma quiet_materialize p m stage : quiet (materialize x p m stage).
Proof. unfold materialize, Materialize. quiet. Qed.

Lemma quiet_migrate s requestID i : quiet (migrate x s requestID i).
Proof.
  unfold migrate. quiet. apply quiet_translated.
  unfold Migrate, target_location, transfer, get_content, nodeClient. cbv zeta. quiet.
  all: apply quiet_translate; [|done].
  all: unfold GetNodeArtifact, GetArtifactContent, ImportArtifact, request; case_match; done.
Qed.
#[local] Hint Resolve quiet_materialize quiet_migrate : quiet.

Lemma quiet_taskCancelled task : quiet (taskCancelled task).
Proof. unfold taskCancelled. quiet. Qed.
Lemma quiet_stage_fail p stage id code message terminal : quiet (fail p stage id code message terminal).
Proof. unfold fail. cbv zeta. quiet. Qed.
#[local] Hint Resolve quiet_taskCancelled quiet_stage_fail : quiet.
Lemma quiet_localizeInput p stage : quiet (localizeInput x p stage).
Proof. unfold localizeInput. cbv zeta. quiet. Qed.
Lemma quiet_with_inputs p stage r : quiet (with_inputs x p stage r).
Proof. unfold with_inputs. quiet. destruct a; cbv beta; quiet. Qed.
Lemma quiet_finish p stage attempt result : quiet (finish x p stage attempt result).
Proof. unfold finish. cbv zeta. quiet. Qed.
#[local] Hint Resolve quiet_localizeInput quiet_with_inputs quiet_finish : quiet.
Lemma quiet_stage_poll rounds p stage attempt execution renewed :
  quiet (poll x rounds p stage attempt execution renewed).
Proof.
  revert renewed. induction rounds as [|rounds IH]; intros renewed; cbn [poll]; [exact I|].
  unfold waited. cbv zeta. quiet.
Qed.
Lemma quiet_start_polling rounds p stage attempt execution :
  quiet (start_polling x rounds p stage attempt execution).
Proof. unfold start_polling. quiet. apply quiet_stage_poll. Qed.
Lemma quiet_settle_barrier p b id : quiet (settle_barrier x p b id).
Proof. unfold settle_barrier, deferCancellationBarrier, resolve. cbv zeta. quiet. Qed.
#[local] Hint Resolve quiet_start_polling quiet_settle_barrier : quiet.

(** ** Asking for an execution *)

Lemma wp_create_execution p task requestID r (Q : node_error + ExecutionReference → DB → Prop) db :
  good db →
  (task = keep → ∀ text, x_request_json x r = Some text →
     recorded (cl_NodeID (op_Client p)) (er_OperationID r) text db) →
  (∀ ref db', rely db db' → Q ref db') →
  wp (create_execution x p task requestID r) Q db.
Proof.
  intros Hg Hrec HQ. unfold create_execution, on, CreateExecution.
  destruct (x_request_json x r) as [text|] eqn:Ej; [|simpl; intros db1 Hr; by apply HQ].
  unfold request, newRequest. destruct (x_request_ok x _); [|simpl; intros db1 Hr; by apply HQ].
  simpl. intros db1 Hr1. split.
  - intros -> text' [= <-]. apply (recorded_stable _ _ _ db); [done..|]. by apply Hrec.
  - intros answer db2 Hr2. apply HQ. by etrans.
Qed.

(** A stage that a worker has claimed. *)
Definition known_stage (s : TaskStage) (db : DB) : Prop :=
  good db ∧ (st_task_id s = keep → ∃ s', stage_of keep db s' ∧ stage_keeps s s').

Lemma known_stage_stable s db db' : rely db db' → known_stage s db → known_stage s db'.
Proof.
  intros Hr [Hg Hk]. destruct (rely_good _ _ Hr Hg) as (Hg' & HS & _). split; [done|].
  intros (s1 & (s2 & ? & ?)%HS & ?)%Hk. exists s2. split; [done|by etrans].
Qed.

(** An attempt at it that is on record. *)
Lemma recorded_attempt s a text db :
  known_stage s db → st_task_id s = keep → a ∈ db_stage_attempts db → sa_stage_id a = st_id s →
  body_of s a = Some text → recorded (sa_node_id a) (sa_operation_id a) text db.
Proof.
  intros [_ Hk] Et Ha Es Eb. destruct (Hk Et) as (s' & Hs' & Hks). exists a, s'.
  rewrite (body_of_keeps s s' a a Hks) by reflexivity. destruct Hks as (E & _).
  split_and!; (done || congruence).
Qed.

Lemma wp_stage_submit rounds p stage token a request db :
  known_stage stage db → cl_NodeID (op_Client p) = sa_node_id a →
  (st_task_id stage = keep → a ∈ db_stage_attempts db ∧ sa_stage_id a = st_id stage) →
  er_OperationID request = sa_operation_id a → body_of stage a = x_request_json x request →
  wp (submit x rounds p stage token (sa_id a) request) ok db.
Proof.
  intros Hk Ec Ha Eo Eb. unfold submit. apply wp_bind, wp_create_execution; [apply Hk| |].
  - intros Et text Ej. rewrite Ec, Eo. destruct (Ha Et) as [Hin Es].
    apply (recorded_attempt stage); (done || congruence).
  - intros ref db' _. apply wp_quiet; [quiet|done].
Qed.

Lemma rebalance_attempts o now :
  tx_rel (λ db db', db_stage_attempts db' = db_stage_attempts db) (rebalance o now).
Proof.
  assert (PreOrder (λ db db', db_stage_attempts db' = db_stage_attempts db)) by (split; congruence).
  unfold rebalance, rebalanced. tx_stmts; done.
Qed.

Lemma CreateStageAttempt_inserted e o a token db :
  (CreateStageAttempt e o a token db).1 = inr tt →
  ∃ t, a <| sa_started_at := t |> ∈ db_stage_attempts (CreateStageAttempt e o a token db).2.
Proof.
  intros H. destruct (CreateStageAttempt e o a token db) as [r db'] eqn:E. simpl in *. subst r.
  unfold CreateStageAttempt in E. rewrite immediate_inr in E. sql_inv E. destruct x0 as [s task].
  sql_inv E. eexists.
  match type of E with rebalance _ _ ?db1 = _ => set (d := db1) in E end.
  pose proof (rebalance_attempts o (nowUnix e) d) as Hr. rewrite E in Hr. simpl in Hr. rewrite Hr. simpl.
  apply elem_of_app. right. by apply list_elem_of_singleton.
Qed.

Lemma ClaimStage_claimed e node token ttl db s :
  (ClaimStage e node token ttl db).1 = inr s → s ∈ db_task_stages (ClaimStage e node token ttl db).2.
Proof.
  intros H. destruct (ClaimStage e node token ttl db) as [r db'] eqn:E. simpl in *. subst r.
  unfold ClaimStage in E. rewrite immediate_inr in E. sql_inv E.
  apply find_elem_of in E as [Hin _]. exact Hin.
Qed.

Lemma GetRunningStageAttempt_inr stage token db a :
  GetRunningStageAttempt stage token db = inr a → a ∈ db_stage_attempts db ∧ sa_stage_id a = stage.
Proof.
  unfold GetRunningStageAttempt. destruct (merge_sort _ _) as [|[s a'] l] eqn:E; [done|]. intros [= ->].
  assert ((s, a) ∈ merge_sort latest_le (join_on (λ s a, (st_id s ≟ sa_stage_id a)
    && (sa_stage_id a ≟ stage) && (st_lease_token s ≟ Some token)) (db_task_stages db)
    (db_stage_attempts db))) as Hin by (rewrite E; left).
  rewrite merge_sort_Permutation in Hin. apply elem_of_join_on in Hin as (_ & Ha & H).
  rewrite !andb_true_iff, !bool_decide_eq_true in H. destruct_and!. auto.
Qed.

Lemma GetNodeDispatchBarrier_inr node db b a :
  GetNodeDispatchBarrier node db = inr (b, a) →
  b ∈ db_barriers db ∧ a ∈ db_stage_attempts db ∧ sa_id a = nb_attempt_id b ∧ nb_node_id b = node.
Proof.
  unfold GetNodeDispatchBarrier. destruct (join_on _ _ _) as [|[b' a'] l] eqn:E; [done|].
  intros [= -> ->]. assert ((b, a) ∈ join_on (λ b a, (sa_id a ≟ nb_attempt_id b) && (nb_node_id b ≟ node))
          (db_barriers db) (db_stage_attempts db)) as Hin by (rewrite E; left).
  apply elem_of_join_on in Hin as (Hb & Ha & H). rewrite !andb_true_iff, !bool_decide_eq_true in H.
  destruct_and!. auto.
Qed.

(** ** The passes *)

Lemma body_of_dispatched s a r snapshot :
  canonical_requests → x_request_json x r = Some snapshot → sa_request_snapshot_json a = Some snapshot →
  body_of s a = x_request_json x r.
Proof.
  intros Hc Ej Ea. destruct (Hc r snapshot Ej) as (Hne & r' & Er & Ew). rewrite Ej. unfold body_of.
  rewrite Ea. simpl. destruct snapshot; [done|]. rewrite Er. exact Ew.
Qed.

Lemma wp_dispatch rounds p stage token db :
  canonical_requests → cl_NodeID (op_Client p) = op_NodeID p → known_stage stage db →
  wp (dispatch x rounds p stage token) ok db.
Proof.
  intros Hc Ec Hk. unfold dispatch. apply wp_bind, wp_quiet; [apply quiet_localizeInput|].
  intros [err|stage'] db1 Hr1; [apply wp_quiet; [quiet|done]|].
  destruct (executionRequest x stage') as [err|r]; [apply wp_quiet; [quiet|done]|].
  apply wp_bind, wp_quiet; [apply quiet_with_inputs|]. intros [res|r'] db2 Hr2; [by apply wp_ret|].
  apply wp_bind, wp_environment. intros e db3 _ Hr3. cbv zeta.
  destruct (x_request_json x _) as [snapshot|] eqn:Ej; [|by apply wp_ret].
  apply wp_bind, wp_store; [intros; by apply wp_ret|]. intros db4 e' Hr4 _.
  split; [apply rtc_once; constructor|]. intros db5 Hr5.
  match goal with |- context [CreateStageAttempt e' ?o ?a ?t db4] =>
    destruct (CreateStageAttempt e' o a t db4).1 as [err|[]] eqn:Eok;
    [by apply wp_ret|apply CreateStageAttempt_inserted in Eok as (t0 & Hin);
     assert (rely db4 (CreateStageAttempt e' o a t db4).2) as Hs by (apply rtc_once; constructor);
     set (db4' := (CreateStageAttempt e' o a t db4).2) in *; clearbody db4'] end.
  assert (rely db db4') as Hr by (do 4 (etrans; [eassumption|]); exact Hs).
  apply wp_try, wp_ret. intros db6 Hr6. apply (wp_stable _ _ _ _ _ db4'); [|by etrans].
  match type of Hin with ?a ∈ _ => apply (wp_stage_submit rounds p stage token a) end; simpl; try done.
  - by apply (known_stage_stable _ db).
  - by apply (body_of_dispatched _ _ _ snapshot).
Qed.

(** The request of an attempt in flight is the one its record stands for. *)
Lemma recorded_request_body s a r :
  recorded_request x s a = inr r →
  er_OperationID r = sa_operation_id a ∧ body_of s a = x_request_json x r.
Proof.
  unfold recorded_request, body_of.
  destruct (coalesce_str (sa_request_snapshot_json a)) as [|c rest] eqn:Es.
  - intros H. unfold recorded_request. rewrite Es.
    apply sum_bind_inr in H as (q & Hq & H). case_match eqn:Ec; [done|]. injection H as <-.
    apply orb_false_iff in Ec as [Ei%negb_false_iff%bool_decide_eq_true Eg].
    assert (executionRequest x (s <| st_input_artifact_id := None |>) = inr q) as ->.
    { rewrite <-Hq. unfold executionRequest. simpl. by rewrite Ei. }
    simpl. by rewrite Eg.
  - destruct (x_request_of_json x _) as [q|] eqn:Eq; [|done]. case_match eqn:Ec; [done|]. intros [= <-].
    rewrite !orb_false_iff, !negb_false_iff, !bool_decide_eq_true in Ec. split; [tauto|done].
Qed.

Lemma wp_resumeStageAttempt rounds p stage db :
  cl_NodeID (op_Client p) = op_NodeID p → known_stage stage db →
  wp (resumeStageAttempt x rounds p stage) ok db.
Proof.
  intros Ec Hk. unfold resumeStageAttempt. destruct (_ =? 0); [by apply wp_ret|].
  apply wp_bind, wp_store; [intros db1 f db2 _ _ []; by apply wp_ret|].
  intros db1 e Hr1 _. split; [reflexivity|]. intros db2 Hr2. unfold reading in *. cbn [fst snd] in *.
  destruct (GetRunningStageAttempt _ _ db1) as [err|a] eqn:Ea.
  { destruct err; by apply wp_ret. }
  apply GetRunningStageAttempt_inr in Ea as [Hin Es].
  destruct (negb (_ ∈? _)); [by apply wp_ret|].
  destruct (negb (sa_node_id a ≟ op_NodeID p)) eqn:En; [by apply wp_ret|].
  apply negb_false_iff, bool_decide_eq_true in En.
  apply (wp_stable _ _ _ _ _ db1); [|done]. apply wp_bind, wp_try.
  destruct (_ ≟ ""); [|apply wp_ret; intros db3 _; apply wp_quiet; [quiet|done]].
  apply wp_try, wp_ret. intros db3 Hr3.
  destruct (recorded_request x stage a) as [err|r] eqn:Er; [by apply wp_ret|].
  apply recorded_request_body in Er as [Eo Eb]. apply (wp_stable _ _ _ _ _ db1); [|done].
  assert (known_stage stage db1) as Hk1 by (by apply (known_stage_stable _ db)).
  apply wp_bind, wp_create_execution; [apply Hk1| |].
  - intros Et text Ej. rewrite Ec, Eo, <-En. apply (recorded_attempt stage); (done || congruence).
  - intros ref db4 _. apply wp_quiet; [quiet|]. intros [err|id] db5 _; [by apply wp_ret|].
    apply wp_quiet; [quiet|done].
Qed.

Lemma wp_reconcile p b a db :
  cl_NodeID (op_Client p) = op_NodeID p → good db → b ∈ db_barriers db →
  a ∈ db_stage_attempts db → sa_id a = nb_attempt_id b →
  wp (reconcileCancellationBarrier x p b a) ok db.
Proof.
  intros Ec Hg Hb Ha Ea. unfold reconcileCancellationBarrier.
  apply wp_try, wp_quiet; [apply quiet_taskCancelled|]. intros [err|c] db1 Hr1; [by apply wp_ret|].
  apply (wp_stable _ _ _ _ _ db); [|done].
  destruct (negb (nb_node_id b ≟ op_NodeID p)) eqn:En; [by apply wp_ret|].
  apply negb_false_iff, bool_decide_eq_true in En. cbv zeta.
  destruct (negb _); [apply wp_quiet; [quiet|done]|].
  assert (∀ code, quiet (deferCancellationBarrier p b code)) as Hdefer
    by (intros; unfold deferCancellationBarrier; quiet).
  destruct (_ ≟ "") eqn:Es; [by apply wp_quiet|].
  destruct (x_request_of_json x _) as [r|] eqn:Er; [|by apply wp_quiet].
  destruct (negb (er_OperationID r ≟ nb_operation_id b)) eqn:Eo; [by apply wp_quiet|].
  apply negb_false_iff, bool_decide_eq_true in Eo.
  apply wp_bind, wp_create_execution; [done| |].
  - intros Et text Ej. destruct Hg as [[Hv _] Hm].
    destruct (Hm b Hb Et) as (a' & [Ha' (s & Hs & Ess)] & Eid & Eop & End).
    assert (a' = a) as ->.
    { apply (NoDup_map_inj sa_id (db_stage_attempts db)); [|congruence..].
      apply sv_attempts in Hv. simpl in Hv. rewrite !andb_true_iff in Hv. apply distinct_NoDup, Hv. }
    exists a, s. split_and!; try (done || congruence). unfold body_of.
    destruct (coalesce_str _) as [|ch rest]; [done|]. rewrite Er. exact Ej.
  - intros ref db4 _. apply wp_quiet; [quiet|done].
Qed.

Lemma wp_process_stage rounds p token stage db :
  canonical_requests → cl_NodeID (op_Client p) = op_NodeID p → known_stage stage db →
  wp (process_stage x rounds p token stage) ok db.
Proof.
  intros Hc Ec Hk. unfold process_stage. apply wp_try, wp_quiet; [apply quiet_taskCancelled|].
  intros [err|[]] db1 Hr1; try by apply wp_ret. apply (wp_stable _ _ _ _ _ db); [|done].
  apply wp_bind. eapply wp_mono; [by apply wp_frame, wp_resumeStageAttempt|].
  intros [r|] db2 [_ Hr2]; [by apply wp_ret|]. apply wp_dispatch; [done..|].
  by apply (known_stage_stable _ db).
Qed.

Lemma wp_ProcessOne rounds p db :
  canonical_requests → cl_NodeID (op_Client p) = op_NodeID p → good db → wp (ProcessOne x rounds p) ok db.
Proof.
  intros Hc Ec Hg. unfold ProcessOne. destruct (_ ≟ ""); [by apply wp_ret|].
  apply wp_bind, wp_store; [intros db1 f db2 _ _ []; by apply wp_ret|].
  intros db1 e Hr1 _. split; [reflexivity|]. intros db2 Hr2. unfold reading in *. cbn [fst snd] in *.
  assert (good db1) as Hg1 by (by apply (rely_good db)). apply (wp_stable _ _ _ _ _ db1); [|done].
  destruct (GetNodeDispatchBarrier _ db1) as [err|[b a]] eqn:Eb.
  - destruct err; try by apply wp_ret.
    apply wp_bind, wp_environment. intros e1 db3 _ Hr3. cbv zeta.
    apply wp_bind, wp_store; [intros db4 f db5 _ _ []; by apply wp_ret|].
    intros db4 e2 Hr4 _. assert (rely db4 (ClaimStage e2 (op_NodeID p) (env_uuid e1 0) (leaseDuration p) db4).2)
      as Hs by (apply rtc_once; constructor). split; [done|]. intros db5 Hr5.
    destruct (ClaimStage e2 _ _ _ db4).1 as [err|stage] eqn:Ecl; [destruct err; by apply wp_ret|].
    apply ClaimStage_claimed in Ecl.
    set (db6 := (ClaimStage _ _ _ _ db4).2) in *. clearbody db6.
    apply (wp_stable _ _ _ _ _ db6); [|done]. apply wp_process_stage; [done..|]. split.
    + apply (rely_good db1); [|done]. by do 2 (etrans; [eassumption|]).
    + intros Et. exists stage. split; [by split|reflexivity].
  - apply GetNodeDispatchBarrier_inr in Eb as (Hb & Ha & Ea & En).
    apply wp_bind, wp_environment. intros e1 db3 _ Hr3. apply (wp_stable _ _ _ _ _ db1); [|done].
    destruct (_ <? _); [by apply wp_ret|]. by apply wp_reconcile.
Qed.
End of_task.

(** C5: an execution is never asked for off the record, nor under one key with two
    requests.  Take any execution of the workers of any number of nodes, resuming
    and cancelling, interleaved with any operations of the store by anybody (short
    of deleting the task), with passes that stop at any point, store calls that
    fail and nodes that answer anything.  Whenever an execution for the task is
    asked of a node, the store has an attempt at a stage of the task whose
    operation is the idempotency key, whose node is the node asked and whose
    recorded request is the body sent; and two requests under one key go to the same
    node with the same body. *)
Theorem executions_recorded keep db0 c :
  canonical_requests → wf db0 → barriers_match keep db0 →
  rtc (steps (λ _, True) (step keep) orchestrating) (mkConfig [] db0 []) c →
  ∀ node r text db, (existT _ (OnNode keep (NodeDo node r)), db) ∈ trace c → hq_Body r = JsonBody text →
    recorded keep node (hq_IdempotencyKey r) text db ∧
    ∀ node' r' text' db', (existT _ (OnNode keep (NodeDo node' r')), db') ∈ trace c →
      hq_Body r' = JsonBody text' → hq_IdempotencyKey r' = hq_IdempotencyKey r →
      node' = node ∧ text' = text.
Proof.
  intros Hj Hw Hb Hc.
  destruct (adequacy (λ _, True) (step keep) (only_recorded keep) orchestrating db0 c)
    as (Hr0 & _ & Htr); [|done|].
  { intros prog db [rounds p Ec] Hr. apply wp_bind. eapply wp_mono; [|intros; by apply wp_ret].
    apply wp_ProcessOne; [done..|]. by apply (rely_good keep db0). }
  assert (∀ db, rtc (step keep) db0 db → good keep db) as Hgood by (intros db Hr; by apply (rely_good keep db0)).
  rewrite Forall_forall in Htr. intros node r text db Hin Et.
  destruct (Htr _ Hin) as (Hg & Hr1 & Hr). simpl in Hg, Hr1, Hr. specialize (Hg eq_refl text Et).
  split; [done|]. intros node' r' text' db' Hin' Et' Ek.
  destruct (Htr _ Hin') as (Hg' & Hr1' & Hr'). simpl in Hg', Hr1', Hr'. specialize (Hg' eq_refl text' Et').
  apply (recorded_stable keep _ _ _ _ _ Hr) in Hg; [|auto]. apply (recorded_stable keep _ _ _ _ _ Hr') in Hg'; [|auto].
  rewrite Ek in Hg'. apply (recorded_unique keep (cdb c) _ (hq_IdempotencyKey r)); [|done..].
  by apply (Hgood (cdb c)).
Qed.
End safety.
