(* ===== verification/RemoteSafety.v ===== *)
(** * What the remote worker asks of a service

    The workers of a node, a heartbeat per pass, cancellations and every other
    user of the store run concurrently, may fail or be stopped at any point,
    and start again.  Whatever they do, a task is only ever submitted to one
    node, with one key and one body, and only after the intent to submit was
    recorded. *)

From stdpp Require Import relations.
From Stdlib Require Import SpecFloat.
From S2P Require Import Prelude Domain Tx Database Sql Workers GoStrings GoFloat GoNet Netguard Catalog Paging TaskRouting Callbacks Queue Stages Artifacts Remote Tasks Official Delivery Nodes Normalize Router InputSpool RemoteInputs Lifecycle RemoteWorker Reachable.

Section safety.
Context (url_Parse : string → option URL) (ParseQuery : string → option (string → list string)).
Context (EqualFold : string → string → bool) (is_local : string → bool).
Context (request_len : Task → Z) (submission_json : string → list GenerationContent → Z → string).
Context (body_model : string → option string).
Context (asset_json : Asset → string) (asset_of_json : string → option Asset).
Context (metadata_json : Metadata → string → option string → string).
Context (format_date : Z → string).

#[local] Abbreviation ProcessTask := (ProcessTask url_Parse ParseQuery EqualFold is_local request_len
  submission_json body_model asset_json asset_of_json metadata_json format_date).
#[local] Abbreviation ProcessOne := (ProcessOne url_Parse ParseQuery EqualFold is_local request_len
  submission_json body_model asset_json asset_of_json metadata_json format_date).
#[local] Abbreviation Resume := (Resume url_Parse ParseQuery EqualFold is_local request_len
  submission_json body_model asset_json asset_of_json metadata_json format_date).

(** The programs a proxy runs for its TK2SD nodes. *)
Inductive remote_program : Prog RemoteE unit → Prop :=
  | remote_ProcessOne p : remote_program (ProcessOne p ≫= λ _, mret tt)
  | remote_ProcessTask p task : remote_program (ProcessTask p task ≫= λ _, mret tt)
  | remote_Resume p : remote_program (Resume p ≫= λ _, mret tt)
  | remote_heartbeat n p run : remote_program (heartbeat n p run)
  | remote_RequestCancel taskID : remote_program (RequestCancel taskID ≫= λ _, mret tt).

Section of_task.
(** The task the guarantee is about; nobody deletes it. *)
Context (keep : string).

#[local] Abbreviation rely := (rtc (step keep)).

(** The run of the task under which [body] may be submitted. *)
Definition submittable (node body key : string) (db : DB) : Prop :=
  ∃ r, r ∈ db_remote_runs db ∧ rr_task_id r = keep ∧ rr_node_id r = node ∧
    rr_submission_key r = key ∧ rr_request_body_json r = Some body ∧
    2 ≤ phase_rank (rr_phase r).

Definition only_intended (X : Type) (c : RemoteE X) (db : DB) : Prop :=
  match c with
  | Submit task node body key => task = keep → submittable node body key db
  | _ => True
  end.

#[local] Abbreviation quiet := (quiet (step keep) only_intended).
#[local] Abbreviation wp := (wp (λ _, True) (step keep) only_intended).

Lemma rely_wf db db' : rely db db' → wf db → wf db'.
Proof.
  induction 1 as [|db1 db2 db3 Hs _ IH]; [done|]. intros Hw. apply IH. by apply (step_wf keep db1).
Qed.

Lemma rely_evolves db db' : rely db db' → evolves keep db db'.
Proof.
  induction 1 as [|db1 db2 db3 Hs _ IH]; [reflexivity|]. etrans; [by apply step_evolves|done].
Qed.

Lemma submittable_stable node body key db db' :
  rely db db' → submittable node body key db → submittable node body key db'.
Proof.
  intros [_ H]%rely_evolves (r & Hr & Et & En & Ek & Eb & Hp).
  destruct (H r Hr Et) as (r' & Hr' & Et' & _ & _ & En' & Ek' & Hb).
  destruct Hb as (? & Eb' & _); [lia|]. exists r'. split_and!; (congruence || done || lia).
Qed.

(** ** Programs that submit nothing *)

Ltac quiet := quiet_by ltac:(constructor) ltac:(exact I).

Lemma quiet_Validate ports raw : quiet (translate (@Net) (Netguard.Validate url_Parse ports raw)).
Proof. apply quiet_translate; [apply Validate_storeless|done]. Qed.
#[local] Hint Resolve quiet_Validate : quiet.

Lemma quiet_open ports root e raw kind meta :
  quiet (RemoteInputs.open url_Parse ports is_local root e raw kind meta).
Proof. unfold RemoteInputs.open, open_local, open_url. quiet. Qed.
#[local] Hint Resolve quiet_open : quiet.

Lemma quiet_upload ports root e task node i item files :
  quiet (upload url_Parse ports is_local asset_json root e task node i item files).
Proof. unfold upload, upload_source. quiet. Qed.
#[local] Hint Resolve quiet_upload : quiet.

Lemma quiet_prepare_contents ports root task run files i total cs :
  quiet (prepare_contents url_Parse ports is_local asset_json asset_of_json root task run files i total cs).
Proof.
  revert i total. induction cs as [|c cs IH]; intros i total; simpl; [done|].
  unfold asset_of. cbv zeta. quiet.
Qed.
#[local] Hint Resolve quiet_prepare_contents : quiet.

Lemma quiet_prepare p task run :
  quiet (prepare url_Parse is_local request_len submission_json asset_json asset_of_json p task run).
Proof. unfold prepare, Prepare. cbv zeta. quiet. Qed.

Lemma quiet_complete run c : quiet (complete run c).
Proof. unfold complete. quiet. Qed.
#[local] Hint Resolve quiet_complete quiet_prepare : quiet.

Lemma quiet_terminal p task run result :
  quiet (terminal url_Parse ParseQuery EqualFold metadata_json format_date p task run result).
Proof. unfold terminal, ValidateResultURL. cbv zeta. quiet. Qed.

Lemma quiet_observe p task run status c : quiet (observe p task run status c).
Proof. unfold observe. quiet. Qed.
#[local] Hint Resolve quiet_terminal quiet_observe : quiet.

Lemma quiet_poll p task run :
  quiet (poll url_Parse ParseQuery EqualFold metadata_json format_date p task run).
Proof. unfold poll, cancel_queued. cbv zeta. quiet. Qed.
#[local] Hint Resolve quiet_poll : quiet.

Lemma quiet_heartbeat n p run : quiet (heartbeat n p run).
Proof. induction n as [|n IH]; cbn [heartbeat]; quiet. Qed.

(** ** Submitting *)

(** What a worker knows of the run it works on: if it is the run of the task,
    the row has evolved from it. *)
Definition known (r : RemoteRun) (db : DB) : Prop :=
  wf db ∧ (rr_task_id r = keep → ∃ row, row ∈ db_remote_runs db ∧ run_evolves r row).

Lemma known_stable r db db' : rely db db' → known r db → known r db'.
Proof.
  intros Hr [Hw Hk]. split; [by eapply rely_wf|]. intros E. destruct (Hk E) as (row & Hrow & Hev).
  destruct (rely_evolves _ _ Hr) as [_ H]. destruct (H row Hrow) as (row' & ? & ?).
  { by rewrite (proj1 Hev). }
  exists row'. split; [done|by etrans].
Qed.

Lemma known_row r db : wf db → r ∈ db_remote_runs db → known r db.
Proof. intros Hw Hr. split; [done|]. intros _. exists r. split; [done|reflexivity]. Qed.

Lemma wf_run_unique db r1 r2 :
  wf db → r1 ∈ db_remote_runs db → r2 ∈ db_remote_runs db → rr_task_id r1 = rr_task_id r2 → r1 = r2.
Proof.
  intros [Hs _] ???. apply (NoDup_map_inj rr_task_id (db_remote_runs db)); [|done..].
  by apply runs_valid_NoDup, sv_runs.
Qed.

(** Once [BeginRemoteSubmission] has succeeded, the prepared body may be
    submitted. *)
Lemma BeginRemoteSubmission_submittable e r body db :
  known r db → rr_task_id r = keep → 1 ≤ phase_rank (rr_phase r) →
  rr_request_body_json r = Some body →
  (BeginRemoteSubmission e r db).1 = inr tt →
  submittable (rr_node_id r) body (rr_submission_key r) (BeginRemoteSubmission e r db).2.
Proof.
  intros Hk Et Hp Eb Hok.
  assert (rely db (BeginRemoteSubmission e r db).2) as Hr by (apply rtc_once; constructor).
  destruct (known_stable _ _ _ Hr Hk) as [Hw' Hk'].
  destruct (Hk' Et) as (row & Hrow & Et' & _ & _ & En & Ek & Hbody).
  destruct (BeginRemoteSubmission e r db) as [res db'] eqn:E. simpl in *. subst res.
  unfold BeginRemoteSubmission in E. apply statement_inr in E. sql_inv E.
  apply one_row in E as (x & Hx & Hpx). simpl in Hx.
  pose (f := λ x : RemoteRun, x <| rr_phase := RemoteSubmitIntent |>
    <| rr_submit_attempts := rr_submit_attempts x + 1 |> <| rr_updated_at := nowUnix e |>).
  assert (row = f x) as ->.
  { eapply (wf_run_unique _ _ _ Hw'); [exact Hrow| |].
    - simpl. apply elem_of_update_where. exists x. by rewrite Hpx.
    - rewrite Et'. subst f. simpl. rewrite !andb_true_iff in Hpx. destruct Hpx as [[Hh _] _].
      unfold held in Hh. rewrite !andb_true_iff, bool_decide_eq_true in Hh. symmetry. apply Hh. }
  destruct (Hbody Hp) as (_ & Eb' & _). exists (f x). split_and!; [done|congruence..|done].
Qed.

#[local] Abbreviation ok := (λ _ _, True).

Lemma wp_submit p task run db :
  known run db → rr_task_id run = vt_task_id task → rr_node_id run = pr_NodeID p →
  1 ≤ phase_rank (rr_phase run) →
  wp (submit url_Parse ParseQuery EqualFold body_model metadata_json format_date p task run) ok db.
Proof.
  intros Hk Et En Hp. unfold submit. apply wp_bind, wp_environment. intros e db1 _ Hr1.
  cbv zeta. destruct (_ || _) eqn:Ebody; [by apply wp_ret|].
  apply orb_false_iff in Ebody as [[Hne _]%orb_false_iff _].
  apply bool_decide_eq_false in Hne.
  apply wp_bind, wp_store; [intros; by apply wp_ret|].
  intros db2 e' Hr2 _. split; [apply rtc_once; constructor|]. intros db3 Hr3.
  destruct (BeginRemoteSubmission e' run db2).1 as [err|[]] eqn:Eok; [by apply wp_ret|].
  apply wp_bind, wp_call.
  - intros db4 Hr4 Ekeep. rewrite <-En.
    apply (submittable_stable _ _ _ (BeginRemoteSubmission e' run db2).2); [by etrans|].
    destruct (rr_request_body_json run) as [body|] eqn:Ej; [|done]. simpl.
    apply BeginRemoteSubmission_submittable; [|congruence|done..].
    eapply known_stable; [|exact Hk]. by etrans.
  - intros r db4 _. apply wp_quiet; [ |done]. unfold reloadRun. quiet.
Qed.

Lemma GetRemoteRun_inr taskID db r :
  GetRemoteRun taskID db = inr r → r ∈ db_remote_runs db ∧ rr_task_id r = taskID.
Proof.
  unfold GetRemoteRun. destruct (List.find _ _) as [x|] eqn:E; [|done]. intros [= ->].
  apply find_elem_of in E as [? ?%bool_decide_eq_true]. done.
Qed.

Lemma wp_reloadRun run (Q : error + RemoteRun → DB → Prop) db :
  wf db → (∀ err db', Q (inl err) db') →
  (∀ r db', known r db' → rr_task_id r = rr_task_id run → rr_node_id r = rr_node_id run → Q (inr r) db') →
  wp (reloadRun run) Q db.
Proof.
  intros Hw Herr HQ. unfold reloadRun. apply wp_try, wp_store.
  { intros. apply wp_ret. auto. }
  intros db1 e Hr _. split; [reflexivity|]. intros db2 Hr2. unfold reading in *. cbn [fst snd] in *.
  destruct (GetRemoteRun _ db1) as [err|r] eqn:E; [apply wp_ret; auto|].
  destruct (_ || _) eqn:Eq; [apply wp_ret; auto|]. apply wp_ret. intros db3 Hr3.
  apply orb_false_iff in Eq as [_ Eq]. apply negb_false_iff, bool_decide_eq_true in Eq.
  apply GetRemoteRun_inr in E as [Hin E]. apply HQ; [|done..].
  apply (known_stable _ db1); [by etrans|]. apply known_row; [|done]. by eapply rely_wf.
Qed.

Lemma wp_advance_prepared p task run db :
  known run db → rr_task_id run = vt_task_id task → rr_node_id run = pr_NodeID p →
  wp (advance_prepared url_Parse ParseQuery EqualFold body_model metadata_json format_date p task run) ok db.
Proof.
  intros Hk Et En. unfold advance_prepared. destruct (_ ∈? _) eqn:E.
  - apply wp_submit; [done..|]. apply bool_decide_eq_true in E.
    destruct (rr_phase run); simpl; (lia || set_solver).
  - apply wp_quiet; [quiet|done].
Qed.

Lemma wp_advance p task run db :
  known run db → rr_task_id run = vt_task_id task → rr_node_id run = pr_NodeID p →
  wp (advance url_Parse ParseQuery EqualFold is_local request_len submission_json body_model
        asset_json asset_of_json metadata_json format_date p task run) ok db.
Proof.
  intros Hk Et En. unfold advance. destruct (rr_reconciliation_required run); [by apply wp_ret|].
  destruct (_ && _); [apply wp_quiet; [quiet|done]|].
  destruct (_ ≟ RemotePreparing); [|by apply wp_advance_prepared].
  apply wp_bind, wp_quiet; [apply quiet_prepare|]. intros [err|body] db1 Hr1.
  { cbv zeta. apply wp_quiet; [quiet|done]. }
  apply wp_bind, wp_store; [intros; by apply wp_ret|].
  intros db2 e Hr2 _. assert (rely db2 (PrepareRemoteRequest e run body db2).2) as Hs
    by (apply rtc_once; constructor).
  split; [done|]. intros db3 Hr3. destruct (PrepareRemoteRequest e run body db2).1; [by apply wp_ret|].
  apply wp_bind, wp_reloadRun; [|intros; by apply wp_ret|].
  - eapply (rely_wf db); [|apply Hk]. by repeat (etrans; [eassumption|]).
  - intros r db4 Hk4 Et4 En4. apply wp_advance_prepared; congruence.
Qed.

Lemma AcquireRemoteLease_run e task node token ttl db r :
  wf db → (AcquireRemoteLease e task node token ttl db).1 = inr r →
  r ∈ db_remote_runs (AcquireRemoteLease e task node token ttl db).2 ∧
  rr_task_id r = task ∧ rr_node_id r = node.
Proof.
  intros [Hs _] H. destruct (AcquireRemoteLease _ _ _ _ _ _) as [x db'] eqn:E. simpl in *. subst x.
  apply AcquireRemoteLease_row in E as (r0 & _ & ? & ? & _ & -> & ? & _); [done|by apply sv_runs].
Qed.

Lemma wp_ProcessTask p task db : wf db → wp (ProcessTask p task) ok db.
Proof.
  intros Hw. unfold RemoteWorker.ProcessTask. destruct (_ || _); [by apply wp_ret|].
  apply wp_bind, wp_environment. intros e db1 _ Hr1.
  apply wp_bind, wp_store; [intros; by apply wp_ret|].
  intros db2 e' Hr2 _. split; [apply rtc_once; constructor|]. intros db3 Hr3.
  assert (wf db2) as Hw2 by (eapply rely_wf; [|exact Hw]; by etrans).
  destruct (AcquireRemoteLease e' _ _ _ _ db2).1 as [err|run] eqn:E; [by apply wp_ret|].
  destruct (AcquireRemoteLease_run _ _ _ _ _ _ _ Hw2 E) as (Hin & Et & En).
  apply wp_bind. eapply wp_mono; [apply wp_advance; [|done..]|].
  - eapply known_stable; [exact Hr3|]. apply known_row; [|done].
    apply (rely_wf db2); [|done]. apply rtc_once. constructor.
  - intros [[code reconcile] err] db4 _. apply wp_quiet; [quiet|done].
Qed.

Lemma wp_resume_tasks p tasks result db :
  wf db → wp (resume_tasks url_Parse ParseQuery EqualFold is_local request_len submission_json
    body_model asset_json asset_of_json metadata_json format_date p tasks result) ok db.
Proof.
  revert result db. induction tasks as [|task tasks IH]; intros result db Hw; cbn [resume_tasks];
    [by apply wp_ret|].
  apply wp_bind, wp_stopped. intros [] db1 Hr1; [by apply wp_ret|].
  assert (wf db1) as Hw1 by (by eapply rely_wf).
  apply wp_bind. eapply wp_mono; [by apply wp_frame, wp_ProcessTask|].
  intros err db2 [_ Hr2]. apply IH. by eapply rely_wf.
Qed.

Lemma wp_claimed p admission db :
  wf db →
  wp (task ← store (λ e, ClaimNextRemote e (pr_Options p) (pr_NodeID p) (pr_NodeVersion p)
                           (pr_Capacity p) admission);
      match task with inl err => mret [err] | inr task => ProcessTask p task end) ok db.
Proof.
  intros Hw. apply wp_bind, wp_store; [intros; by apply wp_ret|].
  intros db1 e Hr1 _. split; [apply rtc_once; constructor|]. intros db2 Hr2.
  destruct (ClaimNextRemote e _ _ _ _ _ db1).1; [by apply wp_ret|]. apply wp_ProcessTask.
  apply (rely_wf db); [|done]. etrans; [exact Hr1|]. etrans; [|exact Hr2].
  apply rtc_once. constructor.
Qed.

Lemma wp_ignored {A} (m : Prog RemoteE A) db : wp m ok db → wp (m ≫= λ _, mret tt) ok db.
Proof. intros H. apply wp_bind. eapply wp_mono; [exact H|]. intros a db' _. by apply wp_ret. Qed.

Lemma wp_remote_program prog db : remote_program prog → wf db → wp prog ok db.
Proof.
  intros Hp Hw. destruct Hp as [p|p task|p|n p run|task]; try apply wp_ignored.
  - unfold RemoteWorker.ProcessOne. cbv zeta. destruct (pr_Admission p); [|by apply wp_claimed].
    apply wp_bind, wp_call; [done|]. intros [a|] db1 Hr1; [|by apply wp_ret].
    apply wp_claimed. by eapply rely_wf.
  - by apply wp_ProcessTask.
  - unfold RemoteWorker.Resume. apply wp_bind, wp_store; [intros; by apply wp_ret|].
    intros db1 e Hr1 _. split; [reflexivity|]. intros db2 Hr2.
    unfold reading in *. cbn [fst snd] in *. apply wp_resume_tasks.
    apply (rely_wf db); [by etrans|done].
  - apply wp_quiet; [apply quiet_heartbeat|done].
  - apply wp_quiet; [unfold RequestCancel; quiet|done].
Qed.

End of_task.

(** C3: a task is never submitted twice under two identities.  Take any
    execution of any number of workers of TK2SD nodes, heartbeats and
    cancellations, interleaved with any operations of the store by anybody
    (short of deleting the task), with passes that crash at any point, store
    calls that fail and services that answer anything.  Whenever the task is
    submitted, its run has recorded the intent under exactly the node, the
    submission key and the request body that are sent; and all submissions of
    the task carry the same node, key and body, so that a service that honours
    the key generates one video. *)
Theorem submissions_agree keep db0 c :
  wf db0 → rtc (steps (λ _, True) (step keep) remote_program) (mkConfig [] db0 []) c →
  ∀ node body key db, (existT _ (Submit keep node body key), db) ∈ trace c →
    submittable keep node body key db ∧
    ∀ node' body' key' db', (existT _ (Submit keep node' body' key'), db') ∈ trace c →
      node' = node ∧ body' = body ∧ key' = key.
Proof.
  intros Hw Hc. destruct (adequacy (λ _, True) (step keep) (only_intended keep) remote_program db0 c)
    as (Hr0 & _ & Htr); [|done|].
  { intros p db Hp Hr. apply wp_remote_program; [done|]. by apply (rely_wf keep db0). }
  rewrite Forall_forall in Htr. intros node body key db Hin.
  destruct (Htr _ Hin) as (Hg & _ & Hr). specialize (Hg eq_refl). simpl in Hg, Hr. split; [done|].
  intros node' body' key' db' Hin'. destruct (Htr _ Hin') as (Hg' & _ & Hr').
  specialize (Hg' eq_refl). simpl in Hg', Hr'.
  apply (submittable_stable _ _ _ _ _ _ Hr) in Hg as (r & Hin1 & Et & En & Ek & Eb & _).
  apply (submittable_stable _ _ _ _ _ _ Hr') in Hg' as (r' & Hin2 & Et' & En' & Ek' & Eb' & _).
  assert (r' = r) as -> by (apply (wf_run_unique (cdb c)); [by apply (rely_wf keep db0)|congruence..]).
  split_and!; congruence.
Qed.
End safety.
