(* ===== verification/CallbackWorker.v ===== *)
(** * Delivering notifications (internal/callback/worker.go, service.go,
    persistent_store.go)

    One pass claims the oldest delivery that is due, signs its body, posts it
    through the guarded client and settles the delivery or schedules a retry
    with exponential backoff. *)

From S2P Require Import Prelude Domain Tx Database Sql Workers GoStrings GoNet Callbacks InputSpool.

(** ** Backoff *)

Record Worker := mkWorker {
  wk_MaxAttempts : Z;
  wk_InitialBackoff : Z;     (** durations in nanoseconds *)
  wk_MaxBackoff : Z;
  wk_LeaseDuration : Z
}.

Definition initial_backoff (w : Worker) : Z :=
  if wk_InitialBackoff w <=? 0 then Second else wk_InitialBackoff w.
Definition maximum_backoff (w : Worker) : Z :=
  if wk_MaxBackoff w <=? 0 then 300 * Second else wk_MaxBackoff w.

(** [None] is the panic of a shift by a negative count. *)
Definition backoff (w : Worker) (attempt : Z) : option Z :=
  let initial := initial_backoff w in
  let maximum := maximum_backoff w in
  let power := if 30 <? attempt - 1 then 30 else attempt - 1 in
  if power <? 0 then None
  else
    let factor := Z.shiftl 1 power in
    Some (if (maximum <=? initial) || (Z.quot maximum factor <? initial) then maximum
          else wrap64 (initial * factor)).

Definition maxAttempts (w : Worker) : Z := if wk_MaxAttempts w <=? 0 then 5 else wk_MaxAttempts w.
Definition leaseDuration (w : Worker) : Z :=
  if wk_LeaseDuration w <=? 0 then 30 * Second else wk_LeaseDuration w.

(** ** The service *)

Record Delivery := mkDelivery {
  dl_ID : string;
  dl_TaskID : string;
  dl_ExternalStatus : string;
  dl_StateVersion : Z;
  dl_AttemptCount : Z;
  dl_CallbackURL : string;
  dl_SigningSecret : string;
  dl_Body : string;
  dl_BodyHash : string
}.

Record DeliveryResult := mkResult {
  dr_Success : bool;
  dr_Retryable : bool;
  dr_HTTPStatus : Z;
  dr_Error : string;     (** the text of the error; none on success *)
  dr_ResponseSnippet : string
}.
Definition failed_result (retryable : bool) (status : Z) (message : string) : DeliveryResult :=
  mkResult false retryable status message "".

(** A request of the guarded client: its target, the headers that depend on the
    delivery, and the body. *)
Record Request := mkRequest {
  rq_URL : string;
  rq_EventID : string;
  rq_Timestamp : string;
  rq_Signature : string;
  rq_Body : string
}.
(** What comes of it: refused by the guard, failed on the network, or answered;
    then the body as it was read, and whether reading it failed other than by
    its size. *)
Inductive answer :=
  | Unsafe
  | Failed
  | Answered (status : Z) (body : string) (broken : bool).

Inductive CallbackE : Type → Type :=
  | Post (r : Request) : CallbackE answer
  | PostChallenge (url body : string) : CallbackE answer
  | RandomChallenge : CallbackE (option string).   (** 32 random bytes in hexadecimal *)

Definition isExternalStatus (status : string) : bool :=
  status ∈? ["queued"; "running"; "succeeded"; "failed"; "cancelled"].

Definition ErrInvalidDelivery : string := "callback 投递无效".
Definition ErrSignatureConfig : string := "callback 签名配置无效".

Definition validateDelivery (e : Env) (d : Delivery) : option string :=
  if (dl_ID d ≟ "") || (dl_TaskID d ≟ "") || (dl_StateVersion d <? 1)
     || negb (isExternalStatus (dl_ExternalStatus d)) || (TrimSpace (dl_CallbackURL d) ≟ "")
     || (len (dl_Body d) =? 0)
  then Some ErrInvalidDelivery
  else if len (dl_SigningSecret d) <? 32 then Some ErrSignatureConfig
  else if negb (dl_BodyHash d ≟ env_sha256_hex e (dl_Body d))
  then Some (String.append ErrInvalidDelivery ": Body 哈希不匹配")
  else None.

Section service.
(** The parse of [http.NewRequest]; HMAC-SHA256 in hexadecimal; the cipher of
    the callback URLs and the derivation of the signing keys. *)
Context (url_Parse : string → option URL) (hmac_hex : string → string → string).
Context (Open : option string → option string → option string).
Context (DeriveCallbackSigningKey : string → option string).
(** [maxResponseBytes] of the service. *)
Context (maxResponseBytes : Z).

Definition sign (secret timestamp body : string) : string :=
  String.append "v1=" (hmac_hex secret (String.concat "." [timestamp; body])).

(** [readSnippet] of a body the guard already bounds. *)
Definition readSnippet (limit : Z) (body : string) : string :=
  if limit <? len body then String.substring 0 (Z.to_nat limit) body else body.
Definition responseLimit : Z := if maxResponseBytes <=? 0 then 65536 else maxResponseBytes.

Definition Deliver (d : Delivery) : Prog CallbackE DeliveryResult :=
  e ← environment;
  match validateDelivery e d with
  | Some err => mret (failed_result false 0 err)
  | None =>
      let timestamp := Itoa (nowUnix e) in
      let signature := sign (dl_SigningSecret d) timestamp (dl_Body d) in
      match url_Parse (dl_CallbackURL d) with
      | None => mret (failed_result false 0 ErrInvalidDelivery)
      | Some _ =>
          r ← call (Post (mkRequest (dl_CallbackURL d) (dl_ID d) timestamp signature (dl_Body d)));
          mret match r with
          | Unsafe => failed_result false 0 "callback URL 安全校验失败"
          | Failed => failed_result true 0 "callback 网络请求失败"
          | Answered status body broken =>
              if (200 <=? status) && (status <? 300)
              then if broken then failed_result true status "读取 callback 响应失败"
                   else mkResult true false status "" ""
              else mkResult false ((status =? 408) || (status =? 429) || (500 <=? status)) status
                     (String.append "callback 返回 HTTP " (Itoa status))
                     (readSnippet responseLimit body)
          end
      end
  end.

(** ** Registering a target *)

(** The JSON of a challenge, and the strict decoding of its echo: one object
    with no other field, then the end. *)
Context (challenge_json : string → string) (echoed : string → option string).
Context (Seal : string → option (string * string * string)).

Definition ErrChallengeFailed : string := "callback challenge 验证失败".

Definition target_of (callbackURL : option string) : string :=
  match callbackURL with Some u => TrimSpace u | None => "" end.

Definition Challenge (callbackURL : option string) : Prog CallbackE (option string) :=
  if target_of callbackURL ≟ "" then mret None
  else
  challenge ← call RandomChallenge;
  match challenge with
  | None => mret (Some "生成 callback challenge")
  | Some challenge =>
      match url_Parse (target_of callbackURL) with
      | None => mret (Some (String.append ErrChallengeFailed ": 请求无效"))
      | Some _ =>
          r ← call (PostChallenge (target_of callbackURL) (challenge_json challenge));
          mret match r with
          | Unsafe | Failed => Some (String.append ErrChallengeFailed ": 网络请求失败")
          | Answered status body broken =>
              if (status <? 200) || (300 <=? status)
              then Some (String.concat "" [ErrChallengeFailed; ": HTTP "; Itoa status])
              else if broken then Some (String.append ErrChallengeFailed ": 响应体无效")
              else if echoed body ≟ Some challenge then None
              else Some ErrChallengeFailed
          end
      end
  end.

(** The nonce, the ciphertext and the fingerprint to store; [None] for no
    callback. *)
Definition PrepareTarget (callbackURL : option string)
    : Prog CallbackE (string + option (string * string * string)) :=
  if target_of callbackURL ≟ "" then mret (inr None)
  else
  err ← Challenge callbackURL;
  mret match err with
  | Some err => inl err
  | None => match Seal (target_of callbackURL) with
            | None => inl "加密 callback URL"
            | Some sealed => inr (Some sealed)
            end
  end.

(** [NewDelivery] with the JSON of the body. *)
Definition NewDelivery (e : Env) (body : string) (eventID taskID status : string) (stateVersion : Z)
    : option Delivery :=
  if (TrimSpace eventID ≟ "") || (TrimSpace taskID ≟ "") || (stateVersion <? 1)
     || negb (isExternalStatus status)
  then None
  else Some (mkDelivery eventID taskID status stateVersion 0 "" "" body (env_sha256_hex e body)).

(** ** The store of the worker (persistent_store.go) *)

(** The columns of video_tasks the claim reads along with the delivery. *)
Definition ClaimCallback_raw (nowMS untilMS : Z) (db : DB)
    : (error + (CallbackDelivery * Task)) * DB :=
  match ClaimCallbackDelivery nowMS untilMS db with
  | (inl err, db') => (inl err, db')
  | (inr d, db') =>
      (match List.find (λ t, vt_task_id t ≟ cd_task_id d) (db_video_tasks db) with
       | Some t => inr (d, t)
       | None => inl ErrNoRows
       end, db')
  end.

(** The delivery to send, after the claim is committed. *)
Definition open_delivery (d : CallbackDelivery) (t : Task) : error + Delivery :=
  match Open (vt_callback_url_nonce (vt_request t)) (vt_callback_url_ciphertext (vt_request t)) with
  | None => inl (ErrText "callback URL 解密失败")
  | Some callbackURL =>
      match DeriveCallbackSigningKey (vt_api_key_id (vt_request t)) with
      | None => inl (ErrText "callback 签名密钥配置无效")
      | Some signingKey =>
          inr (mkDelivery (cd_id d) (cd_task_id d) (cd_external_status d) (cd_state_version d)
                 (cd_attempt_count d) callbackURL signingKey (cd_request_body d) (cd_request_body_hash d))
      end
  end.

Definition ClaimCallback (nowMS untilMS : Z) (db : DB) : (error + Delivery) * DB :=
  let '(r, db') := ClaimCallback_raw nowMS untilMS db in
  (match r with inl err => inl err | inr (d, t) => open_delivery d t end, db').

(** ** A pass *)

Definition deliveryError (message : string) : string :=
  let message := TrimSpace message in
  if 512 <? len message then String.substring 0 512 message else message.

(** [now.Add(d).UnixMilli()] *)
Definition milli_after (e : Env) (d : Z) : Z := (env_now e * Millisecond + d) / Millisecond.

(** Whether a delivery was worked on, and the error; [None] for a panic. *)
Definition ProcessOne (w : Worker) : Prog CallbackE (option (bool * option error)) :=
  e ← environment;
  let nowMS := nowMillis e in
  claimed ← store (λ _, ClaimCallback nowMS (milli_after e (leaseDuration w)));
  match claimed with
  | inl ErrNoCallbackDelivery => mret (Some (false, None))
  | inl err => mret (Some (false, Some err))
  | inr delivery =>
      let attempt := dl_AttemptCount delivery + 1 in
      result ← Deliver delivery;
      let settled (r : error + unit) :=
        Some (true, match r with inl err => Some err | inr _ => None end) in
      if dr_Success result then
        r ← store (λ _, MarkCallbackSucceeded (dl_ID delivery) (dr_HTTPStatus result) nowMS);
        mret (settled r)
      else
      let message := deliveryError (dr_Error result) in
      if dr_Retryable result && (attempt <? maxAttempts w) then
        match backoff w attempt with
        | None => mret None
        | Some delay =>
            r ← store (λ e', ScheduleCallbackRetry e' (dl_ID delivery) attempt (dr_HTTPStatus result)
                               message (milli_after e delay));
            mret (settled r)
        end
      else
        r ← store (λ e', MarkCallbackFailed e' (dl_ID delivery) attempt (dr_HTTPStatus result) message);
        mret (settled r)
  end.
End service.

(** ** Backoff *)

Lemma positive_backoffs w :
  wk_InitialBackoff w < 2 ^ 63 → wk_MaxBackoff w < 2 ^ 63 →
  0 < initial_backoff w < 2 ^ 63 ∧ 0 < maximum_backoff w < 2 ^ 63.
Proof.
  intros Hi Hm. unfold initial_backoff, maximum_backoff.
  destruct (Z.leb_spec (wk_InitialBackoff w) 0), (Z.leb_spec (wk_MaxBackoff w) 0);
    split_and!; try done; lia.
Qed.

(** The comparison is made by division, so that the product cannot overflow. *)
Lemma capped_product i m f :
  0 < i → 0 < m < 2 ^ 63 → 0 < f →
  (if (m <=? i) || (Z.quot m f <? i) then m else wrap64 (i * f)) = Z.min m (i * f).
Proof.
  intros Hi Hm Hf. pose proof (Z.quot_rem' m f) as Hq. pose proof (Z.rem_bound_pos m f) as Hr.
  destruct (Z.leb_spec m i) as [Hle|Hlt]; simpl; [nia|].
  destruct (Z.ltb_spec (m ÷ f) i) as [Hd|Hd]; [nia|].
  assert (0 < i * f ≤ m) as Hp by nia. rewrite wrap64_id; [lia|]. unfold max_int64. lia.
Qed.

(** The delay before a retry is exponential and capped, whatever the
    configuration.  For the attempt [n] it is the initial delay times two to the
    power [n - 1] (of 30 at most), or the maximum if that is less; the products
    the code computes do not overflow. *)
Theorem backoff_exact w attempt :
  wk_InitialBackoff w < 2 ^ 63 → wk_MaxBackoff w < 2 ^ 63 → 1 ≤ attempt →
  backoff w attempt =
    Some (Z.min (maximum_backoff w) (initial_backoff w * 2 ^ Z.min (attempt - 1) 30)).
Proof.
  intros Hi Hm Ha. destruct (positive_backoffs w Hi Hm) as [? ?]. unfold backoff.
  assert ((if 30 <? attempt - 1 then 30 else attempt - 1) = Z.min (attempt - 1) 30) as ->
    by (destruct (Z.ltb_spec 30 (attempt - 1)); lia).
  rewrite (proj2 (Z.ltb_ge _ _)) by lia. rewrite Z.shiftl_1_l, capped_product; [done|lia|lia|].
  apply Z.pow_pos_nonneg; lia.
Qed.

Lemma backoff_bounded w attempt :
  wk_InitialBackoff w < 2 ^ 63 → wk_MaxBackoff w < 2 ^ 63 → 1 ≤ attempt →
  ∃ d, backoff w attempt = Some d ∧ d ≤ maximum_backoff w.
Proof.
  intros Hi Hm Ha. destruct (positive_backoffs w Hi Hm) as [? ?]. unfold backoff.
  set (power := if 30 <? attempt - 1 then 30 else attempt - 1).
  assert (0 ≤ power) by (unfold power; destruct (Z.ltb_spec 30 (attempt - 1)); lia).
  rewrite (proj2 (Z.ltb_ge _ _)) by lia. rewrite Z.shiftl_1_l, capped_product; [|lia|lia|].
  - eexists. split; [done|lia].
  - apply Z.pow_pos_nonneg; lia.
Qed.

(** ** One pass *)

Definition settled (d : CallbackDelivery) : bool := cd_status d ∈? [CbSucceeded; CbFailed].

(** The row [x] in place of the one with its identifier. *)
Definition put (x : CallbackDelivery) (l : list CallbackDelivery) : list CallbackDelivery :=
  update_where (λ y, cd_id y ≟ cd_id x) (λ _, x) l.

Lemma put_put x x' l : cd_id x' = cd_id x → put x' (put x l) = put x' l.
Proof.
  intros E. unfold put, update_where. rewrite map_map. apply map_ext. intros y. rewrite E.
  destruct (decide (cd_id y = cd_id x)) as [Ey|Ey].
  - by rewrite (bool_decide_eq_true_2 _ Ey), bool_decide_eq_true_2.
  - by rewrite !(bool_decide_eq_false_2 _ Ey).
Qed.

Lemma elem_of_put x l y :
  y ∈ put x l → y = x ∨ (y ∈ l ∧ cd_id y ≠ cd_id x).
Proof.
  intros (z & Hz & ->)%elem_of_update_where.
  destruct (cd_id z ≟ cd_id x) eqn:E; [by left|right]. split; [done|]. by apply bool_decide_eq_false in E.
Qed.

Lemma put_elem x l d : d ∈ l → cd_id x = cd_id d → x ∈ put x l.
Proof.
  intros Hd E. apply elem_of_update_where. exists d. split; [done|]. by rewrite bool_decide_eq_true_2.
Qed.

(** An UPDATE of a delivery that leaves its identity alone. *)
Definition keeps_delivery (f : CallbackDelivery → CallbackDelivery) : Prop :=
  ∀ d, cd_id (f d) = cd_id d ∧ cd_task_id (f d) = cd_task_id d ∧
    cd_state_version (f d) = cd_state_version d.

Lemma callbacks_valid_update p f l :
  keeps_delivery f → (∀ d, d ∈ l → p d = true → 0 ≤ cd_attempt_count (f d)) →
  tbl_valid l = true → tbl_valid (update_where p f l) = true.
Proof.
  intros Hf Ha. simpl. rewrite !andb_true_iff. intros [[H1 H2] H3].
  rewrite !distinct_update; [|by intros d; destruct (Hf d) as (? & -> & ->)|by intros d; apply Hf].
  split; [done|]. rewrite forallb_forall in H3 |- *. intros y Hy%list_elem_of_In.
  apply elem_of_update_where in Hy as (d & Hd & ->).
  specialize (H3 d (proj1 (list_elem_of_In _ _) Hd)).
  destruct (p d) eqn:Ep; [|done]. destruct (Hf d) as (_ & _ & ->).
  apply andb_true_iff in H3 as [-> _]. apply Z.leb_le. by apply Ha.
Qed.

Lemma update_delivery p f db d :
  tbl_valid (db_callback_deliveries db) = true → d ∈ db_callback_deliveries db → p d = true →
  (∀ y, p y = true → cd_id y = cd_id d) → keeps_delivery f → 0 ≤ cd_attempt_count (f d) →
  let l := put (f d) (db_callback_deliveries db) in
  exec_update p f db = Done 1 (db <| db_callback_deliveries := l |>) ∧ tbl_valid l = true.
Proof.
  intros Hv Hd Hp Hkey Hf Ha. pose proof (callbacks_valid _ Hv) as [Hnd _].
  assert (update_where p f (db_callback_deliveries db) = put (f d) (db_callback_deliveries db)) as E.
  { unfold put. rewrite (update_by_key cd_id _ _ _ d); [|done..]. destruct (Hf d) as (-> & _). done. }
  assert (tbl_valid (put (f d) (db_callback_deliveries db)) = true) as Hv'.
  { rewrite <-E. apply callbacks_valid_update; [done| |done]. intros y Hy Hpy.
    assert (y = d) as -> by (apply (NoDup_map_inj cd_id (db_callback_deliveries db)); auto). done. }
  split; [|done]. apply exec_update_Done. change (tbl db) with (db_callback_deliveries db).
  rewrite E. split_and!; [|done|done|done].
  symmetry. by apply (count_by_key cd_id _ _ d).
Qed.

Lemma statement_delivery p f db d :
  tbl_valid (db_callback_deliveries db) = true → d ∈ db_callback_deliveries db → p d = true →
  (∀ y, p y = true → cd_id y = cd_id d) → keeps_delivery f → 0 ≤ cd_attempt_count (f d) →
  statement (exec_update p f) db =
    (inr tt, db <| db_callback_deliveries := put (f d) (db_callback_deliveries db) |>).
Proof.
  intros Hv Hd Hp Hkey Hf Ha. destruct (update_delivery p f db d) as [E _]; [done..|].
  unfold statement, immediate_shadowed, shadowed, mbind, tx_bind. rewrite E. done.
Qed.

Definition sending (nowMS untilMS : Z) (d : CallbackDelivery) : CallbackDelivery :=
  d <| cd_status := CbSending |> <| cd_lease_expires_at := Some untilMS |> <| cd_updated_at := nowMS |>.

(** A delivery that is due, of a task with a callback, is claimed. *)
Lemma ClaimCallback_due now until db d t :
  tbl_valid (db_callback_deliveries db) = true →
  d ∈ db_callback_deliveries db → t ∈ db_video_tasks db → vt_task_id t = cd_task_id d →
  vt_callback_url_ciphertext (vt_request t) ≠ None → callback_due now d = true →
  ∃ d' t', d' ∈ db_callback_deliveries db ∧ t' ∈ db_video_tasks db ∧ vt_task_id t' = cd_task_id d' ∧
    callback_due now d' = true ∧
    ClaimCallback_raw now until db =
      (inr (d', t'), db <| db_callback_deliveries := put (sending now until d') (db_callback_deliveries db) |>).
Proof.
  intros Hv Hd Ht Et Hc Hdue. unfold ClaimCallback_raw, ClaimCallbackDelivery.
  unfold immediate, mbind, tx_bind, ask.
  destruct (head _) as [d'|] eqn:E; last first.
  { exfalso. apply head_None in E.
    match type of E with ?l = [] => assert (d ∈ l) as Hin; [|rewrite E in Hin; set_solver] end.
    apply order_by_key_elem, list_elem_of_In, in_map_iff. exists (d, t). split; [done|].
    apply list_elem_of_In, elem_of_join_on. split_and!; [done..|].
    rewrite bool_decide_eq_true_2 by done. destruct (vt_callback_url_ciphertext _); [done|congruence]. }
  apply head_Some_elem_of, order_by_key_elem, list_elem_of_In, in_map_iff in E
    as ([d0 t'] & Ed & Hin%list_elem_of_In). simpl in Ed. subst d0.
  apply elem_of_join_on in Hin as (Hd' & Ht' & Hp). rewrite !andb_true_iff, bool_decide_eq_true in Hp.
  destruct Hp as [[Et' _] Hdue']. simpl.
  unfold raising. unfold mbind, tx_bind.
  destruct (update_delivery (λ x, (cd_id x ≟ cd_id d') && null_or_le (cd_lease_expires_at x) now)
    (sending now until) db d') as [Eu _]; [done|done| | |by intros []| |].
  - unfold callback_due in Hdue'. rewrite !andb_true_iff in Hdue'. destruct Hdue' as [_ ->].
    by rewrite bool_decide_eq_true_2.
  - intros y [?%bool_decide_eq_true _]%andb_true_iff. done.
  - simpl in Hv |- *. rewrite !andb_true_iff, forallb_forall in Hv. destruct Hv as [_ Hv].
    specialize (Hv d' (proj1 (list_elem_of_In _ _) Hd')). apply andb_true_iff in Hv as [_ ?%Z.leb_le]. done.
  - unfold sending in Eu at 1. rewrite Eu. simpl.
    destruct (List.find _ _) as [t''|] eqn:Ef.
    + apply find_elem_of in Ef as [? ?%bool_decide_eq_true]. by exists d', t''.
    + exfalso. apply (find_none_iff _ _) with (x := t') in Ef; [|done].
      apply bool_decide_eq_false in Ef. done.
Qed.

(** ** Every notification is settled *)

(** Attempts that are left to a delivery, at least one until it is settled. *)
Definition cost (w : Worker) (d : CallbackDelivery) : nat :=
  if settled d then 0 else Z.to_nat (Z.max 1 (maxAttempts w - cd_attempt_count d)).
Definition owed (w : Worker) (l : list CallbackDelivery) : nat := sum_list_with (cost w) l.

Lemma owed_put w x l d :
  NoDup (map cd_id l) → d ∈ l → cd_id x = cd_id d → (cost w x < cost w d)%nat →
  (owed w (put x l) < owed w l)%nat.
Proof.
  intros Hnd Hd E Hlt. pose proof (sum_update_key cd_id (cost w) l d x Hnd Hd) as Hs.
  unfold owed, put. rewrite E. lia.
Qed.

Lemma owed_zero w l d : owed w l = 0%nat → d ∈ l → settled d = true.
Proof.
  intros Ho Hd. apply list_elem_of_split in Hd as (l1 & l2 & ->). unfold owed in Ho.
  rewrite sum_list_with_app in Ho. simpl in Ho. unfold cost in Ho at 2.
  destruct (settled d); [done|]. lia.
Qed.

Section drain.
Context (url_Parse : string → option URL) (hmac_hex : string → string → string).
Context (Open : option string → option string → option string).
Context (DeriveCallbackSigningKey : string → option string).
Context (maxResponseBytes : Z).
Context (w : Worker).

#[local] Abbreviation ProcessOne :=
  (ProcessOne url_Parse hmac_hex Open DeriveCallbackSigningKey maxResponseBytes w).
#[local] Abbreviation Deliver := (Deliver url_Parse hmac_hex maxResponseBytes).

(** The secrets of the task open: its URL was sealed with the key in use. *)
Definition opens (t : Task) : Prop :=
  vt_callback_url_ciphertext (vt_request t) ≠ None ∧
  Open (vt_callback_url_nonce (vt_request t)) (vt_callback_url_ciphertext (vt_request t)) ≠ None ∧
  DeriveCallbackSigningKey (vt_api_key_id (vt_request t)) ≠ None.

(** What the passes keep: the constraints of the two tables, and a task that
    opens for every open delivery, which is due at [T]. *)
Record ready (T : Z) (db : DB) : Prop := {
  rd_tasks : tbl_valid (db_video_tasks db) = true;
  rd_callbacks : tbl_valid (db_callback_deliveries db) = true;
  rd_open : ∀ d, d ∈ db_callback_deliveries db → settled d = false →
    (∃ t, t ∈ db_video_tasks db ∧ vt_task_id t = cd_task_id d ∧ opens t) ∧
    null_or_le (cd_next_attempt_at d) T = true ∧ null_or_le (cd_lease_expires_at d) T = true
}.

(** The first time at which every retry scheduled at [now] is due. *)
Definition next_round (now : Z) : Z := now + maximum_backoff w / Millisecond.

Lemma due_unsettled T d : callback_due T d = true → settled d = false.
Proof.
  unfold callback_due, settled. by destruct (cd_status d).
Qed.

Lemma Deliver_storeless d : storeless (Deliver d).
Proof.
  unfold CallbackWorker.Deliver. intros e. simpl. destruct (validateDelivery e d); [done|].
  by destruct (url_Parse _).
Qed.

(** A row of the delivery [d], settled or with one attempt less. *)
Definition progressed (now : Z) (d x : CallbackDelivery) : Prop :=
  cd_id x = cd_id d ∧ cd_task_id x = cd_task_id d ∧ (cost w x < cost w d)%nat ∧
  (settled x = false →
     null_or_le (cd_next_attempt_at x) (next_round now) = true ∧ cd_lease_expires_at x = None).

Lemma attempts_nonneg l d : tbl_valid l = true → d ∈ l → 0 ≤ cd_attempt_count d.
Proof.
  simpl. rewrite !andb_true_iff, forallb_forall. intros [_ H] Hd.
  specialize (H d (proj1 (list_elem_of_In _ _) Hd)). by apply andb_true_iff in H as [_ ?%Z.leb_le].
Qed.

Lemma put_valid x l d :
  tbl_valid l = true → d ∈ l → cd_id x = cd_id d → cd_task_id x = cd_task_id d →
  cd_state_version x = cd_state_version d → 0 ≤ cd_attempt_count x → tbl_valid (put x l) = true.
Proof.
  intros Hv Hd E Et Ev Ha. pose proof (callbacks_valid _ Hv) as [Hnd _].
  destruct (update_delivery (λ y, cd_id y ≟ cd_id d) (λ y, x <| cd_id := cd_id y |>
    <| cd_task_id := cd_task_id y |> <| cd_state_version := cd_state_version y |>)
    (empty_DB <| db_callback_deliveries := l |>) d) as [_ H]; simpl; auto.
  - by apply bool_decide_eq_true_2.
  - by intros y ?%bool_decide_eq_true.
  - done.
  - simpl in H. rewrite <-E, <-Et, <-Ev in H. by destruct x.
Qed.

Lemma opens_delivery d t : opens t →
  ∃ D, open_delivery Open DeriveCallbackSigningKey d t = inr D ∧ dl_ID D = cd_id d ∧
    dl_AttemptCount D = cd_attempt_count d.
Proof.
  intros (_ & Ho & Hk). unfold open_delivery. destruct (Open _ _); [|done].
  destruct (DeriveCallbackSigningKey _); [|done]. by eexists.
Qed.

Lemma settled_progressed now d x :
  cd_id x = cd_id d → cd_task_id x = cd_task_id d → settled d = false → settled x = true →
  progressed now d x.
Proof.
  intros E Et Hd Hx. split_and!; [done|done| |congruence]. unfold cost. rewrite Hd, Hx. lia.
Qed.

Lemma milli_after_le e delay :
  delay ≤ maximum_backoff w → milli_after e delay ≤ next_round (env_now e).
Proof.
  intros H. unfold milli_after, next_round.
  rewrite (Z.add_comm (env_now e * Millisecond)), Z.div_add by done.
  assert (delay / Millisecond ≤ maximum_backoff w / Millisecond) by (by apply Z.div_le_mono). lia.
Qed.

Lemma ready_progressed T now db d x :
  ready T db → T ≤ next_round now → d ∈ db_callback_deliveries db → settled d = false →
  progressed now d x → tbl_valid (put x (db_callback_deliveries db)) = true →
  ready (next_round now) (db <| db_callback_deliveries := put x (db_callback_deliveries db) |>).
Proof.
  intros [Ht Hc Ho] HT Hd Hs (E & Et & _ & Hn) Hv. split; simpl; [done..|].
  intros y [->|[Hy _]]%elem_of_put Hys.
  - destruct (Ho d Hd Hs) as [? _]. rewrite Et. destruct (Hn Hys) as [? ->]. by split_and!.
  - destruct (Ho y Hy Hys) as (? & H1 & H2). split_and!; [done|..].
    + destruct (cd_next_attempt_at y); [|done]. simpl in *. apply Z.leb_le in H1. apply Z.leb_le. lia.
    + destruct (cd_lease_expires_at y); [|done]. simpl in *. apply Z.leb_le in H2. apply Z.leb_le. lia.
Qed.

(** A pass while a delivery is open settles one or uses up an attempt. *)
Lemma ProcessOne_progress ans e db d0 :
  wk_InitialBackoff w < 2 ^ 63 → wk_MaxBackoff w < 2 ^ 63 →
  ready (env_now e) db → d0 ∈ db_callback_deliveries db → settled d0 = false →
  ∃ d x, d ∈ db_callback_deliveries db ∧ settled d = false ∧ progressed (env_now e) d x ∧
    tbl_valid (put x (db_callback_deliveries db)) = true ∧
    (run ans e ProcessOne db).1 =
      (Some (true, None), db <| db_callback_deliveries := put x (db_callback_deliveries db) |>).
Proof.
  intros Hi Hm Hr Hd0 Hs0. pose proof Hr as [Ht Hc Ho].
  destruct (Ho d0 Hd0 Hs0) as ((t0 & Ht0 & Et0 & Hop0) & Hn0 & Hl0).
  set (until := milli_after e (leaseDuration w)).
  destruct (ClaimCallback_due (env_now e) until db d0 t0)
    as (d & t & Hd & Ht' & Et & Hdue & Eclaim); [done..|apply Hop0| |].
  { unfold callback_due. rewrite Hn0, Hl0. revert Hs0. unfold settled. by destruct (cd_status d0). }
  pose proof (due_unsettled _ _ Hdue) as Hs.
  destruct (Ho d Hd Hs) as ((t1 & Ht1 & Et1 & Hop1) & _ & _).
  assert (t1 = t) as ->.
  { apply (NoDup_map_inj vt_task_id (db_video_tasks db)); [|done..|congruence].
    by apply tasks_valid_iff in Ht as (? & _). }
  destruct (opens_delivery d t Hop1) as (D & ED & EDid & EDa).
  set (s := sending (env_now e) until d) in Eclaim.
  assert (0 ≤ cd_attempt_count d) as Ha by (by eapply attempts_nonneg).
  assert (tbl_valid (put s (db_callback_deliveries db)) = true) as Hvs
    by (apply put_valid with d; [done..|exact Ha]).
  set (db1 := db <| db_callback_deliveries := put s (db_callback_deliveries db) |>) in Eclaim.
  unfold CallbackWorker.ProcessOne. rewrite run_bind. cbn [run environment]. rewrite run_bind.
  cbn [run store]. unfold ClaimCallback, nowMillis. fold until. rewrite Eclaim, ED. cbn [fst snd].
  rewrite run_bind. destruct (run ans e (Deliver D) db1) as [[res db2] tr] eqn:ER.
  assert (db2 = db1) as -> by (by rewrite <-(storeless_run ans e (Deliver D) db1), ER by apply Deliver_storeless).
  assert (∀ f, keeps_delivery f → 0 ≤ cd_attempt_count (f s) →
    statement (exec_update (λ x, (cd_id x ≟ dl_ID D) && (cd_status x ≟ CbSending)) f) db1 =
      (inr tt, db <| db_callback_deliveries := put (f s) (db_callback_deliveries db) |>) ∧
    tbl_valid (put (f s) (db_callback_deliveries db)) = true) as Hset.
  { intros f Hf Hfa. rewrite EDid. destruct (Hf s) as (Ef & Et2 & Ev). split.
    - rewrite (statement_delivery _ _ db1 s); simpl; [|done|by apply put_elem with d| | |done..].
      + by rewrite put_put.
      + by rewrite !bool_decide_eq_true_2.
      + by intros y [?%bool_decide_eq_true _]%andb_true_iff.
    - by apply put_valid with d. }
  destruct (dr_Success res).
  { destruct (Hset (λ x, x <| cd_status := CbSucceeded |> <| cd_attempt_count := cd_attempt_count x + 1 |>
        <| cd_http_status := Some (dr_HTTPStatus res) |> <| cd_last_error := None |>
        <| cd_next_attempt_at := None |> <| cd_lease_expires_at := None |>
        <| cd_delivered_at := Some (env_now e) |> <| cd_updated_at := env_now e |>))
      as [Est Hvx]; [by intros []|simpl; lia|].
    match type of Hvx with tbl_valid (put ?x _) = true => exists d, x end.
    split_and!; [done|done|by apply settled_progressed|exact Hvx|].
    rewrite run_bind. cbn [run store]. unfold MarkCallbackSucceeded. rewrite Est. done. }
  set (message := deliveryError (dr_Error res)). rewrite EDa.
  destruct (_ && _) eqn:Eretry.
  - apply andb_true_iff in Eretry as [_ Hlt%Z.ltb_lt].
    destruct (backoff_bounded w (cd_attempt_count d + 1)) as (delay & Eb & Hdelay); [done|done|lia|].
    rewrite Eb. destruct (Hset (λ x, x <| cd_status := CbRetryWait |>
        <| cd_attempt_count := cd_attempt_count d + 1 |>
        <| cd_http_status := nullif_int (dr_HTTPStatus res) |> <| cd_last_error := Some message |>
        <| cd_next_attempt_at := Some (milli_after e delay) |> <| cd_lease_expires_at := None |>
        <| cd_updated_at := nowMillis e |>)) as [Est Hvx]; [by intros []|simpl; lia|].
    match type of Hvx with tbl_valid (put ?x _) = true => exists d, x end.
    split_and!; [done|done| |exact Hvx|].
    + split_and!; [done|done| |].
      * unfold cost. rewrite Hs. simpl. lia.
      * intros _. split; [|done]. simpl. apply Z.leb_le. by apply milli_after_le.
    + rewrite run_bind. cbn [run store]. unfold ScheduleCallbackRetry. rewrite Est. done.
  - destruct (Hset (λ x, x <| cd_status := CbFailed |> <| cd_attempt_count := cd_attempt_count d + 1 |>
        <| cd_http_status := nullif_int (dr_HTTPStatus res) |> <| cd_last_error := Some message |>
        <| cd_next_attempt_at := None |> <| cd_lease_expires_at := None |>
        <| cd_updated_at := nowMillis e |>)) as [Est Hvx]; [by intros []|simpl; lia|].
    match type of Hvx with tbl_valid (put ?x _) = true => exists d, x end.
    split_and!; [done|done|by apply settled_progressed|exact Hvx|].
    rewrite run_bind. cbn [run store]. unfold MarkCallbackFailed. rewrite Est. done.
Qed.

(** Passes one after the other, each at its time and with its answers. *)
Fixpoint serve (rounds : list (Env * ∀ X, CallbackE X → X)) (db : DB) : DB :=
  match rounds with
  | [] => db
  | (e, ans) :: rounds => serve rounds (run ans e ProcessOne db).1.2
  end.

(** Each pass comes when every retry of the one before is due. *)
Fixpoint spaced (T : Z) (rounds : list (Env * ∀ X, CallbackE X → X)) : Prop :=
  match rounds with
  | [] => True
  | (e, _) :: rounds => T ≤ env_now e ∧ spaced (next_round (env_now e)) rounds
  end.

Lemma null_or_le_mono o T T' : T ≤ T' → null_or_le o T = true → null_or_le o T' = true.
Proof. destruct o; simpl; [|done]. intros ? ?%Z.leb_le. apply Z.leb_le. lia. Qed.

Lemma ready_mono T T' db : T ≤ T' → ready T db → ready T' db.
Proof.
  intros HT [Ht Hc Ho]. split; [done..|]. intros d Hd Hs. destruct (Ho d Hd Hs) as (? & ? & ?).
  split_and!; [done|by eapply null_or_le_mono..].
Qed.

(** A pass with nothing left to do does nothing. *)
Lemma ProcessOne_idle ans e db :
  (∀ d, d ∈ db_callback_deliveries db → settled d = true) → (run ans e ProcessOne db).1.2 = db.
Proof.
  intros Hall. assert (∀ now until, ClaimCallbackDelivery now until db = (inl ErrNoCallbackDelivery, db)) as Hc.
  { intros now until. unfold ClaimCallbackDelivery, immediate, mbind, tx_bind, ask.
    destruct (head _) as [d|] eqn:E; [|done]. exfalso.
    apply head_Some_elem_of, order_by_key_elem, list_elem_of_In, in_map_iff in E
      as ([d0 t'] & Ed & Hin%list_elem_of_In). simpl in Ed. subst d0.
    apply elem_of_join_on in Hin as (Hd & _ & [_ Hdue]%andb_true_iff).
    apply due_unsettled in Hdue. specialize (Hall d Hd). congruence. }
  unfold CallbackWorker.ProcessOne. rewrite run_bind. cbn [run environment]. rewrite run_bind.
  cbn [run store]. unfold ClaimCallback, ClaimCallback_raw. by rewrite Hc.
Qed.


Lemma ClaimCallback_raw_inr now until db d t :
  tbl_valid (db_callback_deliveries db) = true →
  (ClaimCallback_raw now until db).1 = inr (d, t) →
  sending now until d ∈ db_callback_deliveries (ClaimCallback_raw now until db).2.
Proof.
  intros Hv H. unfold ClaimCallback_raw in *.
  destruct (ClaimCallbackDelivery now until db) as [[err|d'] db'] eqn:E; [done|].
  destruct (List.find _ _) as [t'|]; [|done]. injection H as -> ->. simpl.
  unfold ClaimCallbackDelivery in E. rewrite immediate_inr in E. sql_inv E. subst.
  apply one_row in E1 as (x & Hx & Hp). simpl in Hx |- *.
  apply head_Some_elem_of, order_by_key_elem, list_elem_of_In, in_map_iff in E0
    as ([d0 t'] & Ed & Hin%list_elem_of_In). simpl in Ed. subst d0.
  apply elem_of_join_on in Hin as (Hd & _). apply callbacks_valid in Hv as [Hnd _].
  apply elem_of_update_where. exists x. split; [done|]. rewrite Hp.
  apply andb_true_iff in Hp as [Hp%bool_decide_eq_true _].
  by assert (x = d) as -> by (by apply (NoDup_map_inj cd_id (db_callback_deliveries db))).
Qed.

(** C34: a delivery whose target does not decrypt is never given up.  When the
    oldest delivery that is due belongs to a task whose callback URL or signing
    key does not open, a pass claims it, reports the error, sends nothing and
    leaves it open with its attempts uncounted: the bound on attempts does not
    apply to it. *)
Theorem undecryptable_never_settles ans e db d t :
  tbl_valid (db_callback_deliveries db) = true →
  (ClaimCallback_raw (env_now e) (milli_after e (leaseDuration w)) db).1 = inr (d, t) →
  Open (vt_callback_url_nonce (vt_request t)) (vt_callback_url_ciphertext (vt_request t)) = None →
  let '(result, db', sent) := run ans e ProcessOne db in
  result = Some (false, Some (ErrText "callback URL 解密失败")) ∧ sent = [] ∧
  ∃ x, x ∈ db_callback_deliveries db' ∧ cd_id x = cd_id d ∧ settled x = false ∧
    cd_attempt_count x = cd_attempt_count d.
Proof.
  intros Hv Hc Ho. pose proof (ClaimCallback_raw_inr _ _ _ _ _ Hv Hc) as Hin.
  unfold CallbackWorker.ProcessOne. rewrite run_bind. cbn [run environment]. rewrite run_bind.
  cbn [run store]. unfold ClaimCallback, nowMillis.
  destruct (ClaimCallback_raw _ _ db) as [r db']. cbn [fst snd] in *. subst r.
  unfold open_delivery. rewrite Ho. cbn. split_and!; [done..|].
  by exists (sending (env_now e) (milli_after e (leaseDuration w)) d).
Qed.
End drain.
