(* ===== verification/LegacySafety.v ===== *)
(** * What the worker of legacy nodes asks of a node

    A task is submitted once, and once more if the node lost it, over any number of
    passes that crash or fail anywhere, as long as they do not overlap and nobody
    else puts the task back into the queue. *)

From stdpp Require Import gmap relations.
From S2P Require Import Prelude Domain Tx Database Sql Workers Counting GoStrings GoFloat GoNet GoHttp Netguard Monitor Catalog Paging TaskRouting Callbacks Queue Stages Artifacts Remote Tasks Official Delivery Nodes Config Normalize InputSpool Gradio LegacyWorker Lifecycle Reachable.

Section safety.
Context (x : GradioExternals) (keep : string).

(** ** The rank of a task *)

(** How often the row lets the task be submitted: not before its baseline is
    recorded, and a second time once the retry is. *)
Definition rank (t : Task) : nat :=
  match vt_gallery_before_json t with
  | None => 0
  | Some _ => if 0 <? vt_retry_count t then 2 else 1
  end.
Definition queued (t : Task) : bool := has_status queued_statuses t.

Lemma rank_2 t : (rank t ≤ 2)%nat.
Proof. unfold rank. repeat case_match; lia. Qed.

(** The task stays, does not lose what was recorded of it and does not return to
    the queue. *)
Definition calm (db db' : DB) : Prop :=
  ∀ t, t ∈ db_video_tasks db → vt_task_id t = keep →
    ∃ t', t' ∈ db_video_tasks db' ∧ vt_task_id t' = keep ∧ (rank t ≤ rank t')%nat ∧
      (queued t = false → queued t' = false).

#[export] Instance calm_preorder : PreOrder calm.
Proof.
  split.
  - intros db t Ht E. by exists t.
  - intros db1 db2 db3 H1 H2 t Ht E. destruct (H1 t Ht E) as (t1 & Ht1 & E1 & Hr1 & Hq1).
    destruct (H2 t1 Ht1 E1) as (t2 & Ht2 & E2 & Hr2 & Hq2). exists t2. split_and!; [done..|lia|auto].
Qed.

(** What others do to the store between two actions of the worker. *)
Definition legacy_other (db db' : DB) : Prop := step keep db db' ∧ calm db db'.
#[local] Abbreviation rely := (rtc legacy_other).

Lemma calm_same db db' : db_video_tasks db' = db_video_tasks db → calm db db'.
Proof. intros E t Ht Et. exists t. rewrite E. by split_and!. Qed.

Lemma calm_update p f :
  (∀ t, p t = true → vt_task_id t = keep → vt_task_id (f t) = vt_task_id t ∧ (rank t ≤ rank (f t))%nat ∧
     (queued t = false → queued (f t) = false)) →
  tx_rel calm (exec_update (R:=Task) p f).
Proof.
  intros Hf. apply tx_rel_exec_update; [apply _|]. intros db t Ht E.
  exists (if p t then f t else t). split; [simpl; apply elem_of_update_where; by exists t|].
  destruct (p t) eqn:Ep; [|done]. destruct (Hf t Ep E) as (? & ? & ?). split_and!; [congruence|done|done].
Qed.

Lemma calm_rebalance o now : tx_rel calm (rebalance o now).
Proof.
  unfold rebalance.
  repeat match goal with |- tx_rel _ (@exec_update Task _ _ _) => apply calm_update | _ => tx_stmt end.
  intros t [_ Hq]%andb_true_iff _. split_and!; [done|done|].
  unfold queued. congruence.
Qed.

Ltac calm_stmt :=
  match goal with
  | |- tx_rel _ (rebalance _ _) => apply calm_rebalance
  | |- tx_rel _ (@exec_update Task _ _ _) =>
      apply calm_update; intros ? _ _; cbn; split_and!;
      [reflexivity|unfold rank; cbn; repeat case_match; lia|done]
  | _ => tx_stmt
  end.
Ltac calm_op :=
  unfold statement, finish_task, touch; cbv zeta;
  first [apply tx_rel_immediate; [apply _|] | apply tx_rel_immediate_shadowed; [apply _|]];
  repeat calm_stmt; try (intros ?; by apply calm_same).

Lemma createCallback_calm e k taskID status now :
  tx_rel calm (createCallbackDeliveryWithConn e k taskID status now).
Proof. unfold createCallbackDeliveryWithConn. repeat calm_stmt; try (intros ?; by apply calm_same). Qed.

Lemma MarkRunning_other e task node db : legacy_other db (MarkRunning e task node db).2.
Proof. split; [apply step_MarkRunning|]. unfold MarkRunning. calm_op. Qed.
Lemma MarkReconciling_other e task node db : legacy_other db (MarkReconciling e task node db).2.
Proof. split; [apply step_MarkReconciling|]. unfold MarkReconciling. calm_op. Qed.
Lemma SaveBaseline_calm e task node urls db : legacy_other db (SaveBaseline e task node urls db).2.
Proof. split; [apply step_SaveBaseline|]. unfold SaveBaseline. calm_op. Qed.
Lemma SaveSubmissionContext_other e task node jobs db :
  legacy_other db (SaveSubmissionContext e task node jobs db).2.
Proof. split; [apply step_SaveSubmissionContext|]. unfold SaveSubmissionContext. calm_op. Qed.
Lemma BindUpstreamJob_other e task node job db : legacy_other db (BindUpstreamJob e task node job db).2.
Proof. split; [apply step_BindUpstreamJob|]. unfold BindUpstreamJob. calm_op. Qed.
Lemma BeginRetry_other e task node jobs gallery db :
  legacy_other db (BeginRetry e task node jobs gallery db).2.
Proof. split; [apply step_BeginRetry|]. unfold BeginRetry. calm_op. Qed.
Lemma MarkSucceeded_other e task node internal public ratio db :
  legacy_other db (MarkSucceeded e task node internal public ratio db).2.
Proof. split; [apply step_MarkSucceeded|]. unfold MarkSucceeded. calm_op. all: apply createCallback_calm. Qed.
Lemma MarkFailed_other e task node code message db :
  legacy_other db (MarkFailed e task node code message db).2.
Proof. split; [apply step_MarkFailed|]. unfold MarkFailed. calm_op. all: apply createCallback_calm. Qed.
Lemma FinishCancelled_other e task node db : legacy_other db (FinishCancelled e task node db).2.
Proof. split; [apply step_FinishCancelled|]. unfold FinishCancelled. calm_op. all: apply createCallback_calm. Qed.
Lemma ClaimNext_other e o node version db : legacy_other db (ClaimNext e o node version db).2.
Proof. split; [apply step_ClaimNext|]. unfold ClaimNext. calm_op. Qed.
(** Another task may be put back. *)
Lemma Requeue_other e o task node db : task ≠ keep → legacy_other db (Requeue e o task node db).2.
Proof.
  intros Hne. split; [apply step_Requeue|]. unfold Requeue, touch.
  apply tx_rel_immediate; [apply _|].
  repeat match goal with
         | |- tx_rel _ (@exec_update Task _ _ _) => apply calm_update
         | |- tx_rel _ (rebalance _ _) => apply calm_rebalance
         | _ => tx_stmt
         end.
  intros t Hp Et. exfalso. unfold held_task in Hp.
  rewrite !andb_true_iff, !bool_decide_eq_true in Hp. destruct Hp as [[? _] _]. congruence.
Qed.

(** ** The invariant *)

(** The task was submitted [n] times. *)
Definition submitted (n : nat) (db : DB) : Prop :=
  wf db ∧ (n = 0%nat ∨ ∃ t, t ∈ db_video_tasks db ∧ vt_task_id t = keep ∧ (n ≤ rank t)%nat ∧ queued t = false).

Lemma submitted_other n db db' : legacy_other db db' → submitted n db → submitted n db'.
Proof.
  intros [Hs Hc] [Hw Hn]. split; [by apply (step_wf keep db)|].
  destruct Hn as [Hn|(t & Ht & E & Hr & Hq)]; [by left|right].
  destruct (Hc t Ht E) as (t' & ? & ? & ? & ?). exists t'. split_and!; [done..|lia|auto].
Qed.
Lemma submitted_rely n db db' : rely db db' → submitted n db → submitted n db'.
Proof. apply J_rely, submitted_other. Qed.
Lemma submitted_wf n db : submitted n db → wf db.
Proof. by intros []. Qed.
Lemma submitted_0 db : wf db → submitted 0 db.
Proof. split; [done|by left]. Qed.
Lemma submitted_2 n db : submitted n db → (n ≤ 2)%nat.
Proof. intros [_ [->|(t & _ & _ & ? & _)]]; [lia|]. pose proof (rank_2 t). lia. Qed.

Lemma legacy_task_unique db t1 t2 :
  wf db → t1 ∈ db_video_tasks db → t2 ∈ db_video_tasks db → vt_task_id t1 = vt_task_id t2 → t1 = t2.
Proof.
  intros [Hs _] ???. apply (NoDup_map_inj vt_task_id (db_video_tasks db)); [|done..].
  apply sv_tasks, tasks_valid_iff in Hs. apply Hs.
Qed.

(** What the row of the task says of the number. *)
Lemma submitted_row n db t :
  submitted n db → t ∈ db_video_tasks db → vt_task_id t = keep →
  n = 0%nat ∨ ((n ≤ rank t)%nat ∧ queued t = false).
Proof.
  intros [Hw [?|(t' & ? & ? & ? & ?)]] Ht Et; [by left|right].
  by rewrite (legacy_task_unique db t t') by (done || congruence).
Qed.

(** The task may be submitted once more. *)
Definition ready (n : nat) (db : DB) : Prop := submitted n db ∧ submitted (S n) db.

Lemma ready_rely n db db' : rely db db' → ready n db → ready n db'.
Proof. intros Hr []. split; by eapply submitted_rely. Qed.

Lemma held_task_inv task node ss t : held_task task node ss t = true → vt_task_id t = task ∧ vt_status t ∈ ss.
Proof. unfold held_task, has_status. rewrite !andb_true_iff, !bool_decide_eq_true. tauto. Qed.
Lemma active_unqueued t : vt_status t ∈ active_statuses → queued t = false.
Proof. intros H%active_not_queued. by apply bool_decide_eq_false. Qed.

Lemma SaveBaseline_ready e node urls db u :
  submitted 0 db → (SaveBaseline e keep node urls db).1 = inr u →
  ready 0 (SaveBaseline e keep node urls db).2.
Proof.
  intros Hj Hr. pose proof (submitted_other _ _ _ (SaveBaseline_calm e keep node urls db) Hj) as Hj'.
  split; [done|]. split; [apply Hj'|]. clear Hj'.
  destruct (SaveBaseline e keep node urls db) as [r db'] eqn:E. simpl in Hr. subst r.
  apply statement_inr in E. sql_inv E. apply one_row in E as (t & Ht & Hp). simpl in Ht. right.
  apply held_task_inv in Hp as Hh. destruct Hh as [Eid Hst].
  eexists. split; [simpl; apply elem_of_update_where; by exists t|]. rewrite Hp. split_and!; [done|..].
  - unfold rank. cbn. case_match; lia.
  - apply active_unqueued. simpl. unfold active_statuses. set_solver.
Qed.

Lemma BeginRetry_ready e node jobs gallery n db u :
  submitted n db → (BeginRetry e keep node jobs gallery db).1 = inr u →
  ready n (BeginRetry e keep node jobs gallery db).2.
Proof.
  intros Hj Hr. pose proof (submitted_other _ _ _ (BeginRetry_other e keep node jobs gallery db) Hj) as Hj'.
  split; [done|]. split; [apply Hj'|]. clear Hj'.
  destruct (BeginRetry e keep node jobs gallery db) as [r db'] eqn:E. simpl in Hr. subst r.
  apply statement_inr in E. sql_inv E. apply one_row in E as (t & Ht & Hp). simpl in Ht. right.
  pose proof Hp as [[Eid Hst]%held_task_inv Hc%Z.eqb_eq]%andb_true_iff.
  assert (n ≤ 1)%nat.
  { destruct (submitted_row n db t Hj Ht Eid) as [->|[Hn _]]; [lia|]. unfold rank in Hn.
    rewrite Hc in Hn. destruct (vt_gallery_before_json t); simpl in Hn; lia. }
  eexists. split; [simpl; apply elem_of_update_where; by exists t|]. rewrite Hp. split_and!; [done|..].
  - unfold rank. cbn. lia.
  - apply active_unqueued. simpl. unfold active_statuses. set_solver.
Qed.

Lemma getWith_id owner task now db t : getWith owner task now db = inr t → task = vt_task_id t.
Proof.
  unfold getWith. destruct (List.find _ _) as [y|] eqn:Ef; [|done]. intros [= <-].
  apply find_some in Ef as [_ Hv]. unfold visible in Hv. rewrite !andb_true_iff, !bool_decide_eq_true in Hv.
  by destruct Hv as [[[-> _] _] _].
Qed.

(** A claim takes a task from the queue. *)
Lemma ClaimNext_queued e o node version db t :
  wf db → (ClaimNext e o node version db).1 = inr t →
  ∃ s, s ∈ db_video_tasks db ∧ vt_task_id s = vt_task_id t ∧ queued s = true.
Proof.
  intros [Hs _] Hr. destruct (ClaimNext e o node version db) as [r db'] eqn:H. simpl in Hr. subst r.
  apply sv_tasks, tasks_valid_iff in Hs as (_ & Hseq & _).
  unfold ClaimNext in H. rewrite immediate_inr in H. sql_inv H.
  apply ensure_current_Done in H0 as [-> _].
  apply nextEligibleTask_next in H2 as (Ht & Hw & _); [|done].
  apply andb_true_iff in Hw as [_ Hw]. eexists. split_and!; [exact Ht| |exact Hw].
  by apply getWith_id in H.
Qed.

(** ** The programs *)

Definition submits (X : Type) (c : LegacyE X) : bool :=
  match c with
  | OnGradio (Some task) (HttpDo r) => (task ≟ keep) && (hq_Method r ≟ "POST")
  | _ => false
  end.

#[local] Abbreviation quiet := (quiet legacy_other (λ X c _, submits X c = false)).
#[local] Abbreviation counts p := (counts legacy_other submits submitted p (λ _ _ _, True)).
#[local] Abbreviation countsQ := (Counting.counts legacy_other submits submitted).

(** A client that is not asked to submit is quiet. *)
Lemma quiet_on_node {A} (m : Prog HttpE A) : storeless m → quiet (on_node None m).
Proof. intros H. by apply quiet_translate. Qed.

Ltac storeless_step :=
  match goal with
  | |- storeless (mbind _ _) => apply storeless_bind
  | |- storeless (try _ _) => apply storeless_try
  | |- storeless (mret _) => exact I
  | |- storeless (call _) => exact (λ _, I)
  | |- storeless (match ?y with _ => _ end) => destruct y
  | |- storeless (let '(_, _) := ?y in _) => destruct y
  | |- ∀ _, _ => intro
  end.
Ltac storeless := repeat storeless_step.

Lemma storeless_Call c api args :
  storeless (Call_ (gx_escaped_path x) (gx_url_String x) (gx_request_ok x) (gx_call_json x)
    (gx_event_of_json x) (gx_output_of_json x) c api args).
Proof. unfold Call_. cbv zeta. storeless. Qed.
Lemma storeless_upload_audio c i items :
  storeless (upload_audio (gx_escaped_path x) (gx_url_String x) (gx_request_ok x) (gx_paths_of_json x)
    c i items).
Proof.
  revert i. induction items as [|item items IH]; intros i; cbn [upload_audio]; [done|].
  unfold upload. storeless. apply IH.
Qed.

Lemma quiet_check p : quiet (check x p).
Proof. apply quiet_on_node, storeless_Call. Qed.
Lemma quiet_list_jobs p : quiet (list_jobs x p).
Proof. apply quiet_on_node. unfold ListJobs, jobsRequest. storeless. Qed.
Lemma quiet_get_job p id : quiet (get_job x p id).
Proof. apply quiet_on_node. unfold GetJob, jobsRequest. storeless. Qed.
Lemma quiet_cancel_job p id : quiet (cancel_job x p id).
Proof. apply quiet_on_node. unfold CancelJob, jobsRequest. storeless. Qed.
Lemma quiet_prepareArguments p v : quiet (prepareArguments x p v).
Proof.
  unfold prepareArguments. destruct (lp_Preparer p); [|done]. apply quiet_on_node.
  unfold PrepareArguments. apply storeless_bind; [apply storeless_upload_audio|done].
Qed.
Lemma quiet_update_cache p f : quiet (update_cache p f).
Proof. unfold update_cache. by destruct (lp_Cache p). Qed.

#[local] Hint Resolve quiet_check quiet_list_jobs quiet_get_job quiet_cancel_job quiet_prepareArguments
  quiet_update_cache MarkRunning_other MarkReconciling_other SaveBaseline_calm
  SaveSubmissionContext_other BindUpstreamJob_other BeginRetry_other MarkSucceeded_other
  MarkFailed_other FinishCancelled_other ClaimNext_other : quiet.
Ltac quieted := unfold markCurrent, mergeObservation, markPollFailure, clearCurrent, blockScheduling,
  fmap, prog_fmap; quiet_by ltac:(auto with quiet) ltac:(reflexivity).

Lemma quiet_markFinished p : quiet (markFinished p).
Proof. unfold markFinished. quieted. Qed.
#[local] Hint Resolve quiet_markFinished : quiet.
Lemma quiet_legacy_fail p task code message : quiet (LegacyWorker.fail p task code message).
Proof. unfold LegacyWorker.fail. quieted. Qed.
Lemma quiet_markReconciling p task : quiet (markReconciling p task).
Proof. unfold markReconciling. quieted. Qed.
Lemma quiet_reconcile_task p task : quiet (reconcile p task).
Proof. unfold reconcile. quieted. Qed.
Lemma quiet_bind_job p task id : quiet (bind_job p task id).
Proof. unfold bind_job. quieted. Qed.
Lemma quiet_timedOut p task : quiet (timedOut p task).
Proof. unfold timedOut. quieted. Qed.
#[local] Hint Resolve quiet_legacy_fail quiet_markReconciling quiet_reconcile_task quiet_bind_job
  quiet_timedOut : quiet.
Lemma quiet_timeout p task id code message : quiet (timeout x p task id code message).
Proof. unfold timeout. quieted. Qed.
Lemma quiet_bind_created p task before message : quiet (bind_created x p task before message).
Proof. unfold bind_created. cbv zeta. quieted. Qed.
Lemma quiet_wait {A} (k : Prog LegacyE (worker_error + A)) : quiet k → quiet (wait k).
Proof. intros. unfold wait. quieted; done. Qed.
#[local] Hint Resolve quiet_timeout quiet_bind_created quiet_wait : quiet.

Lemma quiet_find_job rounds p task : quiet (find_job x rounds p task).
Proof. induction rounds as [|rounds IH]; cbn [find_job]; cbv zeta; quieted. Qed.
Lemma quiet_cancel_until rounds p task id : quiet (cancel_until x rounds p task id).
Proof. induction rounds as [|rounds IH]; cbn [cancel_until]; quieted. Qed.
#[local] Hint Resolve quiet_find_job quiet_cancel_until : quiet.
Lemma quiet_cancel rounds p task : quiet (cancel x rounds p task).
Proof. unfold cancel. cbv zeta. quieted. Qed.
Lemma quiet_poll_finish p task v baseline gallery : quiet (poll_finish x p task v baseline gallery).
Proof. unfold poll_finish. quieted. Qed.
Lemma quiet_poll_unbound p task o n : quiet (poll_unbound x p task o n).
Proof. unfold poll_unbound. quieted. Qed.
Lemma quiet_poll_bound p task id n : quiet (poll_bound x p task id n).
Proof. unfold poll_bound. quieted. Qed.
#[local] Hint Resolve quiet_cancel quiet_poll_finish quiet_poll_unbound quiet_poll_bound : quiet.

(** ** Submitting *)

Lemma storeless_translate {D E A} (f : ∀ X, D X → E X) (m : Prog D A) : storeless m → storeless (translate f m).
Proof. induction m; simpl; auto. Qed.

Lemma budget_submit_task p task args : budget submits 1 (submit_task x p task args).
Proof.
  unfold submit_task, call_api, on_node, Call_. cbv zeta.
  destruct (_ || _); [done|]. destruct (gx_call_json x args); [|done].
  unfold http_request_of. destruct (gx_request_ok x _); [|done]. cbn.
  destruct (task ≟ keep); cbn; (intros [?|r]; [done|]);
    (destruct (decodeLimited _ _ r) as [?|event]; [done|]; destruct (event ≟ ""); [done|];
     destruct (gx_request_ok x _); [|done]); cbn; try done; by destruct (task ≟ keep).
Qed.

Lemma counts_quietly {A} (m : Prog LegacyE A) (Q : A → nat → DB → Prop) n db :
  quiet m → submitted n db → (∀ a db', rely db db' → submitted n db' → Q a n db') → countsQ m Q n db.
Proof. apply counts_quiet, submitted_other. Qed.

Lemma counts_submit_task p task args n db (Q : _ → nat → DB → Prop) :
  submitted n db → (task = keep → ready n db) →
  (∀ a m db', submitted m db' → Q a m db') →
  countsQ (submit_task x p task args) Q n db.
Proof.
  intros Hj Hr HQ. destruct (decide (task = keep)) as [->|Hne].
  - destruct (Hr eq_refl) as [H0 H1].
    apply (counts_budget _ _ _ submitted_other 1).
    + apply storeless_translate, storeless_Call.
    + apply budget_submit_task.
    + intros m Hm. assert (m = n ∨ m = S n) as [->| ->] by lia; done.
    + eauto.
  - apply counts_quietly; [|done|eauto].
    apply quiet_translate; [apply storeless_Call|]. intros X c db'. simpl. destruct c; [|done].
    by rewrite bool_decide_eq_false_2.
Qed.

Lemma counts_by_quiet {A} (m : Prog LegacyE A) n db : quiet m → submitted n db → counts m n db.
Proof. intros. by apply counts_quietly. Qed.

Lemma counts_then {A B} (m : Prog LegacyE A) (k : A → Prog LegacyE B) n db :
  quiet m → submitted n db → (∀ a db', submitted n db' → counts (k a) n db') → counts (m ≫= k) n db.
Proof. intros. apply counts_bind. apply counts_quietly; eauto. Qed.

Lemma counts_retryOrFail p task id v gallery code message again n db :
  submitted n db → (∀ m db', submitted m db' → counts again m db') →
  counts (retryOrFail x p task id v gallery code message again) n db.
Proof.
  intros Hj Hagain. unfold retryOrFail.
  destruct (_ || _); [apply counts_by_quiet; [quieted|done]|].
  apply counts_then; [quieted|done|]. clear dependent db. intros [err|current] db Hj; [by apply counts_ret|].
  unfold try. apply counts_then; [quieted|done|]. clear dependent db. intros [err|[]] db Hj; [by apply counts_ret|].
  apply counts_bind, counts_store; [intros; by apply counts_ret|].
  intros db1 e Hr. assert (submitted n db1) as Hj1 by (by eapply submitted_rely).
  assert (submitted n (BeginRetry e (vt_task_id task) (node_id p) (jobIDs current) gallery db1).2) as Hj2.
  { eapply submitted_other; [apply BeginRetry_other|done]. }
  split; [done|]. intros db2 Hr2.
  assert (submitted n db2) as Hj3 by (by eapply submitted_rely).
  destruct (BeginRetry _ _ _ _ _ _).1 as [err|u] eqn:Eok; [by apply counts_ret|].
  assert (vt_task_id task = keep → ready n db2) as Hready.
  { intros Et. rewrite Et in *. eapply ready_rely; [exact Hr2|]. by eapply BeginRetry_ready. }
  apply counts_bind, counts_quietly; [apply quiet_prepareArguments|done|].
  intros [args|] db3 Hr3 Hj4; [|apply counts_by_quiet; [quieted|done]].
  apply counts_bind, counts_submit_task; [done|intros Et; eapply ready_rely; eauto|].
  intros r m db4 Hm. apply counts_then; [quieted|done|]. intros [r'|_] db5 Hm5; [by apply counts_ret|].
  apply counts_then; [quieted|done|]. intros [err|t] db6 Hm6; [by apply counts_ret|auto].
Qed.

Lemma counts_poll rounds p v baseline completed n db :
  submitted n db → counts (poll x rounds p v baseline completed) n db.
Proof.
  revert baseline completed n db. induction rounds as [|rounds IH]; intros baseline completed n db Hj;
    cbn [poll]; [by apply counts_ret|].
  assert (∀ baseline completed n db, submitted n db →
    counts (wait (poll x rounds p v baseline completed)) n db) as Hwait.
  { intros. unfold wait. apply counts_then; [quieted|done|]. intros [] ??; [by apply counts_ret|auto]. }
  apply counts_then; [quieted|done|]. clear dependent db. intros [err|task] db Hj.
  { apply counts_by_quiet; [|done]. destruct err; quieted. }
  destruct (_ ≟ StatusCancelling); [apply counts_by_quiet; [quieted|done]|].
  apply counts_then; [quieted|done|]. clear dependent db. intros [err|result] db Hj.
  - apply counts_then; [quieted|done|]. clear dependent db. intros _ db Hj.
    apply counts_then; [quieted|done|]. clear dependent db. intros [] db Hj.
    { apply counts_by_quiet; [quieted|done]. }
    unfold try. apply counts_then; [quieted|done|]. clear dependent db. intros [err'|[]] db Hj; [by apply counts_ret|].
    apply counts_then; [quieted|done|]. clear dependent db. intros [] db Hj; [|auto].
    apply counts_by_quiet; [quieted|done].
  - cbv zeta. apply counts_then; [quieted|done|]. clear dependent db. intros _ db Hj.
    destruct result as [|gallery rest]; [apply counts_by_quiet; [quieted|done]|].
    destruct (_ =? 1); [apply counts_by_quiet; [quieted|done]|].
    destruct (1 <? _); [apply counts_by_quiet; [quieted|done]|].
    destruct (_ ≟ ObservationFailed); [apply counts_by_quiet; [quieted|done]|].
    apply counts_then; [quieted|done|]. clear dependent db. intros [r| |id c] db Hj; [by apply counts_ret|..].
    + apply counts_retryOrFail; auto.
    + apply counts_then; [quieted|done|]. clear dependent db. intros [] db Hj; [|auto].
      apply counts_by_quiet; [quieted|done].
Qed.

(** ** Passes *)

Lemma counts_requeue p task n db (Q : _ → nat → DB → Prop) :
  submitted n db → (vt_task_id task = keep → n = 0%nat) → (∀ r db', submitted n db' → Q r n db') →
  countsQ (requeue p task) Q n db.
Proof.
  intros Hj H0 HQ. unfold requeue. apply counts_bind, counts_store.
  { intros f db1 _ Hr. cbv beta iota. apply counts_quietly; [quieted|by eapply submitted_rely|auto]. }
  intros db1 e Hr. assert (submitted n db1) as Hj1 by (by eapply submitted_rely).
  assert (submitted n (Requeue e (lp_Options p) (vt_task_id task) (node_id p) db1).2) as Hj2.
  { destruct (decide (vt_task_id task = keep)) as [Ek|Hne].
    - rewrite (H0 Ek). apply submitted_0. eapply (step_wf keep); [apply step_Requeue|]. by eapply submitted_wf.
    - eapply submitted_other; [by apply Requeue_other|done]. }
  split; [done|]. intros db2 Hr2. assert (submitted n db2) as Hj3 by (by eapply submitted_rely).
  destruct (Requeue _ _ _ _ _).1; cbv beta iota; (apply counts_quietly; [quieted|done|auto]).
Qed.

Lemma counts_resume rounds p task n db :
  submitted n db → (vt_task_id task = keep → vt_gallery_before_json task = None → n = 0%nat) →
  counts (resume x rounds p task) n db.
Proof.
  intros Hj H0. unfold resume. destruct (_ ≟ StatusCancelling); [apply counts_by_quiet; [quieted|done]|].
  destruct (vt_gallery_before_json task) as [baseline|].
  - destruct (validate_request x p task); [apply counts_by_quiet; [quieted|done]|].
    unfold try. apply counts_then; [quieted|done|]. intros [err|[]] db' Hj'; [by apply counts_ret|].
    by apply counts_poll.
  - destruct (_ ≟ StatusDispatching); [|apply counts_by_quiet; [quieted|done]].
    apply counts_requeue; auto.
Qed.

(** What happens before the submission of a claimed task leads to no submission; a
    recorded baseline allows one. *)
Lemma counts_save_context p task n db (Q : _ → nat → DB → Prop) :
  submitted n db → (vt_task_id task = keep → n = 0%nat) → (∀ r db', submitted n db' → Q r n db') →
  countsQ (save_context x p task) Q n db.
Proof.
  intros Hj H0 HQ. unfold save_context. destruct (lp_Jobs p); simpl negb; cbv iota.
  2: { apply counts_quietly; [quieted|done|auto]. }
  apply counts_bind, counts_quietly; [quieted|done|]. intros [err|before] db1 _ Hj1.
  - apply counts_bind, counts_quietly; [quieted|done|]. intros _ db2 _ Hj2.
    apply counts_bind, counts_requeue; [done..|]. intros r db3 Hj3.
    apply counts_quietly; [quieted|done|auto].
  - apply counts_quietly; [quieted|done|auto].
Qed.

Lemma counts_save_baseline p task n db (Q : _ → nat → DB → Prop) :
  submitted n db → (vt_task_id task = keep → n = 0%nat) →
  (∀ r db', submitted n db' → Q (inl r) n db') →
  (∀ b db', submitted n db' → (vt_task_id task = keep → ready n db') → Q (inr b) n db') →
  countsQ (save_baseline x p task) Q n db.
Proof.
  intros Hj H0 HQ Hb. unfold save_baseline. cbv zeta.
  apply counts_bind, counts_quietly; [quieted|done|]. intros [err|result] db1 _ Hj1.
  - apply counts_bind, counts_quietly; [quieted|done|]. intros _ db2 _ Hj2.
    apply counts_bind, counts_requeue; [done..|]. intros r db3 Hj3.
    apply counts_ret. intros db4 Hr. apply HQ. by eapply submitted_rely.
  - apply counts_bind, counts_quietly; [quieted|done|]. intros _ db2 _ Hj2.
    destruct result as [|gallery rest].
    { apply counts_bind, counts_quietly; [quieted|done|]. intros r db3 _ Hj3.
      apply counts_ret. intros db4 Hr. apply HQ. by eapply submitted_rely. }
    apply counts_bind, counts_store.
    { intros f db3 _ Hr. apply counts_ret. intros db4 Hr4. apply HQ.
      eapply submitted_rely; [|exact Hj2]. by etrans. }
    intros db3 e Hr. assert (submitted n db3) as Hj3 by (by eapply submitted_rely).
    assert (submitted n (SaveBaseline e (vt_task_id task) (node_id p) (gallery_urls x gallery) db3).2) as Hj4.
    { eapply submitted_other; [apply SaveBaseline_calm|done]. }
    split; [done|]. intros db4 Hr4.
    destruct (SaveBaseline _ _ _ _ _).1 as [err|u] eqn:Eok; apply counts_ret; intros db5 Hr5.
    { apply HQ. eapply submitted_rely; [|exact Hj4]. by etrans. }
    apply Hb; [eapply submitted_rely; [|exact Hj4]; by etrans|].
    intros Ek. rewrite (H0 Ek) in *. rewrite Ek in *.
    eapply ready_rely; [exact Hr5|]. eapply ready_rely; [exact Hr4|]. by eapply SaveBaseline_ready.
Qed.

Lemma counts_submit_first p task v n db (Q : _ → nat → DB → Prop) :
  submitted n db → (vt_task_id task = keep → ready n db) → (∀ r m db', submitted m db' → Q r m db') →
  countsQ (submit_first x p task v) Q n db.
Proof.
  intros Hj Hready HQ. unfold submit_first.
  apply counts_bind, counts_quietly; [quieted|done|]. intros [args|] db1 Hr1 Hj1.
  2: { apply counts_quietly; [quieted|done|auto]. }
  apply counts_bind, counts_submit_task; [done|intros Et; eapply ready_rely; eauto|].
  intros r m db2 Hm. apply counts_quietly; [quieted|done|auto].
Qed.

Lemma counts_start_claimed rounds p task n db :
  submitted n db → (vt_task_id task = keep → n = 0%nat) → counts (start_claimed x rounds p task) n db.
Proof.
  intros Hj H0. unfold start_claimed.
  destruct (validate_request x p task); [apply counts_by_quiet; [quieted|done]|].
  apply counts_bind, counts_save_context; [done..|]. intros [r|_] db1 Hj1; [by apply counts_ret|].
  apply counts_bind, counts_save_baseline; [done..| |]; [intros; by apply counts_ret|].
  intros baseline db2 Hj2 Hready.
  apply counts_bind, counts_submit_first; [done..|]. intros [r|_] m db3 Hj3; [by apply counts_ret|].
  apply counts_then; [quieted|done|]. intros [err|t] db4 Hj4; [by apply counts_ret|by apply counts_poll].
Qed.

Lemma counts_ProcessOne rounds p n db :
  submitted n db → counts (ProcessOne x rounds p) n db.
Proof.
  intros Hj. unfold ProcessOne. apply counts_bind, counts_store; [intros f db1 [] _; by apply counts_ret|].
  intros db1 e Hr1. assert (submitted n db1) as Hj1 by (by eapply submitted_rely).
  split; [done|]. intros db2 Hr2. assert (submitted n db2) as Hj2 by (by eapply submitted_rely).
  simpl fst. destruct (ActiveForUpstream (node_id p) db1) as [err|task] eqn:Ea.
  - destruct err; try (by apply counts_ret).
    apply counts_bind, counts_store; [intros; by apply counts_ret|].
    intros db3 e' Hr3. assert (submitted n db3) as Hj3 by (by eapply submitted_rely).
    assert (submitted n (ClaimNext e' (lp_Options p) (node_id p)
      (if 0 <? lp_NodeVersion p then Some (lp_NodeVersion p) else None) db3).2) as Hj4.
    { eapply submitted_other; [apply ClaimNext_other|done]. }
    split; [done|]. intros db4 Hr4.
    assert (submitted n db4) as Hj5 by (by eapply submitted_rely).
    destruct (ClaimNext _ _ _ _ _).1 as [err|task] eqn:Ec; [by apply counts_ret|].
    destruct (negb _); [by apply counts_ret|].
    apply ClaimNext_queued in Ec as (s & Hs & Es & Hq); [|by eapply submitted_wf].
    apply counts_then; [quieted|done|]. intros _ db5 Hj6. apply counts_start_claimed; [done|].
    intros Ek. destruct (submitted_row n db3 s Hj3 Hs) as [?|[_ ?]]; [congruence|done|congruence].
  - destruct (negb _); [by apply counts_ret|].
    apply counts_then; [quieted|done|]. intros _ db3 Hj3. apply counts_resume; [done|].
    intros Ek Hg. unfold ActiveForUpstream in Ea. case_match eqn:Ef; [|done]. injection Ea as ->.
    apply find_some in Ef as [Hin%list_elem_of_In _].
    destruct (submitted_row n db1 task Hj1 Hin Ek) as [?|[Hn _]]; [done|].
    unfold rank in Hn. rewrite Hg in Hn. lia.
Qed.

(** One pass after the other, for any nodes: every pass is carried on for as long
    as it lives, and others use the store meanwhile. *)
Inductive legacy_passes (db0 : DB) : DB → list (event LegacyE * DB) → Prop :=
  | legacy_passes_none : legacy_passes db0 db0 []
  | legacy_passes_one db tr rounds p c :
      legacy_passes db0 db tr →
      rtc (steps (λ _, True) legacy_other (λ _, False))
        (mkConfig [ProcessOne x rounds p ≫= λ _, mret tt] db []) c →
      legacy_passes db0 (cdb c) (tr ++ trace c).

(** C6: a task on legacy nodes is submitted at most twice.  Take any sequence of
    passes of the workers of the nodes, each of which may be cut off anywhere, meet
    failures of the store and any answers of the node, while others use the store;
    the passes do not overlap, and nobody else deletes the task, forgets its
    baseline or puts it back into the queue.  The nodes are asked to start the task
    at most twice in all: once, and once more after the retry was recorded. *)
Theorem legacy_submits_twice db0 db tr :
  wf db0 → legacy_passes db0 db tr → (spent submits tr ≤ 2)%nat.
Proof.
  intros Hw H. apply (submitted_2 _ db). induction H as [|db tr rounds p c Hp IH Hc]; [by apply submitted_0|].
  rewrite spent_app. eapply counts_adequate; [apply submitted_other| |done|exact Hc].
  apply counts_bind. eapply counts_mono; [by apply counts_ProcessOne|]. intros. by apply counts_ret.
Qed.
End safety.
