(* ===== verification/OfficialWorker.v ===== *)
(** * The worker of official nodes (internal/official/processor.go,
    internal/domain/official_error.go)

    The official service has no idempotency key.  Before a task is submitted,
    the tasks the service already lists are recorded with it; after a crash the
    submission is looked for among the tasks that are new since, and is never
    repeated. *)

From stdpp Require Import relations.
From S2P Require Import Prelude Domain Tx Database Sql Workers GoStrings Queue Remote Tasks Official Lifecycle.

(** ** Errors of the service (internal/domain/official_error.go) *)

Definition mediaDownloadErrorMessage : string := "cannot download media URL (2013)".

Definition officialErrorMessages : list (string * string) :=
  [("1000", "未知错误，稍后重试");
   ("1001", "请求超时，可以重试");
   ("1002", "请求频率超过限制，降低并发并退避重试");
   ("1004", "未授权、Key 与 Group 不匹配，或登录状态失效");
   ("1008", "余额不足，需要充值或检查套餐");
   ("1024", "MiniMax 内部错误，稍后重试");
   ("1026", "输入内容触发安全审核，需要修改提示词、图片或其他输入");
   ("1027", "模型生成内容触发安全审核，需要修改输入后重新生成");
   ("1033", "系统或数据库异常，稍后重试");
   ("1039", "Token 超限，缩短上下文、输入或最大输出长度");
   ("1041", "连接数超过限制，降低并发；持续出现需联系官方");
   ("1042", "不可见字符或非法字符比例过高，清理文本格式");
   ("1043", "语音识别相似度校验失败，检查 file_id 和 text_validation");
   ("1044", "克隆音频与提示文本相似度校验失败");
   ("2013", "请求参数无效，或字形定义格式错误");
   ("20132", "样本、file_id 或 voice_id 无效");
   ("2037", "克隆音频过短或过长，需要调整音频时长");
   ("2039", "自定义 voice_id 重复，需要更换");
   ("2042", "无权使用该 voice_id，检查所属账号");
   ("2045", "请求量增长或下降过快，应平滑控制并发");
   ("2048", "提示音频超过限制，应控制在 8 秒以内");
   ("2049", "API Key 无效、错误、过期或已被停用");
   ("2056", "套餐用量超过限制，等待下一个 5 小时窗口释放")].

Definition official_message (code : string) : option string :=
  snd <$> List.find (λ kv, kv.1 ≟ code) officialErrorMessages.

Definition opening : Ascii.ascii := Ascii.ascii_of_nat 40.
Definition closing : Ascii.ascii := Ascii.ascii_of_nat 41.

(** [strings.LastIndexByte]; [None] for -1. *)
Fixpoint LastIndexByte (s : string) (b : Ascii.ascii) : option nat :=
  match s with
  | EmptyString => None
  | String c s =>
      match LastIndexByte s b with
      | Some i => Some (S i)
      | None => if c ≟ b then Some O else None
      end
  end.

Fixpoint all_digits (s : string) : bool :=
  match s with EmptyString => true | String c s => in_range 48 57 (byte_of c) && all_digits s end.

Definition OfficialErrorCode (feedback : option UpstreamFeedback) : string :=
  match feedback with
  | None => ""
  | Some feedback =>
      let code := TrimSpace (fb_Code feedback) in
      if negb (code ≟ "") then code
      else
      let message := TrimSpace (fb_Message feedback) in
      let n := String.length message in
      if (Z.of_nat n <? 3) || negb (String.get (n - 1) message ≟ Some closing) then ""
      else
      match LastIndexByte message opening with
      | None => ""
      | Some i =>
          if bool_decide (i = n - 2)%nat then ""
          else
          let candidate := String.substring (i + 1) (n - 1 - (i + 1)) message in
          if negb (all_digits candidate) then ""
          else if is_null (official_message candidate) then "" else candidate
      end
  end.

(** ** The client (internal/upstream/minimaxv2) *)

Record V2Error := mkV2Error {
  ve_HTTP : option UpstreamFeedback;   (** the HTTPError in it *)
  ve_net : bool                        (** a net.Error is in it *)
}.

Record V2Task := mkV2Task {
  v2_ID : string;
  v2_Status : string;
  v2_URL : string;
  v2_Resolution : string;
  v2_Duration : Z;
  v2_Ratio : string;
  v2_CreatedAt : Z;
  v2_Error : option (string * string)
}.

(** The interactions of the worker: the three calls of [Client], and
    [Inputs.Restore]. *)
Inductive OfficialE : Type → Type :=
  | V2Submit (taskID : string) (body : json_text GenerationRequest) : OfficialE (V2Error + string)
  | V2Query (id : string) : OfficialE (V2Error + V2Task)
  | V2List : OfficialE (V2Error + list V2Task)
  | RestoreInputs (taskID : string) (body : json_text GenerationRequest)
      : OfficialE (error + json_text GenerationRequest).

(** Why a pass gives up. *)
Inductive cause :=
  | CauseClient (err : V2Error)
  | CauseAmbiguous           (** several candidates *)
  | CauseContext.

(** What a pass returns: the errors joined in it, none for nil. *)
Inductive official_failure := OfStore (err : error) | OfCause (c : cause).
Definition returned {A} (r : error + A) : list official_failure :=
  match r with inl err => [OfStore err] | inr _ => [] end.

Section processor.
Context (EqualFold : string → string → bool).
(** [now.Format("2006-01-02")] of a time in milliseconds. *)
Context (format_date : Z → string).

Definition LocalizeOfficialError (fallbackCode fallbackMessage : string)
    (feedback : option UpstreamFeedback) : string * string :=
  let code := OfficialErrorCode feedback in
  match official_message code with
  | None => (fallbackCode, fallbackMessage)
  | Some message =>
      (code,
       if (code ≟ "2013")
          && EqualFold (TrimSpace (match feedback with Some f => fb_Message f | None => "" end))
               mediaDownloadErrorMessage
       then "无法下载媒体 URL，请确认地址可被公网直接访问并返回有效媒体文件" else message)
  end.

Definition with_code (feedback : UpstreamFeedback) : UpstreamFeedback :=
  mkFeedback (fb_HTTPStatus feedback) (OfficialErrorCode (Some feedback)) (fb_Type feedback)
    (fb_Message feedback) (fb_ResourceType feedback) (fb_RequestID feedback).

Definition upstreamFeedback (c : cause) : option UpstreamFeedback :=
  match c with
  | CauseClient err => with_code <$> ve_HTTP err
  | _ => None
  end.

Definition officialFailureMessage (code : string) : string :=
  if code ≟ "official_baseline_failed" then "官方任务列表查询失败"
  else if code ≟ "official_reconcile_failed" then "官方任务提交结果对账失败"
  else if code ≟ "official_submit_failed" then "官方任务提交失败"
  else if code ≟ "official_query_failed" then "官方任务状态查询失败"
  else "官方任务处理失败".

Record Processor := mkProcessor {
  op_Options : Options;
  op_NodeID : string;
  op_NodeVersion : Z;
  op_Capacity : Z;
  op_Inputs : bool     (** Inputs is not nil *)
}.

Definition markFailed (p : Processor) (task : Task) (code message : string)
    (feedback : option UpstreamFeedback) : Prog OfficialE (error + unit) :=
  store (λ e, MarkOfficialFailed e (vt_task_id task) (op_NodeID p) code message feedback).

Definition failUnlessStoppingWithFeedback (p : Processor) (task : Task) (code : string) (c : cause)
    (feedback : option UpstreamFeedback) : Prog OfficialE (list official_failure) :=
  stop ← stopped;
  if stop : bool then mret [OfCause c]
  else
    let '(code, message) := LocalizeOfficialError code (officialFailureMessage code) feedback in
    r ← markFailed p task code message feedback;
    mret match r with inl err => [OfCause c; OfStore err] | inr _ => [] end.
Definition failUnlessStopping (p : Processor) (task : Task) (code : string) (c : cause)
    : Prog OfficialE (list official_failure) :=
  failUnlessStoppingWithFeedback p task code c (upstreamFeedback c).

(** ** Looking for a submission *)

(** A task of the service that may be the submission. *)
Definition may_be (task : Task) (baseline : list string) (item : V2Task) : bool :=
  negb (v2_ID item ∈? baseline)
  && negb (negb (v2_Resolution item ≟ "")
           && negb (v2_Resolution item ≟ vt_resolution (vt_request task)))
  && negb (negb (v2_Duration item =? 0) && negb (v2_Duration item =? vt_duration (vt_request task)))
  && negb (negb (v2_Ratio item ≟ "") && negb (vt_ratio_requested (vt_request task) ≟ "")
           && negb (v2_Ratio item ≟ vt_ratio_requested (vt_request task)))
  && negb ((0 <? v2_CreatedAt item) && (0 <? coalesce_int (vt_attempt_started_at task))
           && (v2_CreatedAt item <? coalesce_int (vt_attempt_started_at task) - 5)).

Definition firstCandidate (candidates : list string) : cause + option string :=
  match candidates with
  | [] => inr None
  | [id] => inr (Some id)
  | _ => inl CauseAmbiguous
  end.

Definition reconcileSubmission (task : Task) (baseline : list string)
    : Prog OfficialE (cause + option string) :=
  items ← call V2List;
  mret match items with
       | inl err => inl (CauseClient err)
       | inr items => firstCandidate (map v2_ID (List.filter (may_be task baseline) items))
       end.

(** [attempts] that are left, of three. *)
Fixpoint reconcile_attempts (attempts : nat) (task : Task) (baseline : list string)
    : Prog OfficialE (cause + option string) :=
  match attempts with
  | O => mret (inr None)
  | S attempts =>
      r ← reconcileSubmission task baseline;
      match r with
      | inl _ | inr (Some _) => mret r
      | inr None =>
          match attempts with
          | O => mret (inr None)
          | S _ =>
              stop ← stopped;
              if stop : bool then mret (inl CauseContext) else reconcile_attempts attempts task baseline
          end
      end
  end.
Definition reconcileSubmissionWithRetry : Task → list string → Prog OfficialE (cause + option string) :=
  reconcile_attempts 3.

(** ** Submitting *)

(** From a task without a recorded baseline to the task of the service;
    [inl] when the pass ends. *)
Definition submit (p : Processor) (task : Task)
    : Prog OfficialE (list official_failure + string) :=
  body ← (if op_Inputs p
          then call (RestoreInputs (vt_task_id task) (vt_request_json (vt_request task)))
          else mret (inr (vt_request_json (vt_request task))));
  match body with
  | inl restoreErr =>
      stop ← stopped;
      if stop : bool then mret (inl [OfStore restoreErr])
      else
        r ← markFailed p task "official_input_materialization_failed" "官方任务输入素材还原失败" None;
        mret (inl (returned r))
  | inr body =>
      before ← call V2List;
      match before with
      | inl err =>
          r ← failUnlessStopping p task "official_baseline_failed" (CauseClient err); mret (inl r)
      | inr before =>
          let baseline := map v2_ID before in
          saved ← store (λ e, SaveOfficialSubmissionBaseline e (vt_task_id task) (op_NodeID p) baseline);
          match saved with
          | inl err => mret (inl [OfStore err])
          | inr _ =>
              created ← call (V2Submit (vt_task_id task) body);
              created ← (match created with
                 | inr id => mret (inr id)
                 | inl err =>
                     r ← reconcileSubmissionWithRetry task baseline;
                     match r with
                     | inr (Some id) => mret (inr id)
                     | inl reconcileErr =>
                         r ← failUnlessStoppingWithFeedback p task "official_reconcile_failed"
                               reconcileErr (upstreamFeedback (CauseClient err));
                         mret (inl r)
                     | inr None =>
                         r ← failUnlessStopping p task "official_submit_failed" (CauseClient err);
                         mret (inl r)
                     end
                 end);
              try! created ← mret created;
              bound ← store (λ e, BindOfficialTask e (vt_task_id task) (op_NodeID p) created);
              mret match bound with inl err => inl [OfStore err] | inr _ => inr created end
          end
      end
  end.

(** From a task with a recorded baseline. *)
Definition recover (p : Processor) (task : Task) : Prog OfficialE (list official_failure + string) :=
  match unmarshal (vt_upstream_jobs_before_json task) with
  | None =>
      r ← markFailed p task "official_reconcile_invalid" "官方任务对账快照无效" None;
      mret (inl (returned r))
  | Some baseline =>
      r ← reconcileSubmissionWithRetry task baseline;
      match r with
      | inl err => r ← failUnlessStopping p task "official_reconcile_failed" err; mret (inl r)
      | inr (Some id) =>
          bound ← store (λ e, BindOfficialTask e (vt_task_id task) (op_NodeID p) id);
          mret match bound with inl err => inl [OfStore err] | inr _ => inr id end
      | inr None =>
          r ← markFailed p task "official_submit_uncertain" "官方任务提交结果无法确认，已停止自动重提" None;
          mret (inl (returned r))
      end
  end.

(** ** Polling *)

Definition retryableQueryError (err : V2Error) : bool :=
  match ve_HTTP err with
  | Some h => (fb_HTTPStatus h =? 429) || (500 <=? fb_HTTPStatus h)
  | None => ve_net err
  end.

Definition settle (p : Processor) (task : Task) (result : V2Task) : Prog OfficialE (list official_failure) :=
  if v2_Status result ≟ "succeeded" then
    e ← environment;
    let job := if vt_delivery_required task
               then Some (String.append "result-upload-" (vt_task_id task),
                          String.concat "" ["MiniMax-H3/"; format_date (env_now e); "/";
                                            vt_task_id task; ".mp4"])
               else None in
    r ← store (λ e, MarkOfficialGenerated e (vt_task_id task) (op_NodeID p) (v2_URL result)
                      (v2_Ratio result) job);
    mret (returned r)
  else if v2_Status result ∈? ["failed"; "cancelled"] then
    let '(code, message) :=
      if v2_Status result ≟ "cancelled" then ("official_task_cancelled", "官方视频生成任务已取消")
      else ("official_generation_failed", "官方视频生成任务失败") in
    let feedback := (λ er, with_code (mkFeedback 0 er.1 "" er.2 "" "")) <$> v2_Error result in
    let '(code, message) := LocalizeOfficialError code message feedback in
    r ← markFailed p task code message feedback;
    mret (returned r)
  else
    r ← markFailed p task "official_status_invalid" "官方任务返回未知状态" None;
    mret (returned r).

(** The loop, for at most [rounds] waits before the context ends. *)
Fixpoint poll (rounds : nat) (p : Processor) (task : Task) (id : string)
    : Prog OfficialE (list official_failure) :=
  let again :=
    match rounds with
    | O => mret [OfCause CauseContext]
    | S rounds =>
        stop ← stopped;
        if stop : bool then mret [OfCause CauseContext] else poll rounds p task id
    end in
  result ← call (V2Query id);
  match result with
  | inl err =>
      if retryableQueryError err then again
      else failUnlessStopping p task "official_query_failed" (CauseClient err)
  | inr result =>
      if v2_Status result ∈? ["queued"; "running"] then again else settle p task result
  end.

(** ** A pass *)

Definition ProcessTask (rounds : nat) (p : Processor) (task : Task) : Prog OfficialE (list official_failure) :=
  stop ← stopped;
  if stop : bool then mret [OfStore ErrContext]
  else if negb (vt_protocol_version task ≟ Some ProtocolOfficial)
          || negb (vt_route_state task ≟ RouteReady)
          || negb (coalesce_str (vt_upstream_id task) ≟ op_NodeID p)
  then mret [OfStore ErrStateConflict]
  else
  let job := coalesce_str (vt_upstream_job_id task) in
  (** A reconciled or a created task may have the empty identifier, which
      counts as none. *)
  id ← (if negb (job ≟ "") then mret (inr job)
        else
        first ← (if vt_official_submission_baseline_saved task then recover p task else mret (inr ""));
        match first with
        | inl r => mret (inl r)
        | inr id => if id ≟ "" then submit p task else mret (inr id)
        end);
  match id with
  | inl r => mret r
  | inr id => poll rounds p task id
  end.

Definition ProcessOne (rounds : nat) (p : Processor) : Prog OfficialE (list official_failure) :=
  task ← store (λ e, ClaimNextOfficial e (op_Options p) (op_NodeID p) (op_NodeVersion p) (op_Capacity p));
  match task with
  | inl err => mret [OfStore err]
  | inr task => ProcessTask rounds p task
  end.
End processor.
