(* ===== verification/OfficialSafety.v ===== *)
(** * What the official worker asks of its service

    A task is submitted at most once, over any number of passes that crash or
    fail anywhere, as long as they do not overlap and nobody puts the task back
    into the queue. *)

From stdpp Require Import relations.
From S2P Require Import Prelude Domain Tx Database Sql Workers GoStrings Catalog Paging TaskRouting Callbacks Queue Stages Artifacts Remote Tasks Official Delivery Nodes Normalize Router Lifecycle Reachable OfficialWorker.

Section safety.
Context (EqualFold : string → string → bool) (format_date : Z → string) (keep : string).

(** ** Staying submitted *)

(** A task whose baseline is recorded keeps it, and does not return to the
    state in which it may be submitted. *)
Definition stays (db db' : DB) : Prop :=
  ∀ t, t ∈ db_video_tasks db → vt_task_id t = keep →
    vt_official_submission_baseline_saved t = true →
    ∃ t', t' ∈ db_video_tasks db' ∧ vt_task_id t' = keep ∧
      vt_official_submission_baseline_saved t' = true ∧
      (vt_status t ≠ StatusDispatching → vt_status t' ≠ StatusDispatching).

#[export] Instance stays_preorder : PreOrder stays.
Proof.
  split.
  - intros db t Ht E Hs. by exists t.
  - intros db1 db2 db3 H1 H2 t Ht E Hs. destruct (H1 t Ht E Hs) as (t1 & Ht1 & E1 & Hs1 & Hd1).
    destruct (H2 t1 Ht1 E1 Hs1) as (t2 & Ht2 & E2 & Hs2 & Hd2). exists t2. split_and!; auto.
Qed.

(** What others do to the store between two actions of the worker. *)
Definition other (db db' : DB) : Prop := step keep db db' ∧ stays db db'.

Lemma stays_same db db' : db_video_tasks db' = db_video_tasks db → stays db db'.
Proof. intros E t Ht Et Hs. exists t. rewrite E. by split_and!. Qed.

Lemma stays_update p f :
  (∀ t, vt_task_id (f t) = vt_task_id t ∧
     (vt_official_submission_baseline_saved t = true → vt_official_submission_baseline_saved (f t) = true) ∧
     (vt_status t ≠ StatusDispatching → vt_status (f t) ≠ StatusDispatching)) →
  tx_rel stays (exec_update (R:=Task) p f).
Proof.
  intros Hf. apply tx_rel_exec_update; [apply _|]. intros db t Ht E Hs. destruct (Hf t) as (? & ? & ?).
  exists (if p t then f t else t). split; [simpl; apply elem_of_update_where; by exists t|].
  destruct (p t); split_and!; auto; congruence.
Qed.

Ltac stays_stmt :=
  match goal with
  | |- tx_rel _ (@exec_update Task _ _ _) =>
      apply stays_update; intros ?; cbn; split_and!; [reflexivity|done|];
      repeat match goal with |- context [is_null ?x] => destruct (is_null x) end; done
  | _ => tx_stmt
  end.
Ltac stays_op :=
  unfold statement, touch; cbv zeta;
  first [apply tx_rel_immediate; [apply _|] | apply tx_rel_immediate_shadowed; [apply _|]];
  repeat stays_stmt; try (intros ?; by apply stays_same).

Lemma createCallback_stays e k taskID status now :
  tx_rel stays (createCallbackDeliveryWithConn e k taskID status now).
Proof. unfold createCallbackDeliveryWithConn. repeat stays_stmt; try (intros ?; by apply stays_same). Qed.

Lemma SaveBaseline_other e task node ids db :
  other db (SaveOfficialSubmissionBaseline e task node ids db).2.
Proof. split; [apply step_SaveOfficialSubmissionBaseline|]. unfold SaveOfficialSubmissionBaseline. stays_op. Qed.
Lemma BindOfficialTask_other e task node id db : other db (BindOfficialTask e task node id db).2.
Proof. split; [apply step_BindOfficialTask|]. unfold BindOfficialTask. stays_op. Qed.
Lemma MarkOfficialFailed_other e task node code message feedback db :
  other db (MarkOfficialFailed e task node code message feedback db).2.
Proof.
  split; [apply step_MarkOfficialFailed|]. unfold MarkOfficialFailed. stays_op. all: apply createCallback_stays.
Qed.
Lemma MarkOfficialGenerated_other e task node url ratio job db :
  other db (MarkOfficialGenerated e task node url ratio job db).2.
Proof.
  split; [apply step_MarkOfficialGenerated|]. unfold MarkOfficialGenerated. stays_op. all: apply createCallback_stays.
Qed.

#[local] Abbreviation rely := (rtc other).

Lemma official_rely_wf db db' : rely db db' → wf db → wf db'.
Proof.
  induction 1 as [|db1 db2 db3 [Hs _] _ IH]; [done|]. intros Hw. apply IH.
  by apply (step_wf keep db1).
Qed.
Lemma rely_stays db db' : rely db db' → stays db db'.
Proof. induction 1 as [|db1 db2 db3 [_ Hs] _ IH]; [reflexivity|by etrans]. Qed.

(** The baseline of the task is recorded; it was then bound to a task of the
    service. *)
Definition saved (db : DB) : Prop :=
  ∃ t, t ∈ db_video_tasks db ∧ vt_task_id t = keep ∧ vt_official_submission_baseline_saved t = true.
Definition bound (db : DB) : Prop :=
  ∃ t, t ∈ db_video_tasks db ∧ vt_task_id t = keep ∧
    vt_official_submission_baseline_saved t = true ∧ vt_status t ≠ StatusDispatching.

Lemma saved_stable db db' : rely db db' → saved db → saved db'.
Proof.
  intros Hr%rely_stays (t & Ht & E & Hs). destruct (Hr t Ht E Hs) as (t' & ? & ? & ? & _). by exists t'.
Qed.
Lemma bound_stable db db' : rely db db' → bound db → bound db'.
Proof.
  intros Hr%rely_stays (t & Ht & E & Hs & Hd). destruct (Hr t Ht E Hs) as (t' & ? & ? & ? & ?).
  exists t'. split_and!; auto.
Qed.

Lemma wf_task_unique db t1 t2 :
  wf db → t1 ∈ db_video_tasks db → t2 ∈ db_video_tasks db → vt_task_id t1 = vt_task_id t2 → t1 = t2.
Proof.
  intros [Hs _] ???. apply (NoDup_map_inj vt_task_id (db_video_tasks db)); [|done..].
  apply sv_tasks, tasks_valid_iff in Hs. apply Hs.
Qed.

Lemma official_task_id task node ss t : official_task task node ss t = true →
  vt_task_id t = task ∧ vt_status t ∈ ss.
Proof.
  unfold official_task, has_status. rewrite !andb_true_iff, !bool_decide_eq_true. tauto.
Qed.

Lemma SaveBaseline_saved e node ids db u :
  (SaveOfficialSubmissionBaseline e keep node ids db).1 = inr u →
  saved (SaveOfficialSubmissionBaseline e keep node ids db).2.
Proof.
  destruct (SaveOfficialSubmissionBaseline e keep node ids db) as [r db'] eqn:E. simpl. intros ->.
  apply statement_inr in E. sql_inv E. apply one_row in E as (t & Ht & Hp). simpl in Ht.
  eexists. split; [simpl; apply elem_of_update_where; by exists t|]. rewrite Hp.
  by apply official_task_id in Hp as [? _].
Qed.

Lemma SaveBaseline_refused e node ids db u :
  wf db → bound db → (SaveOfficialSubmissionBaseline e keep node ids db).1 ≠ inr u.
Proof.
  intros Hw Hb Hr.
  destruct (SaveOfficialSubmissionBaseline e keep node ids db) as [r db'] eqn:E. simpl in Hr. subst r.
  apply statement_inr in E. sql_inv E. apply one_row in E as (t' & Ht' & [Et' Hst]%official_task_id).
  simpl in Ht'. destruct Hb as (t & Ht & Et & _ & Hd). assert (t' = t) as -> by (apply (wf_task_unique db); congruence). set_solver.
Qed.

Lemma BindOfficialTask_bound e node id db u :
  wf db → saved db → (BindOfficialTask e keep node id db).1 = inr u →
  bound (BindOfficialTask e keep node id db).2.
Proof.
  intros Hw Hb Hr.
  destruct (BindOfficialTask e keep node id db) as [r db'] eqn:E. simpl in Hr |- *. subst r.
  apply statement_inr in E. sql_inv E. apply one_row in E as (t' & Ht' & Hp). simpl in Ht'.
  destruct Hb as (t & Ht & Et & Hs). assert (t' = t) as -> by (apply (wf_task_unique db); [done..|]; apply official_task_id in Hp; destruct Hp; congruence).
  eexists. split; [simpl; apply elem_of_update_where; by exists t|]. by rewrite Hp.
Qed.

(** ** The programs *)

Section wp.
(** When the task may be submitted. *)
Context (allowed : string → DB → Prop).

Definition submits_allowed (X : Type) (c : OfficialE X) (db : DB) : Prop :=
  match c with V2Submit task _ => allowed task db | _ => True end.

#[local] Abbreviation quiet := (quiet other submits_allowed).
#[local] Abbreviation wp := (wp (λ _, True) other submits_allowed).
#[local] Abbreviation ok := (λ _ _, True).
#[local] Hint Resolve SaveBaseline_other BindOfficialTask_other MarkOfficialFailed_other
  MarkOfficialGenerated_other : quiet.
Ltac quiet := quiet_by ltac:(auto with quiet) ltac:(exact I).

Lemma quiet_fail p task code c feedback :
  quiet (failUnlessStoppingWithFeedback EqualFold p task code c feedback).
Proof. unfold failUnlessStoppingWithFeedback, markFailed. quiet. Qed.
Lemma quiet_markFailed p task code message feedback : quiet (markFailed p task code message feedback).
Proof. unfold markFailed. quiet. Qed.
#[local] Hint Resolve quiet_fail quiet_markFailed : quiet.

Lemma quiet_reconcile n task baseline : quiet (reconcile_attempts n task baseline).
Proof.
  induction n as [|n IH]; cbn [reconcile_attempts]; [done|]. unfold reconcileSubmission. quiet.
Qed.
#[local] Hint Resolve quiet_reconcile : quiet.

Lemma quiet_settle p task result : quiet (settle EqualFold format_date p task result).
Proof. unfold settle. quiet. Qed.
#[local] Hint Resolve quiet_settle : quiet.

Lemma official_quiet_poll rounds p task id : quiet (poll EqualFold format_date rounds p task id).
Proof.
  induction rounds as [|rounds IH]; cbn [poll]; unfold failUnlessStopping; quiet.
Qed.

Lemma official_wp_submit p task db :
  (∀ e ids db1 db2 u, rely db db1 →
     (SaveOfficialSubmissionBaseline e (vt_task_id task) (op_NodeID p) ids db1).1 = inr u →
     rely (SaveOfficialSubmissionBaseline e (vt_task_id task) (op_NodeID p) ids db1).2 db2 →
     allowed (vt_task_id task) db2) →
  wp (submit EqualFold p task) ok db.
Proof.
  intros Hsave. unfold submit. apply wp_bind, wp_quiet; [destruct (op_Inputs p); quiet|].
  intros [err|body] db1 Hr1; [apply wp_quiet; [quiet|done]|].
  apply wp_bind, wp_quiet; [quiet|]. intros [err|before] db2 Hr2.
  { unfold failUnlessStopping. apply wp_quiet; [quiet|done]. }
  apply wp_bind, wp_store; [intros; by apply wp_ret|].
  intros db3 e Hr3 _. split; [apply rtc_once; auto with quiet|]. intros db4 Hr4.
  destruct (SaveOfficialSubmissionBaseline _ _ _ _ _).1 as [err|u] eqn:Eok; [by apply wp_ret|].
  apply wp_bind, wp_call.
  - intros db5 Hr5. eapply Hsave; [|exact Eok|by etrans]. etrans; [exact Hr1|by etrans].
  - intros r db5 _. apply wp_quiet; [|done]. unfold failUnlessStopping, reconcileSubmissionWithRetry. quiet.
Qed.

Lemma wp_recover p task db :
  vt_task_id task = keep → wf db → saved db →
  wp (recover EqualFold p task) (λ r db', match r with inr _ => wf db' ∧ bound db' | inl _ => True end) db.
Proof.
  intros Et Hw Hs. unfold recover. destruct (unmarshal _) as [baseline|]; [|].
  2: { apply wp_bind, wp_quiet; [quiet|]. intros. by apply wp_ret. }
  apply wp_bind, wp_quiet; [apply quiet_reconcile|]. intros [err|[id|]] db1 Hr1.
  - unfold failUnlessStopping. apply wp_bind, wp_quiet; [quiet|]. intros. by apply wp_ret.
  - apply wp_bind, wp_store; [intros; by apply wp_ret|].
    intros db2 e Hr2 _. split; [apply rtc_once; auto with quiet|]. intros db3 Hr3. rewrite Et in *.
    destruct (BindOfficialTask _ _ _ _ _).1 as [err|u] eqn:Eok; [by apply wp_ret|].
    assert (rely db db2) as Hr by (by etrans).
    apply wp_ret. intros db4 Hr4. split.
    + eapply official_rely_wf; [|exact Hw]. etrans; [exact Hr|].
      apply (rtc_l _ _ _ _ (BindOfficialTask_other e keep (op_NodeID p) id db2)). by etrans.
    + apply (bound_stable (BindOfficialTask e keep (op_NodeID p) id db2).2); [by etrans|].
      eapply BindOfficialTask_bound; [by eapply official_rely_wf|by eapply saved_stable|exact Eok].
  - apply wp_bind, wp_quiet; [quiet|]. intros. by apply wp_ret.
Qed.

(** A pass may submit when its copy of the task has no baseline, or when the
    baseline may be recorded although the task is bound. *)
Lemma official_wp_ProcessTask rounds p task db :
  vt_task_id task = keep → wf db →
  (vt_official_submission_baseline_saved task = true → saved db) →
  (vt_official_submission_baseline_saved task = false → ∀ db', saved db' → allowed keep db') →
  wp (ProcessTask EqualFold format_date rounds p task) ok db.
Proof.
  intros Et Hw Hs Ha. unfold ProcessTask. apply wp_bind, wp_stopped.
  intros [] db1 Hr1; [by apply wp_ret|]. destruct (_ || _); [by apply wp_ret|].
  assert (wf db1) as Hw1 by (by eapply official_rely_wf).
  apply wp_bind. apply (wp_mono _ _ _ _ ok).
  2: { intros [r|id] db2 _; [by apply wp_ret|]. apply wp_quiet; [apply official_quiet_poll|done]. }
  destruct (negb _); [by apply wp_ret|].
  apply wp_bind. destruct (vt_official_submission_baseline_saved task) eqn:Eb.
  - eapply wp_mono; [apply wp_recover; [done..|]; eapply saved_stable; eauto|].
    intros [r|id] db2 Hb; [by apply wp_ret|]. destruct (_ ≟ ""); [|by apply wp_ret].
    destruct Hb as [Hw2 Hb2]. apply official_wp_submit. rewrite Et. intros e ids db3 db4 u Hr3 Hok _.
    exfalso. revert Hok. apply SaveBaseline_refused; [by eapply official_rely_wf|by eapply bound_stable].
  - apply wp_ret. intros db2 Hr2. rewrite bool_decide_eq_true_2 by done.
    apply official_wp_submit. rewrite Et. intros e ids db3 db4 u Hr3 Hok Hr4. apply Ha; [done|].
    eapply saved_stable; [exact Hr4|]. by eapply SaveBaseline_saved.
Qed.
End wp.

(** ** Passes *)

Definition submits (X : Type) (c : OfficialE X) : bool :=
  match c with V2Submit task _ => task ≟ keep | _ => false end.

#[local] Abbreviation budget := (budget submits).

Lemma budget_fail p task code c feedback :
  budget 0 (failUnlessStoppingWithFeedback EqualFold p task code c feedback).
Proof. unfold failUnlessStoppingWithFeedback, markFailed. budgeted. Qed.
Lemma budget_reconcile n task baseline : budget 0 (reconcile_attempts n task baseline).
Proof.
  induction n as [|n IH]; cbn [reconcile_attempts]; [done|]. unfold reconcileSubmission. budgeted.
Qed.
#[local] Hint Resolve budget_fail budget_reconcile : quiet.

Lemma budget_poll rounds p task id : budget 0 (poll EqualFold format_date rounds p task id).
Proof.
  induction rounds as [|rounds IH]; cbn [poll]; unfold failUnlessStopping, settle, markFailed; budgeted.
Qed.

Lemma budget_submit p task : budget 1 (submit EqualFold p task).
Proof.
  unfold submit, failUnlessStopping, markFailed.
  apply (budget_bind _ 0 1); [destruct (op_Inputs p); budgeted|]. intros [err|body].
  { apply (budget_bind _ 0 1); [done|]. intros []; [done|]. apply (budget_bind _ 0 1); budgeted. }
  apply (budget_bind _ 0 1); [budgeted|]. intros [?|before]; [apply (budget_bind _ 0 1); budgeted|].
  cbv zeta. apply (budget_bind _ 0 1); [budgeted|]. intros [?|u]; [done|].
  apply (budget_bind _ 1 0).
  - simpl. by destruct (_ ≟ keep).
  - unfold reconcileSubmissionWithRetry. budgeted.
Qed.

Lemma budget_ProcessTask rounds p task : budget 1 (ProcessTask EqualFold format_date rounds p task).
Proof.
  unfold ProcessTask. apply (budget_bind _ 0 1); [budgeted|]. intros []; [done|].
  destruct (_ || _); [done|]. apply (budget_bind _ 1 0).
  - destruct (negb _); [done|]. apply (budget_bind _ 0 1).
    + unfold recover, markFailed, failUnlessStopping, reconcileSubmissionWithRetry. budgeted.
    + intros [r|id]; [done|]. destruct (_ ≟ ""); [apply budget_submit|done].
  - intros [r|id]; [done|apply budget_poll].
Qed.

(** One pass after the other over the task, each with the row it finds: every
    pass is carried on for as long as it lives, and others use the store
    meanwhile. *)
Inductive passes (db0 : DB) : DB → list (event OfficialE * DB) → Prop :=
  | passes_none : passes db0 db0 []
  | passes_one db tr rounds p task c :
      passes db0 db tr → task ∈ db_video_tasks db → vt_task_id task = keep →
      rtc (steps (λ _, True) other (λ _, False))
        (mkConfig [ProcessTask EqualFold format_date rounds p task ≫= λ _, mret tt] db []) c →
      passes db0 (cdb c) (tr ++ trace c).

(** A submission in a trace met the guarantee. *)
Lemma spent_submit (allowed : string → DB → Prop) db c :
  sound (λ _, True) other (submits_allowed allowed) db c → spent submits (trace c) ≠ 0%nat →
  ∃ d, allowed keep d ∧ rely d (cdb c).
Proof.
  intros (_ & _ & Htr) ([[X ev] d] & Hin & Hcount)%spent_elem. rewrite Forall_forall in Htr.
  destruct (Htr _ Hin) as (Hg & _ & Hr). simpl in *. destruct ev as [t body| | |]; simpl in *; try done.
  apply bool_decide_eq_true in Hcount as ->. eauto.
Qed.

(** C4: an official task is submitted at most once.  Take any sequence of
    passes over the task, each of which may be cut off anywhere, meet failures
    of the store and any answers of the service, while others use the store;
    the passes do not overlap, and nobody deletes the task or puts it back into
    the queue.  The service is asked to create the task at most once in all. *)
Theorem official_submits_once db0 db tr :
  wf db0 → passes db0 db tr → (spent submits tr ≤ 1)%nat.
Proof.
  intros Hw H. assert (wf db ∧ (spent submits tr = 0 ∨ (spent submits tr = 1 ∧ saved db))%nat)
    as [_ Hc]; [|lia].
  induction H as [|db tr rounds p task c Hp [Hwd IH] Hin Et Hc]; [by auto|].
  assert (∀ allowed : string → DB → Prop,
    (vt_official_submission_baseline_saved task = false → ∀ db', saved db' → allowed keep db') →
    sound (λ _, True) other (submits_allowed allowed) db c) as Hsound.
  { intros allowed Ha. eapply adequacy_one; [|exact Hc]. apply wp_bind.
    eapply wp_mono; [apply official_wp_ProcessTask; [done..| |done]|].
    - intros Hs. by exists task.
    - intros a db' _. by apply wp_ret. }
  assert (rely db (cdb c)) as Hr by apply (Hsound (λ _ _, True) (λ _ _ _, I)).
  assert (spent submits (trace c) ≤ 1)%nat as Hn.
  { eapply budget_one; [|exact Hc]. apply (budget_bind _ 1 0); [apply budget_ProcessTask|done]. }
  split; [by eapply official_rely_wf|]. rewrite spent_app.
  destruct (vt_official_submission_baseline_saved task) eqn:Eb.
  - assert (spent submits (trace c) = 0)%nat as ->.
    { apply dec_stable. intros (d & Hne & _)%(spent_submit (λ t _, t ≠ keep) db); [done|].
      by apply Hsound. }
    destruct IH as [IH|[IH Hs]]; [left; lia|right]. split; [lia|by eapply saved_stable].
  - destruct IH as [IH|[IH (t & Ht & Et' & Hs)]].
    2: { exfalso. assert (t = task) as -> by (apply (wf_task_unique db); congruence). congruence. }
    destruct (decide (spent submits (trace c) = 0)%nat) as [E0|E1]; [left; lia|right].
    split; [lia|]. apply (spent_submit (λ _, saved) db) in E1 as (d & Hs & Hd);
      [by eapply saved_stable|by apply Hsound].
Qed.
End safety.
