(* ===== verification/Runtime.v ===== *)
(** * The runtime of a node
    (internal/upstream/registry/runtime.go, runtime_tk2sd.go,
    internal/monitor/collector.go)

    For every configured node the process runs slots that give it tasks and a probe
    that watches it.  They meet in the cache of node states: a slot gives a task only
    to a node that a recent probe found healthy and free. *)

From stdpp Require Import gmap.
From Stdlib Require Import SpecFloat.
From S2P Require Import Prelude Domain Tx Database Sql Workers GoStrings GoFloat GoNet GoHttp Netguard Monitor Catalog Paging TaskRouting Callbacks Queue Stages Artifacts Remote Tasks Official Delivery Nodes Config NodeAPI ArtifactService Gradio StageInputs LegacyWorker Orchestrator RemoteInputs RemoteWorker OfficialWorker TK2SD.

(** ** Interactions: the four clients, the cache and the gate of a legacy node *)

Inductive RuntimeE : Type → Type :=
  | RtNode {X} (c : NodeE X) : RuntimeE X
  | RtTk {X} (c : TkE X) : RuntimeE X
  | RtOfficial {X} (c : OfficialE X) : RuntimeE X
  | RtGradio {X} (c : HttpE X) : RuntimeE X
  | CacheGet (id : string) : RuntimeE (option NodeSnapshot)
  | CacheSet (node : NodeSnapshot) : RuntimeE unit
  | CacheModify (id : string) (update : NodeSnapshot → NodeSnapshot) : RuntimeE unit
  | TryLock (id : string) : RuntimeE bool
  | Unlock (id : string) : RuntimeE unit.

(** What the calls of a trace do to the cache. *)
Definition cache_after (tr : list (event RuntimeE)) (c : gmap string NodeSnapshot)
    : gmap string NodeSnapshot :=
  fold_left (λ c ev, match projT2 ev with
                     | CacheSet node => Cache_Set node c
                     | CacheModify id update => Cache_Update id update c
                     | _ => c
                     end) tr c.

Definition monitorInterval (value : Z) : Z := if value <=? 0 then 5 * Second else value.

Definition v2_text (s : V2Status) : string :=
  match s with
  | V2Queued => "queued"
  | V2Running => "running"
  | V2Succeeded => "succeeded"
  | V2Failed => "failed"
  | V2Cancelled => "cancelled"
  end.
Definition current_of (t : Task) : CurrentTaskSnapshot :=
  mkCurrentTask (vt_task_id t) (v2_text (V2 (vt_status t))) (seconds_ms (vt_started_at t)).
Definition finished_of (t : Task) : FinishedTaskSnapshot :=
  mkFinishedTask (vt_task_id t) (vt_owner t) (finished_status (vt_status t)) (duration_seconds t)
    (seconds_ms (vt_finished_at t)).
Definition error_code (code : string) : option ErrorSnapshot := Some (mkErrorSnapshot code "").

(** A read of a task that may not be there. *)
Definition found {A} (r : error + A) : error + option A :=
  match r with inr a => inr (Some a) | inl ErrTaskNotFound => inr None | inl err => inl err end.
Definition read_active (id : string) : Prog RuntimeE (error + option Task) :=
  r ← store (reading (λ _, ActiveForUpstream id)); mret (found r).
Definition read_latest (id : string) : Prog RuntimeE (error + option Task) :=
  r ← store (reading (λ e, LatestFinishedForUpstream e id)); mret (found r).
Definition read_barrier (id : string) : Prog RuntimeE (error + bool) :=
  store (reading (λ _ db, inr (HasNodeDispatchBarrier id db))).
Definition read_official (id : string) : Prog RuntimeE (error + list Task) :=
  store (reading (λ _ db, inr (ListActiveOfficialTasks id db))).

(** ** What a slot reads of the cache *)

(** [now] in milliseconds, [maxAge] in nanoseconds. *)
Definition checked_within (now maxAge : Z) (n : NodeSnapshot) : bool :=
  match ns_CheckedAt n with
  | Some checked => now * Millisecond - maxAge <=? checked * Millisecond
  | None => false
  end.
Definition usable (now maxAge : Z) (n : NodeSnapshot) : bool :=
  negb (ns_Disabled n) && negb (ns_Applying n) && (ns_Health n ≟ HealthHealthy) && checked_within now maxAge n.
Definition cachedOfficialSchedulable (node : option NodeSnapshot) (now maxAge : Z) : bool :=
  match node with Some n => usable now maxAge n | None => false end.
Definition busy (n : NodeSnapshot) : bool :=
  ns_SchedulingBlocked n || (ns_Runtime n ≟ RuntimeRunning)
  || match ns_PrivateQueue n with Some q => 0 <? q | None => false end.
Definition cachedSchedulable (node : option NodeSnapshot) (now maxAge : Z) : bool :=
  match node with Some n => usable now maxAge n && negb (busy n) | None => false end.

Definition tk2sdAdmission (n : NodeSnapshot) (now maxAge : Z) : option TK2SDAdmission :=
  match ns_TK2SDDashboard n with
  | None => None
  | Some d =>
      if negb (checked_within now maxAge n) then None
      else
      let '(capacity, occupied, cooling) :=
        if kd_ConcurrencyPerLine d =? 0
        then (kd_Capacity d, kd_Occupied d,
              kd_CoolingSlots d + count_where (λ a, ka_Status a ≟ "cooldown") (kd_Accounts d))
        else (kd_SlotCapacity d, Z.max (kd_SlotOccupied d) (Z.of_nat (length (kd_LeasedTaskIDs d))),
              kd_CoolingSlots d) in
      Some (mkAdmission capacity occupied cooling (kc_Queued (kd_Counts d)) (kl_CanDispatch (kd_Login d))
              (kd_LeasedTaskIDs d))
  end.

(** ** Probes *)

(** The use of a node: its queue, memory, video memory, processor and graphics. *)
Definition sum_counts (counts : list (option Z)) : option Z :=
  if forallb is_null counts then None
  else if existsb (λ c, match c with Some n => n <? 0 | None => false end) counts then None
  else Some (fold_left (λ n c, wrap64 (n + default 0 c)) counts 0).
Definition usedPercent (total free : option Z) : option float64 :=
  total ← total; free ← free;
  if (total <=? 0) || (free <? 0) || (total <? free) then None
  else Some (fmul (fdiv (of_int (total - free)) (of_int total)) (of_int 100)).
Definition validPercent (value : option float64) : option float64 :=
  v ← value; if SFltb v (of_int 0) || SFltb (of_int 100) v then None else Some v.
Record usage := mkUsage {
  ug_Queue : option Z; ug_Memory : option float64; ug_VRAM : option float64;
  ug_CPU : option float64; ug_GPU : option float64
}.
Definition healthRuntimeSnapshot (r : option HealthRuntime) : usage :=
  match r with
  | None => mkUsage None None None None None
  | Some r =>
      mkUsage (sum_counts [hr_QueueRunning r; hr_QueuePending r])
        (usedPercent (hr_MemoryTotalBytes r) (hr_MemoryFreeBytes r))
        (usedPercent (hr_VRAMTotalBytes r) (hr_VRAMFreeBytes r))
        (validPercent (hr_CPUPercent r)) (validPercent (hr_GPUPercent r))
  end.

Definition checked (enabled : bool) (e : Env) (n : NodeSnapshot) : NodeSnapshot :=
  n <| ns_Applying := false |> <| ns_Disabled := negb enabled |>
    <| ns_CheckedAt := now_ms e |> <| ns_UpdatedAt := now_ms e |>.

Definition node_failed (enabled blocked : bool) (e : Env) (n : NodeSnapshot) : NodeSnapshot :=
  checked enabled e n <| ns_Health := HealthUnhealthy |>
    <| ns_Runtime := if blocked then RuntimeRunning else RuntimeUnknown |>
    <| ns_SchedulingBlocked := blocked |>
    <| ns_LastError := error_code (if blocked then "node_cancel_reconciling" else "node_api_unhealthy") |>.
Definition node_answered (enabled blocked : bool) (u : usage) (active latest : option Task)
    (capabilities : list (string * any)) (e : Env) (n : NodeSnapshot) : NodeSnapshot :=
  checked enabled e n
    <| ns_Health := if blocked then HealthUnhealthy else HealthHealthy |>
    <| ns_SchedulingBlocked := blocked |>
    <| ns_Runtime := if negb (is_null active) || blocked
                        || match ug_Queue u with Some q => 0 <? q | None => false end
                     then RuntimeRunning else RuntimeIdle |>
    <| ns_PrivateQueue := ug_Queue u |> <| ns_MemoryPercent := ug_Memory u |>
    <| ns_VRAMPercent := ug_VRAM u |> <| ns_CPUPercent := ug_CPU u |> <| ns_GPUPercent := ug_GPU u |>
    <| ns_CurrentTask := current_of <$> active |>
    <| ns_LatestFinishedTask := finished_of <$> latest |>
    <| ns_LastHealthyAt := now_ms e |>
    <| ns_LastError := if blocked then error_code "node_cancel_reconciling" else None |>
    <| ns_Capabilities := Some capabilities |>.

Definition official_checked (enabled : bool) (active : option (list Task)) (e : Env) (n : NodeSnapshot)
    : NodeSnapshot :=
  let n := checked enabled e n <| ns_CurrentTask := None |> in
  match active with
  | None => n <| ns_Health := HealthUnhealthy |> <| ns_Runtime := RuntimeUnknown |>
              <| ns_LastError := error_code "official_api_unhealthy" |>
  | Some active =>
      n <| ns_Health := HealthHealthy |> <| ns_LastHealthyAt := now_ms e |> <| ns_LastError := None |>
        <| ns_Runtime := if active ≟ [] then RuntimeIdle else RuntimeRunning |>
        <| ns_CurrentTask := current_of <$> head active |>
  end.

Definition monitor_account (a : DashboardAccount) : TK2SDAccount :=
  mkTK2SDAccount (da_Label a) (da_Status a) (da_Credits a) (da_ActiveCount a) (da_ConcurrencyLimit a)
    (da_AvailableSlots a) (da_Cooldown a).
Definition monitor_dashboard (d : Dashboard) : TK2SDDashboard :=
  let c := ds_Counts d in
  mkTK2SDDashboard
    (mkTK2SDCounts (dc_Running c) (dc_Queued c) (dc_Succeeded c) (dc_Uncertain c) (dc_Failed c) (dc_Canceled c))
    (ds_Occupied d) (ds_Capacity d) (map monitor_account (ds_Accounts d))
    (mkTK2SDLogin (dl_Status (ds_Login d)) (dl_CanDispatch (ds_Login d))) (ds_LeasedTaskIDs d)
    (ds_SlotCapacity d) (ds_SlotOccupied d) (ds_ConcurrencyPerLine d) (ds_CoolingSlots d).
(** [answer]: [None] for a node that is not healthy, else its dashboard, if it has
    one. *)
Definition tk2sd_checked (enabled : bool) (answer : option (option Dashboard)) (e : Env) (n : NodeSnapshot)
    : NodeSnapshot :=
  let n := checked enabled e n <| ns_TK2SDDashboard := None |> in
  match answer with
  | None => n <| ns_Health := HealthUnhealthy |> <| ns_LastError := error_code "tk2sd_api_unhealthy" |>
  | Some dashboard =>
      n <| ns_Health := HealthHealthy |> <| ns_LastHealthyAt := now_ms e |> <| ns_LastError := None |>
        <| ns_TK2SDDashboard := monitor_dashboard <$> dashboard |>
  end.

(** *** The collector of legacy nodes (collector.go) *)

Definition hasActiveJob (jobs : list Job) : bool :=
  existsb (λ j, jb_Status j ∈? [JobPending; JobInProgress]) jobs.
Definition merge_observation (o : Observation) (jobs : list Job) (e : Env) (n : NodeSnapshot) : NodeSnapshot :=
  let active := hasActiveJob jobs in
  let idleConfirmed := (ob_Status o ≟ ObservationIdle) && (ob_PrivateQueue o ≟ Some 0) && negb active in
  let n := n <| ns_Applying := false |> <| ns_CheckedAt := now_ms e |> <| ns_UpdatedAt := now_ms e |>
    <| ns_PrivateQueue := ob_PrivateQueue o |> <| ns_CPUPercent := ob_CPUPercent o |>
    <| ns_MemoryPercent := ob_MemoryPercent o |> <| ns_GPUPercent := ob_GPUPercent o |>
    <| ns_VRAMPercent := ob_VRAMPercent o |> in
  if ns_SchedulingBlocked n && negb idleConfirmed then
    n <| ns_Health := HealthUnhealthy |> <| ns_Runtime := RuntimeUnknown |>
      <| ns_LastError := error_code "upstream_cancel_unconfirmed" |>
  else
  n <| ns_SchedulingBlocked := false |> <| ns_Health := HealthHealthy |>
    <| ns_LastHealthyAt := now_ms e |> <| ns_LastError := None |>
    <| ns_Runtime := if negb (is_null (ns_CurrentTask n)) || active then RuntimeRunning
                     else match ob_Status o with
                          | ObservationIdle => RuntimeIdle
                          | ObservationRunning => RuntimeRunning
                          | _ => RuntimeUnknown
                          end |>.
Definition mark_failure (code : string) (e : Env) (n : NodeSnapshot) : NodeSnapshot :=
  n <| ns_Applying := false |> <| ns_Health := HealthUnhealthy |> <| ns_CheckedAt := now_ms e |>
    <| ns_UpdatedAt := now_ms e |> <| ns_LastError := error_code code |>.

(** The libraries of the clients, besides those of [Externals]: the object of
    capabilities and its protocol version. *)
Record RuntimeExternals := mkRuntimeExternals {
  rx_orch : Externals;
  rx_gradio : GradioExternals;
  rx_tk : TkExternals;
  rx_decode_raw : string → json_failure + list (string * any);
  rx_capabilities_version : list (string * any) → option string
}.

Section probes.
Context (x : RuntimeExternals).
#[local] Abbreviation P := (Prog RuntimeE).

Definition modify (id : string) (f : Env → NodeSnapshot → NodeSnapshot) : P unit :=
  e ← environment; call (CacheModify id (f e)).

Definition node_health (c : NodeAPI.Client) (requestID : string) : P (node_error + NodeAPI.Health) :=
  let o := rx_orch x in
  translate (@RtNode) (GetHealth (x_escaped_path o) (x_url_String o) (x_request_ok o) (x_decode_health o)
    (x_decode_envelope o) c requestID).
Definition node_capabilities (c : NodeAPI.Client) (requestID : string) : P (node_error + list (string * any)) :=
  let o := rx_orch x in
  translate (@RtNode) (GetCapabilities (x_escaped_path o) (x_url_String o) (x_request_ok o) (rx_decode_raw x)
    (rx_capabilities_version x) (x_decode_envelope o) c requestID).

(** The rest of a probe once the health is known: the usage, the tasks and the
    capabilities, or [None]. *)
Definition node_details (nodeID : string) (c : NodeAPI.Client) (health : NodeAPI.Health)
    : P (option (usage * option Task * option Task * list (string * any))) :=
  if negb (ht_Status health ≟ "healthy") then mret None
  else
  capabilities ← node_capabilities c (String.append "monitor-capabilities-" nodeID);
  match capabilities with
  | inl _ => mret None
  | inr capabilities =>
      active ← read_active nodeID;
      match active with
      | inl _ => mret None
      | inr active =>
          latest ← read_latest nodeID;
          mret match latest with
               | inl _ => None
               | inr latest => Some (healthRuntimeSnapshot (ht_Runtime health), active, latest, capabilities)
               end
      end
  end.

Definition probeNodeAPI (nodeID : string) (enabled : bool) (c : NodeAPI.Client) : P unit :=
  stop ← stopped;
  if stop : bool then mret tt
  else
  e ← environment;
  barrier ← read_barrier nodeID;
  health ← node_health c (String.append "monitor-health-" nodeID);
  let blocked := match barrier with inr b => b | inl _ => false end in
  details ← match barrier, health with
            | inr _, inr health => node_details nodeID c health
            | _, _ => mret None
            end;
  call (CacheModify nodeID
    match details with
    | None => node_failed enabled blocked e
    | Some (u, active, latest, capabilities) => node_answered enabled blocked u active latest capabilities e
    end).

Definition probeOfficial (nodeID : string) (enabled : bool) : P unit :=
  stop ← stopped;
  if stop : bool then mret tt
  else
  listed ← call (RtOfficial V2List);
  active ← read_official nodeID;
  modify nodeID (official_checked enabled
    match listed, active with inr _, inr active => Some active | _, _ => None end).

Definition probeTK2SD (nodeID : string) (enabled : bool) (c : TK2SD.Client) : P unit :=
  previous ← call (CacheGet nodeID);
  health ← translate (@RtTk) (TK2SD.Health (rx_tk x) c);
  match health with
  | inl _ => modify nodeID (tk2sd_checked enabled None)
  | inr _ =>
      dashboard ← translate (@RtTk) (GetDashboard (rx_tk x) c);
      modify nodeID (tk2sd_checked enabled (Some match dashboard with inr d => Some d | inl _ => None end))
  end.

(** [collector.probe]: only while no task is submitted to the node. *)
Definition collect (u : UpstreamConfig) (c : GradioClient) : P unit :=
  let g := rx_gradio x in
  stop ← stopped;
  if stop : bool then mret tt
  else
  free ← call (TryLock (uc_ID u));
  if negb free then mret tt
  else
  healthy ← translate (@RtGradio) (Gradio.Healthy (gx_escaped_path g) (gx_url_String g) (gx_request_ok g) c
              (uc_HealthPath u));
  (match healthy with
   | inl _ => modify (uc_ID u) (mark_failure "upstream_unhealthy")
   | inr _ =>
       jobs ← translate (@RtGradio) (ListJobs (gx_escaped_path g) (gx_url_String g) (gx_request_ok g)
                (gx_jobs_of_json g) c);
       match jobs with
       | inl _ => modify (uc_ID u) (mark_failure "upstream_jobs_unhealthy")
       | inr jobs =>
           result ← translate (@RtGradio) (Call_ (gx_escaped_path g) (gx_url_String g) (gx_request_ok g)
                      (gx_call_json g) (gx_event_of_json g) (gx_output_of_json g) c (uc_CheckAPIName u) []);
           match result with
           | inl _ => modify (uc_ID u) (mark_failure "upstream_poll_error")
           | inr result => modify (uc_ID u) (merge_observation (LegacyWorker.observe g result) jobs)
           end
       end
   end) ;;
  call (Unlock (uc_ID u)).
End probes.

(** ** Starting a runtime *)

(** The initial state of a node: applied, not yet checked. *)
Definition initial_snapshot (id address : string) (enabled wasBlocked blocked : bool) (active latest : option Task)
    : NodeSnapshot :=
  zero_node <| Monitor.ns_ID := id |> <| ns_Address := address |> <| ns_Disabled := negb enabled |>
    <| ns_Applying := true |> <| ns_SchedulingBlocked := wasBlocked || blocked |>
    <| ns_Runtime := if blocked || negb (is_null active) then RuntimeRunning else "" |>
    <| ns_LastError := if blocked then error_code "node_cancel_reconciling" else None |>
    <| ns_CurrentTask := current_of <$> active |>
    <| ns_LatestFinishedTask := finished_of <$> latest |>.
Definition node_address (u : UpstreamConfig) : string :=
  match uc_ServiceURL u with
  | Some url => url_Host url
  | None => match uc_BaseURL u with Some url => url_Host url | None => "" end
  end.
Definition initializeSnapshot (id : string) (input : ModelNodeInput) (u : UpstreamConfig)
    : Prog RuntimeE (error + unit) :=
  previous ← call (CacheGet id);
  try! blocked ← read_barrier id;
  try! active ← read_active id;
  try! latest ← read_latest id;
  call (CacheSet (initial_snapshot id (node_address u) (ni_Enabled input)
    match previous with Some n => ns_SchedulingBlocked n | None => false end blocked active latest)) ;;
  mret (inr tt).

(** [NodeRuntimeFactory]: the parts that are set; the store has the operations of
    TK2SD nodes. *)
Record Factory := mkFactory {
  ft_Options : Options;
  ft_Profiles : option (gmap string GenerationProfile);
  ft_ExecutionTimeout : Z;
  ft_MonitorInterval : Z;
  ft_NodeSecrets : bool;
  ft_ArtifactMigrator : option Service;
  ft_InputSpoolRoot : string;
  ft_InputSpoolPath : list string      (** its components *)
}.

(** The worker of a node, and what its slots check before they call it. *)
Inductive node_worker :=
  | WorkLegacy (p : LegacyWorker.Processor)
  | WorkNodeAPI (p : Orchestrator.Processor)
  | WorkOfficial (p : OfficialWorker.Processor)
  | WorkTK2SD (p : RemoteWorker.Processor).
Record node_runtime := mkNodeRuntime {
  nr_ID : string;
  nr_Enabled : bool;
  nr_maxAge : Z;
  nr_Slots : Z;
  nr_Worker : node_worker;
  nr_Resume : list Task       (** official tasks that are taken up again *)
}.

Section start.
Context (x : RuntimeExternals) (f : Factory) (Open_key : ModelServiceNode → option string).
#[local] Abbreviation P := (Prog RuntimeE).

Definition max_age (u : UpstreamConfig) : Z := uc_RequestTimeout u + monitorInterval (ft_MonitorInterval f).
Definition secret (node : ModelServiceNode) (missing failed : string) : error + string :=
  if negb (ft_NodeSecrets f) then inl (ErrText missing)
  else match Open_key node with Some key => inr key | None => inl (ErrText failed) end.

Definition startNodeAPI (node : ModelServiceNode) (input : ModelNodeInput) (u : UpstreamConfig)
    : P (error + node_runtime) :=
  match secret node "节点 API Key 解密器未配置" "节点 API Key 解密失败" with
  | inl err => mret (inl err)
  | inr key =>
      try! _ ← initializeSnapshot (mn_id node) input u;
      let client := NodeAPI.NewClient (mn_id node) (default zero_URL (uc_ServiceURL u)) key (2 ^ 20) in
      mret (inr (mkNodeRuntime (mn_id node) (ni_Enabled input) (max_age u) 1
        (WorkNodeAPI (mkOrchestrator (ft_Options f) client (mn_id node) (ft_ArtifactMigrator f)
           (Some (mkMaterializer (guard_ports []) (ft_InputSpoolPath f)))
           (Z.max (ft_ExecutionTimeout f) (10 * Minute)) (ni_PollInterval input))) []))
  end.

Definition startOfficialV2 (node : ModelServiceNode) (input : ModelNodeInput) (u : UpstreamConfig)
    : P (error + node_runtime) :=
  match secret node "官方节点 API Key 解密器未配置" "官方节点 API Key 解密失败" with
  | inl err => mret (inl err)
  | inr _ =>
      try! _ ← initializeSnapshot (mn_id node) input u;
      try! active ← read_official (mn_id node);
      mret (inr (mkNodeRuntime (mn_id node) (ni_Enabled input) (max_age u) (ni_MaxConcurrency input)
        (WorkOfficial (OfficialWorker.mkProcessor (ft_Options f) (mn_id node) (mn_version node)
           (ni_MaxConcurrency input) true)) active))
  end.

Definition startTK2SD (node : ModelServiceNode) (input : ModelNodeInput) (u : UpstreamConfig)
    : P (error + node_runtime) :=
  match secret node "tk2sd 运行时依赖未配置" "节点凭据解密失败" with
  | inl err => mret (inl err)
  | inr _ =>
      try! _ ← initializeSnapshot (mn_id node) input u;
      mret (inr (mkNodeRuntime (mn_id node) (ni_Enabled input) (max_age u) (Z.max 1 (ni_MaxConcurrency input))
        (WorkTK2SD (RemoteWorker.mkProcessor (ft_Options f) (mn_id node) (mn_version node) (uc_ServiceURL u)
           (ni_MaxConcurrency input) true 0 (ni_PollInterval input) (guard_ports []) (ft_InputSpoolRoot f))) []))
  end.

Definition startLegacy (node : ModelServiceNode) (input : ModelNodeInput) (u : UpstreamConfig)
    : P (error + node_runtime) :=
  try! _ ← initializeSnapshot (mn_id node) input u;
  let base := default zero_URL (uc_BaseURL u) in
  let client := NewClientWithJobs base (default zero_URL (uc_JobsBaseURL u)) (2 ^ 23) in
  mret (inr (mkNodeRuntime (mn_id node) (ni_Enabled input) (max_age u) 1
    (WorkLegacy (mkLegacy (ft_Options f) client true true u base (default zero_URL (uc_PublicBaseURL u))
       (ft_Profiles f) true (ft_ExecutionTimeout f) (mn_version node))) [])).

(** The store and the cache are set, and a client is always made. *)
Definition Start (node : ModelServiceNode) : P (error + node_runtime) :=
  let o := rx_orch x in
  match NormalizeModelNode (x_url_Parse o) (x_escaped_path o) (x_url_String o) (x_EqualFold o)
          (node_input_of_row node) with
  | inl err => mret (inl err)
  | inr (input, u) =>
      if UsesNodeAPI input then startNodeAPI node input u
      else if UsesOfficialV2 input then startOfficialV2 node input u
      else if ni_ProtocolVersion input ≟ ProtocolTK2SD then startTK2SD node input u
      else startLegacy node input u
  end.
End start.

(** ** The checks of a slot *)

Inductive slot_refusal := RefusedDisabled | RefusedUnhealthy.

Section slot.
Context (r : node_runtime).
#[local] Abbreviation P := (Prog RuntimeE).

(** Whether the node has work of its own to go on with; [None] when slots of the
    kind do not ask. *)
Definition slot_active : option (P (error + bool)) :=
  match nr_Worker r with
  | WorkLegacy _ =>
      Some (active ← read_active (nr_ID r);
            mret match active with inl err => inl err | inr a => inr (negb (is_null a)) end)
  | WorkNodeAPI _ =>
      Some (try! blocked ← read_barrier (nr_ID r);
            if blocked : bool then mret (inr true)
            else
            active ← read_active (nr_ID r);
            mret match active with inl err => inl err | inr a => inr (negb (is_null a)) end)
  | WorkOfficial _ | WorkTK2SD _ => None
  end.

Definition slot_health : P (slot_refusal + unit) :=
  if negb (nr_Enabled r) then mret (inl RefusedDisabled)
  else
  node ← call (CacheGet (nr_ID r));
  e ← environment;
  let ok := match nr_Worker r with
            | WorkLegacy _ | WorkNodeAPI _ => cachedSchedulable node (env_now e) (nr_maxAge r)
            | WorkOfficial _ | WorkTK2SD _ => cachedOfficialSchedulable node (env_now e) (nr_maxAge r)
            end in
  mret (if ok then inr tt else inl RefusedUnhealthy).

(** [Processor.Admission] of a TK2SD node. *)
Definition admission : P (option TK2SDAdmission) :=
  node ← call (CacheGet (nr_ID r));
  e ← environment;
  mret (n ← node; tk2sdAdmission n (env_now e) (nr_maxAge r)).
End slot.

(** ** Probes tell the truth *)

Section truth.
Context (x : RuntimeExternals).

Lemma translate_plays_db {C A} (f : ∀ X, C X → RuntimeE X) (p : Prog C A) db tr a db' :
  storeless p → plays (translate f p) db tr a db' → db' = db.
Proof.
  intros Hs. revert db tr. induction p as [y|k IH|k IH|X op k IH|X c k IH]; simpl in *; intros db tr H.
  - by destruct H as (_ & -> & _).
  - destruct H as [e H]. by eapply IH.
  - destruct H as [b H]. by eapply IH.
  - done.
  - destruct H as (y & tr' & _ & H). by eapply IH.
Qed.

(** The calls of a client leave the cache alone. *)
Definition silent (ev : event RuntimeE) : bool :=
  match projT2 ev with CacheSet _ | CacheModify _ _ => false | _ => true end.
Lemma cache_after_silent tr c : forallb silent tr = true → cache_after tr c = c.
Proof.
  unfold cache_after. revert c. induction tr as [|[X ev] tr IH]; intros c; simpl; [done|].
  intros [Hev Htr]%andb_true_iff. by destruct ev; try discriminate Hev; apply IH.
Qed.
Lemma cache_after_app tr tr' c : cache_after (tr ++ tr') c = cache_after tr' (cache_after tr c).
Proof. apply fold_left_app. Qed.
Lemma translate_silent {C A} (f : ∀ X, C X → RuntimeE X) (p : Prog C A) db tr a db' :
  (∀ X c, silent (existT _ (f X c)) = true) → plays (translate f p) db tr a db' → forallb silent tr = true.
Proof.
  intros Hf. revert db tr. induction p as [y|k IH|k IH|X op k IH|X c k IH]; simpl in *; intros db tr H.
  - by destruct H as (_ & _ & ->).
  - destruct H as [e H]. by eapply IH.
  - destruct H as [b H]. by eapply IH.
  - destruct H as [(e & H)|(g & _ & H)]; by eapply IH.
  - destruct H as (y & tr' & -> & H). simpl. rewrite Hf. by eapply IH.
Qed.

Lemma reading_plays {X} (op : Env → DB → error + X) db tr r db' :
  plays (store (C:=RuntimeE) (reading op)) db tr r db' →
  db' = db ∧ tr = [] ∧ ((∃ e, r = op e db) ∨ ∃ f, fault f ∧ r = inl f).
Proof. intros [(e & -> & -> & ->)|(f & Hf & -> & -> & ->)]; eauto 10. Qed.

Lemma request_storeless {A} ep us ro de c m parts rid key body zero (dec : string → json_failure + A) :
  storeless (NodeAPI.request ep us ro de c m parts rid key body zero dec).
Proof. unfold NodeAPI.request. destruct (NodeAPI.newRequest _ _ _ _ _ _ _ _ _ _); simpl; done. Qed.
Lemma GetHealth_storeless ep us ro dh de c rid : storeless (GetHealth ep us ro dh de c rid).
Proof. apply storeless_try; [apply request_storeless|]. intros h. by destruct (_ ≟ _). Qed.
Lemma GetCapabilities_storeless ep us ro dr cv de c rid : storeless (GetCapabilities ep us ro dr cv de c rid).
Proof. apply storeless_try; [apply request_storeless|]. done. Qed.

Lemma node_details_plays nodeID c h db tr r db' :
  plays (node_details x nodeID c h) db tr r db' →
  db' = db ∧ forallb silent tr = true ∧
  (∀ d, r = Some d → found (ActiveForUpstream nodeID db) = inr d.1.1.2).
Proof.
  unfold node_details. destruct (negb _); [by intros (-> & -> & ->)|].
  intros (tr1 & caps & db1 & tr2 & Hc & H & ->)%plays_bind.
  pose proof Hc as ->%translate_plays_db; [|apply GetCapabilities_storeless].
  apply translate_silent in Hc; [|done]. rewrite forallb_app, Hc. clear Hc.
  destruct caps as [|caps]; [by destruct H as (-> & -> & ->)|].
  apply plays_bind in H as (tr3 & active & db2 & tr4 & Ha & H & ->).
  unfold read_active in Ha. apply plays_bind in Ha as (tr5 & r0 & db3 & tr6 & Ha & E & ->).
  apply reading_plays in Ha as (-> & -> & Ha). destruct E as (-> & -> & ->).
  destruct (found r0) as [|active] eqn:Ef; [by destruct H as (-> & -> & ->)|].
  apply plays_bind in H as (tr5 & latest & db2 & tr6 & Hl & H & ->). destruct H as (-> & -> & ->).
  unfold read_latest in Hl. apply plays_bind in Hl as (tr7 & r1 & db3 & tr8 & Hl & E & ->).
  apply reading_plays in Hl as (-> & -> & _). destruct E as (-> & -> & ->).
  split_and!; [done..|]. intros d Hd. destruct (found r1); [done|]. injection Hd as <-. simpl.
  destruct Ha as [[e ->]|(f & Hf & ->)]; [done|]. by destruct Hf.
Qed.

Lemma sum_bind_found {A} (r : error + A) : found r = inr None → r = inl ErrTaskNotFound.
Proof. by destruct r as [[]|]. Qed.

Lemma node_answered_schedulable enabled blocked u active latest caps e n now maxAge :
  cachedSchedulable (Some (normalizeNode (node_answered enabled blocked u active latest caps e n))) now maxAge = true →
  enabled = true ∧ blocked = false ∧ active = None ∧ (∀ q, ug_Queue u = Some q → q ≤ 0).
Proof.
  unfold cachedSchedulable, usable, busy, normalizeNode, node_answered, checked. simpl.
  destruct enabled; [|done]. destruct blocked; [done|]. simpl.
  destruct active; simpl; [by rewrite !andb_false_r|].
  intros H. split_and!; [done..|]. intros q Eq. rewrite Eq in H. simpl in H.
  destruct (0 <? q) eqn:E; [|lia]. simpl in H. by rewrite !andb_false_r in H.
Qed.
Lemma node_failed_schedulable enabled blocked e n now maxAge :
  cachedSchedulable (Some (normalizeNode (node_failed enabled blocked e n))) now maxAge = false.
Proof. unfold cachedSchedulable, usable. simpl. by rewrite !andb_false_r. Qed.

(** After a probe of an H3 node, a slot may give it a new task only if the node is
    enabled and, when it was probed, no cancelled execution was to be confirmed and
    no task of the node was running. *)
Theorem probeNodeAPI_truthful nodeID enabled c db tr u db' cache now maxAge :
  plays (probeNodeAPI x nodeID enabled c) db tr u db' → tr ≠ [] →
  cachedSchedulable (cache_after tr cache !! nodeID) now maxAge = true →
  db' = db ∧ enabled = true ∧ HasNodeDispatchBarrier nodeID db = false ∧
  ActiveForUpstream nodeID db = inl ErrTaskNotFound.
Proof.
  unfold probeNodeAPI. intros (tr1 & stop & db1 & tr2 & Hs & H & ->)%plays_bind.
  destruct Hs as (b & -> & -> & ->). destruct b; [by destruct H as (_ & _ & ->)|].
  apply plays_bind in H as (tr3 & e & db2 & tr4 & He & H & ->). destruct He as (e' & -> & -> & ->).
  apply plays_bind in H as (tr5 & barrier & db3 & tr6 & Hb & H & ->).
  apply reading_plays in Hb as (-> & -> & Hb).
  apply plays_bind in H as (tr7 & health & db4 & tr8 & Hh & H & ->).
  pose proof Hh as ->%translate_plays_db; [|apply GetHealth_storeless].
  apply translate_silent in Hh; [|done].
  apply plays_bind in H as (tr9 & details & db5 & tr10 & Hd & H & ->).
  destruct H as ([] & tr11 & -> & _ & -> & ->). intros _. simpl.
  assert (db5 = db ∧ forallb silent tr9 = true ∧ (∀ d, details = Some d →
    barrier = inr (HasNodeDispatchBarrier nodeID db) ∧ found (ActiveForUpstream nodeID db) = inr d.1.1.2))
    as (-> & Hs9 & Hdet).
  { destruct barrier as [|b]; [by destruct Hd as (-> & -> & ->)|].
    destruct health as [|h]; [by destruct Hd as (-> & -> & ->)|].
    apply node_details_plays in Hd as (-> & ? & Hd). split_and!; [done..|]. intros d Ed.
    split; [|by apply Hd]. destruct Hb as [[e0 Hb]|(f & Hf & Hb)]; [done|by destruct Hf]. }
  rewrite !cache_after_app, (cache_after_silent tr7), (cache_after_silent tr9) by done.
  unfold cache_after. simpl. unfold Cache_Update. rewrite lookup_insert_eq.
  destruct details as [[[[us active] latest] caps]|]; [|by rewrite node_failed_schedulable].
  destruct (Hdet _ eq_refl) as [-> Hact]. simpl in Hact.
  intros (-> & Hbl & -> & _)%node_answered_schedulable. split_and!; [done..|by apply sum_bind_found].
Qed.
End truth.

(** ** Room on a TK2SD node *)

Lemma plays_translate {C D A} (f : ∀ X, C X → D X) (p : Prog C A) db tr a db' :
  plays (translate f p) db tr a db' → ∃ tr', plays p db tr' a db'.
Proof.
  revert db tr. induction p as [y|k IH|k IH|X op k IH|X c k IH]; simpl; intros db tr H.
  - destruct H as (-> & -> & _). by exists [].
  - destruct H as [e [tr' H]%IH]. eauto.
  - destruct H as [b [tr' H]%IH]. eauto.
  - destruct H as [(e & [tr' H]%IH)|(g & Hg & [tr' H]%IH)]; eauto 10.
  - destruct H as (y & tr1 & _ & [tr' H]%IH). eauto 10.
Qed.

Definition account_room (a : TK2SDAccount) : Z := if ka_Cooldown a then 0 else ka_AvailableSlots a.

Lemma monitor_room l : sum_of account_room (map monitor_account l) = free_slots l.
Proof. unfold free_slots. induction l as [|a l IH]; simpl; [done|]. by rewrite IH. Qed.

(** What an admission leaves: no more than the lines that do not cool down have. *)
Lemma admission_room d n now maxAge a :
  dashboard_wf d → ns_TK2SDDashboard n = Some (monitor_dashboard d) → tk2sdAdmission n now maxAge = Some a →
  ad_Capacity a - ad_Occupied a - ad_Cooling a ≤ free_slots (ds_Accounts d).
Proof.
  intros (Hf & _ & _ & Ho & Hc & Hcool & Hper & _) Hd. unfold tk2sdAdmission. rewrite Hd.
  destruct (negb _); [done|]. cbn [kd_ConcurrencyPerLine monitor_dashboard].
  assert (ds_ConcurrencyPerLine d =? 0 = false) as -> by lia. intros [= <-]. cbn. rewrite Ho, Hc, Hcool.
  assert (sum_of da_ConcurrencyLimit (ds_Accounts d)
    ≤ sum_of da_ActiveCount (ds_Accounts d) + sum_of cooling_slots (ds_Accounts d) + free_slots (ds_Accounts d)); [|lia].
  unfold free_slots. clear -Hf. induction Hf as [|b l (Hb & Hl & Ha) _ IH]; simpl; [lia|].
  unfold cooling_slots at 1. destruct (da_Cooldown b); lia.
Qed.

(** What a probe leaves in the cache is the answer it got. *)
Lemma modify_tk2sd nodeID enabled answer db tr u db' tr0 cache n d :
  plays (modify nodeID (tk2sd_checked enabled answer)) db tr u db' →
  cache_after (tr0 ++ tr) cache !! nodeID = Some n → ns_TK2SDDashboard n = Some d →
  ∃ d', answer = Some (Some d') ∧ d = monitor_dashboard d'.
Proof.
  intros (tr5 & e & db3 & tr6 & He & Hc & ->)%plays_bind. destruct He as (e' & -> & -> & ->).
  destruct Hc as ([] & tr8 & -> & _ & _ & ->). simpl. rewrite cache_after_app. unfold cache_after at 1. simpl.
  unfold Cache_Update. rewrite lookup_insert_eq. intros [= <-]. unfold normalizeNode, tk2sd_checked. simpl.
  destruct answer as [[d'|]|]; simpl; [|done..]. intros [= <-]. by exists d'.
Qed.

Lemma probeTK2SD_dashboard x nodeID enabled c db tr u db' cache n d :
  plays (probeTK2SD x nodeID enabled c) db tr u db' →
  cache_after tr cache !! nodeID = Some n → ns_TK2SDDashboard n = Some d →
  ∃ d', d = monitor_dashboard d' ∧ dashboard_wf d'.
Proof.
  unfold probeTK2SD. intros (tr1 & prev & db1 & tr2 & _ & H & ->)%plays_bind.
  apply plays_bind in H as (tr3 & health & db2 & tr4 & _ & H & ->). rewrite app_assoc.
  destruct health as [|[]].
  - intros Hn Hd. by destruct (modify_tk2sd _ _ _ _ _ _ _ _ _ _ _ H Hn Hd) as (d' & ? & _).
  - apply plays_bind in H as (tr5 & dash & db3 & tr6 & Hg & H & ->). rewrite app_assoc. intros Hn Hd.
    destruct (modify_tk2sd _ _ _ _ _ _ _ _ _ _ _ H Hn Hd) as (d' & E & ->).
    destruct dash as [|d0]; [done|]. injection E as <-. exists d0. split; [done|].
    apply plays_translate in Hg as (tr7 & Hg). by eapply GetDashboard_wf.
Qed.

(** A claim that goes by the dashboard of a node: the node dispatches and has
    nothing queued, and the slots the proxy then holds, but for those of tasks the
    node counts itself, fit into the free lines that are not cooling down. *)
Theorem dispatch_room x nodeID enabled c db0 tr u db0' cache n now maxAge d a e o version capacity db t db' :
  plays (probeTK2SD x nodeID enabled c) db0 tr u db0' →
  cache_after tr cache !! nodeID = Some n →
  ns_TK2SDDashboard n = Some d → tk2sdAdmission n now maxAge = Some a →
  tbl_valid (db_video_tasks db) = true →
  ClaimNextRemote e o nodeID version capacity [a] db = (inr t, db') →
  kl_CanDispatch (kd_Login d) = true ∧ kc_Queued (kd_Counts d) ≤ 0 ∧
  count_where (slot_of nodeID) (db_video_tasks db') - admission_overlap nodeID a db
    ≤ sum_of account_room (kd_Accounts d).
Proof.
  intros Hp Hn Hd Ha Hv Hc. destruct (probeTK2SD_dashboard _ _ _ _ _ _ _ _ _ _ _ Hp Hn Hd) as (d' & -> & Hwf).
  apply ClaimNextRemote_spec in Hc as (nd & s & _ & _ & _ & _ & _ & _ & _ & _ & Hadm); [|done].
  destruct (Hadm a eq_refl) as [Hopen Hused]. pose proof (admission_room _ _ _ _ _ Hwf Hd Ha) as Hroom.
  simpl. rewrite monitor_room. unfold tk2sdAdmission in Ha. rewrite Hd in Ha.
  destruct (negb (checked_within _ _ _)); [done|].
  assert (ad_CanDispatch a = dl_CanDispatch (ds_Login d') ∧ ad_Queued a = dc_Queued (ds_Counts d')) as [E1 E2].
  { simpl in Ha. by destruct (_ =? 0); injection Ha as <-. }
  unfold admission_open in Hopen. rewrite E1, E2 in Hopen.
  rewrite negb_true_iff, !orb_false_iff in Hopen. destruct Hopen as [[[[[[Hcan Hq] _] _] _] _] _].
  apply negb_false_iff in Hcan. split_and!; [done|lia|lia].
Qed.
