(* ===== verification/Registry.v ===== *)
(** * The registry of runtimes and the scheduler
    (internal/upstream/registry/registry.go, prober.go, internal/scheduler)

    The registry starts a runtime for every node of the store at the version it has,
    stops the runtimes of nodes that changed or are gone, and stops all of them in the
    end.  A slot of a runtime calls its worker again and again while the node may be
    used. *)

From stdpp Require Import gmap.
From S2P Require Import Prelude Domain Tx Database Sql Workers GoStrings GoNet GoHttp Monitor Catalog Paging TaskRouting Callbacks Queue Stages Artifacts Remote Tasks Official Delivery Nodes Config NodeAPI Gradio StageInputs LegacyWorker Orchestrator Runtime.

(** ** The scheduler (scheduler.go) *)

(** What a pass of a worker ends with: no error, an end of the context, or another
    error. *)
Inductive pass_result := PassDone | PassCancelled | PassFailed.
Inductive decision := SlotStopped | SlotWait | SlotProcess.

Section scheduler.
Context {C : Type → Type}.
Context (Active : option (Prog C (error + bool))) (Health : option (Prog C (slot_refusal + unit))).
Context (ProcessOne : Prog C pass_result).

(** One round, up to the call of the worker. *)
Definition slot_check : Prog C decision :=
  stop ← stopped;
  if stop : bool then mret SlotStopped
  else
  active ← match Active with Some a => a | None => mret (inr false) end;
  match active with
  | inl _ => mret SlotWait
  | inr true => mret SlotProcess
  | inr false =>
      match Health with
      | None => mret SlotProcess
      | Some health =>
          r ← health;
          mret match r with inl _ => SlotWait | inr _ => SlotProcess end
      end
  end.

(** [rounds]: the rounds after which the context ends. *)
Fixpoint runSlot (rounds : nat) : Prog C unit :=
  match rounds with
  | O => mret tt
  | S rounds =>
      let again := stop ← stopped; if stop : bool then mret tt else runSlot rounds in
      d ← slot_check;
      match d with
      | SlotStopped => mret tt
      | SlotWait => again
      | SlotProcess =>
          r ← ProcessOne;
          match r with
          | PassDone => runSlot rounds
          | PassCancelled => mret tt
          | PassFailed => again
          end
      end
  end.
End scheduler.

(** The check of a slot of a node. *)
Definition node_check (r : node_runtime) : Prog RuntimeE decision :=
  slot_check (slot_active r) (Some (slot_health r)).

(** ** The registry (registry.go) *)

(** A runtime that has been started is known by a handle. *)
Definition handle := nat.
Inductive RegistryE : Type → Type :=
  | StartRuntime (node : ModelServiceNode) : RegistryE (option handle)
  | StopRuntime (id : string) (h : handle) : RegistryE unit
  | WakeRuntime (h : handle) : RegistryE unit
  | DropSnapshot (id : string) : RegistryE unit.

(** [entries]: the version and the runtime of a node. *)
#[local] Abbreviation entries := (gmap string (Z * handle)).

Section registry.
(** The order in which a map is gone through. *)
Context (shuffle : ∀ A, list A → list A).
#[local] Abbreviation P := (Prog RegistryE).

Definition desired_nodes (nodes : list ModelServiceNode) : gmap string ModelServiceNode :=
  fold_left (λ m n, <[mn_id n := n]> m) nodes ∅.
(** An entry whose node is there at its version. *)
Definition current (desired : gmap string ModelServiceNode) (id : string) (entry : Z * handle) : bool :=
  match desired !! id with Some n => mn_version n =? entry.1 | None => false end.

Fixpoint stop_entries (desired : gmap string ModelServiceNode) (l : list (string * (Z * handle))) : P unit :=
  match l with
  | [] => mret tt
  | (id, (_, h)) :: l =>
      call (StopRuntime id h) ;;
      (if is_null (desired !! id) then call (DropSnapshot id) else mret tt) ;;
      stop_entries desired l
  end.
Fixpoint start_nodes (nodes : list ModelServiceNode) (es : entries) : P entries :=
  match nodes with
  | [] => mret es
  | n :: nodes =>
      stop ← stopped;
      if stop : bool then mret es
      else
      started ← call (StartRuntime n);
      start_nodes nodes match started with Some h => <[mn_id n := (mn_version n, h)]> es | None => es end
  end.

Definition reconcile (es : entries) : P entries :=
  nodes ← store (reading (λ _ db, inr (ListModelNodes db)));
  match nodes with
  | inl _ => mret es
  | inr nodes =>
      let desired := desired_nodes nodes in
      let kept := filter (λ kv, current desired kv.1 kv.2 = true) es in
      let stale := filter (λ kv, current desired kv.1 kv.2 = false) es in
      let missing := filter (λ kv, kept !! kv.1 = None) desired in
      stop_entries desired (shuffle _ (map_to_list stale)) ;;
      start_nodes (shuffle _ (map snd (map_to_list missing))) kept
  end.

Fixpoint stop_all (l : list (string * (Z * handle))) : P unit :=
  match l with
  | [] => mret tt
  | (id, (_, h)) :: l => call (StopRuntime id h) ;; stop_all l
  end.
Definition stopAll (es : entries) : P unit := stop_all (shuffle _ (map_to_list es)).

(** The rounds that a tick or a wake starts, until the context ends. *)
Fixpoint run_rounds (rounds : nat) (es : entries) : P entries :=
  match rounds with
  | O => mret es
  | S rounds =>
      stop ← stopped;
      if stop : bool then mret es else es ← reconcile es; run_rounds rounds es
  end.
(** The store and the factory are set. *)
Definition Run (rounds : nat) : P unit :=
  es ← reconcile ∅;
  es ← run_rounds rounds es;
  stopAll es.

Fixpoint wake_all (l : list (string * (Z * handle))) : P unit :=
  match l with
  | [] => mret tt
  | (_, (_, h)) :: l => call (WakeRuntime h) ;; wake_all l
  end.
(** The wake-up of the loop itself is not recorded. *)
Definition Wake (es : entries) : P unit := wake_all (shuffle _ (map_to_list es)).
End registry.

(** ** Probing a node that is being configured (prober.go) *)

Record NodeAPIProbeResult := mkNodeAPIProbe {
  np_Reachable : bool;
  np_Authenticated : bool;
  np_ProtocolVersion : string;
  np_Capabilities : option (list (string * any));
  np_HealthErrorCode : string;
  np_CapabilityErrorCode : string
}.
Record NodeProbeResult := mkNodeProbe {
  gp_GradioOK : bool;
  gp_GradioErrorCode : string;
  gp_JobsOK : bool;
  gp_JobsErrorCode : string
}.

Section prober.
Context (x : RuntimeExternals).

Definition normalize_node (input : ModelNodeInput) : error + (ModelNodeInput * UpstreamConfig) :=
  let o := rx_orch x in
  NormalizeModelNode (x_url_Parse o) (x_escaped_path o) (x_url_String o) (x_EqualFold o) input.

(** [health_text]: the text of an error. *)
Definition ProbeNodeAPI (health_text : node_error → string) (input : ModelNodeInput) (apiKey : string)
    : Prog RuntimeE NodeAPIProbeResult :=
  let invalid := mkNodeAPIProbe false false "" None "node_config_invalid" "node_config_invalid" in
  match normalize_node input with
  | inr (normalized, u) =>
      match UsesNodeAPI normalized, uc_ServiceURL u with
      | true, Some url =>
          let c := NodeAPI.NewClient (ni_ID input) url apiKey (2 ^ 20) in
          health ← node_health x c "node-probe-health";
          match health with
          | inl err =>
              let refused := Contains_str (health_text err) "HTTP 401" || Contains_str (health_text err) "HTTP 403" in
              mret (mkNodeAPIProbe refused false "" None
                      (if refused then "node_authentication_failed" else "node_unreachable")
                      "capabilities_not_checked")
          | inr health =>
              capabilities ← node_capabilities x c "node-probe-capabilities";
              mret match capabilities with
                   | inl _ => mkNodeAPIProbe true true (ht_ProtocolVersion health) None "" "node_capabilities_failed"
                   | inr raw => mkNodeAPIProbe true true (ht_ProtocolVersion health) (Some raw) "" ""
                   end
          end
      | _, _ => mret invalid
      end
  | inl _ => mret invalid
  end.

(** The two calls are made at once; they do not depend on each other. *)
Definition Probe (input : ModelNodeInput) : Prog RuntimeE NodeProbeResult :=
  let g := rx_gradio x in
  match normalize_node input with
  | inl _ => mret (mkNodeProbe false "node_config_invalid" false "node_config_invalid")
  | inr (_, u) =>
      let c := NewClientWithJobs (default TK2SD.zero_URL (uc_BaseURL u)) (default TK2SD.zero_URL (uc_JobsBaseURL u)) (2 ^ 20) in
      healthy ← translate (@RtGradio) (Gradio.Healthy (gx_escaped_path g) (gx_url_String g) (gx_request_ok g) c
                  (uc_HealthPath u));
      jobs ← translate (@RtGradio) (ListJobs (gx_escaped_path g) (gx_url_String g) (gx_request_ok g)
               (gx_jobs_of_json g) c);
      mret (mkNodeProbe
        match healthy with inr _ => true | inl _ => false end
        match healthy with inr _ => "" | inl _ => "upstream_unhealthy" end
        match jobs with inr _ => true | inl _ => false end
        match jobs with inr _ => "" | inl _ => "upstream_jobs_unhealthy" end)
  end.
End prober.

(** ** What runs *)

(** The runtimes that run after an event: [None] when one is started beside another
    of its node, or one is stopped that does not run. *)
Definition live_step (ev : answered RegistryE) (m : gmap string handle) : option (gmap string handle) :=
  match ev with
  | existT _ (c, x) =>
      match c in RegistryE Y return Y → option (gmap string handle) with
      | StartRuntime n => λ started,
          match started with
          | None => Some m
          | Some h => match m !! mn_id n with None => Some (<[mn_id n := h]> m) | Some _ => None end
          end
      | StopRuntime id h => λ _, if m !! id ≟ Some h then Some (delete id m) else None
      | WakeRuntime _ | DropSnapshot _ => λ _, Some m
      end x
  end.
Fixpoint live (tr : list (answered RegistryE)) (m : gmap string handle) : option (gmap string handle) :=
  match tr with [] => Some m | ev :: tr => m ← live_step ev m; live tr m end.

Lemma live_app tr tr' m : live (tr ++ tr') m = m' ← live tr m; live tr' m'.
Proof.
  revert m. induction tr as [|ev tr IH]; intros m; [done|]. simpl. destruct (live_step ev m) as [m1|]; [apply IH|done].
Qed.

Definition running (es : gmap string (Z * handle)) : gmap string handle := snd <$> es.
(** Without some nodes. *)
Definition without (ids : list string) (m : gmap string handle) : gmap string handle :=
  filter (λ kv, kv.1 ∉ ids) m.

Lemma without_cons id ids m : without ids (delete id m) = without (id :: ids) m.
Proof.
  apply map_eq. intros k. unfold without. apply option_eq. intros h.
  rewrite !map_lookup_filter_Some, lookup_delete_Some. simpl. set_solver.
Qed.

Lemma live_stop id h tr m :
  m !! id = Some h → live (existT _ (StopRuntime id h, tt) :: tr) m = live tr (delete id m).
Proof. intros Hm. simpl. by rewrite bool_decide_eq_true_2. Qed.

Lemma stop_all_live (l : list (string * (Z * handle))) tr m :
  hears (stop_all l) tr tt → NoDup l.*1 → (∀ id v h, (id, (v, h)) ∈ l → m !! id = Some h) →
  live tr m = Some (without l.*1 m).
Proof.
  revert tr m. induction l as [|[id [v h]] l IH]; intros tr m; simpl.
  - intros [_ ->] _ _. simpl. f_equal. symmetry. apply map_filter_id. intros ???. simpl. set_solver.
  - intros ([] & tr' & -> & H) [Hn Hnd]%NoDup_cons Hm.
    rewrite live_stop by (eapply Hm; left). rewrite <-without_cons. apply IH; [done..|].
    intros id' v' h' Hin. rewrite lookup_delete_ne; [eapply Hm; by right|].
    intros ->. apply Hn. by apply (list_elem_of_fmap_2 fst _ _ Hin).
Qed.

Lemma stop_entries_live desired (l : list (string * (Z * handle))) tr m :
  hears (stop_entries desired l) tr tt → NoDup l.*1 → (∀ id v h, (id, (v, h)) ∈ l → m !! id = Some h) →
  live tr m = Some (without l.*1 m).
Proof.
  revert tr m. induction l as [|[id [v h]] l IH]; intros tr m; simpl.
  - intros [_ ->] _ _. simpl. f_equal. symmetry. apply map_filter_id. intros ???. simpl. set_solver.
  - intros ([] & tr' & -> & H) [Hn Hnd]%NoDup_cons Hm.
    assert (∃ tr'', live tr' (delete id m) = live tr'' (delete id m) ∧ hears (stop_entries desired l) tr'' tt)
      as (tr'' & E & Hr).
    { destruct (is_null _); [|by exists tr']. destruct H as ([] & tr'' & -> & H). by exists tr''. }
    rewrite live_stop by (eapply Hm; left). rewrite <-without_cons, E. apply IH; [done..|].
    intros id' v' h' Hin. rewrite lookup_delete_ne; [eapply Hm; by right|].
    intros ->. apply Hn. by apply (list_elem_of_fmap_2 fst _ _ Hin).
Qed.

Lemma start_nodes_live nodes es tr es' :
  hears (start_nodes nodes es) tr es' → NoDup (map mn_id nodes) →
  (∀ n, n ∈ nodes → es !! mn_id n = None) → live tr (running es) = Some (running es').
Proof.
  revert es tr. induction nodes as [|n nodes IH]; intros es tr; [by intros [-> ->]|]. simpl.
  intros [[] H] [Hn Hnd]%NoDup_cons Hes; [by destruct H as [-> ->]|].
  destruct H as (started & tr' & -> & H). simpl.
  assert (es !! mn_id n = None) as En by (apply Hes; left).
  destruct started as [h|]; [|apply IH; [done..|set_solver]]. simpl.
  assert (running es !! mn_id n = None) as -> by (unfold running; by rewrite lookup_fmap, En). simpl.
  assert (<[mn_id n := h]> (running es) = running (<[mn_id n := (mn_version n, h)]> es)) as ->
    by (unfold running; by rewrite fmap_insert).
  apply IH; [done..|]. intros n' Hn'.
  rewrite lookup_insert_ne; [apply Hes; by right|]. intros E'. apply Hn. rewrite E'.
  by apply list_elem_of_In, in_map, list_elem_of_In.
Qed.

Lemma desired_nodes_key nodes id n : desired_nodes nodes !! id = Some n → mn_id n = id.
Proof.
  unfold desired_nodes. assert (∀ m : gmap string ModelServiceNode, (∀ id n, m !! id = Some n → mn_id n = id) →
    ∀ id n, fold_left (λ m n, <[mn_id n := n]> m) nodes m !! id = Some n → mn_id n = id) as H;
    [|by apply H; intros ??; rewrite lookup_empty].
  induction nodes as [|n' nodes IH]; intros m Hm; [done|]. simpl. apply IH. intros i k.
  destruct (decide (mn_id n' = i)) as [<-|]; [rewrite lookup_insert_eq; congruence|].
  rewrite lookup_insert_ne by done. apply Hm.
Qed.

Section runs.
Context (shuffle : ∀ A, list A → list A) (shuffle_perm : ∀ A (l : list A), shuffle A l ≡ₚ l).

Lemma shuffled_entries (es : gmap string (Z * handle)) :
  NoDup (shuffle _ (map_to_list es)).*1 ∧
  ∀ kv, kv ∈ shuffle _ (map_to_list es) ↔ es !! kv.1 = Some kv.2.
Proof using shuffle_perm.
  split; [rewrite shuffle_perm; apply NoDup_fst_map_to_list|].
  intros [k v]. rewrite shuffle_perm. apply elem_of_map_to_list.
Qed.

Lemma reconcile_live es tr es' :
  hears (reconcile shuffle es) tr es' → live tr (running es) = Some (running es').
Proof using shuffle_perm.
  unfold reconcile. intros (tr1 & nodes & tr2 & Hn & H & ->)%hears_bind.
  assert (tr1 = []) as -> by (destruct Hn as [(e & db & _ & ->)|(f & _ & _ & ->)]; done).
  destruct nodes as [|nodes]; [by destruct H as [-> ->]|]. simpl.
  apply hears_bind in H as (tr3 & [] & tr4 & Hs & Hr & ->). rewrite live_app.
  set (desired := desired_nodes nodes) in *.
  set (kept := filter (λ kv, current desired kv.1 kv.2 = true) es) in *.
  set (stale := filter (λ kv, current desired kv.1 kv.2 = false) es) in *.
  destruct (shuffled_entries stale) as [Hnd Hin].
  rewrite (stop_entries_live _ _ _ (running es) Hs Hnd).
  2: { intros id v h H%Hin. simpl in H. unfold stale in H. apply map_lookup_filter_Some in H as [H _].
       unfold running. by rewrite lookup_fmap, H. }
  simpl. assert (without (shuffle _ (map_to_list stale)).*1 (running es) = running kept) as ->.
  { apply map_eq. intros id. apply option_eq. intros h. unfold without, running.
    rewrite map_lookup_filter_Some, !lookup_fmap_Some. simpl.
    assert (id ∈ (shuffle _ (map_to_list stale)).*1 ↔ is_Some (stale !! id)) as Hid.
    { rewrite list_elem_of_fmap. split.
      - intros ([k v] & -> & Hk%Hin). by eexists.
      - intros [v Hv]. exists (id, v). split; [done|by apply Hin]. }
    rewrite Hid. unfold stale, kept. split.
    - intros [(v & <- & Hv) Hns]. exists v. split; [done|]. apply map_lookup_filter_Some. split; [done|].
      simpl. destruct (current desired id v) eqn:E; [done|]. destruct Hns. exists v. by apply map_lookup_filter_Some.
    - intros (v & <- & [Hv Hc]%map_lookup_filter_Some). split; [by exists v|].
      intros [v' [Hv' Hc']%map_lookup_filter_Some]. simpl in *. congruence. }
  apply (start_nodes_live _ _ _ _ Hr).
  - rewrite shuffle_perm.
    assert (∀ l : list (string * ModelServiceNode), (∀ kv, kv ∈ l → mn_id kv.2 = kv.1) →
      map mn_id (map snd l) = l.*1) as ->.
    { intros l Hl. induction l as [|kv l IH]; [done|]. simpl. f_equal; [apply Hl; left|apply IH; set_solver]. }
    + apply NoDup_fst_map_to_list.
    + intros [k n] H%elem_of_map_to_list. apply map_lookup_filter_Some in H as [H _]. by eapply desired_nodes_key.
  - intros n. rewrite shuffle_perm. intros (kv & <- & Hkv)%list_elem_of_In%in_map_iff.
    apply list_elem_of_In in Hkv. destruct kv as [k n]. apply elem_of_map_to_list in Hkv.
    apply map_lookup_filter_Some in Hkv as [Hd Hk]. simpl in *.
    by rewrite (desired_nodes_key _ _ _ Hd).
Qed.

Lemma run_rounds_live rounds es tr es' :
  hears (run_rounds shuffle rounds es) tr es' → live tr (running es) = Some (running es').
Proof using shuffle_perm.
  revert es tr. induction rounds as [|rounds IH]; intros es tr; [by intros [-> ->]|]. cbn [run_rounds].
  intros (tr1 & stop & tr2 & Hs & H & ->)%hears_bind. destruct Hs as (b & -> & ->).
  destruct b; [by destruct H as [-> ->]|]. simpl.
  apply hears_bind in H as (tr3 & es1 & tr4 & H1 & H2 & ->).
  rewrite live_app, (reconcile_live _ _ _ H1). by apply IH.
Qed.

(** However the configuration of the nodes changes while the registry runs: at any
    time at most one runtime of a node runs, a runtime is stopped only once and only
    while it runs, and none is left in the end. *)
Theorem Run_exclusive rounds tr : hears (Run shuffle rounds) tr tt → live tr ∅ = Some ∅.
Proof using shuffle_perm.
  unfold Run. intros (tr1 & es1 & tr2 & H1 & H & ->)%hears_bind.
  apply hears_bind in H as (tr3 & es2 & tr4 & H2 & H3 & ->).
  apply reconcile_live in H1. apply run_rounds_live in H2.
  rewrite live_app. change ∅ with (running ∅) at 1. rewrite H1. simpl. rewrite live_app, H2. simpl.
  destruct (shuffled_entries es2) as [Hnd Hin].
  rewrite (stop_all_live _ _ (running es2) H3 Hnd).
  - f_equal. apply map_eq. intros id. rewrite lookup_empty. unfold without. apply map_lookup_filter_None.
    right. intros h Hh. simpl. intros Hn. apply Hn. unfold running in Hh. rewrite lookup_fmap in Hh.
    destruct (es2 !! id) as [v|] eqn:E; [|done].
    apply list_elem_of_fmap. exists (id, v). split; [done|by apply Hin].
  - intros id v h H%Hin. unfold running. simpl in H. by rewrite lookup_fmap, H.
Qed.

(** ** What a round of the registry comes to *)

Lemma stop_entries_run (answer : ∀ X, RegistryE X → X) e desired l db :
  (run answer e (stop_entries desired l) db).1 = (tt, db).
Proof.
  induction l as [|[id [v h]] l IH]; [done|]. cbn [stop_entries]. rewrite run_bind. simpl.
  destruct (answer _ (StopRuntime id h)). destruct (is_null _).
  - rewrite run_bind. simpl. destruct (answer _ (DropSnapshot id)).
    by destruct (run answer e (stop_entries desired l) db) as [[[] db1] tr1].
  - rewrite run_bind. simpl. by destruct (run answer e (stop_entries desired l) db) as [[[] db1] tr1].
Qed.

Lemma start_nodes_run (answer : ∀ X, RegistryE X → X) e nodes es db :
  (∀ n, is_Some (answer _ (StartRuntime n))) → NoDup (map mn_id nodes) →
  ∀ id, fst <$> (run answer e (start_nodes nodes es) db).1.1 !! id =
    match List.find (λ n, mn_id n ≟ id) nodes with
    | Some n => Some (mn_version n)
    | None => fst <$> es !! id
    end.
Proof.
  intros Ha. revert es. induction nodes as [|n nodes IH]; intros es; [done|].
  cbn [start_nodes map List.find]. intros [Hn Hnd]%NoDup_cons id. destruct (Ha n) as [h Eh].
  rewrite run_bind. cbn [run stopped]. rewrite run_bind. cbn [run call]. rewrite Eh.
  specialize (IH (<[mn_id n := (mn_version n, h)]> es) Hnd id). revert IH.
  destruct (run answer e (start_nodes nodes _) db) as [[a db1] tr1]. cbn [fst snd]. intros ->.
  destruct (decide (mn_id n = id)) as [<-|Hne].
  - rewrite bool_decide_eq_true_2 by done.
    destruct (List.find _ nodes) as [n'|] eqn:Ef.
    + apply find_elem_of in Ef as [Hin E%bool_decide_eq_true]. destruct Hn. rewrite <-E.
      by apply list_elem_of_In, in_map, list_elem_of_In.
    + by rewrite lookup_insert_eq.
  - rewrite bool_decide_eq_false_2 by done. destruct (List.find _ nodes); [done|].
    by rewrite lookup_insert_ne.
Qed.

(** When every runtime can be started, after a round the nodes of the store run, each
    at its version, and nothing else does. *)
Theorem reconcile_converges (answer : ∀ X, RegistryE X → X) e es db :
  (∀ n, is_Some (answer _ (StartRuntime n))) →
  fst <$> (run answer e (reconcile shuffle es) db).1.1 = mn_version <$> desired_nodes (ListModelNodes db).
Proof using shuffle_perm.
  intros Ha. unfold reconcile. rewrite run_bind. cbn [run store reading fst snd].
  set (desired := desired_nodes (ListModelNodes db)).
  set (kept := filter (λ kv, current desired kv.1 kv.2 = true) es).
  set (missing := filter (λ kv, kept !! kv.1 = None) desired).
  set (starts := shuffle ModelServiceNode (map snd (map_to_list missing))).
  rewrite run_bind.
  match goal with |- context [run answer e (stop_entries desired ?l) db] =>
    pose proof (stop_entries_run answer e desired l db) as E;
    destruct (run answer e (stop_entries desired l) db) as [[u db1] tr1] end.
  injection E as -> ->.
  assert (∀ n, n ∈ starts ↔ missing !! mn_id n = Some n) as Hin.
  { intros n. unfold starts. rewrite shuffle_perm. split.
    - intros (kv & <- & Hkv)%list_elem_of_In%in_map_iff. apply list_elem_of_In in Hkv.
      destruct kv as [k m]. apply elem_of_map_to_list in Hkv. simpl.
      assert (desired !! k = Some m) as Hd by (by apply map_lookup_filter_Some in Hkv as [? _]).
      by rewrite (desired_nodes_key _ _ _ Hd).
    - intros Hm. apply list_elem_of_In, in_map_iff. exists (mn_id n, n). split; [done|].
      by apply list_elem_of_In, elem_of_map_to_list. }
  assert (NoDup (map mn_id starts)) as Hnd.
  { unfold starts. rewrite shuffle_perm.
    assert (∀ l : list (string * ModelServiceNode), (∀ kv, kv ∈ l → mn_id kv.2 = kv.1) →
      map mn_id (map snd l) = l.*1) as ->.
    { intros l Hl. induction l as [|kv l IH]; [done|]. simpl. f_equal; [apply Hl; left|apply IH; set_solver]. }
    + apply NoDup_fst_map_to_list.
    + intros [k n] H%elem_of_map_to_list. apply map_lookup_filter_Some in H as [H _]. by eapply desired_nodes_key. }
  pose proof (start_nodes_run answer e starts kept db Ha Hnd) as Hrun.
  destruct (run answer e (start_nodes starts kept) db) as [[es' db2] tr2]. simpl in Hrun |- *.
  apply map_eq. intros id. rewrite !lookup_fmap, Hrun.
  destruct (List.find _ starts) as [n|] eqn:Ef.
  - apply find_elem_of in Ef as [Hn <-%bool_decide_eq_true]. apply Hin, map_lookup_filter_Some in Hn as [-> _]. done.
  - rewrite find_none_iff in Ef. destruct (kept !! id) as [[v h]|] eqn:Ek; simpl.
    + apply map_lookup_filter_Some in Ek as [_ Hc]. unfold current in Hc. simpl in Hc.
      destruct (desired !! id) as [n|]; [|done]. simpl. f_equal. lia.
    + destruct (desired !! id) as [n|] eqn:Ed; [|done]. exfalso.
      pose proof (desired_nodes_key _ _ _ Ed) as <-.
      assert (n ∈ starts) as Hn by (apply Hin, map_lookup_filter_Some; done).
      apply Ef in Hn. by apply bool_decide_eq_false in Hn.
Qed.
End runs.

(** ** What lets a slot take a task *)

Section dispatch.
Context (answer : ∀ X, RuntimeE X → X) (e : Env) (r : node_runtime) (db : DB).

Lemma read_active_run id :
  (run answer e (read_active id) db).1 = (found (ActiveForUpstream id db), db).
Proof. done. Qed.

Lemma slot_active_run a :
  slot_active r = Some a →
  (run answer e a db).1.2 = db ∧
  ((run answer e a db).1.1 = inr true →
   HasNodeDispatchBarrier (nr_ID r) db = true ∨ ∃ t, ActiveForUpstream (nr_ID r) db = inr t).
Proof.
  assert (∀ v : error + option Task, v = found (ActiveForUpstream (nr_ID r) db) →
    match v with inl err => inl err | inr a => inr (negb (is_null a)) end = (inr true : error + bool) →
    ∃ t, ActiveForUpstream (nr_ID r) db = inr t) as Hf.
  { intros v ->. destruct (ActiveForUpstream _ db) as [[]|t]; try done. by exists t. }
  unfold slot_active. destruct (nr_Worker r); intros [= <-].
  - split; [done|]. intros H. right. by apply (Hf _ eq_refl).
  - unfold try. rewrite run_bind. cbn [run store read_barrier reading fst snd].
    destruct (HasNodeDispatchBarrier (nr_ID r) db); [by split; [|left]|].
    split; [done|]. intros H. right. by apply (Hf _ eq_refl).
Qed.

Lemma slot_health_run :
  (run answer e (slot_health r) db).1.1 = inr tt →
  nr_Enabled r = true ∧ ∃ n, answer _ (CacheGet (nr_ID r)) = Some n ∧
    usable (env_now e) (nr_maxAge r) n = true ∧ (is_Some (slot_active r) → busy n = false).
Proof.
  unfold slot_health, slot_active. destruct (nr_Enabled r); [|done]. simpl.
  destruct (nr_Worker r), (answer _ (CacheGet (nr_ID r))) as [n|]; simpl; try done;
    destruct (usable _ _ n) eqn:Eu; simpl; try done; destruct (busy n) eqn:Eb; simpl; try done;
    intros _; (split; [done|]); exists n; (split_and!; [done|exact Eu|]); try done; by intros [? ?].
Qed.
End dispatch.

(** A slot calls its worker only when the node has work to go on with, or when the
    node is enabled and a recent probe found it healthy and, unless it takes several
    tasks, free. *)
Theorem slot_dispatch (answer : ∀ X, RuntimeE X → X) e (r : node_runtime) db :
  (run answer e (node_check r) db).1.1 = SlotProcess →
  (is_Some (slot_active r) ∧
   (HasNodeDispatchBarrier (nr_ID r) db = true ∨ ∃ t, ActiveForUpstream (nr_ID r) db = inr t)) ∨
  (nr_Enabled r = true ∧ ∃ n, answer _ (CacheGet (nr_ID r)) = Some n ∧
   usable (env_now e) (nr_maxAge r) n = true ∧ (is_Some (slot_active r) → busy n = false)).
Proof.
  unfold node_check, slot_check. rewrite run_bind. cbn [run stopped]. rewrite run_bind.
  pose proof (slot_health_run answer e r db) as Hh.
  assert (∀ db1, db1 = db →
    (run answer e (v ← slot_health r; mret match v with inl _ => SlotWait | inr _ => SlotProcess end) db1).1.1
      = SlotProcess → (run answer e (slot_health r) db).1.1 = inr tt) as Hp.
  { intros db1 ->. rewrite run_bind. destruct (run answer e (slot_health r) db) as [[[|[]] db2] tr2]; done. }
  destruct (slot_active r) as [a|] eqn:Ea.
  - destruct (slot_active_run answer e r db a Ea) as [Hdb Ha].
    destruct (run answer e a db) as [[v db1] tr1]. simpl in Hdb, Ha.
    destruct v as [|[]]; [done|left; split; [by eexists|by apply Ha]|].
    intros H. right. apply Hh, (Hp db1 Hdb). revert H.
    match goal with |- context [run answer e ?p db1] => destruct (run answer e p db1) as [[d db2] tr2] end. exact (λ H, H).
  - cbn [run mret prog_ret]. intros H. right. apply Hh, (Hp db eq_refl). revert H.
    match goal with |- context [run answer e ?p db] => destruct (run answer e p db) as [[d db2] tr2] end. exact (λ H, H).
Qed.
