(* ===== verification/Inventory.v ===== *)
(** * The inventory of models (internal/routing/inventory.go)

    What a TK2SD node offers is asked of the node itself, made a catalogue and
    stored.  Refreshes of the same state of a node are made once for all callers. *)

From stdpp Require Import gmap.
From S2P Require Import Prelude Domain Tx Database Sql Workers GoStrings GoNet Catalog Paging TaskRouting Callbacks Queue Stages Artifacts Remote Nodes Config TK2SD.

Definition CatalogRefreshInterval : Z := 300 * Second.
Definition CatalogValidity : Z := 1800 * Second.

Inductive InventoryE : Type → Type :=
  | OnTk {X} (c : TkE X) : InventoryE X
  | WakeRegistry : InventoryE unit.

Inductive discovery_error :=
  | ErrDiscoveryFailed
  | ErrDiscoveryUnsupported
  | DiscoveryStore (err : error)
  | DiscoveryContext.

(** ** The catalogue of the models a node lists *)

Definition scenario_of_mode (mode : string) : option (string * list string) :=
  if mode ≟ "text_to_video" then Some ("t2va", [])
  else if mode ≟ "image_to_video" then Some ("i2va", ["first_frame"])
  else if mode ≟ "reference_to_video"
  then Some ("r2va", ["reference_image"; "reference_video"; "reference_audio"])
  else None.

(** Sorted, from 4 to 15, each once. *)
Fixpoint durations_ok (l : list Z) : bool :=
  match l with
  | [] => true
  | d :: l => (4 <=? d) && (d <=? 15) && negb (head l ≟ Some d) && durations_ok l
  end.

Definition discovered_capability : ModelCapability :=
  mkCapability 1 [] ["http"; "https"; "data"; "proxy-input"] "ignored" [] 12.
Definition set_modes (f : list ModeCapability → list ModeCapability) (m : NodeModel) : NodeModel :=
  let c := nmd_Capabilities m in
  m <| nmd_Capabilities := mkCapability (cap_SchemaVersion c) (f (cap_Modes c)) (cap_InputSources c)
         (cap_ResolutionPolicy c) (cap_Resolutions c) (cap_MaxMedia c) |>.

Definition add_mode (id : string) (mode : ModeCapability) (grouped : list NodeModel) : list NodeModel :=
  let grouped := if existsb (λ m, nmd_ModelID m ≟ id) grouped then grouped
                 else grouped ++ [mkNodeModel id true true true discovered_capability] in
  update_where (λ m, nmd_ModelID m ≟ id) (set_modes (λ l, l ++ [mode])) grouped.

Fixpoint group_models (rows : list TkModel) (grouped : list NodeModel) : option (list NodeModel) :=
  match rows with
  | [] => Some grouped
  | row :: rows =>
      if negb (ValidModelID (tm_ID row)) || (tm_Durations row ≟ []) then None
      else
      '(scenario, roles) ← scenario_of_mode (tm_Mode row);
      let durations := order_by (λ d, d) (tm_Durations row) in
      if durations_ok durations
      then group_models rows (add_mode (tm_ID row) (mkMode scenario durations roles) grouped) else None
  end.
Definition sort_models (grouped : list NodeModel) : list NodeModel :=
  order_by_text (λ m, (nmd_ModelID m, ""))
    (map (set_modes (order_by_text (λ m, (mc_Scenario m, "")))) grouped).
Definition discovered_items (rows : list TkModel) : option (list NodeModel) :=
  grouped ← group_models rows [];
  if 256 <? Z.of_nat (length grouped) then None else Some (sort_models grouped).

Section inventory.
Context (x : TkExternals).
(** The secret box, and whether there is one. *)
Context (Open_key : ModelServiceNode → option string) (Secrets has_Wake : bool).
#[local] Abbreviation P := (Prog InventoryE).

Definition Preview (input : ModelNodeInput) (apiKey : string) : P (discovery_error + ModelCatalog) :=
  if negb (ni_ProtocolVersion input ≟ ProtocolTK2SD) then mret (inl ErrDiscoveryUnsupported)
  else
  let input := input <| ni_ID := if ni_ID input ≟ "" then "preview" else ni_ID input |>
    <| ni_PollInterval := if ni_PollInterval input =? 0 then Second else ni_PollInterval input |>
    <| ni_MaxConcurrency := if ni_MaxConcurrency input =? 0 then 1 else ni_MaxConcurrency input |> in
  match NormalizeModelNode (tx_url_Parse x) (tx_escaped_path x) (tx_url_String x) (tx_EqualFold x) input with
  | inl _ => mret (inl ErrDiscoveryFailed)
  | inr (_, upstream) =>
      rows ← translate (@OnTk) (Models x (NewClient (uc_ServiceURL upstream) apiKey (2 ^ 20)));
      match rows with
      | inl _ => mret (inl ErrDiscoveryFailed)
      | inr rows =>
          match discovered_items rows with
          | None => mret (inl ErrDiscoveryFailed)
          | Some items =>
              e ← environment;
              let now := nowUnix e in
              mret (inr (mkModelCatalog (ni_ID input) "discovered" 0 (if items ≟ [] then "empty" else "ready") ""
                now now (now + CatalogValidity / Second) "" items))
          end
      end
  end.

(** [inventoryKey]: the node, its version, and the revision of its catalogue. *)
Definition inventoryKey : Type := string * Z * Z.

(** What a refresh gives: a catalogue and an error, if there is one. *)
Definition outcome : Type := ModelCatalog * option discovery_error.
Definition no_catalog : ModelCatalog := mkModelCatalog "" "" 0 "" "" 0 0 0 "" [].

Definition refresh (key : inventoryKey) : P outcome :=
  let '(id, nodeVersion, catalogRevision) := key in
  node ← store (reading (λ _, GetModelNode id));
  match node with
  | inl err => mret (no_catalog, Some (DiscoveryStore err))
  | inr node =>
      old ← store (reading (λ _, catalogWith id));
      match old with
      | inl err => mret (no_catalog, Some (DiscoveryStore err))
      | inr old =>
          if negb (mn_version node =? nodeVersion)
          then mret (no_catalog, Some (DiscoveryStore ErrNodeVersionConflict))
          else if negb (cat_Revision old =? catalogRevision)
          then mret (no_catalog, Some (DiscoveryStore ErrCatalogConflict))
          else if negb (mn_protocol_version node ≟ ProtocolTK2SD) || negb (cat_Source old ≟ "discovered")
          then mret (no_catalog, Some ErrDiscoveryUnsupported)
          else
          catalog ← match (if Secrets then Open_key node else None) with
                    | None => mret (inl ErrDiscoveryFailed)
                    | Some apiKey => Preview (node_input_of_row node) apiKey
                    end;
          stop ← stopped;
          if stop : bool then mret (old, Some DiscoveryContext)
          else
          let '(items, code) := match catalog with
                                | inl _ => ([], "model_discovery_failed")
                                | inr c => (cat_Items c, "")
                                end in
          saved ← store (λ e, RefreshModelCatalog e id nodeVersion catalogRevision items code);
          match saved with
          | inl err => mret (no_catalog, Some (DiscoveryStore err))
          | inr saved =>
              if negb (code ≟ "") then mret (saved, Some ErrDiscoveryFailed)
              else
              (if has_Wake then call WakeRegistry else mret tt) ;;
              mret (saved, None)
          end
      end
  end.

(** *** One refresh for all callers

    The flights that are under way; a caller either leads a new one or waits for
    one, and gets its outcome. *)
Record flights := mkFlights {
  fl_under_way : gmap inventoryKey nat;
  fl_outcomes : gmap nat outcome;
  fl_next : nat
}.
Inductive boarding := Leads (flight : nat) | Waits (flight : nat).
Definition board (key : inventoryKey) (s : flights) : boarding * flights :=
  match fl_under_way s !! key with
  | Some flight => (Waits flight, s)
  | None => (Leads (fl_next s),
             mkFlights (<[key := fl_next s]> (fl_under_way s)) (fl_outcomes s) (S (fl_next s)))
  end.
Definition land (key : inventoryKey) (flight : nat) (o : outcome) (s : flights) : flights :=
  mkFlights (delete key (fl_under_way s)) (<[flight := o]> (fl_outcomes s)) (fl_next s).

(** *** The refreshes that are due *)

Definition due (now : Z) (c : ModelCatalog) : bool :=
  negb ((0 <? cat_LastAttemptAt c) && (now - cat_LastAttemptAt c <? CatalogRefreshInterval / Second)).
Fixpoint refresh_nodes (nodes : list ModelServiceNode) : P unit :=
  match nodes with
  | [] => mret tt
  | node :: nodes =>
      stop ← stopped;
      if stop : bool then mret tt
      else if negb (mn_enabled node) || negb (mn_protocol_version node ≟ ProtocolTK2SD)
      then refresh_nodes nodes
      else
      catalog ← store (reading (λ _, catalogWith (mn_id node)));
      match catalog with
      | inl _ => refresh_nodes nodes
      | inr catalog =>
          e ← environment;
          (if due (nowUnix e) catalog
           then _ ← refresh (mn_id node, mn_version node, cat_Revision catalog); mret tt else mret tt) ;;
          refresh_nodes nodes
      end
  end.
Definition refreshDue : P unit :=
  nodes ← store (reading (λ _ db, inr (ListModelNodes db)));
  match nodes with inl _ => mret tt | inr nodes => refresh_nodes nodes end.
End inventory.

(** ** The catalogue says what the node said *)

(** A model that supports a scenario with a duration. *)
Definition offers (l : list NodeModel) (id scenario : string) (d : Z) : Prop :=
  ∃ m, m ∈ l ∧ nmd_ModelID m = id ∧ Supports (nmd_Capabilities m) scenario d = true.
Definition lists (rows : list TkModel) (id scenario : string) (d : Z) : Prop :=
  ∃ row, row ∈ rows ∧ tm_ID row = id ∧ (fst <$> scenario_of_mode (tm_Mode row)) = Some scenario ∧
    d ∈ tm_Durations row.
Definition grouped_wf (l : list NodeModel) : Prop :=
  NoDup (map nmd_ModelID l) ∧ Forall (λ m, ValidModelID (nmd_ModelID m) = true) l.

Lemma Supports_iff c s d :
  Supports c s d = true ↔ ∃ mode, mode ∈ cap_Modes c ∧ mc_Scenario mode = s ∧ d ∈ mc_Durations mode.
Proof.
  unfold Supports. rewrite existsb_exists. split.
  - intros (m & Hm & H). apply andb_true_iff in H as [?%bool_decide_eq_true ?%bool_decide_eq_true].
    exists m. by rewrite list_elem_of_In.
  - intros (m & Hm & <- & Hd). exists m. rewrite <-list_elem_of_In. split; [done|].
    by rewrite !bool_decide_eq_true_2.
Qed.

Lemma add_mode_ids id mode l :
  map nmd_ModelID (add_mode id mode l) =
  if existsb (λ m, nmd_ModelID m ≟ id) l then map nmd_ModelID l else map nmd_ModelID l ++ [id].
Proof.
  unfold add_mode. rewrite map_update_where by done. by destruct (existsb _ l); [|rewrite map_app].
Qed.

Lemma existsb_id id l : existsb (λ m, nmd_ModelID m ≟ id) l = true ↔ id ∈ map nmd_ModelID l.
Proof.
  rewrite existsb_exists, list_elem_of_In, in_map_iff. split.
  - intros (m & ? & E%bool_decide_eq_true). eauto.
  - intros (m & <- & ?). exists m. by rewrite bool_decide_eq_true_2.
Qed.

Lemma add_mode_wf id mode l : ValidModelID id = true → grouped_wf l → grouped_wf (add_mode id mode l).
Proof.
  intros Hid [Hnd Hv]. split.
  - rewrite add_mode_ids. destruct (existsb _ l) eqn:E; [done|].
    apply NoDup_app. split_and!; [done| |apply NoDup_singleton].
    intros i Hi Hin. apply list_elem_of_singleton in Hin as ->. apply existsb_id in Hi. congruence.
  - apply Forall_forall. intros m Hm.
    assert (nmd_ModelID m ∈ map nmd_ModelID (add_mode id mode l)) as Hin
      by (by apply list_elem_of_In, in_map, list_elem_of_In).
    rewrite add_mode_ids in Hin.
    assert (nmd_ModelID m ∈ map nmd_ModelID l ∨ nmd_ModelID m = id) as [H| ->]; [|..|done].
    { destruct (existsb _ l); [by left|]. apply elem_of_app in Hin as [|?%list_elem_of_singleton]; auto. }
    apply list_elem_of_In, in_map_iff in H as (m' & <- & H). rewrite Forall_forall in Hv.
    apply Hv. by apply list_elem_of_In.
Qed.

Lemma add_mode_offers id mode l i s d :
  offers (add_mode id mode l) i s d ↔
  offers l i s d ∨ (i = id ∧ mc_Scenario mode = s ∧ d ∈ mc_Durations mode).
Proof.
  unfold offers, add_mode. setoid_rewrite elem_of_update_where. setoid_rewrite Supports_iff.
  set (l' := if existsb _ l then l else _).
  assert (∀ m, m ∈ l → m ∈ l') as Hl by (intros m Hm; unfold l'; destruct (existsb _ l); set_solver).
  assert (∃ m, m ∈ l' ∧ nmd_ModelID m = id) as (m0 & Hm0 & Eid).
  { unfold l'. destruct (existsb _ l) eqn:E.
    - apply existsb_id, list_elem_of_In, in_map_iff in E as (m & ? & ?). exists m. by rewrite list_elem_of_In.
    - eexists. split; [apply elem_of_app; right; left|done]. }
  split.
  - intros (m & (m1 & Hm1 & ->) & <- & k & Hk & <- & Hd).
    assert (m1 ∈ l ∨ cap_Modes (nmd_Capabilities m1) = []) as Hold.
    { unfold l' in Hm1. destruct (existsb _ l); [by left|].
      apply elem_of_app in Hm1 as [|?%list_elem_of_singleton]; [by left|subst; by right]. }
    destruct (nmd_ModelID m1 ≟ id) eqn:E; simpl in Hk |- *.
    + apply elem_of_app in Hk as [Hk|Hk%list_elem_of_singleton].
      * left. destruct Hold as [Hin|Hnil]; [|rewrite Hnil in Hk; by apply elem_of_nil in Hk].
        exists m1. split_and!; [done..|by exists k].
      * right. apply bool_decide_eq_true in E. by subst.
    + left. destruct Hold as [Hin|Hnil]; [|rewrite Hnil in Hk; by apply elem_of_nil in Hk].
      exists m1. split_and!; [done..|by exists k].
  - intros [(m & Hm & <- & k & Hk & <- & Hd)|(-> & <- & Hd)].
    + eexists. split_and!; [exists m; split; [by apply Hl|reflexivity]|by destruct (_ ≟ _)|].
      exists k. split; [|done]. destruct (_ ≟ _); [|done]. simpl. by apply elem_of_app; left.
    + eexists. split_and!; [exists m0; split; [done|reflexivity]| |].
      * rewrite bool_decide_eq_true_2 by done. done.
      * rewrite bool_decide_eq_true_2 by done. exists mode. split; [|done]. simpl. apply elem_of_app. right. left.
Qed.

Lemma add_mode_modes id mode l :
  Forall (λ m, cap_Modes (nmd_Capabilities m) ≠ []) l →
  Forall (λ m, cap_Modes (nmd_Capabilities m) ≠ []) (add_mode id mode l).
Proof.
  intros Hl. apply Forall_forall. unfold add_mode. intros m (m1 & Hm1 & ->)%elem_of_update_where.
  destruct (nmd_ModelID m1 ≟ id) eqn:E; simpl; [intros H; by apply app_nil in H as []|].
  rewrite Forall_forall in Hl. destruct (existsb _ l); [by apply Hl|].
  apply elem_of_app in Hm1 as [|?%list_elem_of_singleton]; [by apply Hl|]. subst. simpl in E.
  by apply bool_decide_eq_false in E.
Qed.

Lemma group_models_spec rows l l' :
  group_models rows l = Some l' → grouped_wf l → Forall (λ m, cap_Modes (nmd_Capabilities m) ≠ []) l →
  grouped_wf l' ∧ Forall (λ m, cap_Modes (nmd_Capabilities m) ≠ []) l' ∧
  ∀ i s d, offers l' i s d ↔ offers l i s d ∨ lists rows i s d.
Proof.
  revert l. induction rows as [|row rows IH]; intros l; simpl.
  - intros [= <-] Hw Hm. split_and!; [done..|]. intros i s d. split; [by left|].
    intros [?|(row & Hr & _)]; [done|by apply elem_of_nil in Hr].
  - destruct (ValidModelID (tm_ID row)) eqn:Hv; [|done]. simpl. destruct (_ ≟ []); [done|].
    destruct (scenario_of_mode (tm_Mode row)) as [[scenario roles]|] eqn:Es; [|done]. cbn [mbind option_bind].
    destruct (durations_ok _) eqn:Ed; [|done]. intros H Hw Hm.
    destruct (IH _ H) as (? & ? & Ho); [by apply add_mode_wf|by apply add_mode_modes|].
    split_and!; [done..|]. intros i s d. rewrite Ho, add_mode_offers. simpl. split.
    + intros [[?|(-> & <- & Hd)]|(r & Hr & ?)]; [by left|right|right].
      * exists row. rewrite Es. split_and!; [left|done..|]. by apply order_by_elem in Hd.
      * exists r. split; [by right|done].
    + intros [?|(r & [->|Hr]%elem_of_cons & <- & E & Hd)]; [by left; left|left; right|right].
      * rewrite Es in E. injection E as <-. split_and!; [done..|by apply order_by_elem].
      * exists r. done.
Qed.

Lemma sort_models_spec l :
  map nmd_ModelID (sort_models l) ≡ₚ map nmd_ModelID l ∧
  (∀ i s d, offers (sort_models l) i s d ↔ offers l i s d) ∧
  (Forall (λ m, cap_Modes (nmd_Capabilities m) ≠ []) l →
   Forall (λ m, cap_Modes (nmd_Capabilities m) ≠ []) (sort_models l)).
Proof.
  unfold sort_models. set (f := set_modes (order_by_text (λ m, (mc_Scenario m, "")))).
  assert (∀ m mode, mode ∈ cap_Modes (nmd_Capabilities (f m)) ↔ mode ∈ cap_Modes (nmd_Capabilities m)) as Hf
    by (intros m mode; apply order_by_text_elem).
  split_and!.
  - unfold order_by_text. rewrite merge_sort_Permutation, map_map. done.
  - intros i s d. unfold offers. setoid_rewrite order_by_text_elem. setoid_rewrite Supports_iff. split.
    + intros (m & Hm & <- & mode & Hk & ?). apply list_elem_of_In, in_map_iff in Hm as (m1 & <- & Hm1).
      exists m1. split_and!; [by apply list_elem_of_In|done|]. exists mode. by rewrite <-Hf.
    + intros (m & Hm & <- & mode & Hk & ?). exists (f m).
      split_and!; [by apply list_elem_of_In, in_map, list_elem_of_In|done|]. exists mode. by rewrite Hf.
  - rewrite !Forall_forall. intros H m. rewrite order_by_text_elem. intros Hm.
    apply list_elem_of_In, in_map_iff in Hm as (m1 & <- & Hm1%list_elem_of_In). specialize (H _ Hm1).
    destruct (cap_Modes (nmd_Capabilities m1)) as [|k modes] eqn:E; [done|]. intros Hn.
    assert (k ∈ cap_Modes (nmd_Capabilities (f m1))) as Hk by (rewrite Hf, E; left).
    rewrite Hn in Hk. by apply elem_of_nil in Hk.
Qed.

Lemma validateCatalogItems_seen_ok seen items :
  NoDup (map nmd_ModelID items) → (∀ i, i ∈ map nmd_ModelID items → i ∉ seen) →
  Forall (λ m, ValidModelID (nmd_ModelID m) = true) items →
  Forall (λ m, cap_Modes (nmd_Capabilities m) ≠ []) items → validateCatalogItems_seen seen items = None.
Proof.
  intros Hnd Hs Hv Hm. revert seen Hnd Hs. induction items as [|m items IH]; intros seen; [done|]. simpl.
  apply Forall_cons in Hv as [-> Hv]. apply Forall_cons in Hm as [Hm Hms].
  intros [Hn Hnd]%NoDup_cons Hs. rewrite (bool_decide_eq_false_2 (_ ∈ seen)) by (apply Hs; left).
  rewrite bool_decide_eq_false_2 by done. simpl. apply IH; [done..|].
  intros i Hi [->|Hin]%elem_of_cons; [done|]. by eapply Hs; [right|].
Qed.

(** The catalogue made of a list of models is one the store accepts, and a model of it
    supports a scenario with a duration exactly when the node lists it so. *)
Theorem discovered_exact rows items :
  discovered_items rows = Some items →
  validateCatalogItems items = None ∧ Z.of_nat (length items) ≤ 256 ∧
  ∀ id scenario d, offers items id scenario d ↔ lists rows id scenario d.
Proof.
  unfold discovered_items. destruct (group_models rows []) as [l|] eqn:E; [|done]. cbn [mbind option_bind].
  destruct (_ <? _) eqn:El; [done|]. intros [= <-].
  destruct (group_models_spec _ _ _ E) as ([Hnd Hv] & Hm & Ho); [by split; constructor|constructor|].
  destruct (sort_models_spec l) as (Hp & Hs & Hms). split_and!.
  - apply validateCatalogItems_seen_ok; [by rewrite Hp|set_solver| |by apply Hms].
    apply Forall_forall. intros m Hin.
    assert (nmd_ModelID m ∈ map nmd_ModelID l) as H
      by (rewrite <-Hp; by apply list_elem_of_In, in_map, list_elem_of_In).
    apply list_elem_of_In, in_map_iff in H as (m' & <- & H%list_elem_of_In). rewrite Forall_forall in Hv. by apply Hv.
  - assert (length (sort_models l) = length l) as ->; [|lia].
    by rewrite <-(length_map nmd_ModelID), Hp, length_map.
  - intros id s d. rewrite Hs, Ho. split; [|by right]. intros [(m & Hin & _)|?]; [by apply elem_of_nil in Hin|done].
Qed.
