(* ===== verification/ClientAPI.v ===== *)
(** * The API of the clients (internal/httpapi/v2)

    Creating, reading, listing and cancelling tasks over HTTP: authentication, the
    decoding of a request, the router, the profile, the challenge of the callback,
    the inputs, the row and the answer. *)

From stdpp Require Import gmap.
From S2P Require Import TK2SD Prelude Domain Tx Database Sql Workers GoStrings GoFloat GoNet Netguard Catalog Paging TaskRouting Callbacks Queue Stages Artifacts Remote Tasks Official Delivery Nodes Config NodeAPI ArtifactService Normalize Router InputSpool Settings InputObjects Lifecycle RemoteInputs RemoteWorker ResultAccess CallbackWorker OfficialWorker.

(** ** Requests and answers *)

(** The pattern of the mux that fits the method and the path; without one the mux
    answers itself, 404 or 405. *)
Inductive api_route :=
  | RouteCreate
  | RouteGet (taskID : string)
  | RouteList
  | RouteDelete (taskID : string)
  | RouteNone (status : Z).

Record ApiRequest := mkApiRequest {
  aq_Route : api_route;
  aq_Authorization : string;
  aq_ContentType : string;
  aq_IdempotencyKey : string;
  aq_RequestID : string;
  aq_Query : list (string * string);
  aq_Body : string
}.

Record TaskUsage := mkUsage {
  us_TotalSeconds : Z;
  us_InputSeconds : Z;
  us_OutputSeconds : Z;
  us_InputImageCount : Z
}.
Record TaskResponse := mkTaskResponse {
  tr_ID : string;
  tr_Model : string;
  tr_Status : V2Status;
  tr_Error : option (string * string);
  tr_CreatedAt : Z;
  tr_UpdatedAt : Z;
  tr_Content : option string;
  tr_Resolution : option string;
  tr_Duration : option float64;
  tr_Usage : option TaskUsage;
  tr_Ratio : option string;
  tr_DeliveryError : option (string * string)
}.
#[export] Instance TaskResponse_eta : Eta TaskResponse := λ r,
  mkTaskResponse (tr_ID r) (tr_Model r) (tr_Status r) (tr_Error r) (tr_CreatedAt r) (tr_UpdatedAt r)
    (tr_Content r) (tr_Resolution r) (tr_Duration r) (tr_Usage r) (tr_Ratio r) (tr_DeliveryError r).

Inductive api_body :=
  | BodyError (kind message : string)
  | BodyCreated (taskID : string)
  | BodyTask (task : TaskResponse)
  | BodyTasks (items : list TaskResponse) (total : Z)
  | BodyAction (taskID action status : string).
Record ApiResponse := mkApiResponse { ar_Status : Z; ar_Body : api_body }.

Definition writeError (status : Z) (kind message : string) : ApiResponse :=
  mkApiResponse status (BodyError kind message).
Definition bad_request (message : string) : ApiResponse := writeError 400 "bad_request_error" message.
Definition internalError : ApiResponse := writeError 500 "server_error" "internal error (1000)".

Definition storeError (err : error) : ApiResponse :=
  match err with
  | ErrResourceUnavailable => writeError 503 "resource_unavailable_error" "资源不足，请稍后重试"
  | ErrTaskNotFound => bad_request "invalid task_id (2001)"
  | ErrTaskNotOperable | ErrStateConflict =>
      bad_request "task cannot be cancelled or deleted in its current state (2021)"
  | ErrIdempotencyConflict =>
      writeError 409 "idempotency_error" "idempotency key was used with a different request (2024)"
  | ErrPerKeyLimit | ErrGlobalLimit =>
      writeError 429 "rate_limit_error" "unfinished task limit exceeded (1002)"
  | _ => internalError
  end.
(** The text of [ErrModelInput] is that of the error joined to it. *)
Definition routeError (err : error) : ApiResponse :=
  match err with
  | ErrUnsupportedModel => writeError 400 "unsupported_model" ""
  | ErrModelInput => writeError 400 "model_input_unsupported" ""
  | ErrRouteAmbiguous => writeError 409 "model_route_ambiguous" ""
  | ErrRouteChanged => writeError 409 "model_route_changed" ""
  | ErrRouteUnavailable => writeError 503 "model_route_unavailable" ""
  | _ => storeError err
  end.

Definition writeCreateResult (taskID : string) : ApiResponse :=
  if TrimSpace taskID ≟ "" then internalError else mkApiResponse 200 (BodyCreated taskID).

(** ** The profile of a request (internal/domain/profile.go) *)

Record RatioMapping := mkRatioMapping {
  rm_BaseWidth : Z;
  rm_BaseHeight : Z;
  rm_TargetWidth : Z;
  rm_TargetHeight : Z
}.
Record PostProfile := mkPostProfile { pp_Enabled : bool; pp_Engine : string; pp_Scale : Z }.
Record ProfileConfig := mkProfileConfig {
  pc_ModelMode : string;
  pc_Steps : Z;
  pc_SageAttention : string;
  pc_CacheMode : string;
  pc_Ratios : gmap string RatioMapping;
  pc_LoRAs : list (string * float64);
  pc_Interpolation : PostProfile;
  pc_Restoration : PostProfile
}.

(** The values of a stage's snapshot. *)
Inductive param :=
  | ParamText (s : string)
  | ParamInt (n : Z)
  | ParamBool (b : bool)
  | ParamNumber (x : float64)
  | ParamList (l : list param)
  | ParamMap (m : list (string * param)).

Definition kept_media : list (string * param) :=
  [("preserve_timeline", ParamBool true); ("preserve_audio", ParamBool true)].

Definition generation_parameters (v : ValidatedRequest) (c : ProfileConfig) (m : RatioMapping) (seed : Z)
    : list (string * param) :=
  [("scenario", ParamText (vr_Scenario v)); ("prompt", ParamText (vr_Prompt v));
   ("width", ParamInt (rm_BaseWidth m)); ("height", ParamInt (rm_BaseHeight m));
   ("duration", ParamInt (gr_Duration (vr_Request v))); ("fps", ParamInt 24); ("steps", ParamInt (pc_Steps c));
   ("seed", ParamInt seed);
   ("model_mode", ParamText (if pc_ModelMode c ≟ "" then "high_quality" else pc_ModelMode c));
   ("sage_attention", ParamText (pc_SageAttention c));
   ("easycache_enabled", ParamBool (pc_CacheMode c ≟ "easycache"));
   ("te_speed_enabled", ParamBool (pc_CacheMode c ≟ "te_speed"));
   ("loras", ParamList (map (λ l, ParamMap [("name", ParamText l.1); ("strength", ParamNumber l.2)]) (pc_LoRAs c)));
   ("ref_image_size", ParamText "match");
   ("fl2va_model", ParamText "__follow_model_mode__"); ("ref2va_model", ParamText "__follow_model_mode__")].

(** The stages in their order: type, parameters and expected media. *)
Definition stage_plan (v : ValidatedRequest) (c : ProfileConfig) (m : RatioMapping) (seed : Z)
    : list (string * list (string * param) * list (string * param)) :=
  [("generation", generation_parameters v c m seed, kept_media)]
  ++ (if pp_Enabled (pc_Interpolation c)
      then [("interpolation",
             [("engine", ParamText (pp_Engine (pc_Interpolation c)));
              ("scale", ParamInt (pp_Scale (pc_Interpolation c)))],
             ("fps_multiplier", ParamInt (pp_Scale (pc_Interpolation c))) :: kept_media)]
      else [])
  ++ (if pp_Enabled (pc_Restoration c)
      then [("restoration",
             [("engine", ParamText (pp_Engine (pc_Restoration c)));
              ("scale", ParamInt (pp_Scale (pc_Restoration c)));
              ("source_width", ParamInt (rm_BaseWidth m)); ("source_height", ParamInt (rm_BaseHeight m));
              ("target_width", ParamInt (rm_TargetWidth m)); ("target_height", ParamInt (rm_TargetHeight m))],
             kept_media)]
      else [])
  ++ (if gr_AIGCWatermark (vr_Request v) ≟ Some true
      then [("watermark", [("enabled", ParamBool true); ("aigc_watermark", ParamBool true)], kept_media)]
      else []).

(** ** The handler *)

(** The clients of the services, the spool directory, the health of a node, the
    admission callback, what is drawn at random, and the wake of the scheduler. *)
Inductive ApiE : Type → Type :=
  | OnCallback {X} (c : CallbackE X) : ApiE X
  | OnObject {X} (c : ObjectE X) : ApiE X
  | OnArtifact {X} (c : ArtifactE X) : ApiE X
  | OnAccess {X} (c : AccessE X) : ApiE X
  | SpoolInputs (taskID : string) (request : json_text GenerationRequest)
      : ApiE (error + (GenerationRequest * list InputSpoolFile))
  | CleanSpool (taskID : string) : ApiE unit
  | Healthy (nodeID : string) : ApiE bool
  | IsAvailable : ApiE bool
  | NumericID : ApiE (option Z)
  | RandomHex (size : Z) : ApiE string
  | RandomSeed : ApiE (option Z)
  | Wake : ApiE unit.

(** [net/url], [encoding/json], [strings.EqualFold], SHA-256 in hexadecimal,
    [unicode.Han], the text of the sensitive words, HMAC and the secret boxes.
    [ax_json_value]: the first JSON value of a body and what follows it;
    [ax_create_of_json]: the strict decoding of a request, whose [gr_DurationPresent]
    is whether the object has the key "duration"; [ax_request_json]: the JSON of a
    request, which does not have that field; [ax_metadata_of_json]: duration,
    resolution and ratio. *)
Record ApiExternals := mkApiExternals {
  ax_media_url_ok : string → bool;
  ax_url_Parse : string → option URL;
  ax_escaped_path : string → string → string;
  ax_url_String : URL → string;
  ax_PathEscape : string → string;
  ax_QueryEscape : string → string;
  ax_ParseQuery : string → option (string → list string);
  ax_EqualFold : string → string → bool;
  ax_is_Han : Z → bool;
  ax_sensitive : string → bool;
  ax_sha256_hex : string → string;
  ax_json_value : string → option (string * string);
  ax_create_of_json : string → option GenerationRequest;
  ax_request_json : GenerationRequest → string;
  ax_profile_of_json : string → option ProfileConfig;
  ax_param_json : param → string;
  ax_metadata_of_json : string → option (option float64 * option string * option string);
  ax_metadata_json : Metadata → string → option string → string;
  ax_challenge_json : string → string;
  ax_echoed : string → option string;
  ax_Seal : string → option (string * string * string);
  ax_Open_secret : string → string → option string;
  ax_Open_key : ModelServiceNode → option string;
  ax_hmac : string → string → string;
  ax_RawURLEncoding : string → string
}.

(** Which dependencies are set; [hd_Keys]: the identifier and the digest of the
    enabled keys of the configuration, for a handler without an authenticator. *)
Record handler := mkHandler {
  hd_Options : Options;
  hd_Keys : list (string * string);
  hd_Authenticator : option snapshot;
  hd_Routing : bool;
  hd_Profiles : option profiles;
  hd_ActiveProfiles : bool;
  hd_Available : bool;
  hd_Callback : bool;
  hd_ArtifactURLs : option Service;
  hd_InputSpooler : bool;
  hd_InputObjects : bool;
  hd_ObjectsReady : bool;
  hd_RemoteResults : bool;
  hd_Wake : bool
}.

(** [%018d] *)
Definition pad18 (n : Z) : string :=
  let s := Itoa n in String.append (String.concat "" (replicate (18 - String.length s) "0")) s.

Definition validStatus (s : string) : option V2Status :=
  if s ≟ "queued" then Some V2Queued
  else if s ≟ "running" then Some V2Running
  else if s ≟ "succeeded" then Some V2Succeeded
  else if s ≟ "failed" then Some V2Failed
  else if s ≟ "cancelled" then Some V2Cancelled
  else None.
Definition validIdempotencyKey (value : string) : bool :=
  (1 <=? len value) && (len value <=? 128)
  && forallb (λ c, in_range 33 126 (byte_of c)) (String.list_ascii_of_string value).
(** [strconv.Atoi], an int of 64 bits. *)
Definition parsePage (value : string) (fallback min max : Z) : option Z :=
  if value ≟ "" then Some fallback
  else n ← ParseInt64 value; if (n <? min) || (max <? n) then None else Some n.

Definition query_values (q : list (string * string)) (key : string) : list string :=
  map snd (List.filter (λ kv, kv.1 ≟ key) q).
Definition query_get (q : list (string * string)) (key : string) : string :=
  default "" (head (query_values q key)).

(** The inputs as they are stored; [sp_Spooled]: whether [Cleanup] removes files. *)
Record prepared := mkPrepared {
  sp_JSON : json_text GenerationRequest;
  sp_Files : list InputSpoolFile;
  sp_Spooled : bool
}.

Section api.
Context (x : ApiExternals) (h : handler).
#[local] Abbreviation P := (Prog ApiE).

(** *** Reading *)

Definition wake : P unit := if hd_Wake h then call Wake else mret tt.

Definition remoteResponse (t : Task) (status : V2Status) : TaskResponse :=
  let meta := match vt_result_metadata_json t with
              | None => None
              | Some m => if m ≟ "" then None else ax_metadata_of_json x m
              end in
  let '(duration, resolution, ratio) := default (None, None, None) meta in
  mkTaskResponse (vt_task_id t) (vt_model (vt_request t)) status None (vt_created_at (vt_request t))
    (vt_updated_at t) None resolution duration None ratio None.

(** The answer with the error of the refresh, if there is one. *)
Definition mapRemoteTask (t : Task) (status : V2Status) : P (TaskResponse * option error) :=
  r ← (if hd_RemoteResults h && (vt_status t ≟ StatusSucceeded)
       then translate (@OnAccess) (Refresh (ax_url_Parse x) (ax_ParseQuery x) (ax_EqualFold x)
              (ax_metadata_json x) t)
       else mret (t, None));
  let '(t, err) := r : Task * option error in
  let response := remoteResponse t status in
  match err with
  | Some err => mret (response, Some err)
  | None =>
      let url := coalesce_str (vt_result_public_url t) in
      let response := if (vt_status t ≟ StatusSucceeded) && negb (url ≟ "")
                      then response <| tr_Content := Some url |> else response in
      let feedback := match vt_upstream_feedback_json t with
                      | Some f => SafeFeedbackMessage (ax_sensitive x) (fb_Message f)
                      | None => ""
                      end in
      let message := if feedback ≟ "" then coalesce_str (vt_error_message t) else feedback in
      mret (if vt_status t ≟ StatusFailed
            then response <| tr_Error := Some (coalesce_str (vt_error_code t), message) |>
            else response, None)
  end.

Definition sign_url (s : Service) (artifactID ownerID : string) : P (artifact_error + string) :=
  translate (@OnArtifact) (SignURL (ax_url_Parse x) (ax_escaped_path x) (ax_url_String x)
    (ax_PathEscape x) (ax_QueryEscape x) (ax_hmac x) (ax_RawURLEncoding x) (ax_Open_key x)
    artifactID ownerID).

Definition local_response (t : Task) (status : V2Status) : TaskResponse :=
  let ratio := coalesce_str (vt_ratio_actual t) in
  mkTaskResponse (vt_task_id t) (vt_model (vt_request t)) status None (vt_created_at (vt_request t))
    (vt_updated_at t) None (Some (vt_resolution (vt_request t))) (Some (of_int (vt_duration (vt_request t))))
    (Some (mkUsage (vt_usage_total_seconds t) 0 (vt_usage_output_seconds t)
             (vt_usage_input_image_count (vt_request t))))
    (Some (if ratio ≟ "" then vt_ratio_requested (vt_request t) else ratio)) None.

(** [inr (r, Some err)]: the TK2SD response that goes with an error; [inl]: no
    response. *)
Definition mapTask (t : Task) (status : V2Status) : P (unit + (TaskResponse * option error)) :=
  if coalesce_str (vt_protocol_version t) ≟ ProtocolTK2SD
  then r ← mapRemoteTask t status; mret (inr r)
  else
  let response := local_response t status in
  let response := if vt_status t ≟ StatusFailed
                  then response <| tr_Error := Some (LocalizeOfficialError (ax_EqualFold x)
                         (coalesce_str (vt_error_code t)) (coalesce_str (vt_error_message t))
                         (vt_upstream_feedback_json t)) |>
                  else response in
  if negb (vt_status t ≟ StatusSucceeded) then mret (inr (response, None))
  else
  let artifact := coalesce_str (vt_result_artifact_id t) in
  if negb (artifact ≟ "") then
    match hd_ArtifactURLs h with
    | None => mret (inl tt)
    | Some s =>
        url ← sign_url s artifact (vt_owner t);
        mret match url with
             | inl _ => inl tt
             | inr url => inr (response <| tr_Content := Some url |>, None)
             end
    end
  else
    mret (inr (response <| tr_Content := LegacyPublicURL (ax_url_Parse x) (ax_EqualFold x)
                 (coalesce_str (vt_result_public_url t)) |>, None)).

Definition valid_taskID (taskID : string) : bool := (1 <=? len taskID) && (len taskID <=? 64).

(** A row and the public status that is read with it. *)
Definition Get_with_status (owner taskID : string) (e : Env) (db : DB) : error + (Task * V2Status) :=
  t ← Queue.Get e owner taskID db; inr (t, PublicStatus db t).

Definition get (owner taskID : string) : P ApiResponse :=
  if negb (valid_taskID taskID) then mret (bad_request "invalid task_id (2001)")
  else
  r ← store (reading (Get_with_status owner taskID));
  match r with
  | inl err => mret (storeError err)
  | inr (t, status) =>
      response ← mapTask t status;
      mret match response with
           | inl _ => internalError
           | inr (_, Some ErrResultRefreshUnavailable) =>
               writeError 503 "result_refresh_unavailable" "结果链接暂不可刷新"
           | inr (_, Some _) => internalError
           | inr (response, None) => mkApiResponse 200 (BodyTask response)
           end
  end.

Definition delivery_error (r : TaskResponse) : TaskResponse :=
  r <| tr_DeliveryError := Some ("result_refresh_unavailable", "结果链接暂不可刷新") |>.

(** One task of a list; [None]: the list fails. The refreshes, of which four run
    at a time, come one after the other here; the context of the list may end
    before one of them. *)
Definition list_item (t : Task) (status : V2Status) : P (option TaskResponse) :=
  let refreshes := (coalesce_str (vt_protocol_version t) ≟ ProtocolTK2SD) && (vt_status t ≟ StatusSucceeded) in
  late ← (if refreshes then stopped else mret false);
  if late : bool then mret (Some (delivery_error (remoteResponse t status)))
  else
  response ← mapTask t status;
  mret match response with
       | inl _ => None
       | inr (r, None) => Some r
       | inr (_, Some _) => if refreshes then Some (delivery_error (remoteResponse t status)) else None
       end.
Fixpoint list_items (items : list (Task * V2Status)) : P (list (option TaskResponse)) :=
  match items with
  | [] => mret []
  | (t, status) :: items => r ← list_item t status; rs ← list_items items; mret (r :: rs)
  end.
Fixpoint all_some {A} (l : list (option A)) : option (list A) :=
  match l with [] => Some [] | o :: l => a ← o; l ← all_some l; Some (a :: l) end.

Definition allowed_query : list string :=
  ["page_num"; "page_size"; "filter.status"; "filter.task_ids"; "filter.model"; "filter.task_type"].

Definition List_with_status (owner : string) (f : TaskFilter) (e : Env) (db : DB)
    : error + (list (Task * V2Status) * Z) :=
  let '(rows, total) := List_ e owner f db in
  inr (map (λ t, (t, PublicStatus db t)) rows, total).

Definition list_ (owner : string) (q : list (string * string)) : P ApiResponse :=
  let get := query_get q in
  if negb (forallb (λ kv, kv.1 ∈? allowed_query) q) then mret (bad_request "未知查询参数 (2013)")
  else
  match parsePage (get "page_num") 1 1 max_int64, parsePage (get "page_size") 20 1 100 with
  | None, _ => mret (bad_request "page_num 无效 (2013)")
  | _, None => mret (bad_request "page_size 无效 (2013)")
  | Some pageNum, Some pageSize =>
      let status := get "filter.status" in
      if negb (status ≟ "") && is_null (validStatus status) then mret (bad_request "filter.status 无效 (2013)")
      else
      let taskIDs := query_values q "filter.task_ids" in
      if (100 <? length taskIDs)%nat then mret (bad_request "filter.task_ids 最多 100 个 (2013)")
      else if negb (get "filter.model" ≟ "") && negb (ValidModelID (get "filter.model"))
      then mret (bad_request "filter.model 无效 (2013)")
      else if negb (get "filter.task_type" ∈? [""; "generation"]) then mret (mkApiResponse 200 (BodyTasks [] 0))
      else
      r ← store (reading (List_with_status owner
            (mkTaskFilter (get "filter.model")
               (match validStatus status with Some s => OnlyStatus s | None => AnyStatus end)
               taskIDs pageNum pageSize)));
      match r with
      | inl _ => mret internalError
      | inr (items, total) =>
          responses ← list_items items;
          mret match all_some responses with
               | None => internalError
               | Some responses => mkApiResponse 200 (BodyTasks responses total)
               end
      end
  end.

(** *** Cancelling *)

Definition action_text (a : Action) : string :=
  match a with ActionCancelled => "cancelled" | ActionDeleted => "deleted" end.

Definition cancelOrDelete (owner taskID : string) : P ApiResponse :=
  if negb (valid_taskID taskID) then mret (bad_request "invalid task_id (2001)")
  else
  task ← store (reading (λ e, Queue.Get e owner taskID));
  match task with
  | inl err => mret (storeError err)
  | inr task =>
      if (coalesce_str (vt_protocol_version task) ≟ ProtocolTK2SD) && vt_upstream_slot_active task
      then
        r ← store (λ e, RequestRemoteCancel e taskID);
        match r with
        | inl ErrRemoteNotCancellable =>
            mret (writeError 409 "task_not_cancellable" "远程任务已开始执行，不支持取消")
        | inl err => mret (storeError err)
        | inr _ => wake ;; mret (mkApiResponse 202 (BodyAction taskID "cancel_requested" "running"))
        end
      else
      action ← store (λ e, CancelOrDelete e (hd_Options h) owner taskID);
      match action with
      | inl err => mret (storeError err)
      | inr action =>
          wake ;;
          mret (mkApiResponse 200 (BodyAction taskID (action_text action) (action_text action)))
      end
  end.
End api.
