(* ===== verification/ClientCreate.v ===== *)
(** * Creating tasks over the API (internal/httpapi/v2/create.go, handler.go) and
    the download of results (files.go)

    [create] answers a POST: the replay of a known idempotency key, the router, the
    profile, the callback, the inputs, and the row.  [serve] is the whole handler
    with its authentication, [content] that of the files. *)

From stdpp Require Import gmap.
From S2P Require Import Prelude Domain Tx Database Sql Workers GoStrings GoFloat GoNet Netguard Catalog Paging TaskRouting Callbacks Queue Stages Artifacts Remote Tasks Official Delivery Nodes Config NodeAPI ArtifactService Normalize Router InputSpool Settings InputObjects Lifecycle RemoteInputs RemoteWorker ResultAccess CallbackWorker OfficialWorker ClientAPI.

(** ** Idempotent replays *)

(** The only mode of the request that was accepted. *)
Definition replay_capability (r : TaskRequirements) : ModelCapability :=
  mkCapability 1 [mkMode (rq_Scenario r) [rq_Duration r] (rq_Roles r)] [] "ignored" [] 12.

Section create.
Context (x : ApiExternals) (h : handler).
#[local] Abbreviation P := (Prog ApiE).
#[local] Abbreviation media_url_ok := (ax_media_url_ok x).

Definition requestDigest (r : GenerationRequest) (protocolID : string) : string :=
  ax_sha256_hex x (ax_request_json x
    (if protocolID ≟ ProtocolTK2SD
     then r <| gr_Resolution := "" |> <| gr_Ratio := "" |> <| gr_AIGCWatermark := None |> else r)).

Definition normalizer_of (existing : Task) : string :=
  if vt_request_normalizer existing ≟ "" then "legacy-h3-v1" else vt_request_normalizer existing.

(** What the request would have been stored as, by the rules the task was stored
    by; [None]: the task has no valid snapshot. *)
Definition replay_normalized (r : GenerationRequest) (existing : Task)
    : option (error + GenerationRequest) :=
  let normalizer := normalizer_of existing in
  if normalizer ≟ ProtocolTK2SD then
    snapshot ← vt_routing_snapshot_json existing ≫= unmarshal;
    Some (n ← Normalize media_url_ok ProtocolTK2SD r (replay_capability (rs_Requirements snapshot));
          inr (nr_Request n))
  else
    let stored := vt_resolution (vt_request existing) in
    let r := if ax_EqualFold x (TrimSpace (gr_Resolution r)) stored
             then r <| gr_Resolution := stored |> else r in
    Some (if (normalizer ≟ ProtocolOfficial) && negb (gr_Model r ≟ "MiniMax-H3")
          then n ← Normalize media_url_ok normalizer r (BuiltinCapability normalizer); inr (nr_Request n)
          else v ← ValidateCreate media_url_ok r None; inr (vr_Request v)).

Definition replay (r : GenerationRequest) (existing : Task) : ApiResponse :=
  match replay_normalized r existing with
  | None => internalError
  | Some (inl _) => storeError ErrIdempotencyConflict
  | Some (inr normalized) =>
      if negb (requestDigest normalized (normalizer_of existing) ≟ vt_request_hash (vt_request existing))
      then storeError ErrIdempotencyConflict
      else writeCreateResult (vt_task_id existing)
  end.

(** The answer, when the key is known. *)
Definition replayRouted (owner : string) (r : GenerationRequest) (keyHash : string) : P (option ApiResponse) :=
  if keyHash ≟ "" then mret None
  else
  existing ← store (reading (λ e, FindIdempotentRecord e owner keyHash));
  mret match existing with
       | inl ErrTaskNotFound => None
       | inl _ => Some internalError
       | inr existing => Some (replay r existing)
       end.

(** The hash of an idempotency key, empty without one; [None] if it is not valid. *)
Definition key_hash (key : string) : option string :=
  if key ≟ "" then Some ""
  else if validIdempotencyKey key then Some (ax_sha256_hex x key) else None.

(** ** The router, reading the store as it goes *)

Fixpoint resolve_items (protocol nodeID : string) (r : GenerationRequest) (items : list NodeModel)
    (has : bool) (verr : option error) : P (NormalizedRequest + (bool * option error)) :=
  match items with
  | [] => mret (inr (has, verr))
  | m :: items =>
      if negb (nmd_ModelID m ≟ gr_Model r) || negb (nmd_Enabled m) || negb (nmd_Present m)
      then resolve_items protocol nodeID r items has verr
      else match Normalize media_url_ok protocol r (nmd_Capabilities m) with
           | inl err => resolve_items protocol nodeID r items has (Some err)
           | inr n =>
               healthy ← call (Healthy nodeID);
               if healthy : bool then mret (inl n) else resolve_items protocol nodeID r items true verr
           end
  end.

Fixpoint resolve_nodes (now : Z) (protocol : string) (r : GenerationRequest) (nodes : list ModelServiceNode)
    (has : bool) (verr : option error) : P (error + (NormalizedRequest + (bool * option error))) :=
  match nodes with
  | [] => mret (inr (inr (has, verr)))
  | n :: nodes =>
      if negb (mn_enabled n) || negb (mn_protocol_version n ≟ protocol)
      then resolve_nodes now protocol r nodes has verr
      else
      try! cat ← store (reading (λ _, catalogWith (mn_id n)));
      if catalog_stale now cat then resolve_nodes now protocol r nodes has verr
      else
      outcome ← resolve_items protocol (mn_id n) r (cat_Items cat) has verr;
      match outcome with
      | inl d => mret (inr (inl d))
      | inr (has, verr) => resolve_nodes now protocol r nodes has verr
      end
  end.

Definition resolve (r : GenerationRequest) : P (error + Decision_) :=
  try! rr ← store (reading (λ _, routeWith (gr_Model r)));
  let '(route, revision) := rr : ModelRoute * Z in
  let protocol := ro_ProtocolVersion route in
  if (protocol ≟ "") || (ro_SelectionMode route ≟ "unresolved") then mret (inl ErrRouteAmbiguous)
  else if negb (ro_SelectionMode route ≟ "manual")
          && existsb (λ c, negb (rc_ProtocolVersion c ≟ protocol)) (ro_Candidates route)
  then mret (inl ErrRouteAmbiguous)
  else match Lookup protocol with
  | None => mret (inl ErrRouteUnavailable)
  | Some d =>
      try! nodes ← store (reading (λ _ db, inr (ListModelNodes db)));
      e ← environment;
      try! outcome ← resolve_nodes (nowUnix e) protocol r nodes false None;
      mret match outcome with
      | inl n =>
          inr (mkDecision (mkSnapshot 1 (gr_Model r) protocol (ro_Version route) revision
                 (ro_SelectionMode route) (pd_ParameterPlan d) (nr_NormalizerVersion n)
                 (nr_Requirements n)) n)
      | inr (has, verr) =>
          if negb has && negb (is_null verr) then inl ErrModelInput else inl ErrRouteUnavailable
      end
  end.

(** ** The stages of a task *)

Definition stage_snapshot (taskID stageType : string) (parameters expected : list (string * param)) : string :=
  ax_param_json x (ParamMap [("task_id", ParamText taskID); ("stage_type", ParamText stageType);
                             ("parameters", ParamMap parameters); ("expected_media", ParamMap expected)]).

(** The stages of a plan, [index] the first. *)
Fixpoint freeze_plan (taskID : string) (index : Z) (plan : list (string * list (string * param) * list (string * param)))
    : P (list NewTaskStage) :=
  match plan with
  | [] => mret []
  | (stageType, parameters, expected) :: plan =>
      id ← call (RandomHex 16);
      rest ← freeze_plan taskID (index + 1) plan;
      mret (mkNewTaskStage (String.append "stage_" id) stageType
              (stage_snapshot taskID stageType parameters expected) ((index + 1) * 10) 3 :: rest)
  end.

Definition freezeStages (taskID : string) (v : ValidatedRequest) (configJSON : string)
    : P (error + list NewTaskStage) :=
  match ax_profile_of_json x configJSON with
  | None => mret (inl (ErrText "已发布配置快照损坏"))
  | Some config =>
      match pc_Ratios config !! gr_Ratio (vr_Request v) with
      | None => mret (inl (ErrText "已发布配置缺少请求比例映射"))
      | Some m =>
          seed ← call RandomSeed;
          match seed with
          | None => mret (inl (ErrText "rand"))
          | Some seed => stages ← freeze_plan taskID 0 (stage_plan v config m seed); mret (inr stages)
          end
      end
  end.

(** ** The inputs *)

Definition NUL : string := String (Ascii.ascii_of_nat 0) "".
Definition inputObjectNamespace (ownerID requestHash : string) : string :=
  ax_sha256_hex x (String.concat NUL [ownerID; requestHash]).
(** The first 16 bytes of the digest are 32 hexadecimal digits. *)
Definition objectInputID (taskID : string) (f : InputSpoolFile) : string :=
  String.append "input_" (String.substring 0 32
    (ax_sha256_hex x (String.concat NUL [taskID; Itoa (sf_content_index f); sf_object_url f]))).
Definition cloneReusableInputObjects (taskID : string) (files : list InputSpoolFile) : list InputSpoolFile :=
  map (λ f, f <| sf_task_id := taskID |> <| sf_id := objectInputID taskID f |>) files.

(** The objects of an earlier task in the place of the media of this one. *)
Fixpoint reuse_objects (files : list InputSpoolFile) (cs : list GenerationContent)
    : InputObjects.prepare_error + list GenerationContent :=
  match files with
  | [] => inr cs
  | f :: files =>
      if (sf_content_index f <? 0) || (Z.of_nat (length cs) <=? sf_content_index f) || (sf_object_url f ≟ "")
      then inl PrepareOther
      else
      match cs !! Z.to_nat (sf_content_index f) with
      | None => inl PrepareOther
      | Some c =>
          if negb (gc_Type c ≟ sf_content_type f) || negb (gc_Role c ≟ sf_role f) || is_null (Media c)
          then inl PrepareOther
          else reuse_objects files (<[Z.to_nat (sf_content_index f) := set_media c (sf_object_url f)]> cs)
      end
  end.

Definition spool_inputs (taskID : string) (payload : GenerationRequest) : P (error + prepared) :=
  if hd_InputSpooler h then
    r ← call (SpoolInputs taskID (JsonOf payload));
    mret match r with
         | inl err => inl err
         | inr (request, files) => inr (mkPrepared (JsonOf request) files true)
         end
  else mret (inr (mkPrepared (JsonOf payload) [] false)).

Definition prepare_objects (ownerID hash : string) (payload : json_text GenerationRequest)
    : P (InputObjects.prepare_error + PreparedObjects) :=
  translate (@OnObject) (Prepare_objects (hd_ObjectsReady h) (ax_Open_secret x)
    (inputObjectNamespace ownerID hash) payload).

(** The inputs of the routed create. *)
Definition prepareRoutedInputs (id ownerID hash : string) (payload : GenerationRequest)
    : P (InputObjects.prepare_error + prepared) :=
  let spooled :=
    r ← spool_inputs id payload; mret match r with inl _ => inl PrepareOther | inr p => inr p end in
  let uploaded :=
    try! p ← prepare_objects ownerID hash (JsonOf payload);
    if po_Enabled p then mret (inr (mkPrepared (po_JSON p) (cloneReusableInputObjects id (po_Files p)) false))
    else spooled in
  if negb (hd_InputObjects h) then spooled
  else
  known ← store (reading (λ _, FindReusableInputObjects ownerID hash));
  match known with
  | inl ErrTaskNotFound => uploaded
  | inl _ => mret (inl PrepareOther)
  | inr (_, []) => uploaded
  | inr (_, files) =>
      mret (cs ← reuse_objects files (gr_Content payload);
            inr (mkPrepared (JsonOf (payload <| gr_Content := cs |>)) (cloneReusableInputObjects id files) false))
  end.

(** [prepared.Cleanup] *)
Definition discard (id : string) (p : prepared) : P unit :=
  if sp_Spooled p then call (CleanSpool id) else mret tt.

(** ** The callback *)

Definition PrepareTarget_of (url : string) : P (string + option (string * string * string)) :=
  translate (@OnCallback) (PrepareTarget (ax_url_Parse x) (ax_challenge_json x) (ax_echoed x) (ax_Seal x) (Some url)).

Definition no_callback : ApiResponse := writeError 503 "callback_unavailable_error" "callback 服务未配置".
Definition challenge_failed : ApiResponse := writeError 400 "callback_url_error" "callback URL challenge 失败".

(** The sealed URL of a request that has one. *)
Definition callback_target (url : option string) : P (ApiResponse + option (string * string * string)) :=
  match url with
  | None => mret (inr None)
  | Some url =>
      if negb (hd_Callback h) then mret (inl no_callback)
      else
      target ← PrepareTarget_of url;
      mret match target with
           | inl _ => inl challenge_failed
           | inr target => inr target
           end
  end.

(** The row with the callback and its first delivery. *)
Definition with_callback (target : option (string * string * string)) (task : NewTask) : P (ApiResponse + NewTask) :=
  match target with
  | None => mret (inr task)
  | Some (nonce, ciphertext, _) =>
      id ← call (RandomHex 16);
      e ← environment;
      mret match NewDelivery e (env_callback_body e (nt_TaskID task) "queued") (String.append "event_" id)
                   (nt_TaskID task) "queued" 1 with
      | None => inl internalError
      | Some d => inr (task <| nt_CallbackURLCiphertext := ciphertext |> <| nt_CallbackURLNonce := nonce |>
                            <| nt_CallbackDeliveryID := dl_ID d |> <| nt_CallbackRequestBody := dl_Body d |>
                            <| nt_CallbackRequestBodyHash := dl_BodyHash d |>)
      end
  end.

(** ** Creation *)

Definition fresh_id : P (option string) := n ← call NumericID; mret (match n with None => None | Some n => Some (pad18 n) end).

(** What is stored of a request: not its callback URL, nor what has no JSON. *)
Definition persisted (r : GenerationRequest) : GenerationRequest :=
  r <| gr_CallbackURL := None |> <| gr_DurationPresent := false |>.

Definition unknown_resolution : ApiResponse := bad_request "请求分辨率不存在或未配置 (2013)".
Definition no_profile : ApiResponse := writeError 503 "profile_unavailable_error" "模型参数配置暂不可用".
Definition unmapped_ratio : ApiResponse := bad_request "ratio 未配置尺寸映射 (2013)".

(** A request with the resolution and the dimensions of its profile. *)
Definition with_profile (p : RequestProfile) (v : ValidatedRequest) : ApiResponse + ValidatedRequest :=
  match ax_profile_of_json x (rp_ConfigJSON p) with
  | None => inl no_profile
  | Some config =>
      match pc_Ratios config !! gr_Ratio (vr_Request v) with
      | None => inl unmapped_ratio
      | Some m => inr (mkValidated ((vr_Request v) <| gr_Resolution := rp_Resolution p |>) (vr_Scenario v)
                         (vr_Prompt v) (rm_BaseWidth m) (rm_BaseHeight m) (vr_InputImageCount v))
      end
  end.

(** The request of a decision, and its profile if a store of profiles is set. *)
Definition profile_of (d : Decision_) : P (ApiResponse + (ValidatedRequest * option RequestProfile)) :=
  let n := dc_Normalized d in
  let v := mkValidated (nr_Request n) (nr_Scenario n) (nr_Prompt n) 0 0 (nr_InputImageCount n) in
  if negb (rs_ParameterPlan (dc_Snapshot d) ≟ "h3_profile") then mret (inr (v, None))
  else if hd_ActiveProfiles h then
    profile ← store (reading (λ _, GetProfileByResolution (ax_is_Han x) (gr_Resolution (vr_Request v))));
    mret match profile with
         | inl _ => inl unknown_resolution
         | inr profile => v ← with_profile profile v; inr (v, Some profile)
         end
  else
    mret match ValidateCreate media_url_ok (nr_Request n) (hd_Profiles h) with
         | inl err => inl (bad_request (match err with ErrText s => s | _ => "" end))
         | inr v => inr (v, None)
         end.

(** The row's stages, from a profile that has a text. *)
Definition with_stages (v : ValidatedRequest) (p : option RequestProfile) (task : NewTask) : P (ApiResponse + NewTask) :=
  match p with
  | None => mret (inr task)
  | Some p =>
      stages ← freezeStages (nt_TaskID task) v (rp_ConfigJSON p);
      mret match stages with
           | inl _ => inl internalError
           | inr stages => inr (task <| nt_ConfigSnapshotJSON := rp_ConfigJSON p |>
                                     <| nt_ConfigHash := rp_ConfigHash p |> <| nt_Stages := stages |>)
           end
  end.

(** [decision.Snapshot.Requirements.Resolution = validated.Resolution] *)
Definition with_resolution (resolution : string) (d : RouteSnapshot) : RouteSnapshot :=
  let rq := rs_Requirements d in
  mkSnapshot (rs_SchemaVersion d) (rs_Model d) (rs_ProtocolVersion d) (rs_RouteVersion d)
    (rs_RoutingRevision d) (rs_SelectionMode d) (rs_ParameterPlan d) (rs_NormalizerVersion d)
    (mkRequirements (rq_Scenario rq) (rq_Duration rq) resolution (rq_Roles rq)
       (rq_InputSources rq) (rq_MediaCount rq)).

Definition routed_task (owner id hash : string) (snapshot : RouteSnapshot) (v : ValidatedRequest) : NewTask :=
  let r := vr_Request v in
  mkNewTask (rs_ProtocolVersion snapshot) (Some (JsonOf snapshot)) (rs_NormalizerVersion snapshot)
    (rs_RoutingRevision snapshot) id owner (gr_Model r) (vr_Scenario v) (JsonRaw "") hash (gr_Resolution r)
    (gr_Ratio r) (gr_Duration r) (vr_InputImageCount v) "" "" "" "" "" "" "" "" 0 [] [].

(** The row is stored; [available] is asked first here, by the store in its
    transaction, when it knows no task for the key. *)
Definition create_stored (e_to_response : error → ApiResponse) (task : NewTask) (keyHash : string) (p : prepared)
    : P ApiResponse :=
  available ← (if hd_Available h then call IsAvailable else mret true);
  created ← store (λ e, Create e (hd_Options h) task keyHash available);
  match created with
  | inl err => discard (nt_TaskID task) p ;; mret (e_to_response err)
  | inr created =>
      (if vt_task_id created ≟ nt_TaskID task then mret tt else discard (nt_TaskID task) p) ;;
      wake h ;;
      mret (writeCreateResult (vt_task_id created))
  end.

Definition not_ready : ApiResponse := writeError 503 "object_storage_not_ready" "对象存储暂不可用".

(** [inl]: the answer without a task. *)
Definition respond {A} (m : P (ApiResponse + A)) (k : A → P ApiResponse) : P ApiResponse :=
  r ← m; match r with inl answer => mret answer | inr a => k a end.

Definition createRouted (owner key : string) (r : GenerationRequest) : P ApiResponse :=
  match key_hash key with
  | None => mret (bad_request "Idempotency-Key 无效 (2024)")
  | Some keyHash =>
  known ← replayRouted owner r keyHash;
  match known with
  | Some answer => mret answer
  | None =>
  decision ← resolve r;
  match decision with
  | inl err => mret (routeError err)
  | inr decision =>
  respond (profile_of decision) (λ vp,
  let '(v, profile) := vp : ValidatedRequest * option RequestProfile in
  let hash := requestDigest (vr_Request v) (rs_ProtocolVersion (dc_Snapshot decision)) in
  let snapshot := with_resolution (gr_Resolution (vr_Request v)) (dc_Snapshot decision) in
  respond (callback_target (gr_CallbackURL (vr_Request v))) (λ target,
  id ← fresh_id;
  match id with
  | None => mret internalError
  | Some id =>
  respond (with_stages v profile (routed_task owner id hash snapshot v)) (λ task,
  respond (with_callback target task) (λ task,
  inputs ← prepareRoutedInputs id owner hash (persisted (vr_Request v));
  match inputs with
  | inl ErrNotReady => mret not_ready
  | inl _ => mret (writeError 502 "input_preparation_failed" "输入素材准备失败")
  | inr inputs =>
      create_stored routeError
        (task <| nt_RequestJSON := sp_JSON inputs |> <| nt_InputSpoolFiles := sp_Files inputs |>) keyHash inputs
  end))
  end))
  end
  end
  end.

(** *** Without a router *)

(** The inputs of the unrouted create. *)
Definition prepareInputs (id ownerID hash : string) (payload : GenerationRequest) : P (ApiResponse + prepared) :=
  let spooled :=
    r ← spool_inputs id payload;
    mret match r with
         | inl err => inl (bad_request (String.append (match err with ErrText s => s | _ => "" end) " (2013)"))
         | inr p => inr p
         end in
  if negb (hd_InputObjects h) then spooled
  else
  known ← store (reading (λ _, FindReusableInputObjects ownerID hash));
  match known with
  | inr (request, files) => mret (inr (mkPrepared request (cloneReusableInputObjects id files) false))
  | inl ErrTaskNotFound =>
      p ← prepare_objects ownerID hash (JsonOf payload);
      match p with
      | inl ErrNotReady => mret (inl not_ready)
      | inl _ => mret (inl (writeError 502 "input_object_upload_failed" "输入素材上传对象存储失败"))
      | inr p =>
          if po_Enabled p then mret (inr (mkPrepared (po_JSON p) (cloneReusableInputObjects id (po_Files p)) false))
          else spooled
      end
  | inl _ => mret (inl internalError)
  end.

(** The validated request, with the active profile if there is a store of them. *)
Definition validate_unrouted (r : GenerationRequest) : P (ApiResponse + (ValidatedRequest * option RequestProfile)) :=
  match ValidateCreate media_url_ok r (if hd_ActiveProfiles h then None else hd_Profiles h) with
  | inl err => mret (inl (bad_request (String.append (match err with ErrText s => s | _ => "" end) " (2013)")))
  | inr v =>
      if negb (hd_ActiveProfiles h) then mret (inr (v, None))
      else
      profile ← store (reading (λ _, GetProfileByResolution (ax_is_Han x) (gr_Resolution (vr_Request v))));
      mret match profile with
           | inl (ErrProfileNotFound | ErrInvalidProfileConfig) => inl unknown_resolution
           | inl _ => inl no_profile
           | inr profile => v ← with_profile profile v; inr (v, Some profile)
           end
  end.

(** A task that is already there under the key. *)
Definition known_task (owner keyHash hash : string) : P (option ApiResponse) :=
  if keyHash ≟ "" then mret None
  else
  existing ← store (reading (λ e, FindIdempotentTask e owner keyHash hash));
  mret match existing with
       | inr existing => Some (writeCreateResult (vt_task_id existing))
       | inl ErrIdempotencyConflict => Some (storeError ErrIdempotencyConflict)
       | inl ErrTaskNotFound => None
       | inl _ => Some internalError
       end.

Definition unrouted_task (owner id hash : string) (v : ValidatedRequest) (p : prepared) : NewTask :=
  let r := vr_Request v in
  mkNewTask "" None "" 0 id owner (gr_Model r) (vr_Scenario v) (sp_JSON p) hash (gr_Resolution r)
    (gr_Ratio r) (gr_Duration r) (vr_InputImageCount v) "" "" "" "" "" "" "" "" 0 [] (sp_Files p).

Definition createUnrouted (owner key : string) (r : GenerationRequest) : P ApiResponse :=
  respond (validate_unrouted r) (λ vp,
  let '(v, profile) := vp : ValidatedRequest * option RequestProfile in
  respond (callback_target (gr_CallbackURL (vr_Request v))) (λ target,
  let hash := ax_sha256_hex x (ax_request_json x (vr_Request v)) in
  match key_hash key with
  | None => mret (bad_request "Idempotency-Key 必须是 1-128 个可打印 ASCII 字符 (2024)")
  | Some keyHash =>
  known ← known_task owner keyHash hash;
  match known with
  | Some answer => mret answer
  | None =>
  id ← fresh_id;
  match id with
  | None => mret internalError
  | Some id =>
  respond (prepareInputs id owner hash (persisted (vr_Request v))) (λ inputs,
  respond (with_stages v profile (unrouted_task owner id hash v inputs)) (λ task,
  respond (with_callback target task) (λ task,
  create_stored storeError task keyHash inputs)))
  end
  end
  end)).

(** *** Decoding *)

Definition max_body : Z := 64 * MiB.
Definition json_space (c : Ascii.ascii) : bool := byte_of c ∈? [32; 9; 10; 13].
Definition media_type (contentType : string) : string :=
  ToLower (TrimSpace (default "" (head (split_byte semicolon contentType)))).

Definition create (owner : string) (q : ApiRequest) : P ApiResponse :=
  if negb (media_type (aq_ContentType q) ≟ "application/json")
  then mret (bad_request "Content-Type 必须为 application/json (2013)")
  else
  let read := String.substring 0 (Z.to_nat max_body) (aq_Body q) in
  match ax_json_value x read with
  | None => mret (bad_request "请求 JSON 无效 (2013)")
  | Some (raw, rest) =>
      if (max_body <? len (aq_Body q)) || negb (forallb json_space (String.list_ascii_of_string rest))
      then mret (bad_request "请求只能包含一个 JSON 对象 (2013)")
      else
      match ax_create_of_json x raw with
      | None => mret (bad_request "请求 JSON 无效 (2013)")
      | Some r => if hd_Routing h then createRouted owner (aq_IdempotencyKey q) r
                  else createUnrouted owner (aq_IdempotencyKey q) r
      end
  end.

(** ** The whole handler *)

(** The token of an Authorization header. *)
Definition bearer (header : string) : option string :=
  if negb (HasPrefix header "Bearer ") || (len header <=? 7) then None
  else Some (String.substring 7 (String.length header - 7) header).

(** The owner of a token, empty if it has none. *)
Definition owner_of (authenticator : option snapshot) (keys : list (string * string)) (token : string) : P string :=
  match authenticator with
  | Some owners => e ← environment; mret (default "" (Authenticate e owners token))
  | None =>
      let digest := ax_sha256_hex x token in
      mret (fold_left (λ matched kd, if kd.2 ≟ digest then kd.1 else matched) keys "")
  end.

Definition unauthorized (message : string) : ApiResponse := writeError 401 "authorized_error" message.

Definition route (owner : string) (q : ApiRequest) : P ApiResponse :=
  match aq_Route q with
  | RouteCreate => create owner q
  | RouteGet taskID => get x h owner taskID
  | RouteList => list_ x h owner (aq_Query q)
  | RouteDelete taskID => cancelOrDelete h owner taskID
  | RouteNone status => mret (mkApiResponse status (BodyError "" ""))
  end.

Definition authenticate (q : ApiRequest) : P ApiResponse :=
  match bearer (aq_Authorization q) with
  | None => mret (unauthorized "login fail: 请在 Authorization 中携带 API Key (1004)")
  | Some token =>
      owner ← owner_of (hd_Authenticator h) (hd_Keys h) token;
      if owner ≟ "" then mret (unauthorized "login fail: API Key 无效 (1004)")
      else route owner q
  end.

(** The answer with its X-Request-Id. *)
Definition serve (q : ApiRequest) : P (string * ApiResponse) :=
  id ← (if (1 <=? len (aq_RequestID q)) && (len (aq_RequestID q) <=? 64)
        then mret (aq_RequestID q) else call (RandomHex 16));
  answer ← authenticate q;
  mret (id, answer).
End create.

(** ** Downloading a result (files.go) *)

Record FileRequest := mkFileRequest {
  fq_Method : string;
  fq_ArtifactID : string;
  fq_Authorization : string;
  fq_Range : string;
  fq_Query : list (string * string)
}.
Inductive file_body := FileError (kind message : string) | FileStream (content : Content).
Record FileResponse := mkFileResponse {
  fp_Status : Z;
  fp_Headers : list (string * string);
  fp_Body : file_body
}.

Definition writeFileError (status : Z) (kind message : string) : FileResponse :=
  mkFileResponse status
    [("Cache-Control", "private, no-store"); ("Referrer-Policy", "no-referrer");
     ("Content-Type", "application/json; charset=utf-8")] (FileError kind message).
Definition file_not_found : FileResponse := writeFileError 404 "file_not_found_error" "结果文件不存在".
Definition file_unauthorized : FileResponse := writeFileError 401 "authorized_error" "结果文件鉴权失败".
Definition file_error (err : artifact_error) : FileResponse :=
  match err with
  | ErrUnauthorized => file_unauthorized
  | ErrNotFound => file_not_found
  | ErrExpired => writeFileError 410 "file_expired_error" "结果文件已过期或缺失"
  | ErrIntegrity => writeFileError 502 "file_integrity_error" "结果文件完整性校验失败"
  | ErrInvalidRange => writeFileError 416 "invalid_range_error" "Range 无效"
  | ErrBusy => writeFileError 429 "rate_limit_error" "结果文件下载并发已满"
  | _ => writeFileError 503 "file_unavailable_error" "结果文件暂不可用"
  end.

Definition set_header (name value : string) : list (string * string) :=
  if value ≟ "" then [] else [(name, value)].
Definition content_response (artifactID : string) (c : Content) : FileResponse :=
  let q := String quote "" in
  mkFileResponse (ct_StatusCode c)
    ([("Cache-Control", "private, no-store"); ("Referrer-Policy", "no-referrer");
      ("X-Content-Type-Options", "nosniff"); ("Accept-Ranges", "bytes");
      ("Content-Disposition", String.concat "" ["inline; filename="; q; artifactID; ".mp4"; q])]
     ++ set_header "Content-Type" (ct_ContentType c)
     ++ (if 0 <=? ct_ContentLength c then [("Content-Length", Itoa (ct_ContentLength c))] else [])
     ++ set_header "Content-Range" (ct_ContentRange c) ++ set_header "ETag" (ct_ETag c))
    (FileStream c).

Section files.
(** The authenticator or the keys, the service, and how a node is asked. *)
Context (x : ApiExternals) (authenticator : option snapshot) (keys : list (string * string)).
Context (service : option Service) (EqualFold : string → string → bool).
Context (request_ok : string → bool) (decode_envelope : string → option (string * string)).
#[local] Abbreviation P := (Prog ArtifactE).

(** [authorization]: an Authorization header decides alone; without one, the query
    has nothing but the expiry and the signature. *)
Definition authorization (e : Env) (q : FileRequest) : option Authorization :=
  if negb (fq_Authorization q ≟ "") then
    token ← bearer (fq_Authorization q);
    let owner := match authenticator with
                 | Some owners => default "" (Authenticate e owners token)
                 | None => fold_left (λ matched kd, if kd.2 ≟ ax_sha256_hex x token then kd.1 else matched) keys ""
                 end in
    if owner ≟ "" then None else Some (mkAuthorization owner 0 "" (fq_Method q))
  else if negb (forallb (λ kv, kv.1 ∈? ["expires"; "signature"]) (fq_Query q)) then None
  else
  match ParseExpires (query_get (fq_Query q) "expires") with
  | inl _ => None
  | inr expires =>
      let signature := query_get (fq_Query q) "signature" in
      if signature ≟ "" then None else Some (mkAuthorization "" expires signature (fq_Method q))
  end.

Definition valid_artifactID (id : string) : bool :=
  (1 <=? len id) && (len id <=? 128) && negb (ContainsByte id slash) && negb (ContainsByte id backslash).

(** The body of the content is copied, then closed; no request identifier is set
    in the context of this handler. *)
Definition content (q : FileRequest) : P FileResponse :=
  match service with
  | None => mret (writeFileError 503 "file_unavailable_error" "结果文件服务不可用")
  | Some s =>
  if negb (valid_artifactID (fq_ArtifactID q)) then mret file_not_found
  else
  e ← environment;
  match authorization e q with
  | None => mret file_unauthorized
  | Some auth =>
      r ← Open (ax_url_Parse x) (ax_escaped_path x) (ax_url_String x) EqualFold (ax_hmac x)
            (ax_RawURLEncoding x) (ax_Open_key x) request_ok decode_envelope s "" (fq_ArtifactID q)
            (fq_Range q) auth;
      match r with
      | inl err => mret (file_error err)
      | inr c => Close c ;; mret (content_response (fq_ArtifactID q) c)
      end
  end
  end.
End files.
