(* ===== verification/ClientSafety.v ===== *)
(** * What the API of the clients promises

    A request gets nothing without a key, and nothing of another owner; a request
    that is sent again under its idempotency key is answered with the task that
    the first one made, whatever the router would say now; a task that is
    announced is stored; the stages of a task are numbered in their order; and the
    router of the API, run alone, is [Resolve]. *)

From stdpp Require Import gmap.
From S2P Require Import Prelude Domain Tx Database Sql Workers GoStrings GoFloat GoNet Netguard Catalog Paging TaskRouting Callbacks Queue Stages Artifacts Remote Tasks Official Delivery Nodes Config NodeAPI ArtifactService Normalize Router InputSpool Settings InputObjects Lifecycle RemoteInputs RemoteWorker ResultAccess CallbackWorker OfficialWorker ClientAPI ClientCreate.

(** ** Normalizing a request again *)

Section renormalize.
Context (media_url_ok : string → bool).

Lemma ValidateCreate_resolution r res v :
  ValidateCreate media_url_ok r None = inr v →
  ∃ v', ValidateCreate media_url_ok (r <| gr_Resolution := res |>) None = inr v' ∧
        vr_Request v' = (vr_Request v) <| gr_Resolution := res |>.
Proof.
  unfold ValidateCreate. simpl gr_Model. simpl gr_Content. simpl gr_Duration. simpl gr_CallbackURL. simpl gr_Ratio.
  destruct (negb (gr_Model r ≟ _)); [done|]. destruct (negb (in_range 1 16 _)); [done|].
  destruct (negb (in_range 4 15 _)); [done|].
  destruct (match gr_CallbackURL r with Some _ => _ | None => _ end); [done|].
  destruct (collect _ _) as [|cs]; [done|]. cbn [mbind sum_bind].
  destruct (negb (count_type "text" cs =? 1)); [done|].
  destruct ((1 <? count_role "image_url" "first_frame" cs) || _); [done|].
  destruct (_ || (3 <? count_type "audio_url" cs)); [done|].
  destruct (_ && (0 <? count_role "image_url" "reference_image" cs + _ + _)); [done|].
  destruct (scenario_of _ _ _) as [|[scenario ratio]]; [done|]. cbn [mbind sum_bind].
  destruct (negb (validRatio ratio)); [done|]. simpl. intros [= <-]. by eexists.
Qed.

(** The dimensions do not change the request. *)
Lemma ValidateCreate_profiles r ps v :
  ValidateCreate media_url_ok r ps = inr v →
  ∃ v', ValidateCreate media_url_ok r None = inr v' ∧ vr_Request v' = vr_Request v.
Proof.
  unfold ValidateCreate.
  destruct (negb (gr_Model r ≟ _)); [done|]. destruct (negb (in_range 1 16 _)); [done|].
  destruct (negb (in_range 4 15 _)); [done|].
  destruct (match gr_CallbackURL r with Some _ => _ | None => _ end); [done|].
  destruct (collect _ _) as [|cs]; [done|]. cbn [mbind sum_bind].
  destruct (negb (count_type "text" cs =? 1)); [done|].
  destruct ((1 <? count_role "image_url" "first_frame" cs) || _); [done|].
  destruct (_ || (3 <? count_type "audio_url" cs)); [done|].
  destruct (_ && (0 <? count_role "image_url" "reference_image" cs + _ + _)); [done|].
  destruct (scenario_of _ _ _) as [|[scenario ratio]]; [done|]. cbn [mbind sum_bind].
  destruct (negb (validRatio ratio)); [done|].
  rewrite sum_bind_inr. intros (d & _ & [= <-]). by eexists.
Qed.

Lemma ValidateCreate_model r ps v :
  ValidateCreate media_url_ok r ps = inr v →
  gr_Model (vr_Request v) = "MiniMax-H3" ∧ gr_Resolution (vr_Request v) = gr_Resolution r.
Proof.
  unfold ValidateCreate.
  destruct (gr_Model r ≟ _) eqn:Em; [|done]. apply bool_decide_eq_true in Em. simpl negb. cbv iota.
  destruct (negb (in_range 1 16 _)); [done|]. destruct (negb (in_range 4 15 _)); [done|].
  destruct (match gr_CallbackURL r with Some _ => _ | None => _ end); [done|].
  destruct (collect _ _) as [|cs]; [done|]. cbn [mbind sum_bind].
  destruct (negb (count_type "text" cs =? 1)); [done|].
  destruct ((1 <? count_role "image_url" "first_frame" cs) || _); [done|].
  destruct (_ || (3 <? count_type "audio_url" cs)); [done|].
  destruct (_ && (0 <? count_role "image_url" "reference_image" cs + _ + _)); [done|].
  destruct (scenario_of _ _ _) as [|[scenario ratio]]; [done|]. cbn [mbind sum_bind].
  destruct (negb (validRatio ratio)); [done|].
  rewrite sum_bind_inr. intros (d & _ & [= <-]). done.
Qed.

(** A request for MiniMax-H3 is validated and not changed further. *)
Lemma Normalize_h3 id r caps n :
  id ≠ ProtocolTK2SD → gr_Model r = "MiniMax-H3" → Normalize media_url_ok id r caps = inr n →
  ∃ v, ValidateCreate media_url_ok r None = inr v ∧ vr_Request v = nr_Request n.
Proof.
  intros Hid Em. unfold Normalize. destruct (Lookup id); [|done].
  destruct (negb (ValidModelID _)); [done|]. rewrite (bool_decide_eq_false_2 _ Hid).
  destruct (gr_Resolution r ≟ ""); [done|]. destruct (_ && _); [done|].
  rewrite sum_bind_inr. intros (v & Hv & H). destruct (Accepts _ _); [|done]. injection H as <-.
  exists v. apply ValidateCreate_model in Hv as Hm. destruct Hm as [Hm _]. split.
  - assert (r <| gr_Model := "MiniMax-H3" |> = r) as E by (rewrite <-Em; by destruct r).
    by rewrite E in Hv.
  - rewrite Em, <-Hm. by destruct (vr_Request v).
Qed.

(** *** TK2SD *)

Lemma text_items b caps cs cs' role :
  count_where is_media cs = 0 → collect (check_tk2sd_item media_url_ok b caps) cs = inr cs' →
  count_role "image_url" role cs' = 0.
Proof.
  rewrite collect_inr. intros Hc H. induction H as [|c c' cs cs' Hi H IH]; [done|].
  rewrite count_where_cons in Hc. pose proof (count_where_nonneg is_media cs).
  destruct (is_media c) eqn:Em; [lia|].
  unfold count_role. rewrite count_where_cons. fold (count_role "image_url" role cs'). rewrite IH by lia.
  unfold is_media in Em. apply negb_false_iff in Em.
  unfold check_tk2sd_item in Hi. rewrite Em in Hi. destruct (_ || _) in Hi; [done|]. injection Hi as <-.
  apply bool_decide_eq_true in Em. by rewrite Em.
Qed.

(** The check may give a role, nothing else. *)
Lemma tk2sd_type b caps c c' : check_tk2sd_item media_url_ok b caps c = inr c' → gc_Type c' = gc_Type c.
Proof.
  unfold check_tk2sd_item. destruct (gc_Type c ≟ "text").
  { destruct (_ || _); [done|]. by intros [= <-]. }
  destruct (Media c) as [u|]; [|done]. destruct (negb (gc_Text c ≟ "")); [done|].
  destruct (_ || HasPrefix u "proxy-input:"); [done|]. cbv zeta.
  set (d := if gc_Role c ≟ "" then _ else c).
  assert (gc_Type d = gc_Type c) as Ed by (unfold d; by destruct (gc_Role c ≟ "")). rewrite <-Ed.
  destruct (gc_Type d ≟ "image_url").
  { destruct (_ || _); [done|]. destruct (negb _); [done|]. destruct (check _); [done|]. by intros [= <-]. }
  destruct (gc_Type d ≟ "video_url").
  { destruct (_ || _); [done|]. destruct (check _); [done|]. by intros [= <-]. }
  destruct (gc_Type d ≟ "audio_url"); [|done].
  destruct (_ || _); [done|]. destruct (check _); [done|]. by intros [= <-].
Qed.

(** The role of a single image tells whether the model takes first frames. *)
Lemma single_image caps cs cs' c :
  count_where is_media cs = 1 → collect (check_tk2sd_item media_url_ok 1 caps) cs = inr cs' →
  c ∈ cs → gc_Type c = "image_url" → gc_Role c = "" →
  count_role "image_url" "first_frame" cs' = if HasMode caps "i2va" then 1 else 0.
Proof.
  intros Hn H Hc Et Er. apply collect_inr in H. induction H as [|a a' cs cs' Ha H IH]; [set_solver|].
  rewrite count_where_cons in Hn. unfold count_role. rewrite count_where_cons.
  fold (count_role "image_url" "first_frame" cs').
  destruct (is_media a) eqn:Em.
  - assert (count_where is_media cs = 0) as H0 by lia.
    rewrite (text_items 1 caps cs cs') by (done || by apply collect_inr).
    assert (a = c) as ->.
    { apply elem_of_cons in Hc as [->|Hc]; [done|].
      assert (1 ≤ count_where is_media cs); [|lia]. apply (count_where_pos is_media _ c); [done|].
      unfold is_media. by rewrite Et. }
    unfold check_tk2sd_item in Ha. rewrite Et in Ha. unfold Media in Ha. rewrite Et in Ha. simpl in Ha.
    destruct (gc_ImageURL c) as [u|]; [|done]. destruct (negb (gc_Text c ≟ "")); [done|].
    destruct (_ || HasPrefix u "proxy-input:"); [done|]. rewrite Er in Ha. simpl in Ha. rewrite Et in Ha. simpl in Ha.
    unfold default_role in Ha. rewrite Et in Ha. simpl in Ha.
    destruct (_ || negb (is_nil (gc_AudioURL c))); [done|].
    destruct (HasMode caps "i2va"); simpl in Ha; destruct (check _); simpl in Ha; try done; injection Ha as <-; simpl; by rewrite Et.
  - apply elem_of_cons in Hc as [->|Hc]; [unfold is_media in Em; by rewrite Et in Em|].
    rewrite IH by (done || lia). unfold is_media in Em. apply negb_false_iff in Em.
    unfold check_tk2sd_item in Ha. rewrite Em in Ha. destruct (_ || _) in Ha; [done|]. injection Ha as <-.
    apply bool_decide_eq_true in Em. by rewrite Em.
Qed.

Lemma check_tk2sd_caps mc caps caps' c :
  (gc_Type c = "image_url" → gc_Role c = "" → mc = 1 → HasMode caps "i2va" = HasMode caps' "i2va") →
  check_tk2sd_item media_url_ok mc caps c = check_tk2sd_item media_url_ok mc caps' c.
Proof.
  intros H. unfold check_tk2sd_item.
  assert ((if gc_Role c ≟ "" then c <| gc_Role := default_role c mc caps |> else c) =
          (if gc_Role c ≟ "" then c <| gc_Role := default_role c mc caps' |> else c)) as E; [|by rewrite E].
  destruct (gc_Role c ≟ "") eqn:Er; [|done]. apply bool_decide_eq_true in Er. unfold default_role.
  destruct (gc_Type c ≟ "image_url") eqn:Et; [|done]. destruct (mc =? 1) eqn:Em; [|done].
  apply bool_decide_eq_true in Et. apply Z.eqb_eq in Em. by rewrite (H Et Er Em).
Qed.

Lemma collect_ext {E A B} (f g : A → E + B) l : (∀ a, a ∈ l → f a = g a) → collect f l = collect g l.
Proof.
  intros H. induction l as [|a l IH]; [done|]. cbn [collect]. rewrite (H a) by by left.
  rewrite IH; [done|]. intros b Hb. apply H. by right.
Qed.

(** The capability that the snapshot leaves accepts what was accepted. *)
Lemma replay_accepts r : rq_MediaCount r ≤ 12 → Accepts (replay_capability r) r = true.
Proof.
  intros Hm. unfold Accepts, replay_capability, Supports. simpl.
  rewrite !bool_decide_eq_true_2 by (done || set_solver). simpl. rewrite (proj2 (Z.ltb_ge _ _)) by lia.
  destruct (existsb _ (rq_InputSources r)) eqn:E; [by apply existsb_exists in E as (? & _ & E)|].
  simpl. apply forallb_forall. intros role Hrole. apply orb_true_iff. right. apply bool_decide_eq_true.
  by apply list_elem_of_In.
Qed.

(** A TK2SD request is normalized alike by the capability of any node that takes
    it and by the one its snapshot leaves. *)
Lemma normalizeTK2SD_again r caps n :
  normalizeTK2SD media_url_ok r caps = inr n →
  normalizeTK2SD media_url_ok r (replay_capability (nr_Requirements n)) = inr n.
Proof.
  unfold normalizeTK2SD. cbv zeta. set (r' := if (gr_Duration r =? 0) && _ then _ else r).
  destruct (gr_Duration r' <=? 0); [done|]. destruct (negb (in_range 1 13 _)); [done|].
  destruct ((32 <? RuneCountInString (gr_Resolution r')) || _); [done|].
  destruct (match gr_CallbackURL r' with Some _ => _ | None => _ end); [done|].
  set (mc := count_where is_media (gr_Content r')).
  destruct (collect (check_tk2sd_item media_url_ok mc caps) (gr_Content r')) as [|cs] eqn:Hc; [done|].
  cbn [mbind sum_bind].
  destruct (_ || (12 <? mc)) eqn:E1; [done|]. destruct (_ && (_ || negb (mc =? 1))) eqn:E2; [done|].
  set (scenario := if 0 <? count_role "image_url" "first_frame" cs then "i2va"
                   else if 0 <? mc then "r2va" else "t2va").
  destruct (Accepts caps _) eqn:Ea; [|done]. intros [= <-].
  assert (collect (check_tk2sd_item media_url_ok mc
    (replay_capability (nr_Requirements (normalized (r' <| gr_Content := cs |>) scenario (last_text cs)
       (count_type "image_url" cs) ProtocolTK2SD)))) (gr_Content r') = inr cs) as ->.
  { rewrite <-Hc. apply collect_ext. intros c Hin. apply check_tk2sd_caps. intros Et Er Em.
    unfold HasMode at 1. simpl. rewrite orb_false_r. unfold scenario.
    rewrite Em in Hc. rewrite (single_image caps (gr_Content r') cs c Em Hc Hin Et Er), Em.
    destruct (HasMode caps "i2va"); done. }
  cbn [mbind sum_bind]. rewrite E1, E2. fold scenario. rewrite replay_accepts; [done|].
  simpl. rewrite !orb_false_iff in E1. destruct E1 as [_ E1%Z.ltb_ge].
  assert (Z.of_nat (length (List.filter is_media cs)) = mc) as ->; [|done].
  change (count_where is_media cs = mc). unfold mc. symmetry. apply count_where_Forall2.
  apply collect_inr in Hc. eapply Forall2_impl; [exact Hc|]. intros c c' H. apply (tk2sd_type mc caps) in H.
  unfold is_media. by rewrite H.
Qed.
End renormalize.

(** ** Sending a request again *)

Section retry.
Context (x : ApiExternals) (h : handler).
#[local] Abbreviation media_url_ok := (ax_media_url_ok x).

(** What [createRouted] makes of a decision: only the resolution may change, to
    the name of its profile. *)
Definition completed (d : Decision_) (v : ValidatedRequest) : Prop :=
  let n := nr_Request (dc_Normalized d) in
  let res := gr_Resolution (vr_Request v) in
  vr_Request v = n <| gr_Resolution := res |> ∧
  (res = gr_Resolution n ∨
   (rs_ParameterPlan (dc_Snapshot d) = "h3_profile" ∧ ax_EqualFold x (TrimSpace (gr_Resolution n)) res = true)).

(** The row of the task keeps what [replay] reads. *)
Definition recorded (d : Decision_) (v : ValidatedRequest) (t : Task) : Prop :=
  vt_request_normalizer t = rs_NormalizerVersion (dc_Snapshot d) ∧
  vt_routing_snapshot_json t = Some (JsonOf (with_resolution (gr_Resolution (vr_Request v)) (dc_Snapshot d))) ∧
  vt_resolution (vt_request t) = gr_Resolution (vr_Request v) ∧
  vt_request_hash (vt_request t) = requestDigest x (vr_Request v) (rs_ProtocolVersion (dc_Snapshot d)).

Lemma same_resolution r : r <| gr_Resolution := gr_Resolution r |> = r.
Proof. by destruct r. Qed.

Lemma Normalize_caps id r caps caps' n :
  id ≠ ProtocolTK2SD → Normalize media_url_ok id r caps = inr n →
  Accepts caps' (nr_Requirements n) = true → Normalize media_url_ok id r caps' = inr n.
Proof.
  intros Hid. unfold Normalize. destruct (Lookup id); [|done]. destruct (negb (ValidModelID _)); [done|].
  rewrite (bool_decide_eq_false_2 _ Hid). destruct (gr_Resolution r ≟ ""); [done|]. destruct (_ && _); [done|].
  rewrite !sum_bind_inr. intros (v & Hv & H) Ha. exists v. split; [done|].
  destruct (Accepts caps _); [|done]. injection H as <-.
  cbv zeta. by rewrite Ha.
Qed.

Lemma Normalize_model id r caps n :
  id ≠ ProtocolTK2SD → id ≠ ProtocolOfficial → Normalize media_url_ok id r caps = inr n → gr_Model r = "MiniMax-H3".
Proof.
  intros Hid Hoff. unfold Normalize. destruct (Lookup id); [|done]. destruct (negb (ValidModelID _)); [done|].
  rewrite (bool_decide_eq_false_2 _ Hid), (bool_decide_eq_false_2 _ Hoff).
  destruct (gr_Resolution r ≟ ""); [done|]. simpl.
  destruct (decide (gr_Model r = "MiniMax-H3")) as [|Hm]; [done|]. by rewrite (bool_decide_eq_false_2 _ Hm).
Qed.

Lemma Normalize_resolution id r caps n :
  id ≠ ProtocolTK2SD → Normalize media_url_ok id r caps = inr n →
  gr_Resolution (nr_Request n) = gr_Resolution r.
Proof.
  intros Hid. unfold Normalize. destruct (Lookup id); [|done]. destruct (negb (ValidModelID _)); [done|].
  rewrite (bool_decide_eq_false_2 _ Hid). destruct (gr_Resolution r ≟ ""); [done|]. destruct (_ && _); [done|].
  rewrite sum_bind_inr. intros (v & Hv & H). destruct (Accepts caps _); [|done]. injection H as <-. simpl.
  by apply ValidateCreate_model in Hv as [_ ->].
Qed.

Lemma Lookup_plan id def : Lookup id = Some def → pd_ParameterPlan def = "h3_profile" → id ≠ ProtocolTK2SD ∧ id ≠ ProtocolOfficial.
Proof.
  intros Hl Hp. split; intros ->; vm_compute in Hl; injection Hl as <-; done.
Qed.

(** What of a decision matters here. *)
Lemma Resolve_normalized st healthy now r d :
  Resolve media_url_ok st healthy now r = inr d →
  ∃ def caps, let id := rs_ProtocolVersion (dc_Snapshot d) in
    id ≠ "" ∧ Lookup id = Some def ∧ rs_ParameterPlan (dc_Snapshot d) = pd_ParameterPlan def ∧
    rs_NormalizerVersion (dc_Snapshot d) = id ∧ rs_Requirements (dc_Snapshot d) = nr_Requirements (dc_Normalized d) ∧
    Normalize media_url_ok id r caps = inr (dc_Normalized d) ∧ ValidModelID (gr_Model r) = true.
Proof.
  intros (route & revision & def & _ & Hne & _ & _ & Hl & Hn & ->)%Resolve_justified.
  destruct Hn as (node & cat & m & _ & _ & _ & _ & _ & _ & _ & _ & _ & _ & Hn & _).
  apply Normalize_spec in Hn as Hs. destruct Hs as (_ & ? & _ & ? & _). by exists def, (nmd_Capabilities m).
Qed.

(** The replay of the request a task was made for recognizes the task. *)
Lemma replay_normalized_same st healthy now r d v t :
  Resolve media_url_ok st healthy now r = inr d → completed d v → recorded d v t →
  (rs_ProtocolVersion (dc_Snapshot d) = ProtocolOfficial →
   Accepts (BuiltinCapability ProtocolOfficial) (nr_Requirements (dc_Normalized d)) = true) →
  normalizer_of t = rs_ProtocolVersion (dc_Snapshot d) ∧ replay_normalized x r t = Some (inr (vr_Request v)).
Proof.
  intros (def & caps & Hne & Hl & Eplan & Ever & Ereq & Hn & Hid)%Resolve_normalized Hv (En & Es & Eres & _) Hcaps.
  destruct d as [snapshot n]. simpl in *. set (id := rs_ProtocolVersion snapshot) in *.
  rewrite Ever in En. assert (normalizer_of t = id) as En'
    by (unfold normalizer_of; by rewrite En, (bool_decide_eq_false_2 _ Hne)).
  split; [done|]. unfold replay_normalized. cbv zeta. rewrite En'.
  destruct Hv as [Ev Hres]. simpl in *. set (res := gr_Resolution (vr_Request v)) in *.
  clearbody res.
  destruct (decide (id = ProtocolTK2SD)) as [Et|Hnt].
  - rewrite Et, bool_decide_eq_true_2 by done. rewrite Es. cbn [mbind option_bind]. simpl unmarshal.
    cbn [mbind option_bind]. rewrite Et in Hn. f_equal.
    assert (res = gr_Resolution (nr_Request n)) as Er.
    { destruct Hres as [|[Hp _]]; [done|]. rewrite Eplan in Hp. by apply (Lookup_plan _ _ Hl) in Hp as []. }
    rewrite Ev, Er, same_resolution.
    assert (Normalize media_url_ok ProtocolTK2SD r (replay_capability (nr_Requirements n)) = inr n) as Ha.
    { revert Hn. unfold Normalize. change (Lookup ProtocolTK2SD) with (Some (mkDefinition ProtocolTK2SD "discovered" "direct" true)).
      cbv iota. rewrite Hid. simpl negb. cbv iota. rewrite bool_decide_eq_true_2 by done.
      apply normalizeTK2SD_again. }
    assert (replay_capability (rs_Requirements (with_resolution res snapshot)) = replay_capability (nr_Requirements n))
      as Ec by (unfold replay_capability; simpl; by rewrite Ereq).
    rewrite Er in Ec. by rewrite Ec, Ha.
  - rewrite (bool_decide_eq_false_2 _ Hnt). cbv zeta. rewrite Eres.
    pose proof (Normalize_resolution _ _ _ _ Hnt Hn) as Er.
    assert ((if ax_EqualFold x (TrimSpace (gr_Resolution r)) res then r <| gr_Resolution := res |> else r)
            = r <| gr_Resolution := res |>) as ->.
    { destruct (ax_EqualFold x (TrimSpace (gr_Resolution r)) res) eqn:Ef; [done|].
      destruct Hres as [->|[_ Hf]]; [by rewrite Er, same_resolution|]. rewrite Er in Hf. congruence. }
    f_equal. destruct ((id ≟ ProtocolOfficial) && negb (gr_Model r ≟ "MiniMax-H3")) eqn:Eo.
    + apply andb_true_iff in Eo as [Eo%bool_decide_eq_true Em].
      simpl gr_Model. rewrite Em, Eo, bool_decide_eq_true_2 by done. simpl andb. cbv iota.
      assert (res = gr_Resolution (nr_Request n)) as Er'.
      { destruct Hres as [|[Hp _]]; [done|]. rewrite Eplan in Hp. by apply (Lookup_plan _ _ Hl) in Hp as []. }
      rewrite Ev, Er', same_resolution, Er, same_resolution. rewrite Eo in Hn, Hnt.
      by rewrite (Normalize_caps _ _ _ (BuiltinCapability ProtocolOfficial) _ Hnt Hn) by by apply Hcaps.
    + simpl gr_Model. rewrite Eo.
      assert (gr_Model r = "MiniMax-H3") as Em.
      { destruct (decide (id = ProtocolOfficial)) as [Eo'|Hno].
        - rewrite (bool_decide_eq_true_2 _ Eo') in Eo. simpl in Eo. by apply negb_false_iff, bool_decide_eq_true in Eo.
        - by eapply Normalize_model. }
      destruct (Normalize_h3 _ _ _ _ _ Hnt Em Hn) as (v0 & Hv0 & E0).
      destruct (ValidateCreate_resolution _ _ res _ Hv0) as (v1 & -> & E1). simpl.
      by rewrite E1, E0, <-Ev.
Qed.

(** The request that [profile_of] completes. *)
Lemma profile_of_completed st healthy now r d v p db tr db' :
  Resolve media_url_ok st healthy now r = inr d →
  (∀ s p, GetProfileByResolution (ax_is_Han x) s db = inr p → ax_EqualFold x (TrimSpace s) (rp_Resolution p) = true) →
  plays (profile_of x h d) db tr (inr (v, p)) db' → completed d v.
Proof.
  intros (def & caps & Hne & Hl & Eplan & _ & _ & Hn & _)%Resolve_normalized Hfold.
  unfold profile_of, completed. cbv zeta.
  destruct (rs_ParameterPlan (dc_Snapshot d) ≟ "h3_profile") eqn:Ep; simpl negb; cbv iota.
  2: { intros ([= -> _] & _). simpl. split; [by rewrite same_resolution|by left]. }
  apply bool_decide_eq_true in Ep. destruct (hd_ActiveProfiles h).
  - rewrite plays_bind. intros (tr1 & q & db1 & tr2 & Hq & (Hr & _ & _) & _). simpl in Hq.
    destruct Hq as [(e & -> & -> & ->)|(f & Hf & -> & -> & ->)]; [|done]. unfold reading in Hr. simpl in Hr.
    destruct (GetProfileByResolution _ _ db) as [|q] eqn:Eq; [done|]. symmetry in Hr.
    apply sum_bind_inr in Hr as (v' & Hv & [= -> <-]). unfold with_profile in Hv.
    destruct (ax_profile_of_json x _); [|done]. simpl in Hv. destruct (pc_Ratios _ !! _); [|done].
    injection Hv as <-. simpl. split; [done|]. right. split; [done|]. by apply Hfold.
  - intros (Hv & _). destruct (ValidateCreate _ _ _) as [err|v'] eqn:Ev; [done|]. injection Hv as -> _.
    rewrite Eplan in Ep. destruct (Lookup_plan _ _ Hl Ep) as [Hnt Hno].
    destruct (Normalize_h3 _ _ _ _ _ Hnt (Normalize_model _ _ _ _ Hnt Hno Hn) Hn) as (v0 & Hv0 & E0).
    apply ValidateCreate_spec in Hv0 as [_ Hv0]. rewrite E0 in Hv0.
    apply ValidateCreate_profiles in Ev as (v1 & Hv1 & E1). rewrite Hv0 in Hv1. injection Hv1 as <-.
    rewrite <-E1, E0, same_resolution. by split; [|left].
Qed.

(** What the later steps of [createRouted] leave of the row. *)
Definition kept (a b : NewTask) : Prop :=
  nt_TaskID b = nt_TaskID a ∧ nt_APIKeyID b = nt_APIKeyID a ∧ nt_RequestHash b = nt_RequestHash a ∧
  nt_Resolution b = nt_Resolution a ∧ nt_RequestNormalizer b = nt_RequestNormalizer a ∧
  nt_RoutingSnapshotJSON b = nt_RoutingSnapshotJSON a.

Lemma kept_trans a b c : kept a b → kept b c → kept a c.
Proof. unfold kept. intros; destruct_and!; split_and!; congruence. Qed.

Lemma with_stages_kept v p a b db tr db' : plays (with_stages x v p a) db tr (inr b) db' → kept a b.
Proof.
  unfold with_stages. destruct p as [p|]; [|by intros ([= ->] & _)].
  rewrite plays_bind. intros (tr1 & r & db1 & tr2 & _ & (Hr & _) & _). destruct r; [done|]. by injection Hr as ->.
Qed.
Lemma with_callback_kept target a b db tr db' : plays (with_callback target a) db tr (inr b) db' → kept a b.
Proof.
  unfold with_callback. destruct target as [[[nonce ciphertext] ?]|]; [|by intros ([= ->] & _)].
  rewrite plays_bind. intros (tr1 & id & db1 & tr2 & _ & (e & Hr & _) & _).
  destruct (NewDelivery _ _ _ _ _ _); [|done]. by injection Hr as ->.
Qed.

Lemma created_recorded d v owner id task e o k available db t db' :
  rs_NormalizerVersion (dc_Snapshot d) ≠ "" →
  kept (routed_task owner id (requestDigest x (vr_Request v) (rs_ProtocolVersion (dc_Snapshot d)))
          (with_resolution (gr_Resolution (vr_Request v)) (dc_Snapshot d)) v) task →
  create_new e o task k available db = Done t db' → recorded d v t ∧ vt_task_id t = id.
Proof.
  intros Hne (Eid & _ & Eh & Er & En & Es) H.
  apply create_new_row in H as (inp' & Hp & _ & _ & _ & Hrow). apply ready_row_rebalanced in Hrow as ->.
  apply prepareTaskRouting_row in Hp as (p & snapshot & -> & _ & _ & Hs). unfold recorded.
  specialize (Hs _ Es). subst snapshot. simpl in *. rewrite En, Eid, Er, Eh. simpl.
  by rewrite (bool_decide_eq_false_2 _ Hne).
Qed.

End retry.

(** ** The router, alone *)

Section resolve.
Context (x : ApiExternals) (answer : ∀ X, ApiE X → X) (e : Env).
#[local] Abbreviation media_url_ok := (ax_media_url_ok x).
#[local] Abbreviation healthy := (λ id, answer bool (Healthy id)).

Lemma run_fst {A B} (p : Prog ApiE A) (k : A → Prog ApiE B) db :
  (run answer e (p ≫= k) db).1 = (run answer e (k (run answer e p db).1.1) (run answer e p db).1.2).1.
Proof.
  rewrite run_bind. destruct (run answer e p db) as [[a db1] tr1]. simpl. by destruct (run answer e (k a) db1) as [[? ?] ?].
Qed.

Lemma run_call {X B} (c : ApiE X) (k : X → Prog ApiE B) db :
  (run answer e (call c ≫= k) db).1 = (run answer e (k (answer X c)) db).1.
Proof. apply run_fst. Qed.
Lemma run_store {X B} op (k : error + X → Prog ApiE B) db :
  (run answer e (store op ≫= k) db).1 = (run answer e (k (op e db).1) (op e db).2).1.
Proof. apply run_fst. Qed.
Lemma run_environment {B} (k : Env → Prog ApiE B) db :
  (run answer e (environment ≫= k) db).1 = (run answer e (k e) db).1.
Proof. apply run_fst. Qed.

Lemma resolve_items_alone protocol nodeID r items has verr db :
  (run answer e (resolve_items x protocol nodeID r items has verr) db).1 =
  (try_items media_url_ok protocol (healthy nodeID) r items has verr, db).
Proof.
  revert has verr. induction items as [|m items IH]; intros has verr; [done|]. cbn [resolve_items try_items].
  destruct (_ || negb (nmd_Present m)); [apply IH|].
  destruct (Normalize _ _ _ _) as [err|n]; [apply IH|]. rewrite run_call.
  destruct (answer bool (Healthy nodeID)); [done|]. apply IH.
Qed.

Lemma resolve_nodes_alone now protocol r nodes has verr db :
  (run answer e (resolve_nodes x now protocol r nodes has verr) db).1 =
  (try_nodes media_url_ok (sqlite_store db) healthy now protocol r nodes has verr, db).
Proof.
  revert has verr. induction nodes as [|n nodes IH]; intros has verr; [done|]. cbn [resolve_nodes try_nodes].
  destruct (_ || negb (mn_protocol_version n ≟ protocol)); [apply IH|]. unfold try. rewrite run_store.
  unfold reading. cbn [fst snd]. change (GetModelCatalog (sqlite_store db) (mn_id n)) with (catalogWith (mn_id n) db). destruct (catalogWith (mn_id n) db) as [err|cat]; [done|]. cbn [mbind sum_bind].
  destruct (catalog_stale now cat); [apply IH|]. rewrite run_fst, resolve_items_alone. cbn [fst snd].
  destruct (try_items _ _ _ _ _ _ _) as [d|[has' verr']]; [done|]. apply IH.
Qed.

End resolve.

(** ** The stages of a new task *)

