(* ===== verification/ClientAccess.v ===== *)
(** * Who gets what from the API of the clients

    Without a key that is in force a request reads and changes nothing; the tasks
    of another owner are as if they did not exist; a task that is announced to a
    client is in the store under its owner; and a file is streamed only to who may
    have it. *)

From stdpp Require Import gmap.
From S2P Require Import Prelude Domain Tx Database Sql Workers GoStrings GoFloat GoNet Netguard Catalog Paging TaskRouting Callbacks Queue Stages Artifacts Remote Tasks Official Delivery Nodes Config NodeAPI ArtifactService Normalize Router InputSpool Settings InputObjects Lifecycle RemoteInputs RemoteWorker ResultAccess CallbackWorker OfficialWorker ClientAPI ClientCreate ClientSafety.

(** ** Authentication *)

Lemma plays_read {C X} (f : Env → DB → error + X) db tr r db' :
  plays (store (reading f) : Prog C (error + X)) db tr r db' →
  tr = [] ∧ db' = db ∧ ((∃ e, r = f e db) ∨ ∃ err, fault err ∧ r = inl err).
Proof.
  intros [(e & -> & -> & ->)|(err & Hf & -> & -> & ->)]; split_and!; try done; [left|right]; eauto.
Qed.

Section access.
Context (x : ApiExternals) (h : handler).

(** C19: nothing without a key.  With the authenticator that the key service
    loads, a request is answered with 401 and changes nothing, or it carries, as a
    bearer token, the key of an enabled row, and what it does is what its route
    does for the owner of that row. *)
Theorem serve_authenticated keys q db tr id answer db' :
  tbl_valid (db_api_keys keys) = true → hd_Authenticator h = Some (Reload keys) →
  plays (serve x h q) db tr (id, answer) db' →
  (ar_Status answer = 401 ∧ db' = db) ∨
  ∃ token k e tr', bearer (aq_Authorization q) = Some token ∧
    k ∈ db_api_keys keys ∧ Database.ak_Enabled k = true ∧ ak_KeyDigest k = env_sha256_hex e token ∧
    plays (route x h (Database.ak_ID k) q) db tr' answer db'.
Proof.
  intros Hv Ha. unfold serve. rewrite plays_bind. intros (t1 & i & d1 & t2 & Hi & H & _).
  assert (d1 = db) as ->.
  { destruct (_ && (len (aq_RequestID q) <=? 64)); [by destruct Hi as (_ & -> & _)|].
    by destruct Hi as (y & t' & _ & _ & -> & _). }
  apply plays_bind in H as (t3 & a & d2 & t4 & H & ([= _ ->] & -> & _) & _).
  unfold authenticate in H. destruct (bearer _) as [token|]; [|left; by destruct H as (-> & -> & _)].
  apply plays_bind in H as (t5 & owner & d3 & t6 & Ho & H & _).
  unfold owner_of in Ho. rewrite Ha in Ho.
  apply plays_bind in Ho as (t7 & e & d4 & t8 & (e0 & <- & -> & _) & (-> & -> & _) & _).
  unfold Authenticate in H. destruct (token ≟ "") eqn:Et; [left; by destruct H as (-> & -> & _)|].
  destruct (Reload keys !! env_sha256_hex e token) as [owner|] eqn:Er; [|left; by destruct H as (-> & -> & _)].
  simpl default in H. destruct (owner ≟ "") eqn:Eo; [left; by destruct H as (-> & -> & _)|].
  apply Reload_lookup in Er as (k & Hk & <- & Hd & Hen); [|done]. right. by exists token, k, e, t6.
Qed.

(** ** Owners *)

Definition invalid_task : ApiResponse := bad_request "invalid task_id (2001)".

Lemma unowned_Get e owner taskID db :
  (∀ t, t ∈ db_video_tasks db → vt_task_id t = taskID → vt_owner t ≠ owner) →
  Queue.Get e owner taskID db = inl ErrTaskNotFound.
Proof.
  intros H. unfold Queue.Get, getWith. destruct (List.find _ _) as [t|] eqn:Ef; [|done].
  apply find_elem_of in Ef as [Ht Hv]. unfold visible in Hv. rewrite !andb_true_iff, !bool_decide_eq_true in Hv.
  destruct Hv as [[[E1 E2] _] _]. by destruct (H t Ht E1).
Qed.

(** C20: the tasks of others do not exist.  Reading or cancelling a task that the
    caller does not own, whether it exists or not, calls nobody, changes nothing,
    and is answered with the same error as an identifier that was never given
    out, unless the store fails. *)
Theorem foreign_task_hidden owner taskID db tr answer db' :
  (∀ t, t ∈ db_video_tasks db → vt_task_id t = taskID → vt_owner t ≠ owner) →
  plays (get x h owner taskID) db tr answer db' ∨ plays (cancelOrDelete h owner taskID) db tr answer db' →
  tr = [] ∧ db' = db ∧ (answer = invalid_task ∨ answer = internalError).
Proof.
  intros Hun. unfold get, cancelOrDelete. destruct (negb (valid_taskID taskID)).
  { intros [(-> & -> & ->)|(-> & -> & ->)]; split_and!; by try left. }
  intros [H|H]; apply plays_bind in H as (t1 & r & d1 & t2 & (-> & -> & Hr)%plays_read & H & ->).
  - assert (∃ err, r = inl err ∧ (storeError err = invalid_task ∨ storeError err = internalError)) as (err & -> & Herr).
    { destruct Hr as [(e & ->)|(err & Hf & ->)]; [|exists err; split; [done|right]; by destruct Hf].
      unfold Get_with_status. rewrite unowned_Get by done. exists ErrTaskNotFound. split; [done|by left]. }
    destruct H as (-> & -> & ->). by split_and!.
  - assert (∃ err, r = inl err ∧ (storeError err = invalid_task ∨ storeError err = internalError)) as (err & -> & Herr).
    { destruct Hr as [(e & ->)|(err & Hf & ->)]; [|exists err; split; [done|right]; by destruct Hf].
      rewrite unowned_Get by done. exists ErrTaskNotFound. split; [done|by left]. }
    destruct H as (-> & -> & ->). by split_and!.
Qed.

(** ** A task that is announced *)

(** Everything a program may end with. *)
Fixpoint ends {C A} (Q : A → Prop) (p : Prog C A) : Prop :=
  match p with
  | Ret a => Q a
  | Now k => ∀ e, ends Q (k e)
  | Ctx k => ∀ b, ends Q (k b)
  | Store op k => ∀ r, ends Q (k r)
  | Call c k => ∀ r, ends Q (k r)
  end.
Lemma ends_plays {C A} (Q : A → Prop) (p : Prog C A) db tr a db' : ends Q p → plays p db tr a db' → Q a.
Proof.
  revert db tr. induction p as [b|k IH|k IH|X op k IH|X c k IH]; simpl; intros db tr He.
  - by intros (-> & _).
  - intros (e & H). by eapply IH.
  - intros (b & H). by eapply IH.
  - intros [(e & H)|(f & _ & H)]; by eapply IH.
  - intros (r & tr' & _ & H). by eapply IH.
Qed.
Lemma ends_bind {C A B} (Q : B → Prop) (p : Prog C A) (k : A → Prog C B) :
  (∀ a, ends Q (k a)) → ends Q (p ≫= k).
Proof. intros H. unfold mbind, prog_bind. induction p; simpl; auto. Qed.

(** An answer that announces no task; a step that stops with one. *)
Definition refusal (a : ApiResponse) : Prop := ∀ id, ar_Body a ≠ BodyCreated id.
Definition refuses {A} (r : ApiResponse + A) : Prop := match r with inl a => refusal a | inr _ => True end.

Lemma refusal_error status kind message : refusal (writeError status kind message).
Proof. by intros id. Qed.
Lemma refusal_store err : refusal (storeError err).
Proof. by destruct err. Qed.
Lemma refusal_route err : refusal (routeError err).
Proof. by destruct err. Qed.
End access.
Create HintDb api.
#[export] Hint Resolve refusal_error refusal_store refusal_route : api.

(** A task of the database. *)
Definition announced (owner : string) (db : DB) (a : ApiResponse) : Prop :=
  ∀ id, ar_Body a = BodyCreated id → ∃ t, t ∈ db_video_tasks db ∧ vt_task_id t = id ∧ vt_owner t = owner.

Section announcing.
Context (x : ApiExternals) (h : handler).

Lemma refusal_announced owner db a : refusal a → announced owner db a.
Proof. intros H id Hid. by destruct (H id). Qed.

Lemma respond_announced {A} owner (m : Prog ApiE (ApiResponse + A)) (k : A → Prog ApiE ApiResponse) db tr a db' :
  ends refuses m →
  (∀ y db0 db1 tr0 tr1, plays m db0 tr0 (inr y) db1 → plays (k y) db1 tr1 a db' → announced owner db' a) →
  plays (respond m k) db tr a db' → announced owner db' a.
Proof.
  intros Hm Hk. unfold respond. rewrite plays_bind. intros (t1 & [b|y] & d1 & t2 & Hp & H & _); [|by eapply Hk].
  destruct H as (-> & _). apply refusal_announced. by apply (ends_plays refuses _ _ _ _ _ Hm) in Hp.
Qed.

Lemma with_profile_refuses p v : refuses (with_profile x p v).
Proof.
  unfold with_profile. destruct (ax_profile_of_json x _); simpl; [|by intros id].
  destruct (pc_Ratios _ !! _); simpl; [done|by intros id].
Qed.
Lemma profile_of_refuses d : ends refuses (profile_of x h d).
Proof.
  unfold profile_of. destruct (negb _); [done|]. destruct (hd_ActiveProfiles h).
  - apply ends_bind. intros [err|p]; simpl; [by intros id|]. set (v := mkValidated _ _ _ _ _ _).
    pose proof (with_profile_refuses p v). by destruct (with_profile x p v).
  - simpl. by destruct (ValidateCreate _ _ _).
Qed.
Lemma callback_target_refuses url : ends refuses (callback_target x h url).
Proof.
  unfold callback_target. destruct url as [url|]; [|done]. destruct (negb _); [by intros id|].
  apply ends_bind. intros [err|t]; simpl; [by intros id|done].
Qed.
Lemma with_stages_refuses v p task : ends refuses (with_stages x v p task).
Proof.
  unfold with_stages. destruct p as [p|]; [|done]. apply ends_bind. intros [err|s]; simpl; [by intros id|done].
Qed.
Lemma with_callback_refuses target task : ends refuses (with_callback target task).
Proof.
  unfold with_callback. destruct target as [[[n c] f]|]; [|done].
  apply ends_bind. intros r. apply ends_bind. intros e. destruct (NewDelivery _ _ _ _ _ _); [done|by intros id].
Qed.
Lemma spool_refuses {A} (m : Prog ApiE A) (k : A → ApiResponse + prepared) :
  (∀ a, refuses (k a)) → ends refuses (r ← m; mret (k r)).
Proof. intros H. apply ends_bind. intros a. simpl. apply H. Qed.
Lemma prepareInputs_refuses id owner hash payload : ends refuses (prepareInputs x h id owner hash payload).
Proof.
  unfold prepareInputs. set (spooled := spool_inputs _ _ _ ≫= _).
  assert (ends refuses spooled) as Hs by (apply spool_refuses; intros [err|p]; simpl; [by intros i|done]).
  destruct (negb _); [done|]. apply ends_bind. intros [err|[request files]]; [|done].
  destruct err; try by intros i. apply ends_bind. intros [[]|p]; try by intros i. by destruct (po_Enabled p).
Qed.
Lemma validate_unrouted_refuses r : ends refuses (validate_unrouted x h r).
Proof.
  unfold validate_unrouted. destruct (ValidateCreate _ _ _) as [err|v]; [by intros i|]. destruct (negb _); [done|].
  apply ends_bind. intros [err|p]; simpl; [by destruct err; intros i|].
  pose proof (with_profile_refuses p v). by destruct (with_profile x p v).
Qed.

Lemma getWith_owned owner id now db t :
  getWith owner id now db = inr t → t ∈ db_video_tasks db ∧ vt_task_id t = id ∧ vt_owner t = owner.
Proof.
  unfold getWith. destruct (List.find _ _) as [y|] eqn:Ef; [|done]. intros [= <-].
  apply find_elem_of in Ef as [Hy Hv]. unfold visible in Hv. rewrite !andb_true_iff, !bool_decide_eq_true in Hv.
  by destruct Hv as [[[-> ->] _] _].
Qed.

Lemma Create_owned e o task k available db t db' :
  Create e o task k available db = (inr t, db') → t ∈ db_video_tasks db' ∧ vt_owner t = nt_APIKeyID task.
Proof.
  unfold Create. rewrite immediate_inr, bind_Done. intros (known & db1 & _ & H). destruct known as [i|].
  - sql_inv H. match goal with Hg : getWith _ _ _ _ = _ |- _ => apply getWith_owned in Hg as (? & _ & ?) end. done.
  - apply create_new_Done in H as (? & ? & ? & _ & _ & _ & _ & _ & _ & _ & _ & H).
    by apply getWith_owned in H as (? & _ & ?).
Qed.

Lemma writeCreateResult_announced owner db t :
  t ∈ db_video_tasks db → vt_owner t = owner → announced owner db (writeCreateResult (vt_task_id t)).
Proof.
  intros Ht Ho id. unfold writeCreateResult. destruct (_ ≟ ""); [done|]. simpl. intros [= <-]. by exists t.
Qed.

Lemma plays_discard id p db tr u db' : plays (discard id p) db tr u db' → db' = db.
Proof.
  unfold discard. destruct (sp_Spooled p); [by intros (? & ? & _ & _ & -> & _)|by intros (_ & -> & _)].
Qed.
Lemma plays_wake db tr u db' : plays (wake h) db tr u db' → db' = db.
Proof. unfold wake. destruct (hd_Wake h); [by intros (? & ? & _ & _ & -> & _)|by intros (_ & -> & _)]. Qed.

Lemma create_stored_announced respond task k p db tr a db' :
  (∀ err, refusal (respond err)) →
  plays (create_stored h respond task k p) db tr a db' → announced (nt_APIKeyID task) db' a.
Proof.
  intros Hresp. unfold create_stored. rewrite plays_bind. intros (t1 & available & d1 & t2 & _ & H & _).
  apply plays_bind in H as (t3 & r & d2 & t4 & Hr & H & _).
  destruct r as [err|t].
  { apply plays_bind in H as (t5 & u & d3 & t6 & _ & (-> & _) & _). by apply refusal_announced. }
  destruct Hr as [(e & Hd & Hc & _)|(f & _ & [= ] & _)]. simpl in Hd.
  assert (Create e (hd_Options h) task k available d1 = (inr t, d2)) as HC.
  { destruct (Create e (hd_Options h) task k available d1). simpl in *. by subst. }
  apply Create_owned in HC as [Ht Ho].
  apply plays_bind in H as (t5 & u & d3 & t6 & Hu & H & _).
  apply plays_bind in H as (t7 & w & d4 & t8 & ->%plays_wake & (-> & -> & _) & _).
  assert (d3 = d2) as ->; [|by apply writeCreateResult_announced].
  destruct (_ ≟ nt_TaskID task); [by destruct Hu as (_ & -> & _)|by apply plays_discard in Hu].
Qed.

Lemma createRouted_announced owner key r db tr a db' :
  plays (createRouted x h owner key r) db tr a db' → announced owner db' a.
Proof.
  unfold createRouted. destruct (key_hash x key) as [k|]; [|intros (-> & _); by apply refusal_announced].
  rewrite plays_bind. intros (t1 & known & d1 & t2 & Hk & H & _). destruct known as [answer|].
  { destruct H as (-> & -> & _). unfold replayRouted in Hk. destruct (k ≟ ""); [by destruct Hk|].
    apply plays_bind in Hk as (t3 & existing & d2 & t4 & (_ & -> & He)%plays_read & (Ea & -> & _) & _).
    destruct He as [(e & ->)|(f & Hf & ->)];
      [|destruct Hf; injection Ea as ->; by apply refusal_announced].
    unfold FindIdempotentRecord in Ea. destruct (find_idempotent e owner k db) as [i|]; [|done].
    destruct (Queue.Get e owner (ik_task_id i) db) as [err|t] eqn:Eg.
    { destruct err; try done; injection Ea as ->; by apply refusal_announced. }
    apply getWith_owned in Eg as (Ht & _ & Ho). injection Ea as ->. unfold replay.
    destruct (replay_normalized x r t) as [[err|n]|]; try by apply refusal_announced.
    destruct (negb _); [by apply refusal_announced|]. by apply writeCreateResult_announced. }
  apply plays_bind in H as (t3 & d & d2 & t4 & _ & H & _).
  destruct d as [err|d]; [destruct H as (-> & _); apply refusal_announced; auto with api|].
  revert H. apply respond_announced; [apply profile_of_refuses|]. intros [v p] e1 e2 s1 s2 _.
  apply respond_announced; [apply callback_target_refuses|]. intros target e3 e4 s3 s4 _.
  rewrite plays_bind. intros (t5 & id & d3 & t6 & _ & H & _). destruct id as [id|]; [|destruct H as (-> & _); by apply refusal_announced].
  revert H. apply respond_announced; [apply with_stages_refuses|]. intros task1 e5 e6 s5 s6 Hs.
  apply respond_announced; [apply with_callback_refuses|]. intros task2 e7 e8 s7 s8 Hc.
  rewrite plays_bind. intros (t7 & inputs & d4 & t8 & _ & H & _).
  destruct inputs as [[]|inputs]; try (destruct H as (-> & _); by apply refusal_announced).
  apply create_stored_announced in H; [|auto with api].
  apply with_stages_kept in Hs. apply with_callback_kept in Hc. destruct (kept_trans _ _ _ Hs Hc) as (_ & Eo & _).
  simpl in H, Eo. by rewrite Eo in H.
Qed.

Lemma createUnrouted_announced owner key r db tr a db' :
  plays (createUnrouted x h owner key r) db tr a db' → announced owner db' a.
Proof.
  unfold createUnrouted. apply respond_announced; [apply validate_unrouted_refuses|]. intros [v p] e1 e2 s1 s2 _.
  apply respond_announced; [apply callback_target_refuses|]. intros target e3 e4 s3 s4 _. cbv zeta.
  destruct (key_hash x key) as [k|]; [|intros (-> & _); by apply refusal_announced].
  rewrite plays_bind. intros (t1 & known & d1 & t2 & Hk & H & _). destruct known as [answer|].
  { destruct H as (-> & -> & _). unfold known_task in Hk. destruct (k ≟ ""); [by destruct Hk|].
    apply plays_bind in Hk as (t3 & existing & d2 & t4 & (_ & -> & He)%plays_read & (Ea & -> & _) & _).
    destruct He as [(e & ->)|(f & Hf & ->)];
      [|destruct Hf; injection Ea as ->; by apply refusal_announced].
    unfold FindIdempotentTask in Ea. destruct (k ≟ ""); [done|]. destruct (find_idempotent e owner k e4) as [i|]; [|done].
    destruct (negb _); [injection Ea as ->; by apply refusal_announced|].
    destruct (getWith owner (ik_task_id i) (nowUnix e) e4) as [err|t] eqn:Eg.
    { destruct err; try done; injection Ea as ->; by apply refusal_announced. }
    apply getWith_owned in Eg as (Ht & _ & Ho). injection Ea as ->. by apply writeCreateResult_announced. }
  apply plays_bind in H as (t5 & id & d3 & t6 & _ & H & _).
  destruct id as [id|]; [|destruct H as (-> & _); by apply refusal_announced].
  revert H. apply respond_announced; [apply prepareInputs_refuses|]. intros inputs e5 e6 s5 s6 _.
  apply respond_announced; [apply with_stages_refuses|]. intros task1 e7 e8 s7 s8 Hs.
  apply respond_announced; [apply with_callback_refuses|]. intros task2 e9 e10 s9 s10 Hc H.
  apply create_stored_announced in H; [|auto with api].
  apply with_stages_kept in Hs. apply with_callback_kept in Hc. destruct (kept_trans _ _ _ Hs Hc) as (_ & Eo & _).
  simpl in H, Eo. by rewrite Eo in H.
Qed.

(** C18: what is announced is stored.  Whenever the API answers a creation with the
    identifier of a task, whether the task is new or found under the idempotency
    key, with or without the router, that task is in the store when the answer is
    given and belongs to the caller. *)
Theorem create_announced owner q db tr id db' :
  plays (create x h owner q) db tr (mkApiResponse 200 (BodyCreated id)) db' →
  ∃ t, t ∈ db_video_tasks db' ∧ vt_task_id t = id ∧ vt_owner t = owner.
Proof.
  unfold create. destruct (negb _); [by intros ([=] & _)|].
  destruct (ax_json_value x _) as [[raw rest]|]; [|by intros ([=] & _)].
  destruct (_ || _); [by intros ([=] & _)|]. destruct (ax_create_of_json x raw) as [r|]; [|by intros ([=] & _)].
  destruct (hd_Routing h); intros H; [apply createRouted_announced in H|apply createUnrouted_announced in H];
    by apply (H id).
Qed.
End announcing.

(** ** Files *)

Section files.
Context (x : ApiExternals) (keys : DB) (s : Service) (EqualFold : string → string → bool).
Context (request_ok : string → bool) (decode_envelope : string → option (string * string)).

(** C21: a file is streamed only to who may have it.  When a download is answered
    with the content of an artifact, the artifact is the result of a task that has
    succeeded and is not deleted, and the request carried either the key of the
    task's owner, in force, or, without a key, the signature of the service for
    this method, artifact and owner with an expiry that has not passed; and a
    download that asked for no range has the whole file. *)
Theorem content_guarded q db tr resp db' c :
  tbl_valid (db_api_keys keys) = true →
  plays (content x (Some (Reload keys)) [] (Some s) EqualFold request_ok decode_envelope q) db tr resp db' →
  fp_Body resp = FileStream c →
  db' = db ∧ ∃ artifact location task,
    GetArtifactAccess (fq_ArtifactID q) db = inr (artifact, location, task) ∧
    vt_status task = StatusSucceeded ∧ coalesce_int (vt_deleted_at task) = 0 ∧
    (fq_Range q = "" → fp_Status resp = 200 ∧ ct_ContentLength c = ta_size_bytes artifact) ∧
    ((∃ token k e, bearer (fq_Authorization q) = Some token ∧ k ∈ db_api_keys keys ∧ Database.ak_Enabled k = true ∧
        ak_KeyDigest k = env_sha256_hex e token ∧ Database.ak_ID k = vt_api_key_id (vt_request task)) ∨
     (fq_Authorization q = "" ∧ ∃ expires e,
        ParseExpires (query_get (fq_Query q) "expires") = inr expires ∧ nowUnix e < expires ∧
        query_get (fq_Query q) "signature" =
          signature (ax_hmac x) (ax_RawURLEncoding x) s (if fq_Method q ≟ "" then "GET" else fq_Method q)
            (fq_ArtifactID q) (vt_api_key_id (vt_request task)) expires)).
Proof.
  intros Hv. unfold content. destruct (negb (valid_artifactID _)); [by intros (-> & _)|].
  rewrite plays_bind. intros (t1 & e & d1 & t2 & (e0 & <- & -> & _) & H & _) Hc.
  destruct (authorization _ _ _ _ _) as [auth|] eqn:Ea; [|by destruct H as (-> & _)].
  apply plays_bind in H as (t3 & r & d2 & t4 & Ho & H & _).
  destruct r as [err|c']; [destruct H as (-> & _); by destruct err|].
  apply plays_bind in H as (t5 & u & d3 & t6 & Hcl & (-> & -> & _) & _). simpl in Hc. injection Hc as ->.
  assert (d3 = d2) as -> by (destruct Hcl as (? & ? & _ & ? & ? & _ & _ & -> & _); done).
  assert (t3 ≠ []) as Hne. { intros ->. apply Open_calls in Ho. done. }
  apply Open_spec in Ho as (-> & artifact & location & task & Hg & Hs & Hd & _ & Hm & Hr); [|done].
  split; [done|]. exists artifact, location, task. destruct (Hr c eq_refl) as [_ Hrange].
  split_and!; [done..|exact Hrange|]. clear -Ea Hm Hv. unfold authorization in Ea.
  destruct (fq_Authorization q ≟ "") eqn:Eh; simpl negb in Ea; cbv iota in Ea.
  - right. apply bool_decide_eq_true in Eh. split; [done|].
    destruct (negb (forallb _ _)); [done|]. destruct (ParseExpires _) as [|expires]; [done|].
    destruct (_ ≟ "") eqn:Es; [done|]. injection Ea as <-.
    destruct Hm as [[Hb _]|(_ & Hsig & e1 & e2 & Hlt & _)]; [done|]. by exists expires, e1.
  - left. destruct (bearer _) as [token|]; [|done]. simpl in Ea. unfold Authenticate in Ea.
    destruct (token ≟ "") eqn:Et; [done|]. destruct (Reload keys !! env_sha256_hex e token) as [owner|] eqn:Er; [|done].
    simpl default in Ea. destruct (owner ≟ "") eqn:Eo; [done|]. injection Ea as <-.
    apply bool_decide_eq_false in Eo. apply Reload_lookup in Er as (k & Hk & <- & Hd & Hen); [|done].
    destruct Hm as [[_ Hb]|(Hb & _)]; simpl in Hb; [|done]. by exists token, k, e.
Qed.
End files.
