(* ===== verification/DeliveryWorker.v ===== *)
(** * The worker that delivers results (internal/resultdelivery,
    internal/upstream/tk2sd/download.go, ResultAccess.Download of internal/remote)

    One pass claims an upload job, downloads the result of its task into a
    temporary file, uploads the file to the object storage and publishes its
    URL, or records the failure of the attempt. *)

From stdpp Require Import relations.
From S2P Require Import TK2SD Prelude Domain Tx Database Sql Workers GoStrings GoNet Catalog Paging TaskRouting Callbacks Queue Stages Artifacts Remote Tasks Official Delivery Nodes Normalize Router InputSpool Settings Lifecycle Reachable.

(** ** Errors *)

(** What [errors.Is] and [errors.As] find in a failed download: a deadline, an
    incomplete video, a tk2sd.HTTPError with its status and class, a
    DownloadError with its Retryable, and a Timeout() that is true. *)
Record failure := mkFailure {
  fl_deadline : bool;
  fl_incomplete : bool;
  fl_http : option (Z * string);
  fl_download : option bool;
  fl_timeout : bool
}.
Definition plain : failure := mkFailure false false None None false.
Definition deadline : failure := mkFailure true false None None true.
Definition incomplete : failure := mkFailure false true None None false.

(** The error of a read of the store; the context of the operation ends by its
    deadline, or else the pass ends as a whole. *)
Definition store_failure (err : error) : failure :=
  match err with ErrContext => deadline | _ => plain end.

Definition retryableDownload (f : failure) : bool :=
  if fl_deadline f then true
  else if fl_incomplete f then true
  else
  match fl_http f with
  | Some (status, class) => (class ≟ "temporary") || (class ≟ "transport") || (status =? 409)
  | None =>
      match fl_download f with
      | Some retryable => retryable
      | None => fl_timeout f
      end
  end.

(** objectstore.Error, when the error is one. *)
Record storage_error := mkStorageError { se_Code : string; se_Message : string; se_Retryable : bool }.

(** ** Interactions *)

(** The answer of a public host: where it redirects to, or what it sends. *)
Record video_response := mkVideo {
  vr_status : Z;
  vr_redirect : option URL;
  vr_content_type : string;
  vr_length : Z                  (** -1 when unknown *)
}.
(** The answer of a node: what [decode] makes of it when its status is not 200,
    and the parsed media type. *)
Record node_video := mkNodeVideo {
  nv_status : Z;
  nv_error : failure;
  nv_media_type : option string;
  nv_content_range : string;
  nv_length : Z
}.

Inductive DeliveryE : Type → Type :=
  | LookupIPAddr (host : string) : DeliveryE (option (list Addr))
  | DialIP (address : Addr) (port : string) : DeliveryE bool
  | Fetch (taskID : string) (u : URL) : DeliveryE (failure + video_response)
  | SaveBody (destination : string) (limit : Z) : DeliveryE (failure + Z)
  | ResolveNode (nodeID : string) : DeliveryE (failure + unit)
  | FetchVideo (taskID nodeID id : string) : DeliveryE (failure + node_video)
  (** a temporary file beside the destination: the bytes copied, whether the
      copy failed, whether closing it failed *)
  | CopyVideo (destination : string) (limit : Z) : DeliveryE (option (Z * bool * bool))
  | RenameVideo (destination : string) : DeliveryE bool
  | CreateTemp : DeliveryE (option string)
  | Remove (path : string) : DeliveryE unit
  | NewStore (config : ObjectStorageConfig) (publicKey privateKey : string)
      : DeliveryE (option storage_error + unit)
  | UploadFile (path objectKey : string) : DeliveryE (option storage_error + string).

(** ** Downloads from a public host *)

Definition DefaultMaxVideoBytes : Z := 2 ^ 31.

(** On a net.IP, which has no zone; nil is the zero address. *)
Definition unsafeIP (ip : Addr) : bool :=
  (ip ≟ AddrZero) || IsLoopback ip || IsPrivate ip || IsLinkLocalUnicast ip
  || IsLinkLocalMulticast ip || IsUnspecified (Unmap ip) || IsMulticast ip.

Definition validate_result (target : URL) : Prog DeliveryE (failure + unit) :=
  if negb (url_Scheme target ≟ "https") || (url_Hostname target ≟ "") || url_User target
  then mret (inl plain)
  else
  addresses ← call (LookupIPAddr (url_Hostname target));
  mret match addresses with
       | None | Some [] => inl plain
       | Some addresses => if existsb unsafeIP addresses then inl plain else inr tt
       end.

(** The dialer of the default client. *)
Fixpoint dial_resolved (addresses : list Addr) (port : string) : Prog DeliveryE bool :=
  match addresses with
  | [] => mret false
  | ip :: addresses =>
      if unsafeIP ip then mret false
      else
      ok ← call (DialIP ip port);
      if ok : bool then mret true else dial_resolved addresses port
  end.
Definition dial_result (host port : string) : Prog DeliveryE bool :=
  addresses ← call (LookupIPAddr host);
  match addresses with None => mret false | Some addresses => dial_resolved addresses port end.

(** The client follows at most three redirects; [via] counts the requests
    made. [None] when the fuel runs out. *)
Fixpoint follow_result (fuel : nat) (taskID : string) (via : Z) (u : URL)
    : Prog DeliveryE (option (failure + video_response)) :=
  match fuel with
  | O => mret None
  | S fuel =>
      r ← call (Fetch taskID u);
      match r with
      | inl f => mret (Some (inl f))
      | inr response =>
          match vr_redirect response with
          | None => mret (Some (inr response))
          | Some next =>
              let via := via + 1 in
              if 3 <? via then mret (Some (inl plain))
              else
              v ← validate_result next;
              match v with
              | inl f => mret (Some (inl f))
              | inr _ => follow_result fuel taskID via next
              end
          end
      end
  end.

(** [strings.Split(s,";")[0]] *)
Fixpoint before_semicolon (s : string) : string :=
  match s with
  | EmptyString => ""
  | String c s => if c ≟ Ascii.ascii_of_nat 59 then "" else String c (before_semicolon s)
  end.

Section delivery.
(** [url.Parse]; [secretbox] of the keys of the object storage. *)
Context (url_Parse : string → option URL) (Open : string → string → option string).

Definition Download (maxBytes : Z) (taskID rawURL destination : string)
    : Prog DeliveryE (option (failure + Z)) :=
  match url_Parse rawURL with
  | None => mret (Some (inl plain))
  | Some target =>
      v ← validate_result target;
      match v with
      | inl f => mret (Some (inl f))
      | inr _ =>
          r ← follow_result 4 taskID 0 target;
          match r with
          | None => mret None
          | Some (inl f) => mret (Some (inl f))
          | Some (inr response) =>
              if negb (vr_status response =? 200)
              then mret (Some (inl (mkFailure false false None
                     (Some ((vr_status response =? 429) || (500 <=? vr_status response))) false)))
              else
              let contentType := ToLower (TrimSpace (before_semicolon (vr_content_type response))) in
              if negb (HasPrefix contentType "video/") then mret (Some (inl plain))
              else
              let limit := if maxBytes <=? 0 then DefaultMaxVideoBytes else maxBytes in
              if limit <? vr_length response then mret (Some (inl plain))
              else
              written ← call (SaveBody destination (limit + 1));
              mret (Some match written with
              | inl f => inl f
              | inr written =>
                  if (written =? 0) || (limit <? written) then inl plain
                  else if (0 <=? vr_length response) && negb (written =? vr_length response)
                  then inl plain else inr written
              end)
          end
      end
  end.

(** ** Downloads from a node *)

Definition maxVideoBytes : Z := 2 ^ 31.

(** [Client.Download]; [stopped] is the end of its context. *)
Definition download_video (valid_id : bool) (taskID nodeID id destination : string) (maxBytes : Z)
    : Prog DeliveryE (failure + Z) :=
  if negb valid_id || (destination ≟ "") then mret (inl plain)
  else
  let maxBytes := if (maxBytes <=? 0) || (maxVideoBytes <? maxBytes) then maxVideoBytes else maxBytes in
  r ← call (FetchVideo taskID nodeID id);
  match r with
  | inl f => mret (inl f)
  | inr response =>
      if negb (nv_status response =? 200) then mret (inl (nv_error response))
      else if negb (nv_media_type response ≟ Some "video/mp4") then mret (inl plain)
      else if negb (nv_content_range response ≟ "") then mret (inl plain)
      else if maxBytes <? nv_length response then mret (inl plain)
      else
      copied ← call (CopyVideo destination (maxBytes + 1));
      match copied with
      | None => mret (inl plain)
      | Some (n, copyErr, closeErr) =>
          if copyErr : bool
          then stop ← stopped; mret (inl (if stop : bool then deadline else incomplete))
          else if closeErr : bool then mret (inl plain)
          else if maxBytes <? n then mret (inl plain)
          else if n =? 0 then mret (inl incomplete)
          else if (0 <=? nv_length response) && negb (n =? nv_length response)
          then mret (inl incomplete)
          else
          stop ← stopped;
          if stop : bool then mret (inl deadline)
          else
          renamed ← call (RenameVideo destination);
          mret (if renamed : bool then inr n else inl plain)
      end
  end.

(** [ResultAccess.Download] *)
Definition download_bound (task : Task) (destination : string) (maxBytes : Z)
    : Prog DeliveryE (failure + Z) :=
  fresh ← store (reading (λ _, GetTaskForExecution (vt_task_id task)));
  match fresh with
  | inl err => mret (inl (store_failure err))
  | inr fresh =>
      if negb (vt_live fresh) || negb (vt_api_key_id (vt_request fresh) ≟ vt_api_key_id (vt_request task))
         || negb (vt_protocol_version fresh ≟ Some ProtocolTK2SD)
      then mret (inl plain)
      else
      run ← store (reading (λ _, GetRemoteRun (vt_task_id task)));
      match run with
      | inl err => mret (inl (store_failure err))
      | inr run =>
          let id := coalesce_str (rr_upstream_task_id run) in
          if negb (rr_node_id run ≟ coalesce_str (vt_upstream_id fresh))
             || negb (rr_phase run ≟ RemoteTerminal)
             || negb (rr_upstream_status run ≟ Some UpSucceeded) || (id ≟ "")
          then mret (inl plain)
          else
          client ← call (ResolveNode (rr_node_id run));
          match client with
          | inl f => mret (inl f)
          | inr _ =>
              let maxBytes := if (maxBytes <=? 0) || (2 ^ 31 <? maxBytes) then 2 ^ 31 else maxBytes in
              download_video (validID id) (vt_task_id task) (rr_node_id run) id destination maxBytes
          end
      end
  end.

(** [TaskSource.DownloadTask] *)
Definition DownloadTask (publicMaxBytes : Z) (id destination : string)
    : Prog DeliveryE (option (failure + Z)) :=
  task ← store (reading (λ _, GetTaskForExecution id));
  match task with
  | inl err => mret (Some (inl (store_failure err)))
  | inr task =>
      if vt_protocol_version task ≟ Some ProtocolTK2SD
      then r ← download_bound task destination DefaultMaxVideoBytes; mret (Some r)
      else Download publicMaxBytes id (coalesce_str (vt_result_internal_url task)) destination
  end.

(** ** A pass *)

Record Worker := mkWorker {
  wk_TaskDownloader : bool;      (** TaskDownloader is not nil *)
  wk_MaxBytes : Z;               (** of the public downloader *)
  wk_LeaseDuration : Z
}.

(** The delay before the next attempt; [None] is an index out of range. *)
Definition retry_delay (attempt : Z) : option Z :=
  let i := Z.min (attempt - 1) 2 in
  if i <? 0 then None else [Second; 5 * Second; 20 * Second] !! Z.to_nat i.

(** What a pass returns: nil, the error of the store, the cause of a failure
    the context cut short or the store did not record, or a panic. *)
Inductive outcome := Delivered | NotStored (err : error) | Unrecorded (err : option error) | Panicked.

Definition fail (job : ResultUploadJob) (lease code message : string) (retryable : bool)
    : Prog DeliveryE outcome :=
  stop ← stopped;
  if stop : bool then mret (Unrecorded None)
  else
  e ← environment;
  match retry_delay (uj_attempt_no job) with
  | None => mret Panicked
  | Some delay =>
      r ← store (λ e', FailResultUploadAttempt e' (uj_id job) lease code message retryable
                         ((env_now e * Millisecond + delay) / Millisecond));
      mret match r with inl err => Unrecorded (Some err) | inr _ => Delivered end
  end.

Definition failObjectStore (job : ResultUploadJob) (lease : string) (err : option storage_error)
    : Prog DeliveryE outcome :=
  match err with
  | Some s => fail job lease (se_Code s) (se_Message s) (se_Retryable s)
  | None => fail job lease "ucloud_upload_failed" "UCloud 上传失败" true
  end.

(** From the temporary file on. *)
Definition transfer (w : Worker) (job : ResultUploadJob) (lease sourceURL filePath : string)
    : Prog DeliveryE outcome :=
  downloaded ← (if wk_TaskDownloader w then DownloadTask (wk_MaxBytes w) (uj_task_id job) filePath
                else Download (wk_MaxBytes w) (uj_task_id job) sourceURL filePath);
  match downloaded with
  | None => mret Panicked
  | Some (inl f) =>
      fail job lease "result_download_failed" "官方结果视频下载失败" (retryableDownload f)
  | Some (inr bytesDownloaded) =>
      uploaded ← call (UploadFile filePath (uj_object_key job));
      match uploaded with
      | inl err => failObjectStore job lease err
      | inr publicURL =>
          r ← store (λ e, CompleteResultUpload e (uj_id job) lease publicURL bytesDownloaded);
          mret match r with inl err => NotStored err | inr _ => Delivered end
      end
  end.

(** A claimed job. *)
Definition deliver (w : Worker) (lease : string) (job : ResultUploadJob) : Prog DeliveryE outcome :=
  source ← store (reading (λ _, GetResultUploadSource (uj_task_id job)));
  match source with
  | inl _ => fail job lease "result_source_missing" "原始结果地址不可用" false
  | inr sourceURL =>
      config ← store (reading (λ _, GetObjectStorageConfig));
      match config with
      | inl _ => fail job lease "object_storage_not_configured" "对象存储配置不可用" false
      | inr config =>
          match Open (os_PublicKeyNonce config) (os_PublicKeyCiphertext config),
                Open (os_PrivateKeyNonce config) (os_PrivateKeyCiphertext config) with
          | Some publicKey, Some privateKey =>
              created ← call (NewStore config publicKey privateKey);
              match created with
              | inl err => failObjectStore job lease err
              | inr _ =>
                  file ← call CreateTemp;
                  match file with
                  | None => fail job lease "temporary_file_failed" "创建上传临时文件失败" true
                  | Some filePath =>
                      r ← transfer w job lease sourceURL filePath;
                      _ ← call (Remove filePath);
                      mret r
                  end
              end
          | _, _ => fail job lease "object_storage_secret_invalid" "对象存储密钥解密失败" false
          end
      end
  end.

Definition lease_duration (w : Worker) : Z :=
  if wk_LeaseDuration w <=? 0 then 2100 * Second else wk_LeaseDuration w.

(** The lease is named after the time in nanoseconds. *)
Definition ProcessOne (w : Worker) : Prog DeliveryE outcome :=
  e ← environment;
  let lease := String.append "upload-" (Itoa (env_now e * Millisecond)) in
  e' ← environment;
  claimed ← store (λ e'', ClaimResultUploadJob e' e'' lease (lease_duration w));
  match claimed with
  | inl err => mret (NotStored err)
  | inr job => deliver w lease job
  end.
End delivery.

(** ** Downloads end, and dial allowed addresses only *)

Lemma follow_result_some fuel taskID via u db tr r db' :
  0 ≤ via → 4 - via ≤ Z.of_nat fuel → via ≤ 3 →
  plays (follow_result fuel taskID via u) db tr r db' → r ≠ None.
Proof.
  revert via u db tr. induction fuel as [|fuel IH]; intros via u db tr Hv Hf Hle; [lia|].
  cbn [follow_result]. rewrite plays_bind. intros (tr1 & a & db1 & tr2 & _ & H & _).
  destruct a as [f|response]; [by destruct H as (-> & _)|].
  destruct (vr_redirect response) as [next|]; [|by destruct H as (-> & _)]. cbv zeta in H.
  destruct (Z.ltb_spec 3 (via + 1)) as [Hv3|Hv3]; [by destruct H as (-> & _)|].
  apply plays_bind in H as (tr3 & [f|[]] & db2 & tr4 & _ & H & _); [by destruct H as (-> & _)|].
  eapply (IH (via + 1)); [lia..|exact H].
Qed.

Lemma dial_resolved_safe addresses port db tr r db' :
  plays (dial_resolved addresses port) db tr r db' →
  ∀ ip p, existT _ (DialIP ip p) ∈ tr → unsafeIP ip = false.
Proof.
  revert db tr. induction addresses as [|a l IH]; intros db tr H ip p Hin.
  { destruct H as (_ & _ & ->). by apply elem_of_nil in Hin. }
  cbn [dial_resolved] in H. destruct (unsafeIP a) eqn:E.
  { destruct H as (_ & _ & ->). by apply elem_of_nil in Hin. }
  apply plays_bind in H as (tr1 & ok & db1 & tr2 & (x & tr0 & -> & -> & -> & ->) & H & ->).
  apply elem_of_app in Hin as [Hin|Hin].
  - apply list_elem_of_singleton in Hin. injection Hin as -> ->. done.
  - destruct x; [|by eapply IH]. destruct H as (_ & _ & ->). by apply elem_of_nil in Hin.
Qed.

(** ** Attempts *)

Section safety.
Context (url_Parse : string → option URL) (Open : string → string → option string).
(** The task; nobody deletes it or starts another round of its upload. *)
Context (keep : string).

#[local] Abbreviation ProcessOne := (ProcessOne url_Parse Open).

(** The job of the task has made [n] attempts of its round. *)
Definition at_least (n : Z) (db : DB) : Prop :=
  ∃ j, j ∈ db_upload_jobs db ∧ uj_task_id j = keep ∧ n ≤ uj_attempt_no j.
Definition grows (db db' : DB) : Prop := ∀ n, at_least n db → at_least n db'.

#[export] Instance grows_preorder : PreOrder grows.
Proof. split; [by intros db n|]. intros db1 db2 db3 H1 H2 n H. by apply H2, H1. Qed.

Definition other (db db' : DB) : Prop := step keep db db' ∧ grows db db'.
#[local] Abbreviation rely := (rtc other).

Lemma grows_same db db' : db_upload_jobs db' = db_upload_jobs db → grows db db'.
Proof. intros E n (j & Hj & ?). exists j. by rewrite E. Qed.

Lemma grows_update p f :
  (∀ j, uj_task_id (f j) = uj_task_id j ∧ uj_attempt_no j ≤ uj_attempt_no (f j)) →
  tx_rel grows (exec_update (R:=ResultUploadJob) p f).
Proof.
  intros Hf. apply tx_rel_exec_update; [apply _|]. intros db n (j & Hj & E & Hn). destruct (Hf j) as [??].
  exists (if p j then f j else j). split; [simpl; apply elem_of_update_where; by exists j|].
  destruct (p j); split; [congruence|lia|done|done].
Qed.

Ltac grows_stmt :=
  match goal with
  | |- tx_rel _ (@exec_update ResultUploadJob _ _ _) =>
      apply grows_update; intros ?; cbn; split; [reflexivity|lia]
  | _ => tx_stmt
  end.
Ltac grows_by := repeat grows_stmt; try (intros ?; by apply grows_same).

Lemma createCallback_grows e k taskID status now :
  tx_rel grows (createCallbackDeliveryWithConn e k taskID status now).
Proof. unfold createCallbackDeliveryWithConn. grows_by. Qed.
Lemma failDelivered_grows e k taskID message now : tx_rel grows (failDeliveredTask e k taskID message now).
Proof. unfold failDeliveredTask. grows_by. all: apply createCallback_grows. Qed.

Lemma ClaimResultUploadJob_other e1 e token d db : other db (ClaimResultUploadJob e1 e token d db).2.
Proof.
  split; [apply step_ClaimResultUploadJob|]. unfold ClaimResultUploadJob.
  assert (grows db (recoverExhaustedResultUploads e1 db).2) as Hr.
  { unfold recoverExhaustedResultUploads. apply tx_rel_immediate; [apply _|].
    unfold fail_exhausted. grows_by. all: apply failDelivered_grows. }
  destruct (recoverExhaustedResultUploads e1 db) as [[err|u] db1]; [done|]. etrans; [exact Hr|].
  apply tx_rel_immediate; [apply _|]. unfold claim_upload. grows_by.
Qed.
Lemma FailResultUploadAttempt_other e job token code message retryable next db :
  other db (FailResultUploadAttempt e job token code message retryable next db).2.
Proof.
  split; [apply step_FailResultUploadAttempt|]. unfold FailResultUploadAttempt.
  apply tx_rel_immediate; [apply _|]. grows_by. all: apply failDelivered_grows.
Qed.
Lemma CompleteResultUpload_other e job token url bytes db :
  other db (CompleteResultUpload e job token url bytes db).2.
Proof.
  split; [apply step_CompleteResultUpload|]. unfold CompleteResultUpload.
  apply tx_rel_immediate; [apply _|]. grows_by. all: apply createCallback_grows.
Qed.

Lemma delivery_rely_wf db db' : rely db db' → wf db → wf db'.
Proof.
  induction 1 as [|db1 db2 db3 [Hs _] _ IH]; [done|]. intros Hw. apply IH. by apply (step_wf keep db1).
Qed.
Lemma at_least_stable n db db' : rely db db' → at_least n db → at_least n db'.
Proof. induction 1 as [|db1 db2 db3 [_ Hg] _ IH]; [done|]. intros H. by apply IH, Hg. Qed.

Lemma wf_uploads db : wf db → tbl_valid (db_upload_jobs db) = true.
Proof. intros [Hs _]. apply Hs. Qed.

(** A claim of the job of the task is another attempt. *)
Lemma ClaimResultUploadJob_attempt n e1 e token d db j :
  wf db → at_least n db → (ClaimResultUploadJob e1 e token d db).1 = inr j → uj_task_id j = keep →
  at_least (n + 1) (ClaimResultUploadJob e1 e token d db).2.
Proof.
  intros Hw Hn H Ej. unfold ClaimResultUploadJob in *.
  assert (grows db (recoverExhaustedResultUploads e1 db).2) as Hg.
  { unfold recoverExhaustedResultUploads. apply tx_rel_immediate; [apply _|].
    unfold fail_exhausted. grows_by. all: apply failDelivered_grows. }
  destruct (recoverExhaustedResultUploads e1 db) as [[err|u] db1] eqn:Er; [done|]. apply Hg in Hn.
  apply recover_valid in Er; [|by apply wf_uploads].
  destruct (immediate (claim_upload e token d) db1) as [r db2] eqn:Ec. simpl in H |- *. subst r.
  rewrite immediate_inr in Ec.
  apply claim_upload_Done in Ec as (j0 & Hj0 & _ & -> & Hj & Hv); [|done].
  eexists. split; [exact Hj|]. split; [done|]. simpl in *. destruct Hn as (j1 & Hj1 & Ej1 & Hn).
  apply uploads_valid in Er as (_ & Hnd & _).
  assert (j1 = j0) as -> by (apply (NoDup_map_inj uj_task_id (db_upload_jobs db1)); congruence). lia.
Qed.

(** ** One pass *)

Section pass.
(** The attempts before the pass. *)
Context (n : Z).

(** The result of the task is fetched only in an attempt of its own. *)
Definition fetch_allowed (X : Type) (c : DeliveryE X) (db : DB) : Prop :=
  match c with
  | Fetch task _ | FetchVideo task _ _ => task = keep → at_least (n + 1) db
  | _ => True
  end.

(** What a claimed job gives its worker. *)
Definition claimed (job : ResultUploadJob) (db : DB) : Prop :=
  uj_task_id job = keep → at_least (n + 1) db.

(** A program that fetches results of the task [job] is for only. *)
#[local] Abbreviation quiet_for job :=
  (quiet other (λ X c db, claimed job db → fetch_allowed X c db)).

Ltac quiet_delivery :=
  quiet_by ltac:(idtac; lazymatch goal with
                 | |- other _ (FailResultUploadAttempt _ _ _ _ _ _ _ _).2 => apply FailResultUploadAttempt_other
                 | |- _ => apply CompleteResultUpload_other
                 end)
           ltac:(first [done | by intros H ?; apply H]).

Lemma quiet_delivery_fail job j lease code message retryable : quiet_for job (fail j lease code message retryable).
Proof. unfold fail. quiet_delivery. Qed.
#[local] Hint Resolve quiet_delivery_fail : quiet.

Lemma quiet_validate_result job u : quiet_for job (validate_result u).
Proof. unfold validate_result. quiet_delivery. Qed.
#[local] Hint Resolve quiet_validate_result : quiet.

Lemma quiet_follow_result job fuel via u : quiet_for job (follow_result fuel (uj_task_id job) via u).
Proof. revert via u. induction fuel as [|fuel IH]; intros via u; cbn [follow_result]; quiet_delivery. Qed.
#[local] Hint Resolve quiet_follow_result : quiet.

Lemma quiet_Download job maxBytes raw destination :
  quiet_for job (Download url_Parse maxBytes (uj_task_id job) raw destination).
Proof. unfold Download. quiet_delivery. Qed.

Lemma quiet_download_video job valid node id destination maxBytes :
  quiet_for job (download_video valid (uj_task_id job) node id destination maxBytes).
Proof. unfold download_video. quiet_delivery. Qed.
#[local] Hint Resolve quiet_Download quiet_download_video : quiet.

Lemma quiet_download_bound job task destination maxBytes :
  vt_task_id task = uj_task_id job → quiet_for job (download_bound task destination maxBytes).
Proof. intros E. unfold download_bound. rewrite E. cbv zeta. quiet_delivery. Qed.

#[local] Abbreviation wp := (wp (λ _, True) other fetch_allowed).

Lemma claimed_stable job db db' : rely db db' → claimed job db → claimed job db'.
Proof. intros Hr Hc E. exact (at_least_stable _ _ _ Hr (Hc E)). Qed.

Lemma wp_claimed_quiet {A} job (p : Prog DeliveryE A) (Q : A → DB → Prop) db :
  quiet_for job p → claimed job db → (∀ a db', rely db db' → Q a db') → wp p Q db.
Proof. intros Hp Hc HQ. by apply (wp_quiet_inv _ _ _ (claimed job)); [apply claimed_stable|..]. Qed.

Lemma wp_DownloadTask job maxBytes destination (Q : option (failure + Z) → DB → Prop) db :
  claimed job db → (∀ a db', rely db db' → Q a db') →
  wp (DownloadTask url_Parse maxBytes (uj_task_id job) destination) Q db.
Proof.
  intros Hc HQ. unfold DownloadTask. apply wp_bind, wp_store.
  { intros db1 f db2 Hr1 Hr2 _. apply wp_ret. intros db3 Hr3. apply HQ.
    etrans; [exact Hr1|]. by etrans. }
  intros db1 e Hr1 _. split; [reflexivity|]. intros db2 Hr2. unfold reading in *. cbn [fst snd] in *.
  assert (rely db db2) as Hr by by etrans. apply (claimed_stable job db db2 Hr) in Hc.
  apply (wp_claimed_quiet job); [|done|intros a db' Hr'; apply HQ; by etrans].
  destruct (GetTaskForExecution (uj_task_id job) db1) as [err|task] eqn:E; [exact I|].
  assert (vt_task_id task = uj_task_id job) as Et.
  { unfold GetTaskForExecution in E. destruct (List.find _ _) as [t|] eqn:Ef; [|done]. injection E as ->.
    apply find_elem_of in Ef as [_ [Ef _]%andb_true_iff]. by apply bool_decide_eq_true in Ef. }
  destruct (_ ≟ _); [|apply quiet_Download].
  apply quiet_bind; [by apply quiet_download_bound|done].
Qed.

Lemma wp_transfer job w lease source path (Q : outcome → DB → Prop) db :
  claimed job db → (∀ a db', rely db db' → Q a db') →
  wp (transfer url_Parse w job lease source path) Q db.
Proof.
  intros Hc HQ. unfold transfer. apply wp_bind.
  assert (∀ a db1, rely db db1 → wp (match a with
    | None => mret Panicked
    | Some (inl f) => fail job lease "result_download_failed" "官方结果视频下载失败" (retryableDownload f)
    | Some (inr bytesDownloaded) =>
        uploaded ← call (UploadFile path (uj_object_key job));
        match uploaded with
        | inl err => failObjectStore job lease err
        | inr publicURL =>
            r ← store (λ e, CompleteResultUpload e (uj_id job) lease publicURL bytesDownloaded);
            mret match r with inl err => NotStored err | inr _ => Delivered end
        end
    end) Q db1) as Hrest.
  { intros a db1 Hr1. apply (wp_claimed_quiet job); [|by eapply claimed_stable|intros; apply HQ; by etrans].
    unfold failObjectStore. quiet_delivery. }
  destruct (wk_TaskDownloader w); [by apply wp_DownloadTask|].
  apply (wp_claimed_quiet job); [apply quiet_Download|done|done].
Qed.

Lemma wp_deliver w lease job (Q : outcome → DB → Prop) db :
  claimed job db → (∀ a db', rely db db' → Q a db') → wp (deliver url_Parse Open w lease job) Q db.
Proof.
  intros Hc HQ.
  assert (∀ db1 (p : Prog DeliveryE outcome), rely db db1 → quiet_for job p → wp p Q db1) as Hquiet.
  { intros db1 p Hr Hp. apply (wp_claimed_quiet job); [done|by eapply claimed_stable|].
    intros a db' Hr'. apply HQ. by etrans. }
  unfold deliver. apply wp_bind, wp_store.
  { intros db1 f db2 Hr1 Hr2 _. apply Hquiet; [by etrans|apply quiet_delivery_fail]. }
  intros db1 e Hr1 _. split; [reflexivity|]. intros db2 Hr2. unfold reading in *. cbn [fst snd] in *.
  destruct (GetResultUploadSource _ db1) as [err|source]; [apply Hquiet; [by etrans|apply quiet_delivery_fail]|].
  apply wp_bind, wp_store.
  { intros db3 f db4 Hr3 Hr4 _. apply Hquiet; [etrans; [exact Hr1|]; etrans; [exact Hr2|]; by etrans|].
    apply quiet_delivery_fail. }
  intros db3 e' Hr3 _. split; [reflexivity|]. intros db4 Hr4. cbn [fst snd] in *.
  assert (rely db db4) as Hr by (etrans; [exact Hr1|]; etrans; [exact Hr2|]; by etrans).
  destruct (GetObjectStorageConfig db3) as [err|config]; [apply Hquiet; [done|apply quiet_delivery_fail]|].
  destruct (Open _ _); [|apply Hquiet; [done|apply quiet_delivery_fail]].
  destruct (Open _ _); [|apply Hquiet; [done|apply quiet_delivery_fail]].
  apply wp_bind, wp_call; [done|]. intros [err|u] db5 Hr5.
  { apply Hquiet; [by etrans|]. unfold failObjectStore. quiet_delivery. }
  apply wp_bind, wp_call; [done|]. intros [path|] db6 Hr6.
  2: { apply Hquiet; [|apply quiet_delivery_fail]. etrans; [exact Hr|]. by etrans. }
  assert (rely db db6) as Hr' by (etrans; [exact Hr|]; by etrans).
  apply wp_bind, wp_transfer; [by eapply claimed_stable|]. intros a db7 Hr7.
  apply Hquiet; [by etrans|]. quiet_delivery.
Qed.

Lemma wp_delivery_pass w db :
  wf db → at_least n db → wp (ProcessOne w) (λ _ _, True) db.
Proof.
  intros Hw Hn. unfold DeliveryWorker.ProcessOne. apply wp_bind, wp_environment. intros e db1 _ Hr1.
  cbv zeta. apply wp_bind, wp_environment. intros e' db2 _ Hr2.
  apply wp_bind, wp_store; [intros; by apply wp_ret|]. intros db3 e'' Hr3 _.
  assert (rely db db3) as Hr by (etrans; [exact Hr1|]; by etrans).
  split; [apply rtc_once, ClaimResultUploadJob_other|]. intros db4 Hr4.
  destruct (ClaimResultUploadJob e' e'' _ _ db3).1 as [err|job] eqn:E; [by apply wp_ret|].
  apply wp_deliver; [|done]. intros Ej. apply (at_least_stable _ _ _ Hr4).
  eapply ClaimResultUploadJob_attempt; [|by eapply at_least_stable|exact E|done].
  by eapply delivery_rely_wf.
Qed.
End pass.

(** ** Any number of passes *)

(** The traces of passes one after the other, each carried on for as long as it
    lives while others use the store. *)
Inductive deliveries (db0 : DB) : DB → list (list (event DeliveryE * DB)) → Prop :=
  | deliveries_none : deliveries db0 db0 []
  | deliveries_one db trs w c :
      deliveries db0 db trs →
      rtc (steps (λ _, True) other (λ _, False))
        (mkConfig [ProcessOne w ≫= λ _, mret tt] db []) c →
      deliveries db0 (cdb c) (trace c :: trs).

(** A pass that asked for the result of the task. *)
Definition fetches (tr : list (event DeliveryE * DB)) : bool :=
  existsb (λ ev, match projT2 ev.1 with
                 | Fetch task _ | FetchVideo task _ _ => task ≟ keep
                 | _ => false
                 end) tr.

End safety.
