(* ===== verification/CleanupWorker.v ===== *)
(** * The worker that deletes copies on nodes (internal/cleanup/worker.go)

    For every enabled node of the H3 protocol a pass claims the due items of the
    deletion queue, asks the node to delete the copy and records the outcome. *)

From S2P Require Import Prelude Domain Tx Database Sql Workers GoStrings GoNet Catalog Paging TaskRouting Callbacks Queue Stages Artifacts Remote Tasks Official Delivery Nodes Normalize Router Settings Lifecycle Reachable.

(** ** Interactions *)

(** nodeapi.DeleteArtifactItem *)
Record DeleteArtifactItem := mkDeleteItem {
  dr_ArtifactID : string;
  dr_Status : string;
  dr_DeletedBytes : Z
}.

(** The answer of a node: an error, with its status when it is a
    nodeapi.HTTPError, or the items of the result. *)
Inductive CleanupE : Type → Type :=
  | DeleteArtifacts (nodeID serviceURL key requestID operationID : string) (artifactIDs : list string)
      : CleanupE (option Z + list DeleteArtifactItem).

Record Worker := mkWorker {
  wk_LeaseDuration : Z;
  wk_MaxAttempts : Z
}.
Definition leaseDuration (w : Worker) : Z :=
  if 0 <? wk_LeaseDuration w then wk_LeaseDuration w else 60 * Second.
Definition maxAttempts (w : Worker) : Z :=
  if wk_MaxAttempts w <=? 0 then 8 else wk_MaxAttempts w.

Section worker.
(** [url.Parse], and the secret box on the key of a node. *)
Context (url_Parse : string → option URL) (Open : ModelServiceNode → option string).
Context (w : Worker).

(** ** One item *)

Definition fail (item : DeletionItem) (code message : string) (terminal : bool) : Prog CleanupE unit :=
  let terminal := terminal || (maxAttempts w <=? di_attempt_count item) in
  let delay := Z.min (2 ^ di_attempt_count item) 300 * Second in
  e ← environment;
  _ ← store (λ e', FailDeletionItem e' (di_id item) (coalesce_str (di_lease_token item)) code message
               (env_now e + Milliseconds delay) terminal);
  mret tt.

Definition settle (item : DeletionItem) (artifact : string) (items : list DeleteArtifactItem)
    : Prog CleanupE unit :=
  match items with
  | [response] =>
      if negb (dr_ArtifactID response ≟ artifact)
      then fail item "node_delete_protocol_error" "节点删除响应不匹配" false
      else
      let complete absent bytes :=
        _ ← store (λ e, CompleteDeletionItem e (di_id item) (coalesce_str (di_lease_token item)) absent bytes);
        mret tt in
      if dr_Status response ≟ "deleted" then complete false (dr_DeletedBytes response)
      else if dr_Status response ≟ "already_absent" then complete true 0
      else if dr_Status response ≟ "artifact_locked"
      then fail item "artifact_locked" "节点产物仍被执行锁定" false
      else fail item "node_delete_failed" "节点拒绝删除产物" false
  | _ => fail item "node_delete_protocol_error" "节点删除响应不匹配" false
  end.

Definition process (node : ModelServiceNode) (item : DeletionItem) : Prog CleanupE unit :=
  location ← store (reading (λ _, GetArtifactLocation (di_location_id item)));
  match location with
  | inl _ => fail item "artifact_location_missing" "产物位置不存在" true
  | inr location =>
      match Open node with
      | None => fail item "node_key_unavailable" "节点密钥不可用" true
      | Some key =>
          match url_Parse (mn_service_url node) with
          | None => fail item "node_config_invalid" "节点服务地址无效" true
          | Some serviceURL =>
              if url_Host serviceURL ≟ ""
              then fail item "node_config_invalid" "节点服务地址无效" true
              else
              result ← call (DeleteArtifacts (mn_id node) (mn_service_url node) key
                         (String.append "delete-" (di_id item)) (di_operation_id item)
                         [al_node_artifact_id location]);
              match result with
              | inl status =>
                  let terminal := (status ≟ Some 401) || (status ≟ Some 403) in
                  fail item (if terminal then "node_authentication_failed" else "node_delete_unavailable")
                    "节点产物删除失败" terminal
              | inr items => settle item (al_node_artifact_id location) items
              end
          end
      end
  end.

(** ** A pass *)

(** Items of one node, until there is none to claim; [false] when the fuel runs
    out. *)
Fixpoint drain (fuel : nat) (node : ModelServiceNode) : Prog CleanupE bool :=
  match fuel with
  | O => mret false
  | S fuel =>
      e ← environment;
      claimed ← store (λ e', ClaimDeletionItem e' (mn_id node) (env_uuid e 0) (leaseDuration w));
      match claimed with
      | inl _ => mret true
      | inr item => process node item ;; drain fuel node
      end
  end.

Fixpoint drain_nodes (fuel : nat) (nodes : list ModelServiceNode) : Prog CleanupE bool :=
  match nodes with
  | [] => mret true
  | node :: nodes =>
      stop ← stopped;
      if (stop : bool) || negb (mn_enabled node) || negb (UsesNodeAPI (node_input_of_row node))
      then drain_nodes fuel nodes
      else
      ended ← drain fuel node;
      if ended : bool then drain_nodes fuel nodes else mret false
  end.

Definition runOnce (fuel : nat) : Prog CleanupE bool :=
  nodes ← store (reading (λ _ db, inr (ListModelNodes db)));
  match nodes with
  | inl _ => mret true
  | inr nodes => drain_nodes fuel nodes
  end.
End worker.

(** ** The deletion queue *)

Definition open_item (i : DeletionItem) : bool := di_status i ∈? [DiPending; DiRetryWait; DiDeleting].

(** Rows an item refers to exist: the foreign key of artifact_deletion_items. *)
Definition items_have_artifacts (db : DB) : Prop :=
  ∀ i, i ∈ db_deletion_items db → di_artifact_id i ∈ map ta_id (db_artifacts db).

Definition claimed_as (now : Z) (token : string) (lease : Z) (i : DeletionItem) : DeletionItem :=
  i <| di_status := DiDeleting |> <| di_lease_token := Some token |>
    <| di_lease_expires_at := Some (now + Milliseconds lease) |>
    <| di_attempt_count := di_attempt_count i + 1 |> <| di_updated_at := now |>.

(** What an operation of the queue may do to everything but the status of an
    item. *)
Definition same_frame (db db' : DB) : Prop :=
  map ta_id (db_artifacts db') = map ta_id (db_artifacts db) ∧
  map di_artifact_id (db_deletion_items db') = map di_artifact_id (db_deletion_items db).

Lemma frame_artifacts db db' : same_frame db db' → items_have_artifacts db → items_have_artifacts db'.
Proof.
  intros [Ea Ei] H i Hi. rewrite Ea.
  assert (di_artifact_id i ∈ map di_artifact_id (db_deletion_items db)) as Hin.
  { rewrite <-Ei. apply list_elem_of_In, in_map, list_elem_of_In, Hi. }
  apply list_elem_of_In, in_map_iff in Hin as (j & <- & Hj%list_elem_of_In). auto.
Qed.

Lemma find_distinct {A} (key : A → string) (l : list A) x :
  NoDup (map key l) → x ∈ l → List.find (λ y, key y ≟ key x) l = Some x.
Proof.
  intros Hnd Hx. induction l as [|y l IH]; [by apply elem_of_nil in Hx|]. simpl in *.
  apply NoDup_cons in Hnd as [Hn Hnd]. apply elem_of_cons in Hx as [->|Hx].
  - by rewrite bool_decide_eq_true_2.
  - destruct (decide (key y = key x)) as [E|E]; [|by rewrite bool_decide_eq_false_2; auto].
    destruct Hn. rewrite E. by apply list_elem_of_In, in_map, list_elem_of_In.
Qed.

Lemma items_valid l : tbl_valid l = true → NoDup (map di_id l).
Proof. cbn. rewrite !andb_true_iff. intros [[[H _] _] _]. by apply distinct_NoDup. Qed.

Lemma ClaimDeletionItem_inr e node token lease db item db' :
  tbl_valid (db_deletion_items db) = true →
  ClaimDeletionItem e node token lease db = (inr item, db') →
  ∃ i, i ∈ db_deletion_items db ∧ open_item i = true ∧ di_node_id i = node ∧
    item = claimed_as (nowMillis e) token lease i ∧
    db_deletion_items db' = update_where (λ j, di_id j ≟ di_id i) (λ _, item) (db_deletion_items db) ∧
    same_frame db db'.
Proof.
  intros Hv%items_valid H. unfold ClaimDeletionItem in H. rewrite immediate_inr in H.
  rewrite bind_Done in H. destruct H as (row & db0 & H0 & H). sql_inv H0.
  rewrite bind_Done in H. destruct H as (i & db1 & H1 & H). sql_inv H1.
  apply head_Some_elem_of, order_by_key_elem, elem_of_filter_bool in H1 as [Hp Hi].
  rewrite !andb_true_iff, !bool_decide_eq_true in Hp. destruct Hp as [[[Hn Ho] _] Hl].
  sql_inv H. simpl in *.
  set (p := λ j, (di_id j ≟ di_id i) && null_or_le (di_lease_expires_at j) (nowMillis e)) in *.
  assert (p i = true) as Hpi by (unfold p; by rewrite bool_decide_eq_true_2, Hl).
  assert (∀ j, p j = true → di_id j = di_id i) as Hkey
    by (intros j [Hj%bool_decide_eq_true _]%andb_true_iff; done).
  apply (update_reread di_id p) in H; [|done..]. subst item.
  exists i. split_and!; [done|by apply bool_decide_eq_true_2|done|done| |].
  - by rewrite (update_by_key di_id _ _ _ i).
  - split; simpl; [done|]. by rewrite map_update_where.
Qed.

Definition failed_as (now : Z) (code message : string) (next : Z) (terminal : bool) (i : DeletionItem)
    : DeletionItem :=
  i <| di_status := if terminal then DiFailed else DiRetryWait |>
    <| di_next_attempt_at := if terminal then None else Some next |>
    <| di_lease_token := None |> <| di_lease_expires_at := None |>
    <| di_last_error_code := Some code |> <| di_last_error_message := Some message |>
    <| di_updated_at := now |>.
Definition completed_as (now : Z) (absent : bool) (bytes : Z) (i : DeletionItem) : DeletionItem :=
  i <| di_status := if absent then DiAlreadyAbsent else DiDeleted |>
    <| di_deleted_bytes := bytes |> <| di_deleted_at := Some now |>
    <| di_lease_token := None |> <| di_lease_expires_at := None |>
    <| di_updated_at := now |>.

(** Updates the constraints of a table let through. *)

Lemma items_update p f (l : list DeletionItem) :
  (∀ i, di_id (f i) = di_id i ∧ di_operation_id (f i) = di_operation_id i ∧
     di_job_id (f i) = di_job_id i ∧ di_location_id (f i) = di_location_id i) →
  (∀ i, 0 ≤ di_attempt_count i → 0 ≤ di_deleted_bytes i →
     0 ≤ di_attempt_count (f i) ∧ 0 ≤ di_deleted_bytes (f i)) →
  tbl_valid l = true → tbl_valid (update_where p f l) = true.
Proof.
  intros Hk Hc. cbn. rewrite !andb_true_iff. intros [[[H1 H2] H3] H4]. split_and!.
  1-3: by rewrite distinct_update by (intros i; destruct (Hk i) as (? & ? & ? & ?); congruence).
  apply forallb_update; [|done]. intros i _ _. rewrite !andb_true_iff, !Z.leb_le. intros [??]. by apply Hc.
Qed.

Lemma locations_update p f (l : list ArtifactLocation) :
  (∀ a, al_id (f a) = al_id a ∧ al_node_id (f a) = al_node_id a ∧
     al_node_artifact_id (f a) = al_node_artifact_id a ∧ al_size_bytes (f a) = al_size_bytes a ∧
     al_state (f a) ∈ ["deleting"; "deleted"; "delete_failed"; "missing"]) →
  tbl_valid l = true → tbl_valid (update_where p f l) = true.
Proof.
  intros Hk. cbn. rewrite !andb_true_iff. intros [[[H1 H2] H3] H4]. split_and!.
  1-2: by rewrite distinct_update by (intros a; destruct (Hk a) as (? & ? & ? & _); congruence).
  - apply distinct_opt_update; [|done]. intros a _ _. destruct (Hk a) as (_ & _ & _ & _ & Hs). left.
    rewrite (bool_decide_eq_false_2 (al_state (f a) = "active")); [by rewrite andb_false_r|].
    intros E. rewrite E in Hs. clear -Hs. set_solver.
  - apply forallb_update; [|done]. intros a _ _. destruct (Hk a) as (_ & _ & _ & -> & Hs).
    rewrite !andb_true_iff. intros [? _]. split; [done|]. apply bool_decide_eq_true. clear -Hs. set_solver.
Qed.

Lemma jobs_update p f (l : list DeletionJob) :
  (∀ j, dj_id (f j) = dj_id j ∧ dj_reason (f j) = dj_reason j ∧ dj_total_count (f j) = dj_total_count j ∧
     dj_skipped_count (f j) = dj_skipped_count j ∧ dj_candidate_bytes (f j) = dj_candidate_bytes j ∧
     dj_older_than_days (f j) = dj_older_than_days j ∧
     dj_status (f j) ∈ ["running"; "partial_failed"; "succeeded"; "failed"]) →
  (∀ j, 0 ≤ dj_succeeded_count j → 0 ≤ dj_deleted_bytes j → 0 ≤ dj_succeeded_count (f j) ∧
     0 ≤ dj_failed_count (f j) ∧ 0 ≤ dj_deleted_bytes (f j)) →
  tbl_valid l = true → tbl_valid (update_where p f l) = true.
Proof.
  intros Hk Hc. cbn. rewrite !andb_true_iff. intros [H1 H2]. split.
  { by rewrite distinct_update by (intros j; by destruct (Hk j) as (-> & _)). }
  apply forallb_update; [|done]. intros j _ _. destruct (Hk j) as (_ & -> & -> & -> & -> & -> & Hs).
  rewrite !andb_true_iff, !Z.leb_le. intros [[[[[[[[? _] ?] Hb] ?] Hd] ?] ?] ?].
  destruct (Hc j Hb Hd) as (? & ? & ?). split_and!; try done. apply bool_decide_eq_true. clear -Hs. set_solver.
Qed.

Lemma deletion_state_update p state now (ts : list Task) :
  state ∈ ["pending"; "partial"; "deleted"; "failed"] →
  tbl_valid ts = true →
  tbl_valid (update_where p (λ t, t <| vt_deletion_state := state |> <| vt_updated_at := now |>
                                    <| vt_version := vt_version t + 1 |>) ts) = true.
Proof.
  intros Hs. apply tasks_valid_update. intros t _ _. split_and!; [done..| |done].
  unfold task_check. cbn. rewrite !andb_true_iff. intros [[? _] ?]. split_and!; try done; try tauto.
  apply bool_decide_eq_true. clear -Hs. set_solver.
Qed.

Ltac member := cbn; solve [repeat (apply list_elem_of_here || apply list_elem_of_further)].

Lemma artifacts_deleted p at_ (l : list TaskArtifact) :
  tbl_valid l = true →
  tbl_valid (update_where p (λ a, a <| ta_state := "deleted" |> <| ta_deleted_at := at_ |>) l) = true.
Proof.
  cbn. rewrite !andb_true_iff. intros [H1 H2]. split; [by rewrite distinct_update|].
  apply forallb_update; [|done]. intros a _ _. cbn. rewrite !andb_true_iff. tauto.
Qed.

Lemma update_deletion_state_ok artifactID state now (Q : unit → DB → Prop) db :
  artifactID ∈ map ta_id (db_artifacts db) → tbl_valid (db_video_tasks db) = true →
  state ∈ ["pending"; "partial"; "deleted"; "failed"] →
  (∀ ts, Q tt (db <| db_video_tasks := ts |>)) →
  succeeds (update_deletion_state artifactID state now) Q db.
Proof.
  intros Ha Hv Hs HQ. apply list_elem_of_In, in_map_iff in Ha as (a & Ea & Ha%list_elem_of_In).
  destruct (List.find (λ a, ta_id a ≟ artifactID) (db_artifacts db)) as [a'|] eqn:E.
  - unfold update_deletion_state. succeed_stmts. eapply succeeds_one; [exact E|]. succeed_stmts.
    apply succeeds_update; [|by apply deletion_state_update|apply HQ].
    intros t _ _. by apply task_trigger_same.
  - rewrite find_none_iff in E. specialize (E a Ha). by rewrite bool_decide_eq_true_2 in E.
Qed.

Section settling.
Context (e : Env) (db : DB) (i : DeletionItem) (token : string).
Hypotheses (Hwf : wf db) (Hfk : items_have_artifacts db) (Hi : i ∈ db_deletion_items db).
Hypotheses (Ht : di_lease_token i = Some token) (Hs : di_status i = DiDeleting).

Lemma leased_found : List.find (leased_item (di_id i) token) (db_deletion_items db) = Some i.
Proof.
  apply (find_unique di_id); [apply items_valid, Hwf|done| |].
  - unfold leased_item. by rewrite Ht, Hs, !bool_decide_eq_true_2.
  - intros y. unfold leased_item. rewrite !andb_true_iff, !bool_decide_eq_true. tauto.
Qed.

Lemma FailDeletionItem_ok code message next terminal :
  ∃ db', FailDeletionItem e (di_id i) token code message next terminal db = (inr tt, db') ∧
    db_deletion_items db' = update_where (λ j, di_id j ≟ di_id i)
      (failed_as (nowMillis e) code message next terminal) (db_deletion_items db) ∧ same_frame db db'.
Proof.
  set (Q := λ (_ : unit) db', db_deletion_items db' = update_where (λ j, di_id j ≟ di_id i)
      (failed_as (nowMillis e) code message next terminal) (db_deletion_items db) ∧ same_frame db db').
  assert (∃ u db', FailDeletionItem e (di_id i) token code message next terminal db = (inr u, db') ∧ Q u db')
    as ([] & db' & ? & ?); [|by exists db'].
  unfold FailDeletionItem. apply succeeds_immediate. succeed_stmts.
  eapply succeeds_one; [apply leased_found|]. succeed_stmts.
  apply succeeds_update; [done|apply items_update; [done|naive_solver|apply Hwf]|]. succeed_stmts.
  apply succeeds_update; [done|apply locations_update; [|apply Hwf]|].
  { intros a. split_and!; try done. simpl. member. }
  succeed_stmts. apply succeeds_update; [done|apply jobs_update; [..|apply Hwf]|].
  { intros j. split_and!; try done. simpl. destruct (_ && _); [|member]. destruct (_ <? _); member. }
  { intros j ??. simpl. split_and!; try done. apply count_where_nonneg. }
  apply update_deletion_state_ok; simpl; [by apply Hfk|apply Hwf| |].
  { destruct (_ && _); [|member]. destruct (_ <? _); member. }
  intros ts. split; [done|]. split; simpl; [done|]. by rewrite map_update_where.
Qed.

Lemma CompleteDeletionItem_ok absent bytes :
  0 ≤ bytes →
  ∃ db', CompleteDeletionItem e (di_id i) token absent bytes db = (inr tt, db') ∧
    db_deletion_items db' = update_where (λ j, di_id j ≟ di_id i)
      (completed_as (nowMillis e) absent bytes) (db_deletion_items db) ∧ same_frame db db'.
Proof.
  intros Hb.
  set (Q := λ (_ : unit) db', db_deletion_items db' = update_where (λ j, di_id j ≟ di_id i)
      (completed_as (nowMillis e) absent bytes) (db_deletion_items db) ∧ same_frame db db').
  assert (∃ u db', CompleteDeletionItem e (di_id i) token absent bytes db = (inr u, db') ∧ Q u db')
    as ([] & db' & ? & ?); [|by exists db'].
  unfold CompleteDeletionItem. apply succeeds_immediate. succeed_stmts.
  eapply succeeds_one; [apply leased_found|]. succeed_stmts.
  apply succeeds_update; [done|apply items_update; [done|naive_solver|apply Hwf]|]. succeed_stmts.
  apply succeeds_update; [done|apply locations_update; [|apply Hwf]|].
  { intros a. split_and!; try done. simpl. destruct absent; member. }
  succeed_stmts.
  set (db1 := set_tbl _ _). set (remaining := count_where _ _).
  assert (∀ (Q' : unit → DB → Prop),
    (∀ l, tbl_valid l = true → map ta_id l = map ta_id (db_artifacts db) → Q' tt (db1 <| db_artifacts := l |>)) →
    succeeds (if remaining =? 0
      then exec_update (λ a, ta_id a ≟ di_artifact_id i)
            (λ a, a <| ta_state := "deleted" |> <| ta_deleted_at := Some (nowMillis e) |>) ;; mret tt
      else mret tt) Q' db1) as Hart.
  { intros Q' HQ'. destruct (_ =? 0).
    - succeed_stmts. apply succeeds_update; [done| |].
      + apply artifacts_deleted, Hwf.
      + succeed_stmts. apply HQ'; [apply artifacts_deleted, Hwf|]. simpl. by rewrite map_update_where.
    - succeed_stmts. apply (HQ' (db_artifacts db)); [apply Hwf|done]. }
  apply Hart. intros l Hl El. succeed_stmts.
  apply succeeds_update; [done|apply jobs_update; [..|apply Hwf]|].
  { intros j. split_and!; try done. simpl. repeat case_match; member. }
  { intros j ??. simpl. split_and!; try apply count_where_nonneg. lia. }
  succeed_stmts.
  assert (di_artifact_id i ∈ map ta_id l) as Ha by (rewrite El; by apply Hfk).
  pose proof Ha as Ha'. apply list_elem_of_In, in_map_iff in Ha' as (a & Ea & Hin%list_elem_of_In).
  destruct (List.find (λ a, ta_id a ≟ di_artifact_id i) l) as [a'|] eqn:E.
  2: { rewrite find_none_iff in E. specialize (E a Hin). by rewrite bool_decide_eq_true_2 in E. }
  eapply succeeds_one; [exact E|]. succeed_stmts.
  apply update_deletion_state_ok; simpl; [done|apply Hwf| |].
  { repeat case_match; member. }
  intros ts. split; [done|]. split; simpl; [done|]. by rewrite map_update_where.
Qed.
End settling.

(** ** A pass ends *)

Section termination.
Context (url_Parse : string → option URL) (Open : ModelServiceNode → option string).
Context (w : Worker).

(** Attempts that are left to an item, at least one while it is open. *)
Definition weight (i : DeletionItem) : nat :=
  if open_item i then Z.to_nat (Z.max 1 (maxAttempts w - di_attempt_count i)) else 0.
Definition load (db : DB) : nat := sum_list_with weight (db_deletion_items db).

Definition good (db : DB) : Prop := wf db ∧ items_have_artifacts db.

(** Nodes do not report a negative number of deleted bytes. *)
Definition answers_ok (X : Type) (c : CleanupE X) : X → Prop :=
  match c with
  | DeleteArtifacts _ _ _ _ _ _ => λ x,
      match x with inr items => Forall (λ r, 0 ≤ dr_DeletedBytes r) items | inl _ => True end
  end.

Lemma good_step keep db db' : step keep db db' → same_frame db db' → good db → good db'.
Proof. intros Hs Hf [Hw Ha]. split; [by apply (step_wf keep db)|by apply (frame_artifacts db)]. Qed.

(** The load after the row [i] was replaced. *)
Lemma load_replace db db' i i' :
  wf db → i ∈ db_deletion_items db →
  db_deletion_items db' = update_where (λ j, di_id j ≟ di_id i) (λ _, i') (db_deletion_items db) →
  (load db' + weight i = load db + weight i')%nat.
Proof.
  intros Hw Hi E. unfold load. rewrite E. apply (sum_update_key di_id); [apply items_valid, Hw|done].
Qed.

Section item.
Context (db : DB) (i : DeletionItem) (token : string).
Hypotheses (Hg : good db) (Hi : i ∈ db_deletion_items db).
Hypotheses (Ht : di_lease_token i = Some token) (Hs : di_status i = DiDeleting).

(** What is true after the claimed item is settled. *)
Definition lighter (_ : unit) (db' : DB) : Prop :=
  good db' ∧ (load db' + weight i < load db + Z.to_nat (Z.max 1 (maxAttempts w - (di_attempt_count i - 1))))%nat.

Lemma lighter_by keep db' f :
  step keep db db' → same_frame db db' →
  db_deletion_items db' = update_where (λ j, di_id j ≟ di_id i) f (db_deletion_items db) →
  (weight (f i) < Z.to_nat (Z.max 1 (maxAttempts w - (di_attempt_count i - 1))))%nat →
  lighter tt db'.
Proof.
  intros Hstep Hf E Hlt. split; [by apply (good_step keep db)|]. pose proof Hg as [Hw _].
  rewrite (update_by_key di_id _ _ _ i) in E.
  - rewrite (load_replace db db' i (f i)); [lia|done..].
  - apply items_valid, Hw.
  - done.
  - by rewrite bool_decide_eq_true_2.
  - intros j Hj%bool_decide_eq_true. done.
Qed.

Lemma fail_lighter code message terminal : ensures answers_ok (fail w i code message terminal) lighter db.
Proof.
  unfold fail. rewrite Ht. intros e1 e. simpl.
  set (term := terminal || _).
  destruct (FailDeletionItem_ok e db i token (proj1 Hg) (proj2 Hg) Hi Ht Hs code message
    (env_now e1 + Milliseconds (Z.min (2 ^ di_attempt_count i) 300 * Second)) term) as (db' & E & Ei & Hf).
  rewrite E. simpl. eapply (lighter_by ""); [|done|exact Ei|].
  { pose proof (step_FailDeletionItem "" e (di_id i) token code message
      (env_now e1 + Milliseconds (Z.min (2 ^ di_attempt_count i) 300 * Second)) term db) as Hstep.
    by rewrite E in Hstep. }
  unfold weight, open_item. simpl. destruct term eqn:Eterm.
  - assert ((DiFailed ∈? [DiPending; DiRetryWait; DiDeleting]) = false) as -> by done. lia.
  - apply orb_false_iff in Eterm as [_ Hm%Z.leb_gt]. destruct (_ ∈? _); lia.
Qed.

Lemma settle_lighter artifact items :
  Forall (λ r, 0 ≤ dr_DeletedBytes r) items → ensures answers_ok (settle w i artifact items) lighter db.
Proof.
  intros Hb. unfold settle. destruct items as [|r [|]]; [apply fail_lighter| |apply fail_lighter].
  apply Forall_cons in Hb as [Hb _]. destruct (negb _); [apply fail_lighter|].
  assert (∀ absent bytes, 0 ≤ bytes → ensures answers_ok
    (_ ← store (λ e, CompleteDeletionItem e (di_id i) token absent bytes); mret tt) lighter db) as Hc.
  { intros absent bytes Hb' e. simpl.
    destruct (CompleteDeletionItem_ok e db i token (proj1 Hg) (proj2 Hg) Hi Ht Hs absent bytes Hb')
      as (db' & E & Ei & Hf).
    rewrite E. simpl. eapply (lighter_by ""); [|done|exact Ei|].
    { pose proof (step_CompleteDeletionItem "" e (di_id i) token absent bytes db) as Hstep. by rewrite E in Hstep. }
    unfold weight, open_item. simpl. assert (((if absent then DiAlreadyAbsent else DiDeleted)
      ∈? [DiPending; DiRetryWait; DiDeleting]) = false) as -> by by destruct absent. lia. }
  rewrite Ht. destruct (_ ≟ "deleted"); [exact (Hc _ _ Hb)|].
  destruct (_ ≟ "already_absent"); [exact (Hc _ _ (Z.le_refl 0))|].
  destruct (_ ≟ "artifact_locked"); apply fail_lighter.
Qed.

Lemma process_lighter node : ensures answers_ok (process url_Parse Open w node i) lighter db.
Proof.
  intros e. simpl. destruct (GetArtifactLocation _ db) as [err|location]; [apply fail_lighter|].
  destruct (Open node) as [key|]; [|apply fail_lighter].
  destruct (url_Parse _) as [u|]; [|apply fail_lighter]. destruct (_ ≟ ""); [apply fail_lighter|].
  intros [status|items] Hok; [apply fail_lighter|by apply settle_lighter].
Qed.
End item.

Lemma drain_ends node fuel db :
  good db → (load db < fuel)%nat →
  ensures answers_ok (drain url_Parse Open w fuel node) (λ ended db', ended = true ∧ good db' ∧ (load db' ≤ load db)%nat) db.
Proof.
  revert db. induction fuel as [|fuel IH]; intros db Hg Hl; [lia|].
  cbn [drain]. apply ensures_bind. intros e1. apply ensures_bind. intros e. cbv beta.
  destruct (ClaimDeletionItem e (mn_id node) (env_uuid e1 0) (leaseDuration w) db) as [[err|item] db1] eqn:E.
  { split; [done|]. unfold ClaimDeletionItem in E. apply immediate_inl in E. by subst. }
  pose proof E as E'. apply ClaimDeletionItem_inr in E' as (i & Hi & Ho & Hn & Eitem & Ei & Hf); [|apply Hg].
  assert (good db1) as Hg1.
  { apply (good_step "" db); [|done..]. pose proof (step_ClaimDeletionItem "" e (mn_id node) (env_uuid e1 0)
      (leaseDuration w) db) as Hstep. by rewrite E in Hstep. }
  apply ensures_bind. eapply ensures_mono; [apply (process_lighter db1 item (env_uuid e1 0) Hg1)|].
  - rewrite Ei. apply elem_of_update_where. exists i. by rewrite bool_decide_eq_true_2.
  - by subst.
  - by subst.
  - intros [] db2 [Hg2 Hlt]. pose proof (load_replace db db1 i item (proj1 Hg) Hi Ei) as Hr.
    assert (weight i = Z.to_nat (Z.max 1 (maxAttempts w - (di_attempt_count item - 1)))) as Hw0.
    { unfold weight. rewrite Ho. subst item. simpl. f_equal. lia. }
    eapply ensures_mono; [apply IH; [done|lia]|]. intros ended db3 (-> & Hg3 & Hle). split_and!; [done..|lia].
Qed.

Lemma drain_nodes_ends nodes fuel db :
  good db → (load db < fuel)%nat →
  ensures answers_ok (drain_nodes url_Parse Open w fuel nodes) (λ ended db', ended = true ∧ (load db' ≤ load db)%nat) db.
Proof.
  revert db. induction nodes as [|node nodes IH]; intros db Hg Hl; [done|]. intros stop. simpl.
  destruct (_ || _); [by apply IH|]. apply ensures_bind. eapply ensures_mono; [by apply drain_ends|].
  intros ended db1 (-> & Hg1 & Hle). eapply ensures_mono; [apply IH; [done|lia]|].
  intros ended db2 [-> ?]. split; [done|lia].
Qed.

End termination.

(** A node that reports a negative number of bytes is never believed: the CHECK
    of artifact_deletion_items refuses the row, the item stays claimed, and no
    attempt limit applies to it. *)
Lemma CompleteDeletionItem_negative e db i token absent bytes :
  wf db → i ∈ db_deletion_items db → di_lease_token i = Some token → di_status i = DiDeleting → bytes < 0 →
  CompleteDeletionItem e (di_id i) token absent bytes db = (inl ErrConstraint, db).
Proof.
  intros Hw Hi Ht Hs Hb. unfold CompleteDeletionItem, immediate, mbind, tx_bind, select_one, ask.
  cbn [tbl deletion_items_table]. rewrite (leased_found db i token) by done. simpl.
  destruct (exec_update _ _ db) as [n db'|err db'] eqn:E.
  - apply exec_update_Done in E as (_ & _ & _ & Hv). cbn in Hv. rewrite !andb_true_iff in Hv.
    destruct Hv as [_ Hv]. rewrite forallb_forall in Hv. exfalso.
    specialize (Hv (completed_as (nowMillis e) absent bytes i)).
    cbn in Hv. rewrite andb_true_iff, !Z.leb_le in Hv. destruct Hv as [_ ?]; [|lia].
    apply list_elem_of_In, elem_of_update_where. exists i. by rewrite bool_decide_eq_true_2.
  - unfold exec_update in E. destruct (_ && _); [done|]. by injection E as <- <-.
Qed.
