(* ===== verification/Samples.v ===== *)
(** * Sample runs

    Databases reached from the empty one by the operations themselves, one run
    per protocol.  The witnesses apply the theorems at them. *)

From stdpp Require Import relations.
From S2P Require Import Prelude Domain Tx Database Sql GoStrings Catalog Paging TaskRouting Callbacks Queue Stages Artifacts Remote Tasks Official Delivery Nodes Normalize Router Lifecycle Reachable.

(** ** The environment and the inputs of the runs *)

(** A clock at [ms], identifiers that carry [tag], a digest of 64 characters. *)
Definition env_at (ms : Z) (tag : string) : Env :=
  mkEnv ms (λ k, String.append tag (String.concat "" (replicate k "i")))
    (λ _, String.concat "" (replicate 64 "0"))
    (λ task status, String.concat ":" [task; status]) (λ _, true) (λ _, true).

Definition options : Options := mkOptions 1 2 3 (86400 * Second) (3600 * Second).

Definition node_input (id protocol : string) (enabled : bool) : ModelNodeInput :=
  mkNodeInput id (String.append "https://" id) protocol "fp" "" 2 false false None
    "" "" "" "" "" "" (5000 * Millisecond) (30000 * Millisecond) enabled.

Definition text_content : GenerationContent := mkContent "text" "a cat" None None None "".

Definition request (model : string) : GenerationRequest :=
  mkRequest model [text_content] "768P" 6 "16:9" None None true.

(** A task of the protocol [protocol], with or without a callback. *)
Definition new_task (protocol id model : string) (callback : bool) (stages : list NewTaskStage)
    : NewTask :=
  mkNewTask protocol None "" 0 id "key" model "t2va" (JsonOf (request model))
    (String.append "hash-" id) "768P" "16:9" 6 0 (if callback then "cipher" else "")
    (if callback then "nonce" else "") (if callback then String.append "cb-" id else "")
    (if callback then "body" else "") (if callback then "bodyhash" else "")
    "" "" "" 0 stages [].

Definition new_stages (id : string) : list NewTaskStage :=
  [mkNewTaskStage (String.append id "-s0") "generation" "{}" 0 3;
   mkNewTaskStage (String.append id "-s1") "interpolation" "{}" 1 3].

(** ** The runs *)

(** Two tasks for a legacy node; the first is claimed and finished. *)
Definition legacy_1 : DB := (Create (env_at 100000 "a") options
  (new_task ProtocolLegacy "t1" "MiniMax-H3" true []) "k1" true empty_DB).2.
Definition legacy_2 : DB := (Create (env_at 101000 "b") options
  (new_task ProtocolLegacy "t2" "MiniMax-H3" true []) "k2" true legacy_1).2.
Definition legacy_3 : DB := (ClaimNext (env_at 102000 "c") options "gradio" None legacy_2).2.
Definition legacy_4 : DB := (MarkFailed (env_at 103000 "d") "t1" "gradio" "code" "text" legacy_3).2.

(** A task of two stages on an H3 node, up to the running execution of the
    first stage. *)
Definition h3_1 : DB :=
  (CreateModelNode (env_at 100000 "a") (node_input "h3" ProtocolH3 true) empty_DB).2.
Definition h3_2 : DB := (Create (env_at 101000 "b") options
  (new_task ProtocolH3 "t1" "MiniMax-H3" true (new_stages "t1")) "" true h3_1).2.
Definition h3_3 : DB := (ClaimStage (env_at 102000 "c") "h3" "lease" (60 * Second) h3_2).2.
Definition h3_4 : DB := (CreateStageAttempt (env_at 103000 "d") options
  (mkStageAttempt "a1" "t1-s0" 1 "op1" "h3" None AtDispatching None None None None None 0 None
     None) "lease" h3_3).2.
Definition h3_5 : DB :=
  (BindStageExecution (env_at 104000 "e") "t1-s0" "lease" "a1" "x1" h3_4).2.

(** A task on an official node whose result is uploaded to the object
    storage. *)
Definition official_1 : DB :=
  (CreateModelNode (env_at 100000 "a") (node_input "off" ProtocolOfficial true) empty_DB).2.
Definition official_2 : DB := (Create (env_at 101000 "b") options
  (new_task ProtocolOfficial "t1" "MiniMax-H3" true []) "" true official_1).2.
Definition official_3 : DB :=
  (ClaimNextOfficial (env_at 102000 "c") options "off" 1 2 official_2).2.
Definition official_4 : DB := (MarkOfficialGenerated (env_at 103000 "d") "t1" "off"
  "https://origin/video" "16:9" (Some ("job", "objects/t1")) official_3).2.
Definition official_5 : DB := (ClaimResultUploadJob (env_at 104000 "e") (env_at 104000 "f") "lease"
  (60 * Second) official_4).2.

(** A node of the remote protocol: its models are discovered, one is enabled
    by the administrator, and a task of it is submitted. *)
Definition discovered : NodeModel :=
  mkNodeModel "seed" false true true (BuiltinCapability ProtocolTK2SD).
Definition remote_1 : DB :=
  (CreateModelNode (env_at 100000 "a") (node_input "rem" ProtocolTK2SD false) empty_DB).2.
Definition remote_2 : DB :=
  (RefreshModelCatalog (env_at 101000 "b") "rem" 1 1 [discovered] "" remote_1).2.
Definition remote_3 : DB := (UpdateModelNode (env_at 102000 "c") "rem" 1
  ((node_input "rem" ProtocolTK2SD true) <| ni_ModelCatalog := Some (mkModelCatalog "rem"
     "discovered" 2 "ready" "" 101 101 1901 "" [discovered <| nmd_Enabled := true |>]) |>)
  remote_2).2.
Definition remote_4 : DB := (Create (env_at 103000 "d") options
  (new_task ProtocolTK2SD "t1" "seed" true []) "" true remote_3).2.
Definition admission : TK2SDAdmission := mkAdmission 4 1 0 0 true [].
Definition remote_5 : DB :=
  (ClaimNextRemote (env_at 104000 "e") options "rem" 2 2 [admission] remote_4).2.
Definition remote_6 : DB :=
  (AcquireRemoteLease (env_at 105000 "f") "t1" "rem" "lease" (60 * Second) remote_5).2.
(** What the worker knows of the run it leased. *)
Definition leased_run : RemoteRun :=
  mkRemoteRun "t1" "rem" RemotePreparing "" None None None None CancelNone false 0
    (Some "lease") None None "" 0 0.
Definition remote_7 : DB := (PrepareRemoteRequest (env_at 106000 "g") leased_run "{}" remote_6).2.
Definition remote_8 : DB := (BeginRemoteSubmission (env_at 107000 "h") leased_run remote_7).2.
Definition remote_9 : DB := (BindRemoteTask (env_at 108000 "i") leased_run "up-1" remote_8).2.
Definition completion : RemoteCompletion :=
  mkCompletion "succeeded" "https://remote/video" 9000 "" "ready" "16:9" "" "" None None.

(** ** The runs are histories of the store *)

Lemma reachable_step db db' : reachable db → any_step db db' → reachable db'.
Proof. apply rtc_r. Qed.

Ltac reach db c := unfold db; eapply reachable_step; [|exists ""; apply c].

Lemma legacy_2_reachable : reachable legacy_2.
Proof. reach legacy_2 step_Create. reach legacy_1 step_Create. apply rtc_refl. Qed.

Lemma legacy_4_reachable : reachable legacy_4.
Proof.
  reach legacy_4 step_MarkFailed. reach legacy_3 step_ClaimNext. apply legacy_2_reachable.
Qed.

Lemma h3_4_reachable : reachable h3_4.
Proof.
  reach h3_4 step_CreateStageAttempt. reach h3_3 step_ClaimStage. reach h3_2 step_Create.
  reach h3_1 step_CreateModelNode. apply rtc_refl.
Qed.

Lemma h3_5_reachable : reachable h3_5.
Proof. reach h3_5 step_BindStageExecution. apply h3_4_reachable. Qed.

Lemma official_3_reachable : reachable official_3.
Proof.
  reach official_3 step_ClaimNextOfficial. reach official_2 step_Create.
  reach official_1 step_CreateModelNode. apply rtc_refl.
Qed.

Lemma official_4_reachable : reachable official_4.
Proof. reach official_4 step_MarkOfficialGenerated. apply official_3_reachable. Qed.

Lemma official_5_reachable : reachable official_5.
Proof. reach official_5 step_ClaimResultUploadJob. apply official_4_reachable. Qed.

Lemma remote_5_reachable : reachable remote_5.
Proof.
  reach remote_5 step_ClaimNextRemote. reach remote_4 step_Create.
  reach remote_3 step_UpdateModelNode. reach remote_2 step_RefreshModelCatalog.
  reach remote_1 step_CreateModelNode. apply rtc_refl.
Qed.

Lemma remote_9_reachable : reachable remote_9.
Proof.
  reach remote_9 step_BindRemoteTask. reach remote_8 step_BeginRemoteSubmission.
  reach remote_7 step_PrepareRemoteRequest. reach remote_6 step_AcquireRemoteLease.
  apply remote_5_reachable.
Qed.
