(* ===== verification/Witnesses.v ===== *)
(** * The theorems at concrete runs

    One lemma per theorem with hypotheses: the theorem applied at a run of
    [Samples], its hypotheses evaluated. *)

From stdpp Require Import relations.
From S2P Require Import Prelude Domain Tx Database Sql GoStrings Catalog Paging TaskRouting Callbacks Queue Stages Artifacts Remote Tasks Official Delivery Nodes Normalize Router Lifecycle Reachable Samples.

(** [run op] executes an operation that succeeds and names its result. *)
Ltac run op r db :=
  let E := fresh "Hrun" in
  destruct op as [[?|r] db] eqn:E; [vm_compute in E; discriminate|].
Ltac by_eval := vm_compute; reflexivity.

(** ** Capabilities, routing and the queue *)

Definition frame_request : TaskRequirements :=
  mkRequirements "i2va" 6 "768P" ["first_frame"] ["https"] 1.

Lemma Accepts_sound_witness :
  ∃ m, m ∈ cap_Modes (BuiltinCapability ProtocolH3) ∧ mode_admits frame_request m.
Proof.
  exact (proj1 (Accepts_sound (BuiltinCapability ProtocolH3) frame_request ltac:(by_eval))).
Defined.

Lemma nextEligibleTask_refines_witness :
  nextEligibleTask_loop (S (length (db_video_tasks legacy_2))) legacy_2 "gradio" 102 0 =
  Some (first_eligible "gradio" 102 legacy_2).
Proof. apply nextEligibleTask_refines. by_eval. Defined.

Lemma nextEligibleTask_fifo_witness :
  ∃ t, nextEligibleTask "gradio" 102 legacy_2 = inr t ∧ next_for_node legacy_2 "gradio" 102 t.
Proof.
  pose proof (nextEligibleTask_fifo legacy_2 "gradio" 102 ltac:(by_eval)) as H.
  destruct (nextEligibleTask "gradio" 102 legacy_2) as [err|t] eqn:E;
    [vm_compute in E; discriminate|]. exists t. split; [reflexivity|exact H].
Defined.

Lemma routeWith_ready_witness :
  ∃ route revision, routeWith "MiniMax-H3" h3_1 = inr (route, revision) ∧
    offers h3_1 "MiniMax-H3" (ro_ProtocolVersion route).
Proof.
  destruct (routeWith "MiniMax-H3" h3_1) as [err|[route revision]] eqn:E;
    [vm_compute in E; discriminate|].
  assert (ro_State route = "ready") as Hr by (vm_compute in E; injection E as <- _; reflexivity).
  exists route, revision. split; [reflexivity|].
  destruct (proj1 (routeWith_ready _ _ _ _ E) Hr) as (_ & H & _). exact H.
Defined.

Lemma BindModelRoute_ready_witness :
  ∃ route revision db',
    BindModelRoute (env_at 102000 "c") "MiniMax-H3" ProtocolH3 "admin" 1 2 h3_1 =
      (inr (route, revision), db') ∧ ro_State route = "ready" ∧ revision = 3.
Proof.
  destruct (BindModelRoute (env_at 102000 "c") "MiniMax-H3" ProtocolH3 "admin" 1 2 h3_1)
    as [[err|[route revision]] db'] eqn:E; [vm_compute in E; discriminate|].
  exists route, revision, db'. split; [reflexivity|].
  apply BindModelRoute_ready in E as (_ & _ & _ & _ & _ & Hr & Hs & _); [|by_eval].
  split; [exact Hs|exact Hr].
Defined.

Lemma RefreshModelCatalog_safe_witness :
  ∃ c db', RefreshModelCatalog (env_at 101000 "b") "rem" 1 1 [discovered] "" remote_1 =
    (inr c, db') ∧ refreshed remote_1 "rem" [discovered] db'.
Proof.
  run (RefreshModelCatalog (env_at 101000 "b") "rem" 1 1 [discovered] "" remote_1) c db'.
  exists c, db'. split; [reflexivity|]. exact (proj1 (RefreshModelCatalog_safe _ _ _ _ _ _ _ _ Hrun)).
Defined.

Lemma PublicStatus_sql_witness :
  Forall (λ t, taskPublicStatusSQL remote_9 t = PublicStatus remote_9 t)
    (db_video_tasks remote_9).
Proof. apply Forall_true. intros t. apply PublicStatus_sql. by_eval. Defined.

Definition second_page : AdminTaskFilter := mkAdminTaskFilter "" "" None AnyStatus "" "" 2 1.

Lemma ListAdminTasks_page_witness :
  ListAdminTasks (env_at 102000 "c") second_page legacy_2 =
  (map (λ t, (t, taskPublicStatusSQL legacy_2 t))
     (take 1 (drop 1 (newest_first
        (List.filter (admin_matches (env_at 102000 "c") legacy_2 second_page)
           (db_video_tasks legacy_2))))), 2).
Proof.
  exact (ListAdminTasks_page (env_at 102000 "c") second_page legacy_2
    ltac:(vm_compute; split; discriminate) ltac:(vm_compute; split; discriminate)
    ltac:(vm_compute; discriminate)).
Defined.

Lemma rebalance_exact_witness :
  ∃ ts, rebalance options 102 legacy_2 = Done tt (legacy_2 <| db_video_tasks := ts |>) ∧
    Forall2 (rebalanced_row options 102 (db_video_tasks legacy_2)) (db_video_tasks legacy_2) ts.
Proof. apply rebalance_exact. by_eval. Defined.

(** ** Callbacks *)

Lemma createCallback_once_witness :
  ∃ db', createCallbackDeliveryWithConn (env_at 103000 "d") 0 "t1" "running" 103000 legacy_3 =
      Done tt db' ∧
    createCallbackDeliveryWithConn (env_at 104000 "e") 0 "t1" "failed" 104000 db' = Done tt db'.
Proof.
  destruct (List.find (λ t, vt_task_id t ≟ "t1") (db_video_tasks legacy_3)) as [t|] eqn:Et;
    [|vm_compute in Et; discriminate].
  destruct (createCallbackDeliveryWithConn (env_at 103000 "d") 0 "t1" "running" 103000 legacy_3)
    as [[] db'|err db'] eqn:E; [|vm_compute in E; discriminate].
  exists db'. split; [reflexivity|].
  destruct (createCallback_once _ _ _ _ _ _ _ _ _ Et E) as (_ & _ & H). apply H.
Defined.

Lemma ClaimCallbackDelivery_exclusive_witness :
  ∃ d db', ClaimCallbackDelivery 103000 163000 legacy_2 = (inr d, db') ∧
    callback_due 103000 d = true.
Proof.
  run (ClaimCallbackDelivery 103000 163000 legacy_2) d db'.
  exists d, db'. split; [reflexivity|].
  apply ClaimCallbackDelivery_exclusive in Hrun as (_ & H & _); [exact H|by_eval].
Defined.

(** ** Stages *)

Lemma nextEligibleStage_refines_witness :
  nextEligibleStage_loop (stage_fuel h3_2) h3_2 "h3" 102000 (0, -1) =
  Some (first_stage "h3" 102000 h3_2).
Proof. apply nextEligibleStage_refines; by_eval. Defined.

Lemma ClaimStage_sound_witness :
  ∃ s db', ClaimStage (env_at 102000 "c") "h3" "lease" (60 * Second) h3_2 = (inr s, db') ∧
    ∃ s0, next_stage h3_2 "h3" 102000 s0 ∧ s = leased "h3" "lease" 102000 162000 s0.
Proof.
  run (ClaimStage (env_at 102000 "c") "h3" "lease" (60 * Second) h3_2) s db'.
  exists s, db'. split; [reflexivity|].
  apply ClaimStage_sound in Hrun as (_ & s0 & t & H1 & H2); [|by_eval..].
  exists s0. split; [exact H1|]. destruct_and!. done.
Defined.

Lemma CompleteStage_once_witness :
  ∃ db', CompleteStage (env_at 105000 "f") "t1-s0" "lease" "a1" "out" h3_5 = (inr tt, db') ∧
    ∃ s0, completable "t1-s0" "lease" s0 = true ∧
      ∃ err, CompleteStage (env_at 106000 "g") "t1-s0" "lease" "a1" "out" db' = (inl err, db').
Proof.
  run (CompleteStage (env_at 105000 "f") "t1-s0" "lease" "a1" "out" h3_5) u db'. destruct u.
  exists db'. split; [reflexivity|].
  apply CompleteStage_once in Hrun as (s0 & _ & H1 & _ & _ & H2); [|by_eval].
  exists s0. split; [exact H1|apply H2].
Defined.

Lemma BindStageExecution_lost_lease_witness :
  BindStageExecution (env_at 104000 "e") "t1-s0" "stale" "a1" "x1" h3_4 =
  (inl ErrStateConflict,
   h3_4 <| db_stage_attempts := update_where (bindable "t1-s0" "a1" "x1")
             (bound_attempt "x1" 104000) (db_stage_attempts h3_4) |>).
Proof.
  apply BindStageExecution_lost_lease; [by_eval..|].
  intros s Hs _ _. revert s Hs. apply Forall_forall. vm_compute. repeat constructor; discriminate.
Defined.

Lemma RequestAdminCancel_barrier_witness :
  ∃ db', RequestAdminCancel (env_at 105000 "f") options "t1" h3_5 = (inr tt, db') ∧
    task_stopped db' "t1" ∧
    ClaimStage (env_at 106000 "g") "h3" "next" (60 * Second) db' = (inl ErrNoClaimableStage, db').
Proof.
  destruct (head (active_attempts "t1" h3_5)) as [[s a]|] eqn:Ea; [|vm_compute in Ea; discriminate].
  assert (sa_node_id a = "h3") as En by (vm_compute in Ea; injection Ea as _ <-; reflexivity).
  run (RequestAdminCancel (env_at 105000 "f") options "t1" h3_5) u db'. destruct u.
  exists db'. split; [reflexivity|].
  destruct (RequestAdminCancel_barrier (env_at 105000 "f") options "t1" h3_5 db' s a ltac:(by_eval) Ea
    ltac:(intros t Ht _; revert t Ht; apply Forall_forall; vm_compute; repeat constructor) Hrun)
    as [H1 H2].
  split; [exact H1|]. rewrite <-En. apply H2.
Defined.

(** ** Remote runs *)

Lemma ClaimNextRemote_sound_witness :
  ∃ t db', ClaimNextRemote (env_at 104000 "e") options "rem" 2 2 [admission] remote_4 =
      (inr t, db') ∧ t ∈ db_video_tasks db'.
Proof.
  run (ClaimNextRemote (env_at 104000 "e") options "rem" 2 2 [admission] remote_4) t db'.
  exists t, db'. split; [reflexivity|].
  apply ClaimNextRemote_sound in Hrun as (n & s & _ & _ & _ & H & _); [exact H|by_eval].
Defined.

Lemma AcquireRemoteLease_exclusive_witness :
  ∃ r db', AcquireRemoteLease (env_at 105000 "f") "t1" "rem" "lease" (60 * Second) remote_5 =
      (inr r, db') ∧
    AcquireRemoteLease (env_at 164000 "g") "t1" "rem" "other" (60 * Second) db' =
      (inl ErrStateConflict, db').
Proof.
  run (AcquireRemoteLease (env_at 105000 "f") "t1" "rem" "lease" (60 * Second) remote_5) r db'.
  exists r, db'. split; [reflexivity|].
  apply AcquireRemoteLease_exclusive in Hrun as (_ & _ & _ & _ & _ & _ & H); [|by_eval].
  apply H. by_eval.
Defined.

Lemma CompleteRemoteRun_once_witness :
  ∃ db', CompleteRemoteRun (env_at 109000 "j") leased_run completion remote_9 = (inr tt, db') ∧
    CompleteRemoteRun (env_at 110000 "k") leased_run completion db' = (inl ErrStateConflict, db').
Proof.
  run (CompleteRemoteRun (env_at 109000 "j") leased_run completion remote_9) u db'. destruct u.
  exists db'. split; [reflexivity|].
  apply CompleteRemoteRun_once in Hrun as (up & fin & r & t0 & t & H); [|by_eval..].
  destruct_and! H. auto.
Defined.

(** ** Tasks *)

Lemma ClaimNext_sound_witness :
  ∃ t db', ClaimNext (env_at 102000 "c") options "gradio" None legacy_2 = (inr t, db') ∧
    t ∈ db_video_tasks db'.
Proof.
  run (ClaimNext (env_at 102000 "c") options "gradio" None legacy_2) t db'.
  exists t, db'. split; [reflexivity|].
  apply ClaimNext_sound in Hrun as (_ & _ & _ & H & _); [exact H|by_eval].
Defined.

Lemma Create_admits_witness :
  ∃ t db', Create (env_at 101000 "b") options (new_task ProtocolLegacy "t2" "MiniMax-H3" true [])
      "k2" true legacy_1 = (inr t, db') ∧
    count_where (unfinished_of "key") (db_video_tasks db') ≤ 2.
Proof.
  run (Create (env_at 101000 "b") options (new_task ProtocolLegacy "t2" "MiniMax-H3" true [])
    "k2" true legacy_1) t db'.
  exists t, db'. split; [reflexivity|].
  apply Create_admits in Hrun as (_ & H & _); [exact H|right; by_eval].
Defined.

Lemma Create_replay_witness :
  ∃ t db', Create (env_at 101000 "b") options (new_task ProtocolLegacy "t2" "MiniMax-H3" true [])
      "k2" true legacy_1 = (inr t, db') ∧
    Create (env_at 200000 "r") options (new_task ProtocolLegacy "t9" "MiniMax-H3" false []) "k2"
      false db' = (inl ErrIdempotencyConflict, db').
Proof.
  run (Create (env_at 101000 "b") options (new_task ProtocolLegacy "t2" "MiniMax-H3" true [])
    "k2" true legacy_1) t db'.
  assert (200 < vt_expires t) as Hexp by (vm_compute in Hrun; injection Hrun as <- _; by_eval).
  exists t, db'. split; [reflexivity|].
  exact (Create_replay (env_at 101000 "b") options
    (new_task ProtocolLegacy "t2" "MiniMax-H3" true []) "k2" true legacy_1 t db' (env_at 200000 "r") options
    (new_task ProtocolLegacy "t9" "MiniMax-H3" false []) false
    ltac:(discriminate) ltac:(right; by_eval) Hrun eq_refl ltac:(by_eval) Hexp).
Defined.


Lemma AdminDelete_upload_job_witness :
  ∃ err, AdminDelete "t1" None official_4 = (inl err, official_4).
Proof.
  destruct (db_upload_jobs official_4) as [|j js] eqn:E; [vm_compute in E; discriminate|].
  apply (AdminDelete_upload_job "t1" None official_4 j); [by_eval|rewrite E; left|].
  vm_compute in E. injection E as <- _. reflexivity.
Defined.

Lemma ClaimNextOfficial_sound_witness :
  ∃ t db', ClaimNextOfficial (env_at 102000 "c") options "off" 1 2 official_2 = (inr t, db') ∧
    ActiveOfficialCount "off" db' ≤ 2.
Proof.
  run (ClaimNextOfficial (env_at 102000 "c") options "off" 1 2 official_2) t db'.
  exists t, db'. split; [reflexivity|].
  apply ClaimNextOfficial_sound in Hrun as (n & s & _ & _ & _ & _ & H & _); [exact H|by_eval].
Defined.

(** ** Delivery *)

Lemma ClaimResultUploadJob_exclusive_witness :
  ∃ j db', ClaimResultUploadJob (env_at 104000 "e") (env_at 104000 "f") "lease" (60 * Second)
      official_4 = (inr j, db') ∧ 1 ≤ uj_attempt_no j ≤ uj_max_attempts j.
Proof.
  run (ClaimResultUploadJob (env_at 104000 "e") (env_at 104000 "f") "lease" (60 * Second)
    official_4) j db'.
  exists j, db'. split; [reflexivity|].
  apply ClaimResultUploadJob_exclusive in Hrun as (_ & H & _); [exact H|by_eval].
Defined.

Lemma CompleteResultUpload_once_witness :
  ∃ db', CompleteResultUpload (env_at 105000 "g") "job" "lease" "https://public/video" 10
      official_5 = (inr tt, db') ∧
    ∃ t, t ∈ db_video_tasks db' ∧ vt_status t = StatusSucceeded.
Proof.
  run (CompleteResultUpload (env_at 105000 "g") "job" "lease" "https://public/video" 10
    official_5) u db'. destruct u.
  exists db'. split; [reflexivity|].
  apply CompleteResultUpload_once in Hrun as (j & t0 & t & H); [|by_eval..].
  exists t. destruct_and! H. auto.
Defined.

Lemma FailResultUploadAttempt_outcome_witness :
  ∃ db', FailResultUploadAttempt (env_at 105000 "g") "job" "lease" "timeout" "text" true 165000
      official_5 = (inr tt, db') ∧
    ∃ j, j ∈ db_upload_jobs official_5 ∧ uploading "job" "lease" j = true.
Proof.
  run (FailResultUploadAttempt (env_at 105000 "g") "job" "lease" "timeout" "text" true 165000
    official_5) u db'. destruct u.
  exists db'. split; [reflexivity|].
  apply FailResultUploadAttempt_outcome in Hrun as (j & H1 & H2 & _); [|by_eval..].
  exists j. split; [exact H1|exact H2].
Defined.

(** ** Nodes *)

Lemma DeleteModelNode_safe_witness :
  ∃ db', DeleteModelNode (env_at 101000 "b") "rem" 1 remote_1 = (inr tt, db') ∧
    db_routing_revision db' = db_routing_revision remote_1 + 1.
Proof.
  run (DeleteModelNode (env_at 101000 "b") "rem" 1 remote_1) u db'. destruct u.
  exists db'. split; [reflexivity|].
  apply DeleteModelNode_safe in Hrun as (_ & _ & _ & _ & _ & H); [exact H|by_eval].
Defined.

Lemma UpdateModelNode_connection_witness :
  ∃ n db', UpdateModelNode (env_at 105000 "f") "h3" 1 (node_input "h3" ProtocolH3 false) h3_5 =
      (inr n, db') ∧ mn_id n = "h3" ∧ mn_version n = 2.
Proof.
  destruct (List.find (live_node "h3") (db_nodes h3_5)) as [old|] eqn:Eo;
    [|vm_compute in Eo; discriminate].
  assert (mn_protocol_version old = ProtocolH3) as Ep
    by (vm_compute in Eo; injection Eo as <-; reflexivity).
  run (UpdateModelNode (env_at 105000 "f") "h3" 1 (node_input "h3" ProtocolH3 false) h3_5) n db'.
  exists n, db'. split; [reflexivity|].
  apply (UpdateModelNode_connection _ _ _ _ _ _ _ old) in Hrun as (H1 & H2 & _);
    [split; [exact H1|exact H2]|by_eval|exact Eo|rewrite Ep; discriminate|by_eval].
Defined.

(** ** Requests and routes *)

(** An image without a role, and no ratio: both are filled in. *)
Definition image_request : GenerationRequest :=
  mkRequest "MiniMax-H3" [text_content; mkContent "image_url" "" (Some "https://host/a.png") None
    None ""] "768P" 6 "" None None true.

Lemma ValidateCreate_sound_witness :
  ∃ v, ValidateCreate (λ _, true) image_request None = inr v ∧
    valid_request (vr_Request v) (vr_Scenario v).
Proof.
  destruct (ValidateCreate (λ _, true) image_request None) as [err|v] eqn:E;
    [vm_compute in E; discriminate|].
  exists v. split; [reflexivity|exact (ValidateCreate_sound _ _ _ _ E)].
Defined.

Lemma ValidateCreate_idempotent_witness :
  ∃ v, ValidateCreate (λ _, true) image_request None = inr v ∧
    ValidateCreate (λ _, true) (vr_Request v) None = inr v.
Proof.
  destruct (ValidateCreate (λ _, true) image_request None) as [err|v] eqn:E;
    [vm_compute in E; discriminate|].
  exists v. split; [reflexivity|exact (ValidateCreate_idempotent _ _ _ _ E)].
Defined.

Lemma Normalize_sound_witness :
  ∃ n, Normalize (λ _, true) ProtocolTK2SD (request "seed") (BuiltinCapability ProtocolTK2SD) =
      inr n ∧ Accepts (BuiltinCapability ProtocolTK2SD) (nr_Requirements n) = true.
Proof.
  destruct (Normalize (λ _, true) ProtocolTK2SD (request "seed") (BuiltinCapability ProtocolTK2SD))
    as [err|n] eqn:E; [vm_compute in E; discriminate|].
  exists n. split; [reflexivity|]. apply Normalize_sound in E. tauto.
Defined.

Lemma Resolve_sound_witness :
  ∃ d, Resolve (λ _, true) (sqlite_store remote_3) (λ _, true) 103 (request "seed") = inr d ∧
    justified (λ _, true) (sqlite_store remote_3) (λ _, true) 103 (request "seed") d.
Proof.
  destruct (Resolve (λ _, true) (sqlite_store remote_3) (λ _, true) 103 (request "seed"))
    as [err|d] eqn:E; [vm_compute in E; discriminate|].
  exists d. split; [reflexivity|exact (Resolve_sound _ _ _ _ _ _ E)].
Defined.

(** The task the handler would create from a decision. *)
Definition decided_task (d : Decision_) : NewTask :=
  (new_task ProtocolTK2SD "t1" "seed" false [])
    <| nt_ProtocolVersion := rs_ProtocolVersion (dc_Snapshot d) |>
    <| nt_RoutingSnapshotJSON := Some (JsonOf (dc_Snapshot d)) |>
    <| nt_RoutingRevision := rs_RoutingRevision (dc_Snapshot d) |>.

Lemma Resolve_prepare_witness :
  ∃ d inp', Resolve (λ _, true) (sqlite_store remote_3) (λ _, true) 103 (request "seed") = inr d ∧
    prepareTaskRouting (env_at 103000 "d") (decided_task d) remote_3 = inr inp'.
Proof.
  destruct (Resolve (λ _, true) (sqlite_store remote_3) (λ _, true) 103 (request "seed"))
    as [err|d] eqn:E; [vm_compute in E; discriminate|].
  assert (Forall (λ id, ∃ c, catalogWith id remote_3 = inr c)
    (routable_nodes (env_at 103000 "d") (rs_ProtocolVersion (dc_Snapshot d)) "seed" remote_3)) as Hc.
  { vm_compute in E. injection E as <-. vm_compute. repeat constructor. eexists. reflexivity. }
  destruct (Resolve_prepare (λ _, true) (env_at 103000 "d") (λ _, true) (request "seed") d
    (decided_task d) remote_3 E ltac:(vm_compute; discriminate) ltac:(by_eval)
    ltac:(apply Forall_forall; exact Hc) eq_refl eq_refl eq_refl eq_refl) as (inp' & H & _).
  exists d, inp'. split; [reflexivity|exact H].
Defined.

(** ** Histories *)

Lemma history_task_witness :
  ∃ t t', t ∈ db_video_tasks h3_3 ∧ t' ∈ db_video_tasks h3_5 ∧ task_evolves t t'.
Proof.
  destruct (db_video_tasks h3_3) as [|t ts] eqn:E; [vm_compute in E; discriminate|].
  destruct (history_task "t1" h3_3 h3_5 t) as (t' & H1 & H2).
  - apply (rtc_l _ h3_3 h3_4); [unfold h3_4; apply step_CreateStageAttempt|].
    apply rtc_once. unfold h3_5. apply step_BindStageExecution.
  - rewrite E. left.
  - vm_compute in E. injection E as <- _. reflexivity.
  - exists t, t'. split; [left|split; [exact H1|exact H2]].
Defined.

Lemma history_run_witness :
  ∃ r r', r ∈ db_remote_runs remote_7 ∧ r' ∈ db_remote_runs remote_9 ∧ run_evolves r r'.
Proof.
  destruct (db_remote_runs remote_7) as [|r rs] eqn:E; [vm_compute in E; discriminate|].
  destruct (history_run "t1" remote_7 remote_9 r) as (r' & H1 & H2).
  - apply (rtc_l _ remote_7 remote_8); [unfold remote_8; apply step_BeginRemoteSubmission|].
    apply rtc_once. unfold remote_9. apply step_BindRemoteTask.
  - rewrite E. left.
  - vm_compute in E. injection E as <- _. reflexivity.
  - exists r, r'. split; [left|split; [exact H1|exact H2]].
Defined.

