(* ===== verification/WorkerWitnesses.v ===== *)
(** * The theorems on workers and settings at concrete runs

    One lemma per theorem with hypotheses: a pass of a worker over a database
    of [Samples], with a service that answers by a function. *)

From stdpp Require Import relations.
From Stdlib Require Import SpecFloat.
From S2P Require Import Prelude Domain Tx Database Sql Workers GoStrings GoNet Netguard Catalog Paging TaskRouting Callbacks Queue Stages Artifacts Remote Tasks Official Delivery Nodes Normalize Router InputSpool Settings Cleanup Lifecycle RemoteInputs RemoteWorker Reachable RemoteSafety CallbackWorker OfficialWorker OfficialSafety DeliveryWorker CleanupWorker Samples.

Ltac by_eval := vm_compute; reflexivity.

(** ** The URL guard *)

(** The host has one public address, and it answers. *)
Definition public_host (X : Type) (c : NetE X) : X :=
  match c with
  | LookupNetIP _ => Some [Addr4 134744072]
  | Dial _ _ => true
  | RoundTrip _ => inr (mkResponse 200 None)
  end.

Lemma dialContext_safe_witness :
  Forall (connects_safely ["443"] "example.com" "443")
    (map fst (run public_host (env_at 0 "a") (dialContext ["443"] "example.com" "443") empty_DB).2).
Proof.
  destruct (run public_host (env_at 0 "a") (dialContext ["443"] "example.com" "443") empty_DB)
    as [[r db'] tr] eqn:E.
  exact (dialContext_safe ["443"] "example.com" "443" empty_DB (map fst tr) r db' (run_plays _ _ _ _ _ _ _ E)).
Defined.

Definition any_url (raw : string) : option URL :=
  Some (mkURL "https" "" false "example.com" "example.com" "" "/" "/" "" "" "" false).

(** A server that redirects every request. *)
Definition redirecting (X : Type) (c : NetE X) : X :=
  match c with
  | LookupNetIP _ => Some [Addr4 134744072]
  | Dial _ _ => true
  | RoundTrip _ => inr (mkResponse 302 (Some "https://example.com/next"))
  end.

Lemma Do_terminates_witness :
  requests (map fst (run redirecting (env_at 0 "a")
    (Do any_url ["443"] 3 "https://example.com") empty_DB).2) = 4 ∧
  (run redirecting (env_at 0 "a") (Do any_url ["443"] 3 "https://example.com") empty_DB).1.1 ≠ None.
Proof.
  split; [by_eval|].
  destruct (run redirecting (env_at 0 "a") (Do any_url ["443"] 3 "https://example.com") empty_DB)
    as [[r db'] tr] eqn:E.
  exact (proj1 (Do_terminates any_url ["443"] 3 "https://example.com" empty_DB (map fst tr) r db'
    (run_plays _ _ _ _ _ _ _ E))).
Defined.

(** An endless body read through a limit of two bytes. *)
Definition endless (k : nat) (want : Z) : list Ascii.ascii * option read_error :=
  (replicate (Z.to_nat want) (Ascii.ascii_of_nat 65), None).

Lemma read_all_bounded_witness :
  Z.of_nat (length (read_all endless [1; 1; 1] 0 (mkBounded 2 false)).1) ≤ 2.
Proof.
  destruct (read_all endless [1; 1; 1] 0 (mkBounded 2 false)) as [bs err] eqn:E.
  exact (proj1 (read_all_bounded endless [1; 1; 1] 2 bs err ltac:(lia) E)).
Defined.

(** ** The workers *)

(** A TK2SD service that accepts the task and reports it running. *)
Definition accepting (X : Type) (c : RemoteE X) : X :=
  match c with
  | Upload _ _ _ _ => mkOutcome (inl (mkTkError None false)) 0 "" true None
  | Submit _ _ _ _ => inr "up-1"
  | Query _ => inr (mkTK2SDTask "up-1" "seed" "running" "" None)
  | Cancel _ => inr tt
  | GetMetadata _ => inl (mkTkError None false)
  | Admission => None
  | OpenLocal _ _ => RootFailed
  | Get _ _ => None
  | Peek => None
  | Net n => public_host _ n
  end.

Definition remote_processor : RemoteWorker.Processor :=
  RemoteWorker.mkProcessor options "rem" 2 None 2 false (60 * Second) Second ["443"] "/spool".

#[local] Abbreviation remote_pass task := (RemoteWorker.ProcessTask any_url (λ _, None) String.eqb (λ _, true)
  (λ _, 10) (λ _ _ _, "{}") (λ _, Some "seed") (λ _, "") (λ _, None) (λ _ _ _, "") (λ _, "day")
  remote_processor task).

(** The first submission of a trace. *)
Fixpoint submission (tr : list (event RemoteE * DB)) : option (string * string * string * string * DB) :=
  match tr with
  | [] => None
  | (existT _ (Submit task node body key), db) :: _ => Some (task, node, body, key, db)
  | _ :: tr => submission tr
  end.
Lemma submission_elem tr task node body key db :
  submission tr = Some (task, node, body, key, db) → (existT _ (Submit task node body key), db) ∈ tr.
Proof.
  induction tr as [|[[X c] d] tr IH]; [done|]. simpl.
  destruct c; try (intros H; right; by apply IH). injection 1 as -> -> -> -> ->. left.
Qed.

Lemma submissions_agree_witness :
  ∃ task body key db, task ∈ db_video_tasks remote_5 ∧
    (existT _ (Submit "t1" "rem" body key), db) ∈
      (run accepting (env_at 105000 "f") (remote_pass task ≫= λ _, mret tt) remote_5).2 ∧
    submittable "t1" "rem" body key db.
Proof.
  assert (∃ task, head (db_video_tasks remote_5) = Some task ∧
    (λ s, (s.1.1.1.1, s.1.1.1.2)) <$> submission
      (run accepting (env_at 105000 "f") (remote_pass task ≫= λ _, mret tt) remote_5).2 = Some ("t1", "rem"))
    as (task & Ht & Hs).
  { destruct (head (db_video_tasks remote_5)) as [task|] eqn:E; [|vm_compute in E; discriminate].
    exists task. split; [reflexivity|]. vm_compute in E. injection E as <-. by_eval. }
  destruct (run accepting (env_at 105000 "f") (remote_pass task ≫= λ _, mret tt) remote_5)
    as [[u db'] tr] eqn:E. cbn [fst snd] in *.
  destruct (submission tr) as [[[[[t n] body] key] db]|] eqn:Esub; [|discriminate].
  injection Hs as -> ->. apply submission_elem in Esub.
  exists task, body, key, db. split; [by apply head_Some_elem_of|]. rewrite E. split; [exact Esub|].
  refine (proj1 (submissions_agree any_url (λ _, None) String.eqb (λ _, true)
    (λ _, 10) (λ _ _ _, "{}") (λ _, Some "seed") (λ _, "") (λ _, None) (λ _ _ _, "") (λ _, "day")
    "t1" remote_5 (mkConfig [Ret u] db' tr) (history_wf _ _ remote_5_reachable empty_wf)
    (run_reachable _ _ _ accepting (env_at 105000 "f") _ _ _ _ _ I (remote_ProcessTask _ _ _ _ _ _ _ _ _ _ _ _ task) E) "rem" body key db Esub)).
Defined.

(** An official service that has no tasks, accepts one and reports it done. *)
Definition official_service (X : Type) (c : OfficialE X) : X :=
  match c with
  | V2Submit _ _ => inr "up-1"
  | V2Query _ => inr (mkV2Task "up-1" "succeeded" "https://origin/video" "768P" 6 "16:9" 0 None)
  | V2List => inr []
  | RestoreInputs _ body => inr body
  end.

Definition official_processor : OfficialWorker.Processor :=
  OfficialWorker.mkProcessor options "off" 1 2 false.

#[local] Abbreviation official_pass task := (OfficialWorker.ProcessTask String.eqb (λ _, "day") 0
  official_processor task ≫= λ _, mret tt).

Lemma official_submits_once_witness :
  ∃ task, head (db_video_tasks official_3) = Some task ∧
    let tr := (run official_service (env_at 103000 "d") (official_pass task) official_3).2 in
    spent (submits "t1") tr = 1%nat ∧ (spent (submits "t1") tr ≤ 1)%nat.
Proof.
  assert (∃ task, head (db_video_tasks official_3) = Some task ∧ vt_task_id task = "t1" ∧
    spent (submits "t1") (run official_service (env_at 103000 "d") (official_pass task) official_3).2 = 1%nat)
    as (task & Ht & Hid & Hs).
  { destruct (head (db_video_tasks official_3)) as [task|] eqn:E; [|vm_compute in E; discriminate].
    exists task. split; [reflexivity|]. vm_compute in E. injection E as <-. split; by_eval. }
  exists task. split; [exact Ht|]. cbv zeta. split; [exact Hs|]. clear Hs.
  destruct (run official_service (env_at 103000 "d") (official_pass task) official_3)
    as [[u db'] tr] eqn:E. cbn [snd].
  apply (official_submits_once String.eqb (λ _, "day") "t1" official_3 db' tr).
  - exact (history_wf _ _ official_3_reachable empty_wf).
  - apply (passes_one String.eqb (λ _, "day") "t1" official_3 official_3 [] 0 official_processor task
      (mkConfig [Ret u] db' tr)); [constructor|by apply head_Some_elem_of|exact Hid|].
    exact (run_steps _ _ _ official_service (env_at 103000 "d") _ _ _ _ _ [] I E).
Defined.

(** A public host that serves the result, and an object storage. *)
Definition storage : ObjectStorageConfig :=
  mkObjectStorage "ucloud-us3" "bucket" "https://host" "https://public" false "c" "n" "f" "c" "n" "f" 60000
    "untested" None 1 0 0.
Definition official_6 : DB := (PutObjectStorageConfig (env_at 104000 "e") 0 storage official_4).2.

Definition serving (X : Type) (c : DeliveryE X) : X :=
  match c with
  | LookupIPAddr _ => Some [Addr4 134744072]
  | DialIP _ _ => true
  | Fetch _ _ => inr (mkVideo 200 None "video/mp4" 10)
  | SaveBody _ _ => inr 10
  | ResolveNode _ => inl plain
  | FetchVideo _ _ _ => inl plain
  | CopyVideo _ _ => None
  | RenameVideo _ => false
  | CreateTemp => Some "/tmp/video"
  | Remove _ => tt
  | NewStore _ _ _ => inr tt
  | UploadFile _ _ => inr "https://public/objects/t1"
  end.

#[local] Abbreviation delivery_pass := (DeliveryWorker.ProcessOne any_url (λ _ _, Some "key")
  (DeliveryWorker.mkWorker true 0 0) ≫= λ _, mret tt).


(** ** Notifications *)

Definition callback_worker : CallbackWorker.Worker := CallbackWorker.mkWorker 3 0 0 0.

(** A receiver that is down. *)
Definition silent (X : Type) (c : CallbackE X) : X :=
  match c with Post _ => Failed | PostChallenge _ _ => Failed | RandomChallenge => None end.

Lemma backoff_exact_witness :
  backoff callback_worker 4 = Some (Z.min (300 * Second) (8 * Second)).
Proof. exact (backoff_exact callback_worker 4 ltac:(by_eval) ltac:(by_eval) ltac:(lia)). Defined.

Definition rounds (n : nat) : list (Env * ∀ X, CallbackE X → X) :=
  map (λ k, (env_at (103000 + 400000 * Z.of_nat k) "r", silent)) (seq 0 n).


Lemma undecryptable_never_settles_witness :
  ∃ d t, (ClaimCallback_raw 103000 133000 legacy_2).1 = inr (d, t) ∧
    ∃ x, x ∈ db_callback_deliveries (run silent (env_at 103000 "d")
      (CallbackWorker.ProcessOne any_url (λ _ _, "") (λ _ _, None) (λ _, None) 0 callback_worker) legacy_2).1.2 ∧
      cd_id x = cd_id d ∧ settled x = false.
Proof.
  destruct ((ClaimCallback_raw 103000 133000 legacy_2).1) as [err|[d t]] eqn:E;
    [vm_compute in E; discriminate|].
  exists d, t. split; [reflexivity|].
  pose proof (undecryptable_never_settles any_url (λ _ _, "") (λ _ _, None) (λ _, None) 0 callback_worker
    silent (env_at 103000 "d") legacy_2 d t ltac:(by_eval) E eq_refl) as H.
  destruct (run silent _ _ _) as [[r db'] tr]. destruct H as (_ & _ & x & H1 & H2 & H3 & _).
  exists x. split; [exact H1|]. split; [exact H2|exact H3].
Defined.

(** ** Keys *)

(** A digest that separates tokens. *)
Definition digesting : Env :=
  mkEnv 100000 (λ k, "id") (λ s, String.substring 0 64 (String.append s (String.concat "" (replicate 64 "0")))) (λ _ _, "") (λ _, true) (λ _, true).

(** The change was made and the snapshot reloaded. *)
Definition completed {A} (r : (error + A) * DB * option snapshot) : bool :=
  match r with (inr _, _, Some _) => true | _ => false end.

Definition keyed : DB := (Service_Create String.eqb digesting "00112233" "aa" "first" empty_DB).1.2.

Lemma Service_Create_roundtrip_witness :
  ∃ k key db' s, Service_Create String.eqb digesting "44556677" "bb" "second" keyed =
      (inr (k, key), db', Some s) ∧ Authenticate digesting s key = Some (ak_ID k).
Proof.
  assert (completed (Service_Create String.eqb digesting "44556677" "bb" "second" keyed) = true) as Hc by by_eval.
  destruct (Service_Create String.eqb digesting "44556677" "bb" "second" keyed)
    as [[[err|[k key]] db'] [s|]] eqn:E; try discriminate Hc.
  exists k, key, db', s. split; [reflexivity|].
  exact (proj1 (Service_Create_roundtrip String.eqb digesting "44556677" "bb" "second" keyed k key db' s
    ltac:(by_eval) E)).
Defined.

Lemma Authenticate_exact_witness :
  Authenticate digesting (Reload keyed) "mmx_00112233" = Some "key_aa" ∧
  ∃ k, k ∈ db_api_keys keyed ∧ ak_ID k = "key_aa" ∧ ak_Enabled k = true.
Proof.
  assert (Authenticate digesting (Reload keyed) "mmx_00112233" = Some "key_aa") as H by by_eval.
  split; [exact H|].
  destruct (proj1 (Authenticate_exact digesting keyed "mmx_00112233" "key_aa" ltac:(by_eval)) H)
    as (_ & k & H1 & H2 & _ & H3).
  exists k. split; [exact H1|]. split; [exact H2|exact H3].
Defined.

Lemma revoked_key_rejected_witness :
  ∃ r db' s, Service_Update String.eqb digesting "key_aa" 1 "first" false keyed = (inr r, db', Some s) ∧
    Authenticate digesting s "mmx_00112233" ≠ Some "key_aa".
Proof.
  assert (completed (Service_Update String.eqb digesting "key_aa" 1 "first" false keyed) = true) as Hc by by_eval.
  destruct (Service_Update String.eqb digesting "key_aa" 1 "first" false keyed)
    as [[[err|r] db'] [s|]] eqn:E; try discriminate Hc.
  exists r, db', s. split; [reflexivity|].
  exact (revoked_key_rejected String.eqb digesting "key_aa" 1 "first" keyed r db' s digesting "mmx_00112233"
    ltac:(by_eval) (or_introl E)).
Defined.

(** ** Cleanup *)

(** A failed task with one copy, previewed two days later. *)
Definition later : Env := env_at 200000000 "00000000-0000-0000-0000-000000000000".
Definition secret : string := String.concat "" (replicate 64 "1").
Definition stored_1 : DB := (CreateArtifact (env_at 104000 "e")
  (mkArtifact "art" "t1" None "final_video" 10 (Some "d") None "" 0 900000 None) legacy_4).2.
Definition stored_2 : DB := (CreateArtifactLocation (env_at 104000 "e")
  (mkLocation "loc" "art" "gradio" "na" None "" true 10 "d" 0 None None) stored_1).2.
Definition previewed : DB := (PreviewArtifactCleanup later secret 1 "admin" stored_2).2.
Definition preview_token : string :=
  String.concat "." ["00000000-0000-0000-0000-000000000000"; secret].

Lemma ConfirmArtifactCleanup_once_witness :
  ∃ job db', ConfirmArtifactCleanup later preview_token "DELETE 1 ARTIFACTS" previewed = (inr job, db') ∧
    (∃ i, i ∈ db_deletion_items db' ∧ di_location_id i = "loc") ∧
    ConfirmArtifactCleanup later preview_token "" db' = (inl ErrCleanupPreviewStale, db').
Proof.
  destruct (ConfirmArtifactCleanup later preview_token "DELETE 1 ARTIFACTS" previewed) as [[err|job] db'] eqn:E;
    [vm_compute in E; discriminate|].
  exists job, db'. split; [reflexivity|].
  assert (db_deletion_items previewed = []) as Hnone by by_eval.
  destruct (ConfirmArtifactCleanup_once later preview_token "DELETE 1 ARTIFACTS" previewed job db'
    ltac:(by_eval) ltac:(by_eval) ltac:(intros i j Hi; rewrite Hnone in Hi; inversion Hi) E)
    as (j & cutoff & Hj & _ & _ & Ecut & _ & _ & Hq & _ & Honce).
  split; [|exact (Honce later "")].
  assert (∃ c, c ∈ cleanupCandidates cutoff previewed ∧ al_id (cc_location c) = "loc") as (c & Hc & El).
  { assert (forallb (λ j, coalesce_int (dj_cutoff_at j) =? 113600000) (db_deletion_jobs previewed) = true)
      as Em by by_eval.
    rewrite forallb_forall in Em. apply list_elem_of_In, Em in Hj. apply Z.eqb_eq in Hj. rewrite Ecut in Hj.
    subst cutoff.
    destruct (cleanupCandidates 113600000 previewed) as [|c cs] eqn:Ec; [vm_compute in Ec; discriminate|].
    exists c. split; [left|]. vm_compute in Ec. injection Ec as <- _. reflexivity. }
  destruct (Hq c Hc) as (i & Hi & _ & _ & Hl & _). exists i. split; [exact Hi|]. rewrite Hl. exact El.
Defined.

(** A copy on an H3 node that is queued for deletion. *)
Definition doomed_1 : DB := (CreateArtifact (env_at 104000 "e")
  (mkArtifact "art" "t1" None "final_video" 10 (Some "d") None "" 0 900000 None) h3_5).2.
Definition doomed_2 : DB := (CreateArtifactLocation (env_at 104000 "e")
  (mkLocation "loc" "art" "h3" "na" None "" true 10 "d" 0 None None) doomed_1).2.
Definition doomed_3 : DB :=
  (RequestTaskDeletion (env_at 106000 "g") "t1" "task_delete" "key" doomed_2).2.
Definition deleting : ∀ X, CleanupE X → X := λ X c,
  match c with DeleteArtifacts _ _ _ _ _ ids => inr (map (λ a, mkDeleteItem a "deleted" 10) ids) end.

Lemma doomed_3_reachable : reachable doomed_3.
Proof.
  reach doomed_3 step_RequestTaskDeletion. reach doomed_2 step_CreateArtifactLocation.
  reach doomed_1 step_CreateArtifact. apply h3_5_reachable.
Qed.

