(* ===== verification/NodeWitnesses.v ===== *)
(** * The theorems on nodes, artifacts and the configuration at concrete inputs *)

From stdpp Require Import relations.
From Stdlib Require Import SpecFloat.
From S2P Require Import Prelude Domain Tx Database Sql Workers Counting GoStrings GoFloat GoNet GoHttp Mediagate Netguard Monitor Catalog Paging TaskRouting Callbacks Queue Stages Artifacts Remote Tasks Official Delivery Nodes Config NodeAPI ArtifactService Normalize Router InputSpool Gradio LegacyWorker StageInputs Orchestrator Settings Cleanup Lifecycle Reachable StageHistory OrchestratorSafety LegacySafety Samples.

Ltac by_eval := vm_compute; reflexivity.

(** ** The media gate *)

Definition float_of (s : string) : option float64 :=
  if s ≟ "25" then Some (of_int 25) else if s ≟ "1" then Some (of_int 1) else None.
Definition manifest : Manifest :=
  mkManifest 64 64 (of_int 0) (of_int 4) "25/1" 100 true false (of_int 0) (of_int 0).
#[local] Abbreviation gate := (Mediagate.Validate float_of (λ _, 0) (λ _, Some manifest)
  (λ _, Some (64, 64, of_int 4)) (λ _, None) (λ _, "")).

Lemma Validate_generation_witness :
  gate "generation" "" "" = inr tt ∧
  ∃ m w h duration, Some manifest = Some m ∧ Some (64, 64, of_int 4) = Some (w, h, duration) ∧
    mf_Width m = w ∧ mf_Height m = h.
Proof.
  split; [by_eval|].
  destruct (Validate_generation float_of (λ _, 0) (λ _, Some manifest)
    (λ _, Some (64, 64, of_int 4)) (λ _, None) (λ _, "") "" "" (λ _, eq_refl) ltac:(by_eval))
    as (m & w & h & duration & expected & H1 & H2 & H3 & H4 & _).
  exists m, w, h, duration. split_and!; assumption.
Defined.

(** ** The configuration *)

Definition node_url (raw : string) : option URL :=
  Some (mkURL "https" "" false "node.example" "node.example" "" "" "" "" "" "" false).
Definition full_url (u : URL) : string := String.concat "" [url_Scheme u; "://"; url_Host u; url_Path u].

Definition h3_input : ModelNodeInput := (node_input "h3" ProtocolH3 true) <| ni_MaxConcurrency := 1 |>.

Lemma NormalizeModelNode_sound_witness :
  ∃ n u, NormalizeModelNode node_url (λ p _, p) full_url String.eqb h3_input = inr (n, u) ∧
    ni_ID n = "h3" ∧ ValidModelNodeID (ni_ID n) = true.
Proof.
  destruct (NormalizeModelNode node_url (λ p _, p) full_url String.eqb h3_input)
    as [err|[n u]] eqn:E; [vm_compute in E; discriminate|].
  exists n, u. split; [reflexivity|].
  destruct (NormalizeModelNode_sound _ _ _ _ _ _ _ E) as (H1 & _ & H2 & _). split; [exact H1|exact H2].
Defined.

Definition raw_config : rawConfig :=
  mkRaw "" "" "" None None None None None "data/proxy.db" None None None "" "" "" [] [] ∅.

Lemma Load_sound_witness :
  ∃ cfg, Load (λ _, None) (λ s, s) (λ _, inr tt) raw_config = inr cfg ∧
    0 < cf_PerKeyUnfinishedLimit cfg ≤ cf_GlobalUnfinishedLimit cfg.
Proof.
  destruct (Load (λ _, None) (λ s, s) (λ _, inr tt) raw_config) as [err|cfg] eqn:E;
    [vm_compute in E; discriminate|].
  exists cfg. split; [reflexivity|]. exact (proj2 (ok_queue _ (Load_sound _ _ _ _ _ E))).
Defined.

(** ** Downloads *)

Definition digest : string := String.concat "" (replicate 64 "1").
Definition single_1 : DB := (Create (env_at 101000 "b") options
  (new_task ProtocolH3 "t1" "MiniMax-H3" false [mkNewTaskStage "t1-s0" "generation" "{}" 0 3]) "" true h3_1).2.
Definition single_2 : DB := (ClaimStage (env_at 102000 "c") "h3" "lease" (60 * Second) single_1).2.
Definition single_3 : DB := (CreateStageAttempt (env_at 103000 "d") options
  (mkStageAttempt "a1" "t1-s0" 1 "op1" "h3" None AtDispatching None None None None None 0 None None)
  "lease" single_2).2.
Definition single_4 : DB := (BindStageExecution (env_at 104000 "e") "t1-s0" "lease" "a1" "x1" single_3).2.
Definition finished : (error + string) * DB := CompleteStageWithOutput (env_at 105000 "f")
  "t1" "t1-s0" "lease" "a1" "h3" "art" 10 digest "{}" single_4.
Definition result_id : string := match finished.1 with inr id => id | inl _ => "" end.

Definition artifact_service : Service := mkService "key" (900 * Second) 1024.
Definition node_content (X : Type) (c : NodeE X) : X :=
  match c with
  | NodeDo _ _ => inr (mkHttpResponse 200 10 "" "video/mp4" "" "" None)
  | NodeStream _ _ => (inl "", (0, ""))
  end.
Definition allowing (X : Type) (c : ArtifactE X) : X :=
  match c with
  | ArtifactNode c => node_content _ c
  | Acquire _ _ => true
  | Release _ _ => tt
  end.
Definition as_owner : Authorization := mkAuthorization "key" 0 "" "GET".
#[local] Abbreviation open_result := (Open node_url (λ p _, p) full_url String.eqb (λ _ _, "") (λ s, s)
  (λ _, Some "key") (λ _, true) (λ _, None) artifact_service "rid" result_id "" as_owner).

Lemma Open_guarded_witness :
  ∃ artifact location task, GetArtifactAccess result_id finished.2 = inr (artifact, location, task) ∧
    vt_status task = StatusSucceeded ∧ ta_kind artifact = "final_video".
Proof.
  destruct (run allowing (env_at 106000 "g") open_result finished.2) as [[r db'] tr] eqn:E.
  assert (map fst tr ≠ []) as Hne.
  { intros Htr. apply (f_equal (λ x, length x.2)) in E. cbn [snd] in E.
    assert (length tr = 0%nat) as El by (by rewrite <-(length_map fst), Htr). rewrite El in E.
    vm_compute in E. discriminate. }
  destruct (Open_guarded node_url (λ p _, p) full_url String.eqb (λ _ _, "") (λ s, s)
    (λ _, Some "key") (λ _, true) (λ _, None) artifact_service "rid" result_id "" as_owner finished.2
    (map fst tr) r db' (run_plays _ _ _ _ _ _ _ E) Hne) as (_ & a & l & t & H1 & H2 & _ & H3 & _).
  exists a, l, t. split_and!; assumption.
Defined.

Lemma downloads_bounded_slots_witness :
  0 ≤ active_of ∅ "key" ≤ Z.max 0 2.
Proof.
  exact (proj1 (downloads_bounded_slots node_url (λ p _, p) full_url String.eqb (λ _ _, "") (λ s, s)
    (λ _, Some "key") (λ _, true) (λ _, None) artifact_service (λ _, 2)
    (mkDownloads [download node_url (λ p _, p) full_url String.eqb (λ _ _, "") (λ s, s)
      (λ _, Some "key") (λ _, true) (λ _, None) artifact_service "rid" "art" "" as_owner] (λ _, ∅))
    (rtc_once _ _ (download_starts _ _ _ _ _ _ _ _ _ _ _ "rid" "art" "" as_owner [] (λ _, ∅)))) OwnerLimiter "key").
Defined.

(** ** The orchestrator *)

(** A text of requests that keeps their operations. *)
Definition request_text (r : ExecutionRequest) : option string := Some (String.append "#" (er_OperationID r)).
Definition request_of_text (s : string) : option ExecutionRequest :=
  match s with
  | EmptyString => None
  | String _ op => Some (mkExecutionRequest op "" "" "" [] "" (mkExpected None false false))
  end.
Definition externals : Externals := mkExternals node_url (λ p _, p) full_url String.eqb (λ _, true)
  (λ _, None) (λ s, s) (λ _, Some "key") Some request_text request_of_text
  (λ _, inr (mkHealth "healthy" ProtocolVersion None)) (λ _, inr (mkReference "x1" "queued" ""))
  (λ _, inr (mkExecution "x1" "" "running" "" None)) (λ _, inl BadJson) (λ _, None)
  (λ _, Some (mkStageSnapshot "{}" None (mkExpected None false false))) (λ _, None) (λ _, "null")
  float_of (λ _, 0) (λ _, Some manifest) (λ _, Some (64, 64, of_int 4)) (λ _, None) (λ _, "") (λ _, "") (λ _, "").

Lemma externals_canonical : canonical_requests externals.
Proof.
  intros r text [= <-]. split; [done|]. eexists. split; [reflexivity|reflexivity].
Defined.

Definition h3_worker : Processor := mkOrchestrator options
  (NewClient "h3" (mkURL "https" "" false "node.example" "node.example" "" "" "" "" "" "" false) "key" 1024)
  "h3" None None (60 * Second) Second.

(** A node that answers every request. *)
Definition node_answers (X : Type) (c : OrchE X) : X :=
  match c with
  | OnNode _ c => match c with
                  | NodeDo _ _ => inr (mkHttpResponse 200 2 "" "" "" "{}" None)
                  | NodeStream _ _ => (inl "", (0, ""))
                  end
  | OnArtifact c => allowing _ c
  | OnNet n => match n with
               | LookupNetIP _ => None
               | Dial _ _ => false
               | RoundTrip _ => inl ErrNetwork
               end
  | CreateTemp => false
  | FetchURL _ => None
  | WriteTemp _ => false
  | CopyTemp _ => None
  | SeekTemp => false
  | OpenSpool _ => None
  | CloseFile => true
  | RemoveFile => Removed
  end.

(** The first execution that a trace asks for. *)
Fixpoint asked (tr : list (event OrchE * DB)) : option (string * string * http_request * string * DB) :=
  match tr with
  | [] => None
  | (existT _ (OnNode task (NodeDo node r)), db) :: tr =>
      match hq_Body r with JsonBody text => Some (task, node, r, text, db) | _ => asked tr end
  | _ :: tr => asked tr
  end.
Lemma asked_elem tr task node r text db :
  asked tr = Some (task, node, r, text, db) →
  (existT _ (OnNode task (NodeDo node r)), db) ∈ tr ∧ hq_Body r = JsonBody text.
Proof.
  induction tr as [|[[X c] d] tr IH]; [done|]. cbn [asked].
  destruct c as [t X [n q|n q]| | | | | | | | | |];
    try (intros [??]%IH; split; [by right|done]).
  destruct (hq_Body q) eqn:E; try (intros [??]%IH; split; [by right|done]).
  intros [= -> -> -> -> ->]. split; [left|done].
Qed.

Lemma h3_2_reachable : reachable h3_2.
Proof. reach h3_2 step_Create. reach h3_1 step_CreateModelNode. apply rtc_refl. Qed.
Lemma h3_2_barriers : barriers_match "t1" h3_2.
Proof.
  assert (db_barriers h3_2 = []) as E by by_eval. intros b Hb. rewrite E in Hb.
  by apply not_elem_of_nil in Hb.
Qed.

#[local] Abbreviation h3_pass := (ProcessOne externals 3 h3_worker ≫= λ _, mret tt).

Lemma executions_recorded_witness :
  ∃ r text db, (existT _ (OnNode "t1" (NodeDo "h3" r)), db) ∈
      (run node_answers (env_at 102000 "c") h3_pass h3_2).2 ∧
    recorded externals "t1" "h3" (hq_IdempotencyKey r) text db.
Proof.
  assert ((λ s, (s.1.1.1.1, s.1.1.1.2)) <$>
    asked (run node_answers (env_at 102000 "c") h3_pass h3_2).2 = Some ("t1", "h3")) as Hs by by_eval.
  destruct (run node_answers (env_at 102000 "c") h3_pass h3_2) as [[u db'] tr] eqn:E. cbn [fst snd] in *.
  destruct (asked tr) as [[[[[t n] r] text] db]|] eqn:Ea; [|discriminate]. injection Hs as -> ->.
  apply asked_elem in Ea as [Hin Eb]. exists r, text, db. split; [exact Hin|].
  refine (proj1 (executions_recorded externals "t1" h3_2 (mkConfig [Ret u] db' tr) externals_canonical
    (history_wf _ _ h3_2_reachable empty_wf) h3_2_barriers
    (run_reachable _ _ _ node_answers (env_at 102000 "c") _ _ _ _ _ I
       (orchestrating_ProcessOne externals 3 h3_worker eq_refl) E) "h3" r text db Hin Eb)).
Defined.

(** ** Legacy nodes *)

Definition gradio_url : URL := mkURL "http" "" false "gradio" "gradio" "" "" "" "" "" "" false.

(** A node that takes every task, loses it and reports itself idle. *)
Definition idle_state : list any := [AnyList []; AnyString "idle"; AnyNumber (of_int 0)].
Definition losing_node : GradioExternals :=
  mkGradioExternals (λ _, None) (λ p _, p) url_Path String.eqb id (λ _, true) (λ _, Some "{}")
    (λ _, Some "event") (λ _, Some idle_state) (λ _, Some []) (λ _, None) (λ _, None) (λ _, None)
    (λ _, None) (λ _, 0) (λ _, None) (λ _ _ _, None) (λ _, None) (λ _, true).
Definition losing_http (X : Type) (c : HttpE X) : X :=
  match c with
  | HttpDo _ => inr (mkHttpResponse 200 0 "" "" ""
      (String.append (String.append "event: complete" newline) "data: x") None)
  | HttpUpload _ _ => inl "refused"
  end.
Definition losing (X : Type) (c : LegacyE X) : X :=
  match c with
  | @OnGradio _ Y r => losing_http Y r
  | CacheUpdate _ _ => tt
  end.
Definition legacy_processor : LegacyWorker.Processor :=
  mkLegacy options (NewClientWithJobs gradio_url gradio_url 0) true false
    (mkUpstream "gradio" None ProtocolLegacy None None None "" "submit" "check" 0 0 "" 1 false)
    gradio_url gradio_url None true 0 0.
#[local] Abbreviation legacy_pass := (LegacyWorker.ProcessOne losing_node 1 legacy_processor ≫= λ _, mret tt).

Lemma legacy_submits_twice_witness :
  let tr := (run losing (env_at 103000 "d") legacy_pass legacy_2).2 in
  spent (LegacySafety.submits "t1") tr = 2%nat ∧ (spent (LegacySafety.submits "t1") tr ≤ 2)%nat.
Proof.
  cbv zeta. split; [by_eval|].
  destruct (run losing (env_at 103000 "d") legacy_pass legacy_2) as [[u db'] tr] eqn:E. cbn [snd].
  apply (legacy_submits_twice losing_node "t1" legacy_2 db' tr).
  - exact (history_wf _ _ legacy_2_reachable empty_wf).
  - apply (legacy_passes_one losing_node "t1" legacy_2 legacy_2 [] 1 legacy_processor
      (mkConfig [Ret u] db' tr)); [constructor|].
    exact (run_steps _ _ _ losing (env_at 103000 "d") _ _ _ _ _ [] I E).
Defined.

Definition two_events : list (string * list string) := [("generating", ["null"]); ("complete", ["[1]"; "x"])].
Lemma decodeSSE_text_witness :
  sse_text two_events ≠ "" ∧ decodeSSE (λ _, Some [AnyNull]) 100 (sse_text two_events) None = inr [AnyNull].
Proof.
  split; [vm_compute; discriminate|].
  refine (eq_trans (decodeSSE_text (λ _, Some [AnyNull]) 100 two_events _ _) _).
  - repeat constructor.
  - vm_compute. discriminate.
  - reflexivity.
Defined.

Definition legacy_profile : GenerationProfile := mkGenProfile "" "" "" 24 false 0 ∅.
Lemma BuildArguments_exact_witness :
  match ValidateCreate (λ _, true) (request "MiniMax-H3") None with
  | inr v => BuildArguments v legacy_profile = Some (layout v legacy_profile [text_content])
  | inl _ => False
  end.
Proof.
  assert (match ValidateCreate (λ _, true) (request "MiniMax-H3") None with
          | inr v => gr_Content (vr_Request v) = [text_content] | inl _ => False end) as Hc by by_eval.
  destruct (ValidateCreate (λ _, true) (request "MiniMax-H3") None) as [err|v] eqn:E; [destruct Hc|].
  rewrite <-Hc. exact (proj1 (BuildArguments_exact (λ _, true) (request "MiniMax-H3") None v legacy_profile
    E (or_intror eq_refl))).
Defined.
