(* ===== verification/ClientWitnesses.v ===== *)
(** * The theorems on the API of the clients at concrete requests *)

From stdpp Require Import relations gmap.
From S2P Require Import Prelude Domain Tx Database Sql Workers GoStrings GoFloat GoNet GoHttp Netguard Catalog Paging TaskRouting Callbacks Queue Stages Artifacts Remote Tasks Official Delivery Nodes Config NodeAPI ArtifactService Normalize Router InputSpool Settings InputObjects Lifecycle Reachable RemoteInputs RemoteWorker ResultAccess CallbackWorker OfficialWorker ClientAPI ClientCreate ClientSafety ClientAccess Samples Witnesses WorkerWitnesses NodeWitnesses.

Ltac by_eval := vm_compute; reflexivity.

Definition plain_profile : ProfileConfig :=
  mkProfileConfig "" 8 "auto" "none" {["16:9" := mkRatioMapping 832 480 1664 960]} [] (mkPostProfile true "rife" 2)
    (mkPostProfile false "" 1).
Definition externals : ApiExternals :=
  mkApiExternals (λ _, true) node_url (λ p _, p) full_url (λ s, s) (λ s, s) (λ _, None) String.eqb
    (λ _, false) (λ _, false) (λ s, String.append "sha-" s) (λ s, Some (s, "")) (λ _, Some (request "seed"))
    (λ r, gr_Model r) (λ _, Some plain_profile) (λ _, "{}") (λ _, None) (λ _ _ _, "") (λ s, s) (λ s, Some s)
    (λ s, Some ("nonce", "cipher", s)) (λ _ s, Some s) (λ _, Some "key") (λ _ _, "") (λ s, s).

Definition tk2sd_handler : handler :=
  mkHandler options [] (Some (Reload keyed)) true None false false false None false false false false false.

Definition object_answer (X : Type) (c : ObjectE X) : X :=
  match c with NewObjectStore _ _ _ => true | UploadObject _ _ _ => None end.
Definition access_answer (X : Type) (c : AccessE X) : X :=
  match c with TakeSlot => false | ResolveClient _ => None
  | DownloadResult _ _ _ _ => inr 0 | OnRemote c => accepting _ c end.
Definition api_answer (X : Type) (c : ApiE X) : X :=
  match c with
  | OnCallback c => silent _ c
  | OnObject c => object_answer _ c
  | OnArtifact c => allowing _ c
  | OnAccess c => access_answer _ c
  | SpoolInputs _ _ => inl ErrUnmarshal
  | CleanSpool _ => tt
  | Healthy _ => true
  | IsAvailable => true
  | NumericID => Some 7
  | RandomHex _ => "aa"
  | RandomSeed => Some 5
  | Wake => tt
  end.

(** ** A retried request *)

Definition routed (d : Decision_) (v : ValidatedRequest) : NewTask :=
  routed_task "key" "t1" (requestDigest externals (vr_Request v) (rs_ProtocolVersion (dc_Snapshot d)))
    (with_resolution (gr_Resolution (vr_Request v)) (dc_Snapshot d)) v.
Definition validated_of (d : Decision_) : ValidatedRequest :=
  let n := dc_Normalized d in
  mkValidated (nr_Request n) (nr_Scenario n) (nr_Prompt n) 0 0 (nr_InputImageCount n).
#[local] Abbreviation decide_seed :=
  (Resolve (ax_media_url_ok externals) (sqlite_store remote_3) (λ _, true) 103 (request "seed")).


(** ** Access *)

Definition get_request (authorization : string) : ApiRequest :=
  mkApiRequest (RouteGet "t9") authorization "" "" "rid" [] "".
Definition keyed_get : ApiRequest := get_request "Bearer mmx_00112233".

Lemma serve_authenticated_witness :
  (run api_answer digesting (serve externals tk2sd_handler keyed_get) empty_DB).1.1 =
    ("rid", bad_request "invalid task_id (2001)") ∧
  ∃ token k, bearer (aq_Authorization keyed_get) = Some token ∧ k ∈ db_api_keys keyed ∧ Database.ak_Enabled k = true.
Proof.
  split; [by_eval|].
  destruct (run api_answer digesting (serve externals tk2sd_handler keyed_get) empty_DB) as [[[id a] db'] tr] eqn:E.
  destruct (serve_authenticated externals tk2sd_handler keyed keyed_get empty_DB (map fst tr) id a db'
    ltac:(by_eval) eq_refl (run_plays _ _ _ _ _ _ _ E)) as [[H _]|(token & k & e & tr' & H1 & H2 & H3 & _)].
  - vm_compute in E. injection E as _ <- _ _. discriminate H.
  - exists token, k. split_and!; assumption.
Defined.

Lemma foreign_task_hidden_witness :
  (run api_answer (env_at 110000 "e") (get externals tk2sd_handler "other" "t1") legacy_2).1.1 = invalid_task ∧
  (run api_answer (env_at 110000 "e") (get externals tk2sd_handler "other" "t1") legacy_2).2 = [].
Proof.
  split; [by_eval|].
  destruct (run api_answer (env_at 110000 "e") (get externals tk2sd_handler "other" "t1") legacy_2)
    as [[a db'] tr] eqn:E.
  destruct (foreign_task_hidden externals tk2sd_handler "other" "t1" legacy_2 (map fst tr) a db') as (H & _).
  - assert (Forall (λ t, vt_task_id t = "t1" → vt_owner t ≠ "other") (db_video_tasks legacy_2)) as Ht.
    { vm_compute. repeat constructor; intros _; discriminate. }
    intros t Hin. rewrite Forall_forall in Ht. by apply Ht.
  - left. exact (run_plays _ _ _ _ _ _ _ E).
  - destruct tr; [reflexivity|discriminate H].
Defined.

Definition post_request : ApiRequest := mkApiRequest RouteCreate "" "application/json" "" "rid" [] "{}".

Lemma create_announced_witness :
  ∃ t, t ∈ db_video_tasks (run api_answer (env_at 110000 "e") (create externals tk2sd_handler "key" post_request) remote_3).1.2 ∧
    vt_task_id t = "000000000000000007" ∧ vt_owner t = "key".
Proof.
  destruct (run api_answer (env_at 110000 "e") (create externals tk2sd_handler "key" post_request) remote_3)
    as [[a db'] tr] eqn:E.
  assert (a = mkApiResponse 200 (BodyCreated "000000000000000007")) as ->.
  { assert ((run api_answer (env_at 110000 "e") (create externals tk2sd_handler "key" post_request) remote_3).1.1 = a)
      as <- by (rewrite E; reflexivity). by_eval. }
  exact (create_announced externals tk2sd_handler "key" post_request remote_3 (map fst tr) "000000000000000007" db'
    (run_plays _ _ _ _ _ _ _ E)).
Defined.

Definition plain : ValidatedRequest := mkValidated (request "MiniMax-H3") "t2va" "a cat" 832 480 0.


(** A node that has the file. *)
Definition node_file (X : Type) (c : NodeE X) : X :=
  match c with
  | NodeDo _ _ => inr (mkHttpResponse 200 10 "" "video/mp4" (String.concat "" [String quote ""; digest; String quote ""]) "" None)
  | NodeStream _ _ => (inl "", (0, ""))
  end.
Definition streaming (X : Type) (c : ArtifactE X) : X :=
  match c with
  | ArtifactNode c => node_file _ c
  | Acquire _ _ => true
  | Release _ _ => tt
  end.

(** The key of the owner "key" of [finished]. *)
Definition owner_key : ExternalAPIKey := match db_api_keys keyed with k :: _ => k | [] => new_key 0 (mkAPIKeyInput "" "" "" "" "" "" true) end.
Definition owner_keys : DB := keyed <| db_api_keys := [owner_key <| Database.ak_ID := "key" |>] |>.
Definition owner_download : FileRequest := mkFileRequest "GET" result_id "Bearer mmx_00112233" "" [].
#[local] Abbreviation owner_content := (content externals (Some (Reload owner_keys)) [] (Some artifact_service)
  String.eqb (λ _, true) (λ _, None) owner_download).

Lemma content_guarded_witness :
  ∃ c artifact location task, fp_Body (run streaming digesting owner_content finished.2).1.1 = FileStream c ∧
    GetArtifactAccess result_id finished.2 = inr (artifact, location, task) ∧ vt_status task = StatusSucceeded ∧
    ct_ContentLength c = ta_size_bytes artifact.
Proof.
  destruct (run streaming digesting owner_content finished.2) as [[resp db'] tr] eqn:E.
  assert (∃ c, fp_Body resp = FileStream c) as [c Hc].
  { assert ((run streaming digesting owner_content finished.2).1.1 = resp) as <- by (rewrite E; reflexivity).
    eexists. by_eval. }
  destruct (content_guarded externals owner_keys artifact_service String.eqb (λ _, true) (λ _, None) owner_download
    finished.2 (map fst tr) resp db' c ltac:(by_eval) (run_plays _ _ _ _ _ _ _ E) Hc)
    as (_ & artifact & location & task & H1 & H2 & _ & H3 & _).
  exists c, artifact, location, task. split_and!; [exact Hc|exact H1|exact H2|exact (proj2 (H3 eq_refl))].
Defined.

(** ** Results on demand *)

Definition remote_10 : DB := (CompleteRemoteRun (env_at 109000 "j") leased_run completion remote_9).2.

Lemma Refresh_fresh_witness :
  ∃ t, db_video_tasks remote_10 = [t] ∧ vt_status t = StatusSucceeded ∧
    wp (λ e, 110 ≤ nowUnix e) (λ _ _ : DB, True) (λ _ (_ : AccessE _) _, True)
      (Refresh node_url (λ _, None) String.eqb (λ _ _ _, "") t)
      (λ (r : refreshed) _, r.2 = None → handed_out 110 r.1) remote_10.
Proof.
  destruct (db_video_tasks remote_10) as [|t [|u l]] eqn:E; [vm_compute in E; discriminate| |vm_compute in E; discriminate].
  assert (coalesce_str (vt_protocol_version t) = ProtocolTK2SD ∧ vt_status t = StatusSucceeded) as [Hp Hs].
  { vm_compute in E. injection E as <-. split; by_eval. }
  exists t. split; [reflexivity|]. split; [exact Hs|].
  exact (Refresh_fresh node_url (λ _, None) String.eqb (λ _ _ _, "") 110 t remote_10 Hp Hs).
Defined.
